(** * URL shortener: code allocation, redirect resolution, click recording
      and analytics

    A shallow embedding of the backend of the URL shortener
    (utils/short.js, utils/short1.js, utils/userAgent.js, utils/ip.js,
    models/Url.js, models/Click.js and the two variants of
    controllers/url.controller.js) together with the properties its
    specification states about it.

    Conventions of the embedding:
    - a JavaScript string is the list of its UTF-16 code units ([list N]);
    - [undefined], [null] and strings that reach the utilities are the
      values of [jsval];
    - the database is explicit state (three collections), every awaited
      storage call may reject, which an oracle of the world decides;
    - a request handler is a function from the world to a response and the
      world it leaves behind. *)

From Stdlib Require Import ZArith NArith Strings.String Strings.Ascii Lia.
From Stdlib Require Import Sorting.Sorted.
From stdpp Require Import base decidable option list numbers gmap.

Set Default Proof Using "Type".
Open Scope N_scope.

(* ===================================================================== *)
(** ** JavaScript strings *)
(* ===================================================================== *)

Module JsString.

Abbreviation jsstr := (list N).

(** Code units of a literal. *)
Definition js (s : string) : jsstr :=
  map N_of_ascii (list_ascii_of_string s).

(** [WhiteSpace] and [LineTerminator] of ECMAScript, the code units that
    [String.prototype.trim] strips. *)
Definition isWhiteSpace (c : N) : bool :=
  (c =? 9) || (c =? 10) || (c =? 11) || (c =? 12) || (c =? 13) ||
  (c =? 32) || (c =? 160) || (c =? 5760) ||
  ((8192 <=? c) && (c <=? 8202)) ||
  (c =? 8232) || (c =? 8233) || (c =? 8239) || (c =? 8287) ||
  (c =? 12288) || (c =? 65279).

Fixpoint trimStart (s : jsstr) : jsstr :=
  match s with
  | [] => []
  | c :: r => if isWhiteSpace c then trimStart r else s
  end.

Fixpoint trimEnd (s : jsstr) : jsstr :=
  match s with
  | [] => []
  | c :: r =>
      match trimEnd r with
      | [] => if isWhiteSpace c then [] else [c]
      | r' => c :: r'
      end
  end.

(** [s.trim()] *)
Definition trim (s : jsstr) : jsstr := trimEnd (trimStart s).

(** ASCII case folding: what the [i] flag of a regular expression without
    the [u] flag does to a pattern of ASCII characters (no code unit
    outside ASCII canonicalizes to an ASCII letter). *)
Definition foldAscii (c : N) : N :=
  if (65 <=? c) && (c <=? 90) then c + 32 else c.

(** [s.toLowerCase()], as far as ASCII needles can observe it: the code
    units whose lower case contains an ASCII letter are A-Z, the Kelvin
    sign (to k) and the dotted capital I (to i followed by U+0307). *)
Definition lowerUnit (c : N) : jsstr :=
  if (65 <=? c) && (c <=? 90) then [c + 32]
  else if c =? 8490 then [107]
  else if c =? 304 then [105; 775]
  else [c].

Definition toLowerCase (s : jsstr) : jsstr := concat (map lowerUnit s).

Fixpoint startsWith (p s : jsstr) : bool :=
  match p, s with
  | [], _ => true
  | a :: p', b :: s' => (a =? b) && startsWith p' s'
  | _ :: _, [] => false
  end.

(** Prefix test up to ASCII case, for patterns given in lower case. *)
Fixpoint startsWithCI (p s : jsstr) : bool :=
  match p, s with
  | [], _ => true
  | a :: p', b :: s' => (a =? foldAscii b) && startsWithCI p' s'
  | _ :: _, [] => false
  end.

(** [s.includes(p)] *)
Fixpoint includes (p s : jsstr) : bool :=
  startsWith p s ||
  match s with
  | [] => false
  | _ :: s' => includes p s'
  end.

(** [/p/i.test(s)] for a literal pattern [p] in lower case. *)
Fixpoint includesCI (p s : jsstr) : bool :=
  startsWithCI p s ||
  match s with
  | [] => false
  | _ :: s' => includesCI p s'
  end.

Definition isDigit (c : N) : bool := (48 <=? c) && (c <=? 57).
Definition isAlpha (c : N) : bool :=
  ((65 <=? c) && (c <=? 90)) || ((97 <=? c) && (c <=? 122)).
Definition isHex (c : N) : bool :=
  isDigit c || ((65 <=? c) && (c <=? 70)) || ((97 <=? c) && (c <=? 102)).

(** The character class [[a-zA-Z0-9_-]]. *)
Definition isCodeChar (c : N) : bool :=
  isAlpha c || isDigit c || (c =? 95) || (c =? 45).

(** [/^[a-zA-Z0-9_-]+$/.test(s)] *)
Definition matchesCodePattern (s : jsstr) : bool :=
  match s with
  | [] => false
  | _ => forallb isCodeChar s
  end.

Definition streq (a b : jsstr) : bool := bool_decide (a = b).

(** [s.split(sep)] for a one-unit separator. *)
Fixpoint split (sep : N) (s : jsstr) : list jsstr :=
  match s with
  | [] => [[]]
  | c :: r =>
      if c =? sep then [] :: split sep r
      else match split sep r with
           | [] => [[c]]
           | h :: t => (c :: h) :: t
           end
  end.

(** Values that reach the utilities: [undefined], [null] or a string. *)
Inductive jsval : Type :=
| JsUndefined
| JsNull
| JsStr (s : jsstr).

(** ToBoolean *)
Definition truthy (v : jsval) : bool :=
  match v with
  | JsStr (_ :: _) => true
  | _ => false
  end.

(** [v || d] for a string default. *)
Definition orStr (v : jsval) (d : jsstr) : jsstr :=
  match v with
  | JsStr (c :: r) => c :: r
  | _ => d
  end.

Definition startsClean (s : jsstr) : bool :=
  match s with
  | [] => true
  | c :: _ => negb (isWhiteSpace c)
  end.

End JsString.
Export JsString.

(* ===================================================================== *)
(** ** utils/short.js and utils/short1.js: pure part *)
(* ===================================================================== *)

(** [/^https?:\/\//i.test(url)] *)
Definition hasHttpScheme (url : jsstr) : bool :=
  startsWithCI (js "http://") url || startsWithCI (js "https://") url.

Module Short.

(** [normalizeUrl] of utils/short.js. *)
Definition normalizeUrl (url : jsval) : jsval :=
  if negb (truthy url) then url
  else match url with
       | JsStr s =>
           let url := trim s in
           let url := if negb (hasHttpScheme url)
                      then js "https://" ++ url else url in
           JsStr url
       | _ => url
       end.

End Short.

Module Short1.

(** [normalizeUrl] of utils/short1.js ([typeof url !== 'string'] holds
    of [undefined] and [null], which are falsy already). *)
Definition normalizeUrl (url : jsval) : jsval :=
  match url with
  | JsStr s =>
      if negb (truthy url) then url
      else
        let normalizedUrl := trim s in
        let normalizedUrl :=
          if negb (hasHttpScheme normalizedUrl)
          then js "https://" ++ normalizedUrl else normalizedUrl in
        JsStr normalizedUrl
  | _ => url
  end.

End Short1.

(** The string part of [normalizeUrl], which both modules share. *)
Definition normalized (s : jsstr) : jsstr :=
  if negb (hasHttpScheme (trim s)) then js "https://" ++ trim s else trim s.

(* ===================================================================== *)
(** ** Documents: models/Url.js, models/Click.js, the owner aggregate *)
(* ===================================================================== *)

(** An ObjectId. *)
Abbreviation oid := N.

(** A date, in milliseconds since the epoch. *)
Abbreviation date := Z.

Module Url.
Record t : Type := mk {
  _id : oid;
  originalUrl : jsstr;
  shortCode : jsstr;
  customAlias : option jsstr;
  user : option oid;
  title : option jsstr;
  description : option jsstr;
  clicks : Z;
  isActive : bool;
  expiresAt : option date;
  tags : list jsstr;
  lastClickedAt : option date;
  createdAt : date;
  updatedAt : date
}.

(** [urlSchema.methods.isExpired], at the instant [now]. *)
Definition isExpired (now : date) (this : t) : bool :=
  match expiresAt this with
  | None => false
  | Some e => (e <? now)%Z
  end.
End Url.

Module Click.
(** [browser] and [os] sub-documents. *)
Record agent : Type := mkAgent {
  name : option jsstr;
  version : option jsstr
}.

Record device_t : Type := mkDevice {
  type : option jsstr;
  brand : option jsstr;
  model : option jsstr
}.

(** A stored click. A dimension is [None] when the document carries no
    value for it. *)
Record t : Type := mk {
  _id : oid;
  url : oid;
  user : option oid;
  ipAddress : jsstr;
  userAgent : jsstr;
  referer : option jsstr;
  country : option jsstr;
  city : option jsstr;
  browser : agent;
  os : agent;
  device : device_t;
  timestamp : date
}.
End Click.

Module User.
(** Modelled from the spec: models/User.js is not among the sources. The
    owner aggregate holds the total link count and the total click count
    across the links of the user. *)
Record t : Type := mk {
  urlsCount : Z;
  totalClicks : Z
}.

(** [{ $inc: { urlsCount: a, totalClicks: b } }] *)
Definition inc (a b : Z) (u : t) : t :=
  {| urlsCount := (urlsCount u + a)%Z; totalClicks := (totalClicks u + b)%Z |}.
End User.

(* ===================================================================== *)
(** ** The world of a request *)
(* ===================================================================== *)

Inductive Error : Type :=
| Err (message : jsstr)            (* [new Error(message)] *)
| ValidationError (path : jsstr)   (* a schema validator of Mongoose *)
| DuplicateKey                     (* unique index of the store *)
| StorageError                     (* the storage call was rejected *)
| OutOfFuel.                       (* a loop of the model ran out of fuel *)

Inductive Res (A : Type) : Type :=
| Ok (a : A)
| Throw (e : Error).
Arguments Ok {A} a.
Arguments Throw {A} e.

(** The three collections. *)
Record Db : Type := mkDb {
  urls : list Url.t;
  clicks : list Click.t;
  users : gmap N User.t
}.

Record World : Type := mkWorld {
  db : Db;
  nextId : oid;            (* supply of fresh ObjectIds *)
  clock : date;            (* [new Date()], [Date.now()] *)
  entropy : nat → N;       (* the random source *)
  drawn : nat;             (* numbers drawn so far *)
  rejects : nat → bool;    (* which storage calls are rejected *)
  calls : nat;             (* storage calls made so far *)
  console : list (jsstr * Error)   (* what [console.error] was given *)
}.

Definition withDb (d : Db) (w : World) : World :=
  mkWorld d (nextId w) (clock w) (entropy w) (drawn w) (rejects w) (calls w)
    (console w).

(** A computation that reads and writes the world and returns or throws. *)
Definition M (A : Type) : Type := World → Res A * World.

Definition ret {A} (a : A) : M A := λ w, (Ok a, w).
Definition throw {A} (e : Error) : M A := λ w, (Throw e, w).
Definition bind {A B} (m : M A) (k : A → M B) : M B :=
  λ w, match m w with
       | (Ok a, w') => k a w'
       | (Throw e, w') => (Throw e, w')
       end.

(** [try { m } catch (error) { h error }] *)
Definition try {A} (m : M A) (h : Error → M A) : M A :=
  λ w, match m w with
       | (Ok a, w') => (Ok a, w')
       | (Throw e, w') => h e w'
       end.

#[global] Instance M_ret : MRet M := @ret.
#[global] Instance M_bind : MBind M := λ A B k m, bind m k.
#[global] Instance M_throw : MThrow Error M := @throw.

Definition now : M date := λ w, (Ok (clock w), w).

Definition freshId : M oid :=
  λ w, (Ok (nextId w),
        mkWorld (db w) (N.succ (nextId w)) (clock w) (entropy w) (drawn w)
          (rejects w) (calls w) (console w)).

(** One number of the random source. *)
Definition draw : M N :=
  λ w, (Ok (entropy w (drawn w)),
        mkWorld (db w) (nextId w) (clock w) (entropy w) (S (drawn w))
          (rejects w) (calls w) (console w)).

(** [console.error(text, err)] *)
Definition consoleError (text : jsstr) (err : Error) : M unit :=
  λ w, (Ok tt,
        mkWorld (db w) (nextId w) (clock w) (entropy w) (drawn w)
          (rejects w) (calls w) (console w ++ [(text, err)])).

(** The world after one more storage call. *)
Definition tick (w : World) : World :=
  mkWorld (db w) (nextId w) (clock w) (entropy w) (drawn w) (rejects w)
    (S (calls w)) (console w).

(** An awaited call to the store: the oracle decides whether the store
    rejects it (and then nothing is read or written); otherwise [op] runs on
    the collections. *)
Definition storage {A} (op : World → Res A * Db) : M A :=
  λ w,
    if rejects w (calls w) then (Throw StorageError, tick w)
    else let '(r, d) := op (tick w) in (r, withDb d (tick w)).

(** A store that rejects no call. *)
Definition healthy (w : World) : Prop := ∀ n, rejects w n = false.

Definition query {A} (f : Db → A) : M A :=
  storage (λ w, (Ok (f (db w)), db w)).

(* ===================================================================== *)
(** ** Requests *)
(* ===================================================================== *)

Record Body : Type := mkBody {
  body_originalUrl : jsval;
  body_customAlias : jsval;
  body_title : jsval;
  body_description : jsval;
  body_tags : option (list jsstr);     (* [None]: not an array *)
  body_expiresAt : jsval
}.

Record Query : Type := mkQuery {
  startDate : jsval;
  endDate : jsval;
  period : jsval
}.

Record Request : Type := mkRequest {
  headers : gmap jsstr jsstr;          (* [req.headers] *)
  remoteAddress : jsval;               (* [req.connection.remoteAddress] *)
  ip : jsval;                          (* [req.ip] *)
  param_shortCode : jsstr;             (* [req.params.shortCode] *)
  param_id : oid;                      (* [req.params.id] *)
  user : option oid;                   (* [req.user.id], set by the auth middleware *)
  body : Body;
  query_ : Query;
  protocol : jsstr;
  host : jsstr                         (* [req.get('host')] *)
}.

(** [req.headers[name]] *)
Definition header (req : Request) (name : string) : jsval :=
  match headers req !! js name with
  | Some v => JsStr v
  | None => JsUndefined
  end.

(* ===================================================================== *)
(** ** utils/ip.js *)
(* ===================================================================== *)

(** [a || b] *)
Definition orVal (a b : jsval) : jsval := if truthy a then a else b.

(** [getClientIP]. In Node [req.socket] is [req.connection], and a plain
    connection has no [socket] of its own. *)
Definition getClientIP (req : Request) : jsstr :=
  let forwarded := header req "x-forwarded-for" in
  let realIP := header req "x-real-ip" in
  let cfConnectingIP := header req "cf-connecting-ip" in
  match forwarded, realIP, cfConnectingIP with
  | JsStr (c :: r), _, _ => trim (hd [] (split 44 (c :: r)))
  | _, JsStr (c :: r), _ => c :: r
  | _, _, JsStr (c :: r) => c :: r
  | _, _, _ =>
      orStr (orVal (remoteAddress req)
               (orVal (remoteAddress req) (orVal JsNull (ip req))))
        (js "127.0.0.1")
  end.

Record Geolocation : Type := mkGeo {
  geo_country : jsstr;
  geo_city : jsstr;
  geo_region : jsstr;
  geo_timezone : jsstr
}.

(** [getGeolocation], the mock of the sources. *)
Definition getGeolocation (ip : jsstr) : Geolocation :=
  if streq ip (js "127.0.0.1") || streq ip (js "::1")
     || startsWith (js "192.168.") ip || startsWith (js "10.") ip
  then mkGeo (js "Local") (js "Local") (js "Local") (js "Local")
  else mkGeo (js "Unknown") (js "Unknown") (js "Unknown") (js "Unknown").

(* ===================================================================== *)
(** ** utils/userAgent.js *)
(* ===================================================================== *)

(** The maximal run of class [cls] at the head of [s]. *)
Fixpoint takeClass (cls : N → bool) (s : jsstr) : jsstr :=
  match s with
  | c :: r => if cls c then c :: takeClass cls r else []
  | [] => []
  end.

(** At the head of [s]: one of the literal [prefixes] (tried in order),
    followed by a run of [cls] that is not empty. *)
Fixpoint captureHere (prefixes : list jsstr) (cls : N → bool) (s : jsstr)
  : option jsstr :=
  match prefixes with
  | [] => None
  | p :: ps =>
      if startsWith p s then
        match takeClass cls (drop (length p) s) with
        | [] => captureHere ps cls s
        | v => Some v
        end
      else captureHere ps cls s
  end.

(** [ua.match(/(?:p1|p2)([cls]+)/)]: the capture of the leftmost match. *)
Fixpoint capture (prefixes : list jsstr) (cls : N → bool) (s : jsstr)
  : option jsstr :=
  match captureHere prefixes cls s with
  | Some v => Some v
  | None =>
      match s with
      | [] => None
      | _ :: r => capture prefixes cls r
      end
  end.

(** [extractVersion(ua, regex)] *)
Definition extractVersion (ua : jsstr) (prefixes : list jsstr)
    (cls : N → bool) : jsstr :=
  match capture prefixes cls ua with
  | Some (c :: r) => c :: r
  | _ => js "Unknown"
  end.

Definition isDigitDot (c : N) : bool := isDigit c || (c =? 46).
Definition isDigitUnderscore (c : N) : bool := isDigit c || (c =? 95).

(** [version.replace(/_/g, '.')] *)
Definition underscoresToDots (s : jsstr) : jsstr :=
  map (λ c, if c =? 95 then 46 else c) s.

Definition has (ua : jsstr) (needle : string) : bool := includes (js needle) ua.

Record NameVersion : Type := mkNV { nv_name : jsstr; nv_version : jsstr }.
Record DeviceInfo : Type := mkDI {
  di_type : jsstr; di_brand : jsstr; di_model : jsstr
}.
Record ParsedUA : Type := mkUA {
  ua_browser : NameVersion;
  ua_os : NameVersion;
  ua_device : DeviceInfo
}.

Definition parseBrowser (ua : jsstr) : NameVersion :=
  if has ua "chrome" && negb (has ua "edg") then
    mkNV (js "Chrome") (extractVersion ua [js "chrome/"] isDigitDot)
  else if has ua "edg" then
    mkNV (js "Edge") (extractVersion ua [js "edg/"] isDigitDot)
  else if has ua "firefox" then
    mkNV (js "Firefox") (extractVersion ua [js "firefox/"] isDigitDot)
  else if has ua "safari" && negb (has ua "chrome") then
    mkNV (js "Safari") (extractVersion ua [js "version/"] isDigitDot)
  else if has ua "opera" || has ua "opr" then
    mkNV (js "Opera") (extractVersion ua [js "opera/"; js "opr/"] isDigitDot)
  else if has ua "msie" || has ua "trident" then
    mkNV (js "Internet Explorer") (extractVersion ua [js "msie "; js "rv:"] isDigitDot)
  else mkNV (js "Unknown") (js "Unknown").

Definition parseOS (ua : jsstr) : NameVersion :=
  if has ua "windows" then
    if has ua "windows nt 10.0" then mkNV (js "Windows") (js "10")
    else if has ua "windows nt 6.3" then mkNV (js "Windows") (js "8.1")
    else if has ua "windows nt 6.2" then mkNV (js "Windows") (js "8")
    else if has ua "windows nt 6.1" then mkNV (js "Windows") (js "7")
    else mkNV (js "Windows") (js "Unknown")
  else if has ua "mac os x" then
    mkNV (js "macOS")
      (underscoresToDots (extractVersion ua [js "mac os x "] isDigitUnderscore))
  else if has ua "linux" then
    if has ua "ubuntu" then mkNV (js "Ubuntu") (js "Unknown")
    else if has ua "debian" then mkNV (js "Debian") (js "Unknown")
    else if has ua "fedora" then mkNV (js "Fedora") (js "Unknown")
    else mkNV (js "Linux") (js "Unknown")
  else if has ua "android" then
    mkNV (js "Android") (extractVersion ua [js "android "] isDigitDot)
  else if has ua "iphone" || has ua "ipad" || has ua "ipod" then
    mkNV (js "iOS")
      (underscoresToDots (extractVersion ua [js "os "] isDigitUnderscore))
  else mkNV (js "Unknown") (js "Unknown").

Definition parseDevice (ua : jsstr) : DeviceInfo :=
  if has ua "mobile" || has ua "android" || has ua "iphone" then
    if has ua "iphone" then mkDI (js "mobile") (js "Apple") (js "iPhone")
    else if has ua "android" then
      let samsung := has ua "samsung" || has ua "galaxy" || has ua "gt-"
                     || has ua "sm-" in
      let huawei := has ua "huawei" || has ua "honor" in
      let xiaomi := has ua "xiaomi" || has ua "mi " || has ua "redmi" in
      if samsung then mkDI (js "mobile") (js "Samsung") (js "Android")
      else if huawei then mkDI (js "mobile") (js "Huawei") (js "Android")
      else if xiaomi then mkDI (js "mobile") (js "Xiaomi") (js "Android")
      else mkDI (js "mobile") (js "Unknown") (js "Android")
    else mkDI (js "mobile") (js "Unknown") (js "Unknown")
  else if has ua "tablet" || has ua "ipad" then
    if has ua "ipad" then mkDI (js "tablet") (js "Apple") (js "iPad")
    else mkDI (js "tablet") (js "Unknown") (js "Unknown")
  else mkDI (js "desktop") (js "Unknown") (js "Unknown").

Definition parseUserAgent (userAgent : jsval) : ParsedUA :=
  match userAgent with
  | JsStr (c :: r) =>
      let ua := toLowerCase (c :: r) in
      mkUA (parseBrowser ua) (parseOS ua) (parseDevice ua)
  | _ =>
      mkUA (mkNV (js "Unknown") (js "Unknown"))
           (mkNV (js "Unknown") (js "Unknown"))
           (mkDI (js "unknown") (js "Unknown") (js "Unknown"))
  end.

Definition botPatterns : list string :=
  ["googlebot"; "bingbot"; "slurp"; "duckduckbot"; "baiduspider";
   "yandexbot"; "facebookexternalhit"; "twitterbot"; "linkedinbot";
   "whatsapp"; "telegram"; "crawler"; "spider"; "bot"; "headless";
   "phantom"; "scraper"]%string.

(** [isBot]: each pattern is a literal with the [i] flag. *)
Definition isBot (userAgent : jsval) : bool :=
  if negb (truthy userAgent) then false
  else match userAgent with
       | JsStr s => existsb (λ pattern, includesCI (js pattern) s) botPatterns
       | _ => false
       end.

(* ===================================================================== *)
(** ** Platform functions *)
(* ===================================================================== *)

(** Functions of the platform and of third-party packages that the sources
    call and that are not part of the repository. *)
Class Platform : Type := {
  (** [validator.isURL(url, { protocols: ['http','https'],
      require_protocol: true })] *)
  isURL : jsstr → bool;
  (** [new URL(url)]: the [protocol] and the [hostname] of the parsed URL,
      [None] when the constructor throws. *)
  parseURL : jsstr → option (jsstr * jsstr);
  (** [new Date(string)]: [None] is the invalid date. *)
  parseDate : jsstr → option date;
  encodeURIComponent : jsstr → jsstr;
  (** the [message] of an error that Mongoose or the driver raises *)
  libraryMessage : Error → jsstr;
  (** [{ $dateToString: { format: '%Y-%m-%d', date } }] of the store *)
  dateToString : date → jsstr
}.

(* ===================================================================== *)
(** ** models/Click.js *)
(* ===================================================================== *)

(** One alternative of [25[0-5]|2[0-4][0-9]|[01]?[0-9][0-9]?]. *)
Definition isOctet (o : jsstr) : bool :=
  match o with
  | [a] => isDigit a
  | [a; b] => isDigit a && isDigit b
  | [a; b; c] =>
      isDigit a && isDigit b && isDigit c &&
      ((a =? 48) || (a =? 49) || ((a =? 50) && (b <=? 52))
       || ((a =? 50) && (b =? 53) && (c <=? 53)))
  | _ => false
  end.

(** [ipv4Regex.test(ip)]: four octets and three dots, anchored. *)
Definition ipv4Regex (ip : jsstr) : bool :=
  match split 46 ip with
  | [a; b; c; d] => isOctet a && isOctet b && isOctet c && isOctet d
  | _ => false
  end.

Definition isHexGroup (g : jsstr) : bool :=
  (1 <=? length g)%nat && (length g <=? 4)%nat && forallb isHex g.

(** [ipv6Regex.test(ip)]: eight groups of one to four hex digits. *)
Definition ipv6Regex (ip : jsstr) : bool :=
  let groups := split 58 ip in
  (length groups =? 8)%nat && forallb isHexGroup groups.

(** The [validator] of [ipAddress]. *)
Definition ipAddressValidator (ip : jsstr) : bool :=
  ipv4Regex ip || ipv6Regex ip || streq ip (js "::1")
  || streq ip (js "127.0.0.1").

(** The object handed to [Click.create]; [None] is [undefined] (or [null]
    for the referer). *)
Record ClickData : Type := mkClickData {
  cd_url : oid;
  cd_user : option oid;
  cd_ipAddress : jsstr;
  cd_userAgent : jsstr;
  cd_referer : option jsstr;
  cd_country : option jsstr;
  cd_city : option jsstr;
  cd_browser : NameVersion;
  cd_os : NameVersion;
  cd_device : DeviceInfo;
  cd_timestamp : option date
}.

Definition maxlength (n : nat) (s : jsstr) : bool := (length s <=? n)%nat.
Definition minlength (n : nat) (s : jsstr) : bool := (n <=? length s)%nat.

(** [required] on a string path: Mongoose rejects the empty string. *)
Definition requiredString (s : jsstr) : bool :=
  match s with [] => false | _ => true end.

Definition deviceTypes : list jsstr :=
  [js "desktop"; js "mobile"; js "tablet"; js "unknown"].

(** The first path of the click schema that does not validate. *)
Definition clickInvalidPath (d : ClickData) : option jsstr :=
  if negb (requiredString (cd_ipAddress d)
           && ipAddressValidator (cd_ipAddress d)) then Some (js "ipAddress")
  else if negb (requiredString (cd_userAgent d)
                && maxlength 500 (cd_userAgent d)) then Some (js "userAgent")
  else if negb (maxlength 500 (default [] (cd_referer d))) then Some (js "referer")
  else if negb (maxlength 100 (default [] (cd_country d))) then Some (js "country")
  else if negb (maxlength 100 (default [] (cd_city d))) then Some (js "city")
  else if negb (maxlength 50 (nv_name (cd_browser d))) then Some (js "browser.name")
  else if negb (maxlength 20 (nv_version (cd_browser d))) then Some (js "browser.version")
  else if negb (maxlength 50 (nv_name (cd_os d))) then Some (js "os.name")
  else if negb (maxlength 20 (nv_version (cd_os d))) then Some (js "os.version")
  else if negb (bool_decide (di_type (cd_device d) ∈ deviceTypes)) then Some (js "device.type")
  else if negb (maxlength 50 (di_brand (cd_device d))) then Some (js "device.brand")
  else if negb (maxlength 50 (di_model (cd_device d))) then Some (js "device.model")
  else None.

(** The document Mongoose builds from the data: schema defaults fill the
    paths that are [undefined]. *)
Definition clickDocument (id : oid) (t : date) (d : ClickData) : Click.t :=
  {| Click._id := id;
     Click.url := cd_url d;
     Click.user := cd_user d;
     Click.ipAddress := cd_ipAddress d;
     Click.userAgent := cd_userAgent d;
     Click.referer := cd_referer d;
     Click.country := Some (default (js "Unknown") (cd_country d));
     Click.city := Some (default (js "Unknown") (cd_city d));
     Click.browser := Click.mkAgent (Some (nv_name (cd_browser d)))
                        (Some (nv_version (cd_browser d)));
     Click.os := Click.mkAgent (Some (nv_name (cd_os d)))
                   (Some (nv_version (cd_os d)));
     Click.device := Click.mkDevice (Some (di_type (cd_device d)))
                       (Some (di_brand (cd_device d)))
                       (Some (di_model (cd_device d)));
     Click.timestamp := default t (cd_timestamp d) |}.

Definition insertClick (c : Click.t) (d : Db) : Db :=
  mkDb (urls d) (clicks d ++ [c]) (users d).

(** [Click.create(clickData)]: validate, then insert. *)
Definition Click_create (d : ClickData) : M Click.t :=
  match clickInvalidPath d with
  | Some path => mthrow (ValidationError path)
  | None =>
      id ← freshId;
      t ← now;
      let doc := clickDocument id t d in
      storage (λ w, (Ok doc, insertClick doc (db w)))
  end.

(** [Click.deleteMany({ url: id })] *)
Definition Click_deleteMany (id : oid) : M unit :=
  storage (λ w,
    (Ok tt, mkDb (urls (db w))
              (filter (λ c, Click.url c ≠ id) (clicks (db w)))
              (users (db w)))).

(* ===================================================================== *)
(** ** models/User.js *)
(* ===================================================================== *)

(** [User.findByIdAndUpdate(id, { $inc: { urlsCount: a, totalClicks: b } })];
    a missing user is not an error. *)
Definition User_findByIdAndUpdate_inc (id : oid) (a b : Z) : M unit :=
  storage (λ w,
    (Ok tt, mkDb (urls (db w)) (clicks (db w))
              (alter (User.inc a b) id (users (db w))))).

(* ===================================================================== *)
(** ** models/Url.js *)
(* ===================================================================== *)

(** A [Date] value handed to the model. *)
Inductive DateVal : Type :=
| NullDate
| InvalidDate
| ValidDate (d : date).

Record UrlData : Type := mkUrlData {
  ud_originalUrl : jsstr;
  ud_shortCode : jsstr;
  ud_customAlias : option jsstr;
  ud_user : option oid;
  ud_title : jsstr;
  ud_description : option jsstr;
  ud_tags : list jsstr;
  ud_expiresAt : DateVal
}.

Section UrlModel.
Context `{Platform}.

(** The first path of the url schema that does not validate (the [trim]
    setters have run). *)
Definition urlInvalidPath (d : UrlData) : option jsstr :=
  let originalUrl := trim (ud_originalUrl d) in
  let shortCode := trim (ud_shortCode d) in
  if negb (requiredString originalUrl && isURL originalUrl)
  then Some (js "originalUrl")
  else if negb (requiredString shortCode && minlength 3 shortCode
                && maxlength 20 shortCode && matchesCodePattern shortCode)
  then Some (js "shortCode")
  else if negb (match ud_customAlias d with
                | Some a => minlength 3 (trim a) && maxlength 50 (trim a)
                            && matchesCodePattern (trim a)
                | None => true
                end)
  then Some (js "customAlias")
  else if negb (maxlength 200 (trim (ud_title d))) then Some (js "title")
  else if negb (maxlength 500 (trim (default [] (ud_description d))))
  then Some (js "description")
  else if negb (forallb (λ t, maxlength 20 (trim t)) (ud_tags d))
  then Some (js "tags")
  else match ud_expiresAt d with
       | InvalidDate => Some (js "expiresAt")
       | _ => None
       end.

Definition urlDocument (id : oid) (t : date) (d : UrlData) : Url.t :=
  {| Url._id := id;
     Url.originalUrl := trim (ud_originalUrl d);
     Url.shortCode := trim (ud_shortCode d);
     Url.customAlias := trim <$> ud_customAlias d;
     Url.user := ud_user d;
     Url.title := Some (trim (ud_title d));
     Url.description := trim <$> ud_description d;
     Url.clicks := 0%Z;
     Url.isActive := true;
     Url.expiresAt := match ud_expiresAt d with
                      | ValidDate e => Some e
                      | _ => None
                      end;
     Url.tags := map trim (ud_tags d);
     Url.lastClickedAt := None;
     Url.createdAt := t;
     Url.updatedAt := t |}.

(** [Url.create(urlData)]: validate, then insert under the unique index of
    [shortCode]. *)
Definition Url_create (d : UrlData) : M Url.t :=
  match urlInvalidPath d with
  | Some path => mthrow (ValidationError path)
  | None =>
      id ← freshId;
      t ← now;
      let doc := urlDocument id t d in
      storage (λ w,
        if existsb (λ u, streq (Url.shortCode u) (Url.shortCode doc))
             (urls (db w))
        then (Throw DuplicateKey, db w)
        else (Ok doc, mkDb (urls (db w) ++ [doc]) (clicks (db w))
                        (users (db w))))
  end.

End UrlModel.

(** [Url.findOne(filter)]: the first document that satisfies the filter. *)
Definition Url_findOne (filter : Url.t → bool) : M (option Url.t) :=
  query (λ d, find filter (urls d)).

Fixpoint removeFirst {A} (f : A → bool) (l : list A) : list A :=
  match l with
  | [] => []
  | x :: r => if f x then r else x :: removeFirst f r
  end.

(** [Url.findByIdAndDelete(id)] *)
Definition Url_findByIdAndDelete (id : oid) : M unit :=
  storage (λ w,
    (Ok tt, mkDb (removeFirst (λ u, Url._id u =? id) (urls (db w)))
              (clicks (db w)) (users (db w)))).

Fixpoint updateFirst {A} (f : A → bool) (g : A → A) (l : list A)
  : option (list A) :=
  match l with
  | [] => None
  | x :: r => if f x then Some (g x :: r)
              else cons x <$> updateFirst f g r
  end.

(** The Number nearest to the integer [z]: an IEEE 754 double holds 53
    significant bits, so every integer up to [2^53] in magnitude is a
    Number, and a larger one is rounded to 53 bits, a tie to the even
    neighbour. The sum of two Numbers is the Number nearest to their exact
    sum. *)
Definition toNumber (z : Z) : Z :=
  let a := Z.abs z in
  if (a <=? 2 ^ 53)%Z then z
  else
    let e := (Z.log2 a - 52)%Z in
    let q := (a / 2 ^ e)%Z in
    let r := (a mod 2 ^ e)%Z in
    let half := (2 ^ (e - 1))%Z in
    let q' := if (r <? half)%Z then q
              else if (half <? r)%Z then (q + 1)%Z
              else if Z.even q then q else (q + 1)%Z in
    (Z.sgn z * (q' * 2 ^ e))%Z.

(** A path that [save] writes: the value of the document in memory when it
    differs from the loaded one, the stored value otherwise. *)
Definition written {A} `{EqDecision A} (loaded edited stored : A) : A :=
  if decide (edited = loaded) then stored else edited.

Section SavedDocument.
Context `{Platform}.

(** The first path of a url document that does not validate. *)
Definition urlDocInvalidPath (u : Url.t) : option jsstr :=
  if negb (requiredString (Url.originalUrl u) && isURL (Url.originalUrl u))
  then Some (js "originalUrl")
  else if negb (requiredString (Url.shortCode u)
                && minlength 3 (Url.shortCode u)
                && maxlength 20 (Url.shortCode u)
                && matchesCodePattern (Url.shortCode u))
  then Some (js "shortCode")
  else if negb (match Url.customAlias u with
                | Some a => minlength 3 a && maxlength 50 a
                            && matchesCodePattern a
                | None => true
                end)
  then Some (js "customAlias")
  else if negb (maxlength 200 (default [] (Url.title u))) then Some (js "title")
  else if negb (maxlength 500 (default [] (Url.description u)))
  then Some (js "description")
  else if (Url.clicks u <? 0)%Z then Some (js "clicks")
  else if negb (forallb (maxlength 20) (Url.tags u)) then Some (js "tags")
  else None.

(** [urlSchema.methods.incrementClicks]: the document adds one to its own
    copy of the counter, a Number, stamps the instant and saves. [save]
    validates every path of the loaded document, stamps [updatedAt] when a
    path is modified and writes the modified paths to the stored document
    of the same [_id]. *)
Definition incrementClicks (this : Url.t) : M unit :=
  let clicks' := toNumber (Url.clicks this + 1) in
  t ← now;
  let edited :=
    {| Url._id := Url._id this;
       Url.originalUrl := Url.originalUrl this;
       Url.shortCode := Url.shortCode this;
       Url.customAlias := Url.customAlias this;
       Url.user := Url.user this;
       Url.title := Url.title this;
       Url.description := Url.description this;
       Url.clicks := clicks';
       Url.isActive := Url.isActive this;
       Url.expiresAt := Url.expiresAt this;
       Url.tags := Url.tags this;
       Url.lastClickedAt := Some t;
       Url.createdAt := Url.createdAt this;
       Url.updatedAt := Url.updatedAt this |} in
  match urlDocInvalidPath edited with
  | Some path => mthrow (ValidationError path)
  | None =>
      let modified :=
        bool_decide ((clicks', Some t)
                     ≠ (Url.clicks this, Url.lastClickedAt this)) in
      storage (λ w,
        match updateFirst (λ u, Url._id u =? Url._id this)
                (λ u, {| Url._id := Url._id u;
                         Url.originalUrl := Url.originalUrl u;
                         Url.shortCode := Url.shortCode u;
                         Url.customAlias := Url.customAlias u;
                         Url.user := Url.user u;
                         Url.title := Url.title u;
                         Url.description := Url.description u;
                         Url.clicks :=
                           written (Url.clicks this) clicks' (Url.clicks u);
                         Url.isActive := Url.isActive u;
                         Url.expiresAt := Url.expiresAt u;
                         Url.tags := Url.tags u;
                         Url.lastClickedAt :=
                           written (Url.lastClickedAt this) (Some t)
                             (Url.lastClickedAt u);
                         Url.createdAt := Url.createdAt u;
                         Url.updatedAt :=
                           if modified then t else Url.updatedAt u |})
                (urls (db w)) with
        | Some urls' => (Ok tt, mkDb urls' (clicks (db w)) (users (db w)))
        | None => (Throw (Err (js "DocumentNotFoundError")), db w)
        end)
  end.

End SavedDocument.

(* ===================================================================== *)
(** ** utils/short.js and utils/short1.js: code generation *)
(* ===================================================================== *)

(** The alphabet of the nanoid package. *)
Definition urlAlphabet : jsstr :=
  js "useandom-26T198340PX75pxJACKVERYMINDBUSHWOLF_GQZbfghjklqvwyzrict".

Definition alphabet : jsstr :=
  js "0123456789ABCDEFGHIJKLMNOPQRSTUVWXYZabcdefghijklmnopqrstuvwxyz".

(** [s[i]] *)
Definition unitAt (s : jsstr) (i : N) : N := nth (N.to_nat i) s 0.

(** [nanoid(size)]: [size] symbols of [urlAlphabet], one random byte each. *)
Fixpoint nanoid (size : nat) : M jsstr :=
  match size with
  | O => mret []
  | S n =>
      b ← draw;
      r ← nanoid n;
      mret (unitAt urlAlphabet (N.land b 63) :: r)
  end.

(** [Math.floor(Math.random() * alphabet.length)] *)
Definition randomIndex : M N :=
  k ← draw; mret (k mod N.of_nat (length alphabet)).

(** [.replace(/[_-]/g, () => alphabet[...])] *)
Fixpoint replaceSymbols (s : jsstr) : M jsstr :=
  match s with
  | [] => mret []
  | c :: r =>
      c' ← (if (c =? 95) || (c =? 45)
            then k ← randomIndex; mret (unitAt alphabet k)
            else mret c);
      r' ← replaceSymbols r;
      mret (c' :: r')
  end.

(** [{ $or: [{ shortCode: code }, { customAlias: code }] }] *)
Definition codeOrAlias (code : jsstr) (u : Url.t) : bool :=
  streq (Url.shortCode u) code || bool_decide (Url.customAlias u = Some code).

Definition maxAttempts : nat := 10.

Record GenState : Type := mkGen {
  g_length : nat;
  g_shortCode : jsstr;
  g_isUnique : bool;
  g_attempts : nat
}.

Module ShortGen.

(** The [while] loop of [generateShortCode] in utils/short.js. *)
Fixpoint loop (fuel : nat) (st : GenState) : M GenState :=
  if negb (g_isUnique st) && (g_attempts st <? maxAttempts)%nat then
    match fuel with
    | O => mthrow OutOfFuel
    | S fuel' =>
        raw ← nanoid (g_length st);
        shortCode ← replaceSymbols raw;
        existingUrl ← Url_findOne (λ u, streq (Url.shortCode u) shortCode);
        match existingUrl with
        | None =>
            loop fuel' (mkGen (g_length st) shortCode true (g_attempts st))
        | Some _ =>
            let attempts := S (g_attempts st) in
            let length' := if (attempts <? maxAttempts)%nat
                           then S (g_length st) else g_length st in
            loop fuel' (mkGen length' shortCode (g_isUnique st) attempts)
        end
    end
  else mret st.

Definition generateShortCodeFrom (fuel : nat) (length : nat) : M jsstr :=
  st ← loop fuel (mkGen length [] false 0);
  if negb (g_isUnique st)
  then mthrow (Err (js "Unable to generate unique short code"))
  else mret (g_shortCode st).

(** [generateShortCode(length = 6)] *)
Definition generateShortCode (length : nat) : M jsstr :=
  generateShortCodeFrom maxAttempts length.

End ShortGen.

Module Short1Gen.

(** The [do ... while (true)] loop of [generateShortCode] in
    utils/short1.js. *)
Fixpoint loop (fuel : nat) (length : nat) (attempts : nat) : M jsstr :=
  match fuel with
  | O => mthrow OutOfFuel
  | S fuel' =>
      shortCode ← nanoid length;
      let attempts := S attempts in
      if (maxAttempts <=? attempts)%nat
      then mthrow (Err (js "Failed to generate unique short code"))
      else
        existingUrl ← Url_findOne (codeOrAlias shortCode);
        match existingUrl with
        | None => mret shortCode
        | Some _ => loop fuel' length attempts
        end
  end.

(** [generateShortCode(length = 8)] *)
Definition generateShortCode (length : nat) : M jsstr :=
  loop maxAttempts length 0.

End Short1Gen.

(* ===================================================================== *)
(** ** utils/short.js: validation helpers *)
(* ===================================================================== *)

Definition reservedWords : list jsstr :=
  map js ["api"; "admin"; "www"; "mail"; "ftp"; "localhost";
          "dashboard"; "analytics"; "auth"; "login"; "register";
          "about"; "contact"; "help"; "support"; "terms"; "privacy";
          "health"; "status"; "docs"; "documentation"]%string.

(** [validateCustomAlias(alias)] of utils/short.js. *)
Definition validateCustomAlias (alias : jsstr) : M bool :=
  if negb (requiredString alias) then mret true
  else if negb (matchesCodePattern alias) then
    mthrow (Err (js "Custom alias can only contain letters, numbers, hyphens, and underscores"))
  else if (length alias <? 3)%nat then
    mthrow (Err (js "Custom alias must be at least 3 characters long"))
  else if (50 <? length alias)%nat then
    mthrow (Err (js "Custom alias cannot exceed 50 characters"))
  else
    existingUrl ← Url_findOne (codeOrAlias alias);
    match existingUrl with
    | Some _ => mthrow (Err (js "This alias is already taken"))
    | None =>
        if bool_decide (toLowerCase alias ∈ reservedWords)
        then mthrow (Err (js "This alias is reserved and cannot be used"))
        else mret true
    end.

Section ShortUtils.
Context `{Platform}.

(** [isValidUrl(url)] of utils/short.js. *)
Definition isValidUrl (url : jsstr) : bool :=
  match parseURL url with
  | Some (protocol, _) =>
      bool_decide (protocol ∈ [js "http:"; js "https:"])
  | None => false
  end.

(** [extractDomain(url)] of utils/short.js. *)
Definition extractDomain (url : jsstr) : jsstr :=
  match parseURL url with
  | Some (_, hostname) => hostname
  | None => js "Unknown"
  end.

(** [error.message] *)
Definition errorMessage (e : Error) : jsstr :=
  match e with
  | Err message => message
  | _ => libraryMessage e
  end.

(** [generateQRCode(url)] of utils/short.js. *)
Definition generateQRCode (url : jsstr) : jsstr :=
  js "https://api.qrserver.com/v1/create-qr-code/?size=200x200&data="
    ++ encodeURIComponent url.

End ShortUtils.

(* ===================================================================== *)
(** ** Aggregation stages of the analytics pipelines *)
(* ===================================================================== *)

Section Aggregation.
Context {K : Type} `{EqDecision K}.

(** Count one more document under [k]; a new group goes last. *)
Fixpoint bump (k : K) (groups : list (K * nat)) : list (K * nat) :=
  match groups with
  | [] => [(k, 1%nat)]
  | (k', n) :: r =>
      if decide (k = k') then (k', S n) :: r else (k', n) :: bump k r
  end.

(** [{ $group: { _id: key, clicks: { $sum: 1 } } }] over the keys of the
    matched documents. *)
Definition groupCount (keys : list K) : list (K * nat) :=
  foldl (λ groups k, bump k groups) [] keys.

Fixpoint insertDesc (x : K * nat) (l : list (K * nat)) : list (K * nat) :=
  match l with
  | [] => [x]
  | y :: r => if (snd y <=? snd x)%nat then x :: y :: r
              else y :: insertDesc x r
  end.

(** [{ $sort: { clicks: -1 } }] *)
Definition sortDesc (l : list (K * nat)) : list (K * nat) :=
  foldr insertDesc [] l.

(** The count that the groups hold for [k]. *)
Fixpoint countIn (k : K) (groups : list (K * nat)) : nat :=
  match groups with
  | [] => 0
  | (k', n) :: r => if decide (k = k') then n else countIn k r
  end.

End Aggregation.

(** Order of strings by code units. *)
Fixpoint strLe (a b : jsstr) : bool :=
  match a, b with
  | [], _ => true
  | _ :: _, [] => false
  | x :: a', y :: b' => (x <? y) || ((x =? y) && strLe a' b')
  end.

Fixpoint insertAsc (x : jsstr * nat) (l : list (jsstr * nat))
  : list (jsstr * nat) :=
  match l with
  | [] => [x]
  | y :: r => if strLe (fst x) (fst y) then x :: y :: r
              else y :: insertAsc x r
  end.

(** [{ $sort: { _id: 1 } }] *)
Definition sortById (l : list (jsstr * nat)) : list (jsstr * nat) :=
  foldr insertAsc [] l.

Fixpoint insertRecent (c : Click.t) (l : list Click.t) : list Click.t :=
  match l with
  | [] => [c]
  | y :: r => if (Click.timestamp y <=? Click.timestamp c)%Z then c :: y :: r
              else y :: insertRecent c r
  end.

(** [.sort({ timestamp: -1 })] *)
Definition sortRecent (l : list Click.t) : list Click.t :=
  foldr insertRecent [] l.

(** [{ $match: { url: id, timestamp: { $gte: start, $lte: end } } }] *)
Definition inWindow (id : oid) (start end_ : date) (c : Click.t) : bool :=
  (Click.url c =? id) && (start <=? Click.timestamp c)%Z
  && (Click.timestamp c <=? end_)%Z.

Definition matched (id : oid) (start end_ : date) (d : Db) : list Click.t :=
  List.filter (inWindow id start end_) (clicks d).

Definition byCountry (c : Click.t) : option jsstr := Click.country c.
Definition byBrowser (c : Click.t) : option jsstr := Click.name (Click.browser c).
Definition byOS (c : Click.t) : option jsstr := Click.name (Click.os c).
Definition byDevice (c : Click.t) : option jsstr := Click.type (Click.device c).

(** One facet [$group, $sort, $limit 10]. *)
Definition top10 (key : Click.t → option jsstr) (cs : list Click.t)
  : list (option jsstr * nat) :=
  take 10 (sortDesc (groupCount (map key cs))).

(** The facet of the device types has no limit. *)
Definition allDesc (key : Click.t → option jsstr) (cs : list Click.t)
  : list (option jsstr * nat) :=
  sortDesc (groupCount (map key cs)).

Record Summary : Type := mkSummary {
  totalClicks : nat;
  uniqueVisitors : nat
}.

(** The facet [summary]: one document when a click matched, none
    otherwise. *)
Definition summaryFacet (cs : list Click.t) : list Summary :=
  match cs with
  | [] => []
  | _ => [mkSummary (length cs) (length (remove_dups (map Click.ipAddress cs)))]
  end.

(** An entry of a chart: its label as it is serialized, and its count. *)
Record ChartEntry : Type := mkEntry {
  label : jsval;
  entry_clicks : nat
}.

Record UrlInfo : Type := mkUrlInfo {
  info_id : oid;
  info_shortCode : jsstr;
  info_originalUrl : jsstr;
  info_title : option jsstr;
  info_totalClicks : Z;
  info_createdAt : date
}.

Record Analytics : Type := mkAnalytics {
  a_url : UrlInfo;
  a_start : date;
  a_end : date;
  summary : Summary;
  clicksByDate : list (jsstr * nat);
  clicksByCountry : list ChartEntry;
  clicksByBrowser : list ChartEntry;
  clicksByOS : list ChartEntry;
  clicksByDevice : list ChartEntry;
  (** the documents of the 50 most recent clicks, newest first *)
  recentClicks : list Click.t
}.

(* ===================================================================== *)
(** ** Responses *)
(* ===================================================================== *)

Inductive Payload : Type :=
| NoData
| UrlPayload (url : Url.t) (qrCode : option jsstr)
| AnalyticsPayload (analytics : Analytics).

Inductive Response : Type :=
| Json (status : N) (success : bool) (message : option jsstr) (data : Payload)
| Redirect (status : N) (location : jsstr)
| NextError (e : Error).   (* the rejection handed to [next] *)


(** Modelled from the spec: [asyncHandler] of middleware/error.js is not
    among the sources. A handler answers validation and not-found errors
    itself; an error it does not catch leaves it as a rejection, which the
    wrapper hands to the error middleware. That outcome is kept as
    [NextError], whatever status the middleware answers with. *)
Definition asyncHandler (fn : Request → M Response) (req : Request)
  : World → Response * World :=
  λ w, match fn req w with
       | (Ok r, w') => (r, w')
       | (Throw e, w') => (NextError e, w')
       end.

(** [Promise.all([a, b])]: the calls are started together; each one runs to
    its end whatever the other does, and the whole rejects with the first
    rejection. Longer arrays nest it. *)
Definition both {A B} (a : M A) (b : M B) : M (A * B) :=
  λ w,
    let '(ra, w1) := a w in
    let '(rb, w2) := b w1 in
    match ra, rb with
    | Ok x, Ok y => (Ok (x, y), w2)
    | Throw e, _ => (Throw e, w2)
    | _, Throw e => (Throw e, w2)
    end.

Definition promiseAll3 (a b c : M unit) : M unit :=
  both a (both b c) ≫= λ _, mret tt.

(** [fn(req.user.id)]: the routes that read it run behind [auth]. *)
Definition withUser {A} (req : Request) (k : oid → M A) : M A :=
  match user req with
  | Some uid => k uid
  | None => mthrow (Err (js "TypeError: Cannot read properties of undefined (reading 'id')"))
  end.

Definition strOf (v : jsval) : jsstr :=
  match v with
  | JsStr s => s
  | _ => []
  end.

(* ===================================================================== *)
(** ** utils/ip.js: validation, anonymization, bot check *)
(* ===================================================================== *)

(** [parts.join(sep)] *)
Fixpoint join (sep : jsstr) (parts : list jsstr) : jsstr :=
  match parts with
  | [] => []
  | p :: ps =>
      match ps with
      | [] => p
      | _ :: _ => p ++ sep ++ join sep ps
      end
  end.

(** [parts[i] = v]: an index past the end extends the array, and [join]
    writes the holes in between as empty strings. *)
Definition setAt (i : nat) (v : jsstr) (parts : list jsstr) : list jsstr :=
  if (i <? length parts)%nat then <[i := v]> parts
  else parts ++ replicate (i - length parts) [] ++ [v].

(** [for (let i = from; i < parts.length; i++) parts[i] = '0'] *)
Definition zeroFrom (from : nat) (parts : list jsstr) : list jsstr :=
  foldl (λ ps i, <[i := js "0"]> ps) parts
    (seq from (length parts - from)).

(** [isValidIP(ip)] of utils/ip.js; its two expressions are those of the
    click schema. *)
Definition isValidIP (ip : jsstr) : bool :=
  if streq ip (js "::1") || streq ip (js "127.0.0.1")
     || streq ip (js "localhost")
  then true
  else ipv4Regex ip || ipv6Regex ip.

(** [anonymizeIP(ip)] of utils/ip.js. *)
Definition anonymizeIP (ip : jsval) : jsstr :=
  if negb (truthy ip) || negb (isValidIP (strOf ip)) then js "unknown"
  else
    let ip := strOf ip in
    let v4 :=
      if includes (js ".") ip then
        let parts := split 46 ip in
        if (length parts =? 4)%nat
        then Some (join (js ".") (setAt 3 (js "0") parts))
        else None
      else None in
    match v4 with
    | Some r => r
    | None =>
        let v6 :=
          if includes (js ":") ip then
            let parts := split 58 ip in
            if (4 <=? length parts)%nat
            then Some (join (js ":") (zeroFrom (length parts / 2) parts))
            else None
          else None in
        match v6 with
        | Some r => r
        | None => ip
        end
    end.

Module Ip.

Definition botPatterns : list string :=
  ["googlebot"; "bingbot"; "slurp"; "duckduckbot"; "baiduspider";
   "yandexbot"; "facebookexternalhit"; "twitterbot"; "linkedinbot";
   "whatsapp"; "telegram"; "crawler"; "spider"; "bot"]%string.

(** [isBot(ip, userAgent)] of utils/ip.js. *)
Definition isBot (ip userAgent : jsval) : bool :=
  if negb (truthy userAgent) then false
  else match userAgent with
       | JsStr s => existsb (λ pattern, includesCI (js pattern) s) botPatterns
       | _ => false
       end.

End Ip.

(* ===================================================================== *)
(** ** The second module for IP handling and bot detection *)
(* ===================================================================== *)

Module IpUtil.

(** [extractClientIP(req)]: [req.socket] is [req.connection]. *)
Definition extractClientIP (req : Request) : jsstr :=
  let xForwarded := header req "x-forwarded-for" in
  let xReal := header req "x-real-ip" in
  let cfIP := header req "cf-connecting-ip" in
  match xForwarded, xReal, cfIP with
  | JsStr (c :: r), _, _ => trim (hd [] (split 44 (c :: r)))
  | _, JsStr (c :: r), _ => c :: r
  | _, _, JsStr (c :: r) => c :: r
  | _, _, _ =>
      orStr (orVal (remoteAddress req) (orVal (remoteAddress req) (ip req)))
        (js "127.0.0.1")
  end.

(** One alternative of [25[0-5]|2[0-4]\d|1?\d{1,2}]. *)
Definition isOctet (o : jsstr) : bool :=
  match o with
  | [a] => isDigit a
  | [a; b] => isDigit a && isDigit b
  | [a; b; c] =>
      isDigit a && isDigit b && isDigit c &&
      ((a =? 49) || ((a =? 50) && (b <=? 52))
       || ((a =? 50) && (b =? 53) && (c <=? 53)))
  | _ => false
  end.

(** [ipv4.test(ip)] *)
Definition ipv4 (ip : jsstr) : bool :=
  match split 46 ip with
  | [a; b; c; d] => isOctet a && isOctet b && isOctet c && isOctet d
  | _ => false
  end.

(** [validateIP(ip)] *)
Definition validateIP (ip : jsval) : bool :=
  if negb (truthy ip) then false
  else
    bool_decide (strOf ip ∈ [js "127.0.0.1"; js "::1"; js "localhost"])
    || ipv4 (strOf ip) || ipv6Regex (strOf ip).

(** [maskIP(ip)] *)
Definition maskIP (ip : jsval) : jsstr :=
  if negb (validateIP ip) then js "unknown"
  else
    let ip := strOf ip in
    if includes (js ".") ip then
      join (js ".") (setAt 3 (js "0") (split 46 ip))
    else if includes (js ":") ip then
      let parts := split 58 ip in
      join (js ":") (zeroFrom (length parts / 2) parts)
    else ip.

(** [locateIP(ip)] *)
Definition locateIP (ip : jsval) : Geolocation :=
  let localPrefixes := [js "127."; js "192.168."; js "10."] in
  if negb (truthy ip)
     || existsb (λ p, startsWith p (strOf ip)) localPrefixes
     || streq (strOf ip) (js "::1")
  then mkGeo (js "Local") (js "Local") (js "Local") (js "Local")
  else mkGeo (js "Unknown") (js "Unknown") (js "Unknown") (js "Unknown").

(** [detectBot(ip, ua)] *)
Definition detectBot (ip ua : jsval) : bool :=
  if negb (truthy ua) then false
  else match ua with
       | JsStr s => existsb (λ b, includesCI (js b) s) Ip.botPatterns
       | _ => false
       end.

End IpUtil.

(* ===================================================================== *)
(** ** utils/userAgent.js and utils/agent.js: the remaining functions *)
(* ===================================================================== *)

(** [getDeviceType(userAgent)] of utils/userAgent.js. *)
Definition getDeviceType (userAgent : jsval) : jsstr :=
  di_type (ua_device (parseUserAgent userAgent)).

Module Agent.

(** [/a|b|c/i.test(ua)] for literals in lower case. *)
Definition test (alternatives : list string) (ua : jsstr) : bool :=
  existsb (λ a, includesCI (js a) ua) alternatives.

Definition detectBrowser (ua : jsstr) : NameVersion :=
  if has ua "chrome" && negb (has ua "edg") then
    mkNV (js "Chrome") (extractVersion ua [js "chrome/"] isDigitDot)
  else if has ua "edg" then
    mkNV (js "Edge") (extractVersion ua [js "edg/"] isDigitDot)
  else if has ua "firefox" then
    mkNV (js "Firefox") (extractVersion ua [js "firefox/"] isDigitDot)
  else if has ua "safari" && negb (has ua "chrome") then
    mkNV (js "Safari") (extractVersion ua [js "version/"] isDigitDot)
  else if has ua "opera" || has ua "opr" then
    mkNV (js "Opera") (extractVersion ua [js "opera/"; js "opr/"] isDigitDot)
  else if has ua "msie" || has ua "trident" then
    mkNV (js "Internet Explorer") (extractVersion ua [js "msie "; js "rv:"] isDigitDot)
  else mkNV (js "Unknown") (js "Unknown").

Definition detectOS (ua : jsstr) : NameVersion :=
  if has ua "windows" then
    if has ua "windows nt 10.0" then mkNV (js "Windows") (js "10")
    else if has ua "windows nt 6.3" then mkNV (js "Windows") (js "8.1")
    else if has ua "windows nt 6.2" then mkNV (js "Windows") (js "8")
    else if has ua "windows nt 6.1" then mkNV (js "Windows") (js "7")
    else mkNV (js "Windows") (js "Unknown")
  else if has ua "mac os x" then
    let version :=
      underscoresToDots (extractVersion ua [js "mac os x "] isDigitUnderscore) in
    mkNV (js "macOS") version
  else if has ua "linux" then
    if has ua "ubuntu" then mkNV (js "Ubuntu") (js "Unknown")
    else if has ua "debian" then mkNV (js "Debian") (js "Unknown")
    else if has ua "fedora" then mkNV (js "Fedora") (js "Unknown")
    else mkNV (js "Linux") (js "Unknown")
  else if has ua "android" then
    mkNV (js "Android") (extractVersion ua [js "android "] isDigitDot)
  else if has ua "iphone" || has ua "ipad" || has ua "ipod" then
    let version :=
      underscoresToDots (extractVersion ua [js "os "] isDigitUnderscore) in
    mkNV (js "iOS") version
  else mkNV (js "Unknown") (js "Unknown").

Definition detectDevice (ua : jsstr) : DeviceInfo :=
  if has ua "mobile" || has ua "android" || has ua "iphone" then
    if has ua "iphone" then mkDI (js "mobile") (js "Apple") (js "iPhone")
    else if has ua "android" then
      if test ["samsung"; "galaxy"; "gt-"; "sm-"]%string ua
      then mkDI (js "mobile") (js "Samsung") (js "Android")
      else if test ["huawei"; "honor"]%string ua
      then mkDI (js "mobile") (js "Huawei") (js "Android")
      else if test ["xiaomi"; "mi "; "redmi"]%string ua
      then mkDI (js "mobile") (js "Xiaomi") (js "Android")
      else mkDI (js "mobile") (js "Unknown") (js "Android")
    else mkDI (js "mobile") (js "Unknown") (js "Unknown")
  else if has ua "tablet" || has ua "ipad" then
    if has ua "ipad" then mkDI (js "tablet") (js "Apple") (js "iPad")
    else mkDI (js "tablet") (js "Unknown") (js "Unknown")
  else mkDI (js "desktop") (js "Unknown") (js "Unknown").

Definition parseUserAgent (uaStr : jsval) : ParsedUA :=
  match uaStr with
  | JsStr (c :: r) =>
      let ua := toLowerCase (c :: r) in
      mkUA (detectBrowser ua) (detectOS ua) (detectDevice ua)
  | _ =>
      mkUA (mkNV (js "Unknown") (js "Unknown"))
           (mkNV (js "Unknown") (js "Unknown"))
           (mkDI (js "unknown") (js "Unknown") (js "Unknown"))
  end.

Definition bots : list string :=
  ["googlebot"; "bingbot"; "slurp"; "duckduckbot"; "baiduspider";
   "yandexbot"; "facebookexternalhit"; "twitterbot"; "linkedinbot";
   "whatsapp"; "telegram"; "crawler"; "spider"; "bot"; "headless";
   "phantom"; "scraper"]%string.

Definition isBot (userAgent : jsval) : bool :=
  if negb (truthy userAgent) then false
  else match userAgent with
       | JsStr s => existsb (λ b, includesCI (js b) s) bots
       | _ => false
       end.

Definition getDeviceType (userAgent : jsval) : jsstr :=
  di_type (ua_device (parseUserAgent userAgent)).

End Agent.

(* ===================================================================== *)
(** ** utils/short1.js: validation helpers *)
(* ===================================================================== *)

Module Short1Utils.

Definition reservedWords : list jsstr :=
  map js ["api"; "www"; "admin"; "root"; "user"; "app"; "dashboard"; "login";
          "register"; "signup"; "signin"; "logout"; "profile"; "settings";
          "help"; "support"; "about"; "contact"; "terms"; "privacy"; "legal";
          "blog"; "news"; "home"; "index"; "analytics"; "stats"; "reports";
          "manage"; "create"; "edit"; "delete"; "remove"; "add"; "new";
          "update"; "view"; "preview"; "download"; "upload"; "share";
          "public"; "private"; "internal"; "external"; "test"; "demo"; "dev";
          "prod"; "staging"; "beta"; "alpha"; "v1"; "v2"; "version"; "health";
          "status"; "ping"; "robots"; "sitemap"; "favicon"; "asset"; "assets";
          "static"; "css"; "js"; "img"; "image"; "images"; "file"; "files";
          "docs"; "doc"; "pdf"]%string.

(** [validateCustomAlias(alias)] of utils/short1.js. *)
Definition validateCustomAlias (alias : jsval) : M bool :=
  match alias with
  | JsStr (c :: r) =>
      let alias := c :: r in
      if (length alias <? 3)%nat then
        mthrow (Err (js "Custom alias must be at least 3 characters long"))
      else if (50 <? length alias)%nat then
        mthrow (Err (js "Custom alias cannot exceed 50 characters"))
      else if negb (matchesCodePattern alias) then
        mthrow (Err (js "Custom alias can only contain letters, numbers, hyphens, and underscores"))
      else if bool_decide (toLowerCase alias ∈ reservedWords) then
        mthrow (Err (js "This alias is reserved and cannot be used"))
      else
        existingUrl ← Url_findOne (codeOrAlias alias);
        match existingUrl with
        | Some _ => mthrow (Err (js "This alias is already taken"))
        | None => mret true
        end
  | _ => mthrow (Err (js "Custom alias is required"))
  end.

Section WithPlatform.
Context `{Platform}.

(** [extractDomain(url)] of utils/short1.js: the host name without a
    leading [www.] *)
Definition extractDomain (url : jsstr) : jsstr :=
  match parseURL url with
  | Some (_, hostname) =>
      if startsWith (js "www.") hostname then drop 4 hostname else hostname
  | None => js "Unknown"
  end.

(** [generateQRCode(url)] of utils/short1.js. *)
Definition generateQRCode (url : jsval) : jsval :=
  if negb (truthy url) then JsNull
  else
    let encodedUrl := encodeURIComponent (strOf url) in
    JsStr (js "https://api.qrserver.com/v1/create-qr-code/?size=200x200&data="
           ++ encodedUrl).

End WithPlatform.

End Short1Utils.

(* ===================================================================== *)
(** ** models/Url.js: the remaining methods *)
(* ===================================================================== *)

(** The filter of [findActive] at the instant [t]:
    [{ isActive: true, $or: [{ expiresAt: null }, { expiresAt: { $gt: t } }] }] *)
Definition activeAt (t : date) (u : Url.t) : bool :=
  Url.isActive u &&
  match Url.expiresAt u with
  | None => true
  | Some e => (t <? e)%Z
  end.

(** [urlSchema.statics.findActive] *)
Definition Url_findActive : M (list Url.t) :=
  t ← now;
  query (λ d, List.filter (activeAt t) (urls d)).

(* ===================================================================== *)
(** ** Parts that the two controllers share *)
(* ===================================================================== *)

(** The filter of the redirect lookup:
    [{ $or: [{ shortCode }, { customAlias: shortCode }], isActive: true }].
    Mongoose casts the values of a filter with the setters of their paths,
    and both paths are declared [trim: true]: the code is looked up
    without the white space around it. *)
Definition activeCode (shortCode : jsstr) (u : Url.t) : bool :=
  codeOrAlias (trim shortCode) u && Url.isActive u.

(** [{ _id: urlId, user: userId }] *)
Definition ownedBy (urlId userId : oid) (u : Url.t) : bool :=
  (Url._id u =? urlId) && bool_decide (Url.user u = Some userId).

(** [{ originalUrl: normalizedUrl, user: userId }] *)
Definition sameDestination (normalizedUrl : jsstr) (userId : oid) (u : Url.t)
  : bool :=
  streq (Url.originalUrl u) normalizedUrl
  && bool_decide (Url.user u = Some userId).

(** [req.headers.referer || req.headers.referrer || null] *)
Definition refererOf (req : Request) : option jsstr :=
  match orVal (header req "referer") (header req "referrer") with
  | JsStr (c :: r) => Some (c :: r)
  | _ => None
  end.

(** [tags && Array.isArray(tags) ? tags.map(tag => tag.trim()).filter(Boolean) : []] *)
Definition cleanTags (tags : option (list jsstr)) : list jsstr :=
  match tags with
  | Some l => List.filter requiredString (map trim l)
  | None => []
  end.

Definition day : Z := (24 * 60 * 60 * 1000)%Z.

(** A date of a query: Mongoose refuses to cast an invalid date. *)
Definition castDate (d : DateVal) : M date :=
  match d with
  | ValidDate t => mret t
  | _ => mthrow (ValidationError (js "timestamp"))
  end.

(** What the driver writes for a date in a pipeline, which is not cast. *)
Definition bsonDate (d : DateVal) : date :=
  match d with
  | ValidDate t => t
  | _ => 0%Z
  end.

Definition urlInfo (u : Url.t) : UrlInfo :=
  mkUrlInfo (Url._id u) (Url.shortCode u) (Url.originalUrl u) (Url.title u)
    (Url.clicks u) (Url.createdAt u).

(** The properties every object inherits from [Object.prototype]. *)
Definition objectPrototypeKeys : list jsstr :=
  map js ["constructor"; "__defineGetter__"; "__defineSetter__";
          "hasOwnProperty"; "__lookupGetter__"; "__lookupSetter__";
          "isPrototypeOf"; "propertyIsEnumerable"; "toString"; "valueOf";
          "__proto__"; "toLocaleString"]%string.

Section Window.
Context `{Platform}.

Definition newDate (v : jsval) : DateVal :=
  match parseDate (strOf v) with
  | Some t => ValidDate t
  | None => InvalidDate
  end.

End Window.

(* ===================================================================== *)
(** ** Saving a loaded document *)
(* ===================================================================== *)

(** The body of [PUT /api/urls/:id], as far as [updateUrl] reads it: the
    tags are an array of strings and [isActive] is a boolean when they are
    given; [None] is [undefined]. *)
Record UpdateBody : Type := mkUpdate {
  up_title : jsval;
  up_description : jsval;
  up_tags : option (list jsstr);
  up_isActive : option bool;
  up_expiresAt : jsval
}.

Section Save.
Context `{Platform}.

(** The paths [updateUrl] assigns. *)
Definition editable (u : Url.t)
  : option jsstr * option jsstr * list jsstr * bool * option date :=
  (Url.title u, Url.description u, Url.tags u, Url.isActive u,
   Url.expiresAt u).

(** [url.save()] of a document that was loaded as [this] and now reads
    [edited]; [castError] names a path that was assigned a value its type
    refuses. Mongoose validates the document, stamps [updatedAt] when a
    path is modified and writes the modified paths to the stored document
    of the same [_id]. *)
Definition Url_save (this edited : Url.t) (castError : option jsstr)
  : M Url.t :=
  match (match urlDocInvalidPath edited with
         | Some path => Some path
         | None => castError
         end) with
  | Some path => mthrow (ValidationError path)
  | None =>
      t ← now;
      let modified := bool_decide (editable edited ≠ editable this) in
      let stamp (old : date) := if modified then t else old in
      storage (λ w,
        match updateFirst (λ u, Url._id u =? Url._id this)
                (λ u, {| Url._id := Url._id u;
                         Url.originalUrl := Url.originalUrl u;
                         Url.shortCode := Url.shortCode u;
                         Url.customAlias := Url.customAlias u;
                         Url.user := Url.user u;
                         Url.title :=
                           written (Url.title this) (Url.title edited)
                             (Url.title u);
                         Url.description :=
                           written (Url.description this)
                             (Url.description edited) (Url.description u);
                         Url.clicks := Url.clicks u;
                         Url.isActive :=
                           written (Url.isActive this) (Url.isActive edited)
                             (Url.isActive u);
                         Url.expiresAt :=
                           written (Url.expiresAt this) (Url.expiresAt edited)
                             (Url.expiresAt u);
                         Url.tags :=
                           written (Url.tags this) (Url.tags edited)
                             (Url.tags u);
                         Url.lastClickedAt := Url.lastClickedAt u;
                         Url.createdAt := Url.createdAt u;
                         Url.updatedAt := stamp (Url.updatedAt u) |})
                (urls (db w)) with
        | Some urls' =>
            (Ok {| Url._id := Url._id edited;
                   Url.originalUrl := Url.originalUrl edited;
                   Url.shortCode := Url.shortCode edited;
                   Url.customAlias := Url.customAlias edited;
                   Url.user := Url.user edited;
                   Url.title := Url.title edited;
                   Url.description := Url.description edited;
                   Url.clicks := Url.clicks edited;
                   Url.isActive := Url.isActive edited;
                   Url.expiresAt := Url.expiresAt edited;
                   Url.tags := Url.tags edited;
                   Url.lastClickedAt := Url.lastClickedAt edited;
                   Url.createdAt := Url.createdAt edited;
                   Url.updatedAt := stamp (Url.updatedAt edited) |},
             mkDb urls' (clicks (db w)) (users (db w)))
        | None => (Throw (Err (js "DocumentNotFoundError")), db w)
        end)
  end.

(** The document in memory after the five assignments. *)
Definition assign (url : Url.t) (title description : option jsstr)
    (tags : list jsstr) (isActive : bool) (expiresAt : option date) : Url.t :=
  {| Url._id := Url._id url;
     Url.originalUrl := Url.originalUrl url;
     Url.shortCode := Url.shortCode url;
     Url.customAlias := Url.customAlias url;
     Url.user := Url.user url;
     Url.title := title;
     Url.description := description;
     Url.clicks := Url.clicks url;
     Url.isActive := isActive;
     Url.expiresAt := expiresAt;
     Url.tags := tags;
     Url.lastClickedAt := Url.lastClickedAt url;
     Url.createdAt := Url.createdAt url;
     Url.updatedAt := Url.updatedAt url |}.

(** [url.expiresAt = expirationDate]: the value the path takes, and the
    cast error of an invalid date. *)
Definition assignDate (old : option date) (d : DateVal)
  : option date * option jsstr :=
  match d with
  | ValidDate e => (Some e, None)
  | NullDate => (None, None)
  | InvalidDate => (old, Some (js "expiresAt"))
  end.

End Save.

(* ===================================================================== *)
(** ** controllers/url.controller.js *)
(* ===================================================================== *)

Module Controller.
Section Handlers.
Context `{Platform}.

Definition bad (message : string) : M Response :=
mret (Json 400 false (Some (js message)) NoData).

Definition createShortUrl (req : Request) : M Response :=
let originalUrl := body_originalUrl (body req) in
let customAlias := body_customAlias (body req) in
let title := body_title (body req) in
let description := body_description (body req) in
let expiresAt := body_expiresAt (body req) in
if negb (truthy originalUrl) then bad "Original URL is required"
else
  let normalizedUrl :=
    strOf (Short.normalizeUrl (JsStr (trim (strOf originalUrl)))) in
  if negb (isValidUrl normalizedUrl)
  then bad "Please provide a valid URL with http:// or https://"
  else
    aliasError ←
      (if truthy customAlias
       then try (validateCustomAlias (trim (strOf customAlias)) ≫= λ _, mret None)
                (λ error, mret (Some error))
       else mret None);
    match aliasError with
    | Some error =>
        mret (Json 400 false (Some (errorMessage error)) NoData)
    | None =>
        existingUrl ←
          match user req with
          | Some uid => Url_findOne (sameDestination normalizedUrl uid)
          | None => mret None
          end;
        match existingUrl with
        | Some existingUrl =>
            mret (Json 200 true (Some (js "URL already shortened"))
                    (UrlPayload existingUrl None))
        | None =>
            shortCode ←
              (if truthy customAlias then mret (trim (strOf customAlias))
               else ShortGen.generateShortCode 6);
            t ← now;
            let expirationDate :=
              if truthy expiresAt then newDate expiresAt else NullDate in
            if match expirationDate with
               | ValidDate e => (e <=? t)%Z
               | _ => false
               end
            then bad "Expiration date must be in the future"
            else
              let urlData :=
                {| ud_originalUrl := normalizedUrl;
                   ud_shortCode := shortCode;
                   ud_customAlias :=
                     if truthy customAlias
                     then Some (trim (strOf customAlias)) else None;
                   ud_user := user req;
                   ud_title :=
                     if truthy title then trim (strOf title)
                     else extractDomain normalizedUrl;
                   ud_description :=
                     if truthy description
                     then Some (trim (strOf description)) else None;
                   ud_tags := cleanTags (body_tags (body req));
                   ud_expiresAt := expirationDate |} in
              url ← Url_create urlData;
              match user req with
              | Some uid => User_findByIdAndUpdate_inc uid 1 0
              | None => mret tt
              end;;
              let qrCodeUrl :=
                generateQRCode (protocol req ++ js "://" ++ host req
                                ++ js "/" ++ shortCode) in
              mret (Json 201 true
                      (Some (js "Short URL created successfully"))
                      (UrlPayload url (Some qrCodeUrl)))
        end
    end.

Definition deleteUrl (req : Request) : M Response :=
withUser req (λ uid,
  url ← Url_findOne (ownedBy (param_id req) uid);
  match url with
  | None => mret (Json 404 false (Some (js "URL not found")) NoData)
  | Some url =>
      Click_deleteMany (Url._id url);;
      Url_findByIdAndDelete (Url._id url);;
      User_findByIdAndUpdate_inc uid (-1) (- Url.clicks url);;
      mret (Json 200 true (Some (js "URL deleted successfully")) NoData)
  end).

Definition redirectUrl (req : Request) : M Response :=
let shortCode := param_shortCode req in
url ← Url_findOne (activeCode shortCode);
match url with
| None => mret (Json 404 false (Some (js "Short URL not found")) NoData)
| Some url =>
    t ← now;
    if Url.isExpired t url
    then mret (Json 410 false (Some (js "Short URL has expired")) NoData)
    else
      let clientIP := getClientIP req in
      let userAgent := orStr (header req "user-agent") [] in
      let referer := refererOf req in
      let isBotRequest := isBot (JsStr userAgent) in
      (if negb isBotRequest then
         let parsedUA := parseUserAgent (JsStr userAgent) in
         let geolocation := getGeolocation clientIP in
         t ← now;
         let clickData :=
           {| cd_url := Url._id url;
              cd_user := user req;
              cd_ipAddress := clientIP;
              cd_userAgent := userAgent;
              cd_referer := referer;
              cd_country := Some (geo_country geolocation);
              cd_city := Some (geo_city geolocation);
              cd_browser := ua_browser parsedUA;
              cd_os := ua_os parsedUA;
              cd_device := ua_device parsedUA;
              cd_timestamp := Some t |} in
         Click_create clickData;;
         incrementClicks url;;
         match Url.user url with
         | Some owner => User_findByIdAndUpdate_inc owner 0 1
         | None => mret tt
         end
       else mret tt);;
      mret (Redirect 301 (Url.originalUrl url))
end.

(** The [switch] over [period]. *)
Definition periodDays (period : jsstr) : Z :=
if streq period (js "24h") then 1
else if streq period (js "7d") then 7
else if streq period (js "30d") then 30
else if streq period (js "90d") then 90
else 7.

Definition dateRange (q : Query) : M (DateVal * DateVal) :=
if truthy (startDate q) && truthy (endDate q)
then mret (newDate (startDate q), newDate (endDate q))
else
  t ← now;
  let period := match period q with
                | JsUndefined => js "7d"
                | v => strOf v
                end in
  mret (ValidDate (t - periodDays period * day), ValidDate t).

(** The chart entry of a group: its [_id] as it is. *)
Definition entry (g : option jsstr * nat) : ChartEntry :=
mkEntry (match fst g with Some s => JsStr s | None => JsNull end) (snd g).

Definition getUrlAnalytics (req : Request) : M Response :=
withUser req (λ uid,
  url ← Url_findOne (ownedBy (param_id req) uid);
  match url with
  | None => mret (Json 404 false (Some (js "URL not found")) NoData)
  | Some url =>
      '(start, end_) ← dateRange (query_ req);
      let cs := matched (Url._id url) (bsonDate start) (bsonDate end_) in
      '(totalStats, (byDate, (countries, (browsers, (oss, (devices, recent))))))
        ← both (query (λ d, summaryFacet (cs d)))
           (both (query (λ d,
                    take 100 (sortById (groupCount
                      (map (λ c, dateToString (Click.timestamp c)) (cs d))))))
           (both (query (λ d, top10 byCountry (cs d)))
           (both (query (λ d, top10 byBrowser (cs d)))
           (both (query (λ d, top10 byOS (cs d)))
           (both (query (λ d, allDesc byDevice (cs d)))
                 (s ← castDate start;
                  e ← castDate end_;
                  query (λ d, take 50
                           (sortRecent (matched (Url._id url) s e d)))))))));
      let analytics :=
        {| a_url := urlInfo url;
           a_start := bsonDate start;
           a_end := bsonDate end_;
           summary := default (mkSummary 0 0) (head totalStats);
           clicksByDate := byDate;
           clicksByCountry := map entry countries;
           clicksByBrowser := map entry browsers;
           clicksByOS := map entry oss;
           clicksByDevice := map entry devices;
           recentClicks := recent |} in
      mret (Json 200 true None (AnalyticsPayload analytics))
  end).

Definition getUrlDetails (req : Request) : M Response :=
withUser req (λ uid,
  url ← Url_findOne (ownedBy (param_id req) uid);
  match url with
  | None => mret (Json 404 false (Some (js "URL not found")) NoData)
  | Some url =>
      let qrCodeUrl :=
        generateQRCode (protocol req ++ js "://" ++ host req
                        ++ js "/" ++ Url.shortCode url) in
      mret (Json 200 true None (UrlPayload url (Some qrCodeUrl)))
  end).

(** [v.trim()] of a value that is not [undefined]. *)
Definition trimOf (v : jsval) : M jsstr :=
match v with
| JsStr s => mret (trim s)
| _ => mthrow (Err (js "TypeError: Cannot read properties of null (reading 'trim')"))
end.

Definition updateUrl (req : Request) (update : UpdateBody) : M Response :=
withUser req (λ uid,
  url ← Url_findOne (ownedBy (param_id req) uid);
  match url with
  | None => mret (Json 404 false (Some (js "URL not found")) NoData)
  | Some url =>
      title ← match up_title update with
              | JsUndefined => mret (Url.title url)
              | title => t ← trimOf title; mret (Some (trim t))
              end;
      description ← match up_description update with
                    | JsUndefined => mret (Url.description url)
                    | description => d ← trimOf description; mret (Some (trim d))
                    end;
      let tags := match up_tags update with
                  | None => Url.tags url
                  | Some tags => map trim (cleanTags (Some tags))
                  end in
      let isActive := default (Url.isActive url) (up_isActive update) in
      match up_expiresAt update with
      | JsUndefined =>
          mret (inr (Url.expiresAt url, None))
      | expiresAt =>
          if truthy expiresAt then
            let expirationDate := newDate expiresAt in
            t ← now;
            if match expirationDate with
               | ValidDate e => (e <=? t)%Z
               | _ => false
               end
            then mret (inl (Json 400 false
                              (Some (js "Expiration date must be in the future"))
                              NoData))
            else mret (inr (assignDate (Url.expiresAt url) expirationDate))
          else mret (inr (None, None))
      end ≫= λ expires,
      match expires with
      | inl response => mret response
      | inr (expiresAt, castError) =>
          url ← Url_save url
                  (assign url title description tags isActive expiresAt)
                  castError;
          mret (Json 200 true (Some (js "URL updated successfully"))
                  (UrlPayload url None))
      end
  end).

End Handlers.
End Controller.

(* ===================================================================== *)
(** ** The refactored controllers/url.controller.js *)
(* ===================================================================== *)

Module Refactored.
Section Handlers.
Context `{Platform}.

Definition bad (message : string) : M Response :=
mret (Json 400 false (Some (js message)) NoData).

Definition findUrlForUser (urlId userId : oid) : M (option Url.t) :=
Url_findOne (ownedBy urlId userId).

Definition trackClick (url : Url.t) (req : Request) : M unit :=
let userAgent := orStr (header req "user-agent") [] in
if isBot (JsStr userAgent) then mret tt
else
  let clientIP := getClientIP req in
  let referer := refererOf req in
  let parsedUA := parseUserAgent (JsStr userAgent) in
  let geolocation := getGeolocation clientIP in
  let clickData :=
    {| cd_url := Url._id url;
       cd_user := None;
       cd_ipAddress := clientIP;
       cd_userAgent := userAgent;
       cd_referer := referer;
       cd_country := Some (geo_country geolocation);
       cd_city := Some (geo_city geolocation);
       cd_browser := ua_browser parsedUA;
       cd_os := ua_os parsedUA;
       cd_device := ua_device parsedUA;
       cd_timestamp := None |} in
  promiseAll3
    (Click_create clickData ≫= λ _, mret tt)
    (incrementClicks url)
    (match Url.user url with
     | Some owner => User_findByIdAndUpdate_inc owner 0 1
     | None => mret tt
     end).

(** [{ '24h': 1, '7d': 7, '30d': 30, '90d': 90 }[period] || 7]: [None]
  when the lookup finds an inherited property, which multiplies to
  [NaN]. *)
Definition daysToSubtract (period : jsstr) : option Z :=
if streq period (js "24h") then Some 1%Z
else if streq period (js "7d") then Some 7%Z
else if streq period (js "30d") then Some 30%Z
else if streq period (js "90d") then Some 90%Z
else if bool_decide (period ∈ objectPrototypeKeys) then None
else Some 7%Z.

Definition getDateRange (q : Query) : M (DateVal * DateVal) :=
if truthy (startDate q) && truthy (endDate q)
then mret (newDate (startDate q), newDate (endDate q))
else
  t ← now;
  let period := match period q with
                | JsUndefined => js "7d"
                | v => strOf v
                end in
  mret (match daysToSubtract period with
        | Some n => ValidDate (t - n * day)
        | None => InvalidDate
        end, ValidDate t).

Definition createShortUrl (req : Request) : M Response :=
let originalUrl := body_originalUrl (body req) in
let customAlias := body_customAlias (body req) in
let title := body_title (body req) in
let description := body_description (body req) in
let expiresAt := body_expiresAt (body req) in
let userId := user req in
if negb (truthy originalUrl) then bad "Original URL is required"
else
  let normalizedUrl :=
    strOf (Short.normalizeUrl (JsStr (trim (strOf originalUrl)))) in
  if negb (isValidUrl normalizedUrl)
  then bad "A valid URL with http:// or https:// is required"
  else
    existingUrl ←
      match userId with
      | Some uid => Url_findOne (sameDestination normalizedUrl uid)
      | None => mret None
      end;
    match existingUrl with
    | Some existingUrl =>
        mret (Json 200 true (Some (js "URL already shortened"))
                (UrlPayload existingUrl None))
    | None =>
        shortCode ←
          (if truthy customAlias then mret (trim (strOf customAlias))
           else ShortGen.generateShortCode 6);
        aliasError ←
          (if truthy customAlias
           then try (validateCustomAlias shortCode ≫= λ _, mret None)
                    (λ error, mret (Some error))
           else mret None);
        match aliasError with
        | Some error =>
            mret (Json 400 false (Some (errorMessage error)) NoData)
        | None =>
            t ← now;
            let expirationDate :=
              if truthy expiresAt then newDate expiresAt else NullDate in
            if match expirationDate with
               | ValidDate e => (e <=? t)%Z
               | _ => false
               end
            then bad "Expiration date must be in the future"
            else
              let urlData :=
                {| ud_originalUrl := normalizedUrl;
                   ud_shortCode := shortCode;
                   ud_customAlias :=
                     if truthy customAlias then Some shortCode else None;
                   ud_user := userId;
                   ud_title :=
                     match trim (strOf title) with
                     | [] => extractDomain normalizedUrl
                     | c :: r => c :: r
                     end;
                   ud_description :=
                     match description with
                     | JsStr d => Some (trim d)
                     | _ => None
                     end;
                   ud_tags := cleanTags (body_tags (body req));
                   ud_expiresAt := expirationDate |} in
              newUrl ← Url_create urlData;
              match userId with
              | Some uid => User_findByIdAndUpdate_inc uid 1 0
              | None => mret tt
              end;;
              let qrCode :=
                generateQRCode (protocol req ++ js "://" ++ host req
                                ++ js "/" ++ Url.shortCode newUrl) in
              mret (Json 201 true
                      (Some (js "Short URL created successfully"))
                      (UrlPayload newUrl (Some qrCode)))
        end
    end.

Definition deleteUrl (req : Request) : M Response :=
withUser req (λ uid,
  url ← findUrlForUser (param_id req) uid;
  match url with
  | None => mret (Json 404 false (Some (js "URL not found")) NoData)
  | Some url =>
      promiseAll3
        (Click_deleteMany (Url._id url))
        (Url_findByIdAndDelete (Url._id url))
        (User_findByIdAndUpdate_inc uid (-1) (- Url.clicks url));;
      mret (Json 200 true (Some (js "URL and associated data deleted"))
              NoData)
  end).

Definition redirectUrl (req : Request) : M Response :=
let shortCode := param_shortCode req in
url ← Url_findOne (activeCode shortCode);
match url with
| None => mret (Json 404 false (Some (js "Short URL not found")) NoData)
| Some url =>
    t ← now;
    if Url.isExpired t url
    then mret (Json 410 false (Some (js "This short URL has expired")) NoData)
    else
      try (trackClick url req)
          (λ err, consoleError (js "Failed to track click:") err);;
      mret (Redirect 301 (Url.originalUrl url))
end.

(** The chart entry of a group: [i._id || fallback]. *)
Definition entry (fallback : string) (g : option jsstr * nat) : ChartEntry :=
mkEntry (JsStr (orStr (match fst g with
                       | Some s => JsStr s
                       | None => JsNull
                       end) (js fallback))) (snd g).

Record Facets : Type := mkFacets {
f_summary : list Summary;
f_clicksByDate : list (jsstr * nat);
f_clicksByCountry : list (option jsstr * nat);
f_clicksByBrowser : list (option jsstr * nat);
f_clicksByOS : list (option jsstr * nat);
f_clicksByDevice : list (option jsstr * nat)
}.

(** The [$match] and [$facet] stages of [analyticsPipeline]. *)
Definition analyticsPipeline (id : oid) (start end_ : date) (d : Db)
: Facets :=
let cs := matched id start end_ d in
{| f_summary := summaryFacet cs;
   f_clicksByDate :=
     sortById (groupCount
                 (map (λ c, dateToString (Click.timestamp c)) cs));
   f_clicksByCountry := top10 byCountry cs;
   f_clicksByBrowser := top10 byBrowser cs;
   f_clicksByOS := top10 byOS cs;
   f_clicksByDevice := allDesc byDevice cs |}.

Definition getUrlAnalytics (req : Request) : M Response :=
withUser req (λ uid,
  url ← findUrlForUser (param_id req) uid;
  match url with
  | None => mret (Json 404 false (Some (js "URL not found")) NoData)
  | Some url =>
      '(start, end_) ← getDateRange (query_ req);
      analyticsResult ←
        query (analyticsPipeline (Url._id url) (bsonDate start)
                 (bsonDate end_));
      s ← castDate start;
      e ← castDate end_;
      recent ← query (λ d, take 50 (sortRecent (matched (Url._id url) s e d)));
      let analytics :=
        {| a_url := urlInfo url;
           a_start := bsonDate start;
           a_end := bsonDate end_;
           summary := default (mkSummary 0 0)
                        (head (f_summary analyticsResult));
           clicksByDate := f_clicksByDate analyticsResult;
           clicksByCountry :=
             map (entry "Unknown") (f_clicksByCountry analyticsResult);
           clicksByBrowser :=
             map (entry "Unknown") (f_clicksByBrowser analyticsResult);
           clicksByOS :=
             map (entry "Unknown") (f_clicksByOS analyticsResult);
           clicksByDevice :=
             map (entry "desktop") (f_clicksByDevice analyticsResult);
           recentClicks := recent |} in
      mret (Json 200 true None (AnalyticsPayload analytics))
  end).

Definition getUrlDetails (req : Request) : M Response :=
withUser req (λ uid,
  url ← findUrlForUser (param_id req) uid;
  match url with
  | None => mret (Json 404 false (Some (js "URL not found")) NoData)
  | Some url =>
      let qrCode :=
        generateQRCode (protocol req ++ js "://" ++ host req
                        ++ js "/" ++ Url.shortCode url) in
      mret (Json 200 true None (UrlPayload url (Some qrCode)))
  end).

(** [url[field] = req.body[field]] for a string path: the setter trims. *)
Definition assignString (old : option jsstr) (v : jsval) : option jsstr :=
match v with
| JsUndefined => old
| JsNull => None
| JsStr s => Some (trim s)
end.

(** The [forEach] over [updatableFields] runs before the document is
  saved; the error of a past expiration leaves the handler. *)
Definition updateUrl (req : Request) (update : UpdateBody) : M Response :=
withUser req (λ uid,
  url ← findUrlForUser (param_id req) uid;
  match url with
  | None => mret (Json 404 false (Some (js "URL not found")) NoData)
  | Some url =>
      let title := assignString (Url.title url) (up_title update) in
      let description :=
        assignString (Url.description url) (up_description update) in
      let tags := match up_tags update with
                  | None => Url.tags url
                  | Some tags => map trim (cleanTags (Some tags))
                  end in
      let isActive := default (Url.isActive url) (up_isActive update) in
      '(expiresAt, castError) ←
        match up_expiresAt update with
        | JsUndefined => mret (Url.expiresAt url, None)
        | expiresAt =>
            if truthy expiresAt then
              let expirationDate := newDate expiresAt in
              t ← now;
              if match expirationDate with
                 | ValidDate e => (e <=? t)%Z
                 | _ => false
                 end
              then mthrow (Err (js "Expiration date must be in the future"))
              else mret (assignDate (Url.expiresAt url) expirationDate)
            else mret (None, None)
        end;
      url ← Url_save url
              (assign url title description tags isActive expiresAt)
              castError;
      mret (Json 200 true (Some (js "URL updated successfully"))
              (UrlPayload url None))
  end).

End Handlers.
End Refactored.

(* ===================================================================== *)
(** ** Predicates of the statements *)
(* ===================================================================== *)

(** Every response the computation returns satisfies [P]. *)
Definition answers (P : Response → Prop) (m : M Response) : Prop :=
  ∀ w r w', m w = (Ok r, w') → P r.

(** A JSON response with status 400 or 201, or none at all. *)
Definition rejectedOrCreated (r : Response) : Prop :=
  match r with
  | Json status _ _ _ => status = 400 ∨ status = 201
  | _ => True
  end.

(** The report that a response carries. *)
Definition reportOf (r : Response) : option Analytics :=
  match r with
  | Json _ _ _ (AnalyticsPayload a) => Some a
  | _ => None
  end.

(** A chart as the pairs of its labels and counts. *)
Definition chart (entries : list ChartEntry) : list (jsval * nat) :=
  map (λ e, (label e, entry_clicks e)) entries.

(** The number of the clicks [cs] whose dimension [key] has the value [k]. *)
Definition clicksWith (key : Click.t → option jsstr) (k : option jsstr)
    (cs : list Click.t) : nat :=
  length (filter (λ c, key c = k) cs).

(** Earlier entries count at least as many clicks as later ones. *)
Definition descending (groups : list (option jsstr * nat)) : Prop :=
  StronglySorted (λ x y, (snd y ≤ snd x)%nat) groups.

(** [groups] are the ten most clicked values of the dimension [key] among
    the clicks [cs]: one entry for a value, with the number of its clicks,
    most clicked first, and no value left out has more clicks than one that
    is listed. *)
Definition topGroups (key : Click.t → option jsstr) (cs : list Click.t)
    (groups : list (option jsstr * nat)) : Prop :=
  NoDup (map fst groups)
  ∧ (∀ k n, (k, n) ∈ groups → n = clicksWith key k cs ∧ (0 < n)%nat)
  ∧ descending groups
  ∧ (length groups ≤ 10)%nat
  ∧ (∀ k, (0 < clicksWith key k cs)%nat → k ∉ map fst groups →
       length groups = 10%nat
       ∧ ∀ g, g ∈ groups → (clicksWith key k cs ≤ snd g)%nat).

(** The computation keeps the property [K] of the collections and of the
    supply of identifiers, whatever it returns and whichever storage calls
    are rejected. *)
Definition keeps {A} (K : Db → oid → Prop) (m : M A) : Prop :=
  ∀ w, K (db w) (nextId w) → K (db (m w).2) (nextId (m w).2).

(** [a] is a value the computation can return. *)
Definition yields {A} (m : M A) (a : A) : Prop :=
  ∃ w w', m w = (Ok a, w').

Section WellFormed.
Context `{Platform}.

(** A stored link passes the validators of its schema, and its destination
    starts with [http://] or [https://]. *)
Definition validUrl (u : Url.t) : Prop :=
  urlDocInvalidPath u = None ∧ hasHttpScheme (Url.originalUrl u) = true.

(** A stored click has an address the schema accepts, a user agent, and a
    value for each dimension of the report. *)
Definition validClick (c : Click.t) : Prop :=
  ipAddressValidator (Click.ipAddress c) = true
  ∧ Click.userAgent c ≠ []
  ∧ is_Some (Click.country c)
  ∧ is_Some (Click.name (Click.browser c))
  ∧ is_Some (Click.name (Click.os c))
  ∧ ∃ t, Click.type (Click.device c) = Some t ∧ t ∈ deviceTypes.

(** What the handlers maintain of the collections: no two links share a
    short code or an identifier, the identifiers in use are below the
    supply, and every link and every click is valid. *)
Definition wellFormed (d : Db) (next : oid) : Prop :=
  NoDup (map Url.shortCode (urls d))
  ∧ NoDup (map Url._id (urls d))
  ∧ Forall (λ u, Url._id u < next) (urls d)
  ∧ Forall validUrl (urls d)
  ∧ Forall validClick (clicks d).

End WellFormed.

(** The paths of a link that [updateUrl] does not assign. *)
Definition fixedPaths (u : Url.t)
  : oid * jsstr * jsstr * option jsstr * option oid * Z * option date * date :=
  (Url._id u, Url.originalUrl u, Url.shortCode u, Url.customAlias u,
   Url.user u, Url.clicks u, Url.lastClickedAt u, Url.createdAt u).

(** From [d] to [d'] nothing changed but assignable paths of links with
    the identifier [id]. *)
Definition editedOnly (id : oid) (d d' : Db) : Prop :=
  clicks d' = clicks d
  ∧ users d' = users d
  ∧ Forall2 (λ u u', fixedPaths u' = fixedPaths u
                     ∧ (Url._id u ≠ id → u' = u))
      (urls d) (urls d').

(** From [d] to [d'] nothing changed but what belongs to the link [id] of
    the user [uid]: links and clicks were only removed, the links that stay
    are as they were, a link with another identifier and a click on
    another link stay, and the aggregate of every other user is as it
    was. *)
Definition removedOnly (id uid : oid) (d d' : Db) : Prop :=
  urls d' `sublist_of` urls d
  ∧ (∀ u, u ∈ urls d → Url._id u ≠ id → u ∈ urls d')
  ∧ clicks d' `sublist_of` clicks d
  ∧ (∀ c, c ∈ clicks d → Click.url c ≠ id → c ∈ clicks d')
  ∧ (∀ o, o ≠ uid → users d' !! o = users d !! o).

(** Later clicks come before earlier ones. *)
Definition newestFirst (cs : list Click.t) : Prop :=
  StronglySorted (λ x y, (Click.timestamp y ≤ Click.timestamp x)%Z) cs.

(** Every error the computation throws satisfies [P]. *)
Definition raises {A} (P : Error → Prop) (m : M A) : Prop :=
  ∀ w e w', m w = (Throw e, w') → P e.

(** The shape both alias checks ask for. *)
Definition aliasShaped (alias : jsstr) : Prop :=
  matchesCodePattern alias = true ∧ (3 ≤ length alias ≤ 50)%nat.

(** No stored link has [alias] as its short code or as its alias. *)
Definition aliasFree (alias : jsstr) (d : Db) : Prop :=
  ∀ u, u ∈ urls d →
    Url.shortCode u ≠ alias ∧ Url.customAlias u ≠ Some alias.

(** Every value the computation returns satisfies [P]. *)
Definition returns {A} (P : A → Prop) (m : M A) : Prop :=
  ∀ w a w', m w = (Ok a, w') → P a.

(** The validators of the path [shortCode] of the url schema. *)
Definition shortCodeValid (code : jsstr) : bool :=
  requiredString (trim code) && minlength 3 (trim code)
  && maxlength 20 (trim code) && matchesCodePattern (trim code).

(** From [d] to [d'] links were only added, after the ones that were
    there, the clicks stay, and no aggregate changes but the one of
    [owner]. *)
Definition addedOnly (owner : option oid) (d d' : Db) : Prop :=
  (∃ new, urls d' = urls d ++ new)
  ∧ clicks d' = clicks d
  ∧ (∀ o, owner ≠ Some o → users d' !! o = users d !! o).

(** From [d] to [d'] clicks were only added, after the ones that were
    there; no link appears or disappears, a link changes in its counter and
    its time stamps only, and only when its identifier is [id]; and no
    aggregate changes but the one of [owner]. *)
Definition clickedOnly (id : oid) (owner : option oid) (d d' : Db) : Prop :=
  (∃ new, clicks d' = clicks d ++ new)
  ∧ Forall2 (λ u u',
       (Url._id u', Url.originalUrl u', Url.shortCode u', Url.customAlias u',
        Url.user u', Url.title u', Url.description u', Url.isActive u',
        Url.expiresAt u', Url.tags u', Url.createdAt u')
       = (Url._id u, Url.originalUrl u, Url.shortCode u, Url.customAlias u,
          Url.user u, Url.title u, Url.description u, Url.isActive u,
          Url.expiresAt u, Url.tags u, Url.createdAt u)
       ∧ (Url._id u ≠ id → u' = u))
      (urls d) (urls d')
  ∧ (∀ o, owner ≠ Some o → users d' !! o = users d !! o).

(** The computation leaves the clock alone. *)
Definition steady {A} (m : M A) : Prop :=
  ∀ w, clock (m w).2 = clock w.

Section Created.
Context `{Platform}.

(** What a request has created when [url] is the new link: the store
    before, the store after, and the link. *)
Definition createdBy (req : Request) (w w' : World) (url : Url.t) : Prop :=
  let alias := body_customAlias (body req) in
  urls (db w') = urls (db w) ++ [url]
  ∧ clicks (db w') = clicks (db w)
  ∧ users (db w')
    = match user req with
      | Some uid => alter (User.inc 1 0) uid (users (db w))
      | None => users (db w)
      end
  ∧ (∀ u, u ∈ urls (db w) → Url.shortCode u ≠ Url.shortCode url)
  ∧ urlDocInvalidPath url = None
  ∧ Url.originalUrl url = normalized (strOf (body_originalUrl (body req)))
  ∧ hasHttpScheme (Url.originalUrl url) = true
  ∧ Url.user url = user req
  ∧ Url.clicks url = 0%Z
  ∧ Url.isActive url = true
  ∧ Url.lastClickedAt url = None
  ∧ Url.createdAt url = clock w
  ∧ match Url.expiresAt url with
    | Some e => (clock w < e)%Z
    | None => True
    end
  ∧ if truthy alias
    then Url.shortCode url = trim (strOf alias)
         ∧ Url.customAlias url = Some (trim (strOf alias))
    else Url.customAlias url = None
         ∧ Forall (λ c, isAlpha c || isDigit c = true) (Url.shortCode url)
         ∧ (6 ≤ length (Url.shortCode url) ≤ 15)%nat.

End Created.

(** From [w] to [w'] one visit of the stored link [u] was recorded: one
    valid click of [visitor] from [address] at the time of [w] was added,
    the link [u] keeps its place and counts one click more, as a Number
    does, and was last clicked at that time, and the owner of [u] counts
    one click more. *)
Definition recordedClick (u : Url.t) (visitor : option oid)
    (address : jsstr) (w w' : World) : Prop :=
  (∃ c, clicks (db w') = clicks (db w) ++ [c]
        ∧ Click.url c = Url._id u
        ∧ Click.user c = visitor
        ∧ Click.ipAddress c = address
        ∧ Click.timestamp c = clock w
        ∧ validClick c)
  ∧ (∃ l1 x' l2,
       urls (db w) = l1 ++ u :: l2
       ∧ urls (db w') = l1 ++ x' :: l2
       ∧ Url.clicks x' = toNumber (Url.clicks u + 1)
       ∧ Url.lastClickedAt x' = Some (clock w))
  ∧ users (db w')
    = match Url.user u with
      | Some owner => alter (User.inc 0 1) owner (users (db w))
      | None => users (db w)
      end.

(** Every stored click is a click on a stored link. *)
Definition referenced (d : Db) : Prop :=
  ∀ c, c ∈ clicks d → Click.url c ∈ map Url._id (urls d).

(** A schedule of the event loop. The handlers give way at every [await],
    and no transaction ties the storage calls of [deleteUrl] together:
    Node can serve [other], another request, to its end after the clicks
    of the link are removed and before the link is. Whatever [other]
    answers or throws goes to its own client. *)
Definition deleteUrlInterleaved (other : M Response) (req : Request)
  : M Response :=
  withUser req (λ uid,
    url ← Url_findOne (ownedBy (param_id req) uid);
    match url with
    | None => mret (Json 404 false (Some (js "URL not found")) NoData)
    | Some url =>
        Click_deleteMany (Url._id url);;
        try (other ≫= λ _, mret tt) (λ _, mret tt);;
        Url_findByIdAndDelete (Url._id url);;
        User_findByIdAndUpdate_inc uid (-1) (- Url.clicks url);;
        mret (Json 200 true (Some (js "URL deleted successfully")) NoData)
    end).








Section Assigned.
Context `{Platform}.

(** The link [url'] is the link [u] after the assignments of the body
    [update] at the time [t]: strings trimmed, tags trimmed and the empty
    ones dropped, a given expiration parsed and later than [t], and every
    other path as it was. *)
Definition assignedFrom (update : UpdateBody) (t : date) (u url' : Url.t)
  : Prop :=
  fixedPaths url' = fixedPaths u
  ∧ Url.title url' = match up_title update with
                     | JsUndefined => Url.title u
                     | JsNull => None
                     | JsStr s => Some (trim s)
                     end
  ∧ Url.description url' = match up_description update with
                           | JsUndefined => Url.description u
                           | JsNull => None
                           | JsStr s => Some (trim s)
                           end
  ∧ Url.tags url' = match up_tags update with
                    | None => Url.tags u
                    | Some tags => List.filter requiredString (map trim tags)
                    end
  ∧ Url.isActive url' = default (Url.isActive u) (up_isActive update)
  ∧ match up_expiresAt update with
    | JsUndefined => Url.expiresAt url' = Url.expiresAt u
    | JsStr (c :: s) =>
        ∃ e, parseDate (c :: s) = Some e ∧ (t < e)%Z
             ∧ Url.expiresAt url' = Some e
    | _ => Url.expiresAt url' = None
    end.

End Assigned.

(** The code that [generateShortCode] of utils/short.js draws in the world
    [w] for the length [len], [nanoid(len)] with its two symbols replaced,
    and the world after the draws. *)
Definition shortCandidate (len : nat) (w : World) : jsstr * World :=
  match (raw ← nanoid len; replaceSymbols raw) w with
  | (Ok code, w') => (code, w')
  | (Throw _, w') => ([], w')
  end.

(** The first [n] codes it draws from [w] on when each of them collides: a
    collision costs one lookup, and the next code is drawn afresh and is
    one character longer. *)
Fixpoint shortCandidates (n len : nat) (w : World) : list jsstr :=
  match n with
  | O => []
  | S n' =>
      let (code, w1) := shortCandidate len w in
      code :: shortCandidates n' (S len) (tick w1)
  end.

(** The codes that [generateShortCode] of utils/short1.js draws: each is a
    fresh [nanoid(len)] of the same length. *)
Definition short1Candidate (len : nat) (w : World) : jsstr * World :=
  match nanoid len w with
  | (Ok code, w') => (code, w')
  | (Throw _, w') => ([], w')
  end.

Fixpoint short1Candidates (n len : nat) (w : World) : list jsstr :=
  match n with
  | O => []
  | S n' =>
      let (code, w1) := short1Candidate len w in
      code :: short1Candidates n' len (tick w1)
  end.

(* ===================================================================== *)
(** ** A small world for the examples *)
(* ===================================================================== *)

Module Sample.

Definition parseSimple (s : jsstr) : option (jsstr * jsstr) :=
  let host (n : nat) := takeClass (λ c, negb (c =? 47)) (drop n s) in
  if startsWithCI (js "https://") s then Some (js "https:", host 8%nat)
  else if startsWithCI (js "http://") s then Some (js "http:", host 7%nat)
  else None.

(** Stand-ins for the platform: enough of it to run the handlers. *)
Definition platform : Platform :=
  {| isURL := hasHttpScheme;
     parseURL := parseSimple;
     parseDate := λ _, None;
     encodeURIComponent := id;
     libraryMessage := λ _, js "error";
     dateToString := λ t, [Z.to_N (t / day)] |}.

Definition owner : oid := 7.

Definition link : Url.t :=
  {| Url._id := 1;
     Url.originalUrl := js "https://example.com/page";
     Url.shortCode := js "abc123";
     Url.customAlias := None;
     Url.user := Some owner;
     Url.title := Some (js "example.com");
     Url.description := None;
     Url.clicks := 2;
     Url.isActive := true;
     Url.expiresAt := None;
     Url.tags := [];
     Url.lastClickedAt := None;
     Url.createdAt := 10;
     Url.updatedAt := 10 |}.

Definition click (id : oid) (country : option jsstr) (t : date) : Click.t :=
  {| Click._id := id;
     Click.url := 1;
     Click.user := None;
     Click.ipAddress := js "203.0.113.9";
     Click.userAgent := js "Mozilla/5.0";
     Click.referer := None;
     Click.country := country;
     Click.city := Some (js "Unknown");
     Click.browser := Click.mkAgent (Some (js "Firefox")) (Some (js "120.0"));
     Click.os := Click.mkAgent (Some (js "Linux")) (Some (js "Unknown"));
     Click.device := Click.mkDevice (Some (js "desktop")) (Some (js "Unknown"))
                       (Some (js "Unknown"));
     Click.timestamp := t |}.

Definition store : Db :=
  mkDb [link] [click 50 (Some (js "US")) 100; click 51 (Some (js "DE")) 200]
    {[ owner := User.mk 1 2 ]}.

(** No storage call is rejected; the random source yields [0] forever. *)
Definition world : World :=
  mkWorld store 100 1000 (λ _, 0) 0 (λ _, false) 0 [].

(** The same world with the storage call number [n] rejected. *)
Definition rejecting (n : nat) : World :=
  mkWorld store 100 1000 (λ _, 0) 0 (λ k, bool_decide (k = n)) 0 [].

Definition noBody : Body :=
  mkBody JsUndefined JsUndefined JsUndefined JsUndefined None JsUndefined.

Definition noQuery : Query := mkQuery JsUndefined JsUndefined JsUndefined.

(** [GET /abc123] with the given headers, from the given address. *)
Definition get (hs : list (string * string)) (address : string) : Request :=
  {| headers := list_to_map (map (λ h, (js h.1, js h.2)) hs);
     remoteAddress := JsStr (js address);
     ip := JsUndefined;
     param_shortCode := js "abc123";
     param_id := 1;
     user := None;
     body := noBody;
     query_ := noQuery;
     protocol := js "https";
     host := js "sho.rt" |}.

(** [GET /abc123%20]: Express decodes the parameter to the code with a
    space behind it. *)
Definition padded : Request :=
  {| headers := {[ js "user-agent" := js "Mozilla/5.0 (X11; Linux x86_64) Firefox/120.0" ]};
     remoteAddress := JsStr (js "203.0.113.9");
     ip := JsUndefined;
     param_shortCode := js "abc123 ";
     param_id := 1;
     user := None;
     body := noBody;
     query_ := noQuery;
     protocol := js "https";
     host := js "sho.rt" |}.

(** The registry when the title of the link has 201 characters, one more
    than the url schema allows. *)
Definition titled : World :=
  mkWorld
    (mkDb [{| Url._id := 1;
              Url.originalUrl := js "https://example.com/page";
              Url.shortCode := js "abc123";
              Url.customAlias := None;
              Url.user := Some owner;
              Url.title := Some (replicate 201 97);
              Url.description := None;
              Url.clicks := 2;
              Url.isActive := true;
              Url.expiresAt := None;
              Url.tags := [];
              Url.lastClickedAt := None;
              Url.createdAt := 10;
              Url.updatedAt := 10 |}]
       [] ∅)
    100 1000 (λ _, 0) 0 (λ _, false) 0 [].

(** A link of the owner with the given short code. *)
Definition linkWith (id : oid) (code : jsstr) : Url.t :=
  {| Url._id := id;
     Url.originalUrl := js "https://example.com/page";
     Url.shortCode := code;
     Url.customAlias := None;
     Url.user := Some owner;
     Url.title := None;
     Url.description := None;
     Url.clicks := 0;
     Url.isActive := true;
     Url.expiresAt := None;
     Url.tags := [];
     Url.lastClickedAt := None;
     Url.createdAt := 10;
     Url.updatedAt := 10 |}.

(** A world whose registry holds exactly the given short codes. *)
Definition taken (codes : list jsstr) : World :=
  mkWorld (mkDb (imap (λ i, linkWith (N.of_nat i)) codes) [] ∅)
    100 1000 (λ _, 0) 0 (λ _, false) 0 [].

(** [GET /abc123] with the given user agent. *)
Definition withAgent (userAgent : jsstr) : Request :=
  {| headers := {[ js "user-agent" := userAgent ]};
     remoteAddress := JsStr (js "203.0.113.9");
     ip := JsUndefined;
     param_shortCode := js "abc123";
     param_id := 1;
     user := None;
     body := noBody;
     query_ := noQuery;
     protocol := js "https";
     host := js "sho.rt" |}.

(** The body of [POST /api/urls] for a destination and an alias. *)
Definition shorten (originalUrl : string) (customAlias : jsval) : Body :=
  mkBody (JsStr (js originalUrl)) customAlias JsUndefined JsUndefined None
    JsUndefined.

(** An anonymous [POST /api/urls]. *)
Definition anonymous (b : Body) : Request :=
  {| headers := ∅;
     remoteAddress := JsStr (js "203.0.113.9");
     ip := JsUndefined;
     param_shortCode := [];
     param_id := 0;
     user := None;
     body := b;
     query_ := noQuery;
     protocol := js "https";
     host := js "sho.rt" |}.

(** The countries of eleven clicks: seven US, three DE, one Unknown. *)
Definition countries : list (option jsstr) :=
  map (λ c, Some (js c))
    ["US"; "DE"; "US"; "Unknown"; "US"; "DE"; "US"; "US"; "DE"; "US";
     "US"]%string.

(** The link with those eleven clicks inside the last seven days, one
    click after the end of the window, and one click on another link. *)
Definition clicked : World :=
  mkWorld
    (mkDb [link]
       (imap (λ i k, click (N.of_nat i) k (100 + Z.of_nat i)) countries
        ++ [click 900 (Some (js "FR")) 5000;
            {| Click._id := 901; Click.url := 2; Click.user := None;
               Click.ipAddress := js "203.0.113.9";
               Click.userAgent := js "Mozilla/5.0";
               Click.referer := None;
               Click.country := Some (js "FR");
               Click.city := None;
               Click.browser := Click.mkAgent None None;
               Click.os := Click.mkAgent None None;
               Click.device := Click.mkDevice None None None;
               Click.timestamp := 150 |}])
       {[ owner := User.mk 1 11 ]})
    100 1000 (λ _, 0) 0 (λ _, false) 0 [].

(** The link with one click that carries no value in any dimension. *)
Definition unlabelled : World :=
  mkWorld
    (mkDb [link]
       [{| Click._id := 60; Click.url := 1; Click.user := None;
           Click.ipAddress := js "203.0.113.9";
           Click.userAgent := js "Mozilla/5.0";
           Click.referer := None;
           Click.country := None;
           Click.city := None;
           Click.browser := Click.mkAgent None None;
           Click.os := Click.mkAgent None None;
           Click.device := Click.mkDevice None None None;
           Click.timestamp := 500 |}]
       {[ owner := User.mk 1 1 ]})
    100 1000 (λ _, 0) 0 (λ _, false) 0 [].


(** A request of the owner about the link. *)
Definition owned (b : Body) (q : Query) : Request :=
  {| headers := ∅;
     remoteAddress := JsStr (js "203.0.113.9");
     ip := JsUndefined;
     param_shortCode := [];
     param_id := 1;
     user := Some owner;
     body := b;
     query_ := q;
     protocol := js "https";
     host := js "sho.rt" |}.

(** A link of another user. *)
Definition other : Url.t :=
  {| Url._id := 2;
     Url.originalUrl := js "https://example.net/";
     Url.shortCode := js "xyz789";
     Url.customAlias := None;
     Url.user := Some 8;
     Url.title := Some (js "example.net");
     Url.description := None;
     Url.clicks := 1;
     Url.isActive := true;
     Url.expiresAt := None;
     Url.tags := [];
     Url.lastClickedAt := None;
     Url.createdAt := 20;
     Url.updatedAt := 20 |}.

(** The links of two users, one click on each; the storage calls that
    [fails] names are rejected. *)
Definition shared (fails : nat → bool) : World :=
  mkWorld
    (mkDb [link; other]
       [click 50 (Some (js "US")) 100;
        {| Click._id := 51; Click.url := 2; Click.user := None;
           Click.ipAddress := js "203.0.113.9";
           Click.userAgent := js "Mozilla/5.0";
           Click.referer := None;
           Click.country := Some (js "DE");
           Click.city := Some (js "Unknown");
           Click.browser := Click.mkAgent (Some (js "Firefox"))
                              (Some (js "120.0"));
           Click.os := Click.mkAgent (Some (js "Linux")) (Some (js "Unknown"));
           Click.device := Click.mkDevice (Some (js "desktop"))
                             (Some (js "Unknown")) (Some (js "Unknown"));
           Click.timestamp := 200 |}]
       {[ owner := User.mk 1 2; 8%N := User.mk 1 1 ]})
    100 1000 (λ _, 0) 0 fails 0 [].

(** The body of a [PUT] that gives the link a new title. *)
Definition rename (title : string) : UpdateBody :=
  mkUpdate (JsStr (js title)) JsUndefined None None JsUndefined.

(** A stand-in for [new Date(string)]: a string of decimal digits is read
    as that many milliseconds, any other string is an invalid date. *)
Definition parseMillis (s : jsstr) : option date :=
  if requiredString s && forallb isDigit s
  then Some (Z.of_N (foldl (λ n c, 10 * n + (c - 48)) 0 s))
  else None.

(** The platform with dates that parse. *)
Definition dated : Platform :=
  {| isURL := hasHttpScheme;
     parseURL := parseSimple;
     parseDate := parseMillis;
     encodeURIComponent := id;
     libraryMessage := λ _, js "error";
     dateToString := λ t, [Z.to_N (t / day)] |}.

(** The body of a [PUT] that renames the link and sets its expiration. *)
Definition expire (title expiresAt : string) : UpdateBody :=
  mkUpdate (JsStr (js title)) JsUndefined None None (JsStr (js expiresAt)).


(** The registry when the link of the owner expires at this very instant. *)
Definition lapsing : World :=
  mkWorld
    (mkDb [{| Url._id := 1;
              Url.originalUrl := js "https://example.com/page";
              Url.shortCode := js "abc123";
              Url.customAlias := None;
              Url.user := Some owner;
              Url.title := None;
              Url.description := None;
              Url.clicks := 0;
              Url.isActive := true;
              Url.expiresAt := Some 1000%Z;
              Url.tags := [];
              Url.lastClickedAt := None;
              Url.createdAt := 10;
              Url.updatedAt := 10 |};
           other]
       [] ∅)
    100 1000 (λ _, 0) 0 (λ _, false) 0 [].

End Sample.

(* ===================================================================== *)
(** * Properties *)
(* ===================================================================== *)

Arguments js : simpl never.

(** ** Running computations *)

Lemma bind_run {A B} (m : M A) (k : A → M B) (w : World) :
  (m ≫= k) w = match m w with
               | (Ok a, w') => k a w'
               | (Throw e, w') => (Throw e, w')
               end.
Proof. done. Qed.

Lemma ret_run {A} (a : A) (w : World) : (mret a : M A) w = (Ok a, w).
Proof. done. Qed.

Lemma throw_run {A} (e : Error) (w : World) :
  (mthrow e : M A) w = (Throw e, w).
Proof. done. Qed.

Lemma now_run (w : World) : now w = (Ok (clock w), w).
Proof. done. Qed.

Lemma withDb_same (w : World) : withDb (db w) w = w.
Proof. by destruct w. Qed.

Lemma findOne_run (f : Url.t → bool) (w : World) :
  Url_findOne f w =
  if rejects w (calls w) then (Throw StorageError, tick w)
  else (Ok (find f (urls (db w))), tick w).
Proof.
  unfold Url_findOne, query, storage.
  destruct w as [d n c e dr rj cl co]; simpl. by destruct (rj cl).
Qed.

Lemma query_run {A} (f : Db → A) (w : World) :
  query f w =
  if rejects w (calls w) then (Throw StorageError, tick w)
  else (Ok (f (db w)), tick w).
Proof.
  unfold query, storage.
  destruct w as [d n c e dr rj cl co]; simpl. by destruct (rj cl).
Qed.

Lemma Click_create_invalid (d : ClickData) (path : jsstr) (w : World) :
  clickInvalidPath d = Some path →
  Click_create d w = (Throw (ValidationError path), w).
Proof. intros Hp. unfold Click_create. by rewrite Hp. Qed.

(** ** Bot detection *)

Lemma isBot_header (req : Request) :
  isBot (header req "user-agent") = true →
  isBot (JsStr (orStr (header req "user-agent") [])) = true.
Proof.
  destruct (header req "user-agent") as [| |[|c r]] eqn:E; try done.
Qed.

(** ** Click recording leaves the other collections alone *)

Lemma storage_clicks {A} (op : World → Res A * Db) (w : World) :
  (∀ w0, clicks (op w0).2 = clicks (db w0)) →
  clicks (db (storage op w).2) = clicks (db w).
Proof.
  intros Hop. unfold storage. destruct (rejects w (calls w)); [done|].
  specialize (Hop (tick w)). destruct (op (tick w)) as [r d]. simpl in *.
  by rewrite Hop.
Qed.

Lemma incrementClicks_clicks `{Platform} (u : Url.t) (w : World) :
  clicks (db (incrementClicks u w).2) = clicks (db w).
Proof.
  unfold incrementClicks. rewrite bind_run, now_run.
  destruct (urlDocInvalidPath _); [done|].
  apply storage_clicks. intros w0. by destruct (updateFirst _ _ _).
Qed.

Lemma User_inc_clicks (id : oid) (a b : Z) (w : World) :
  clicks (db (User_findByIdAndUpdate_inc id a b w).2) = clicks (db w).
Proof. by apply storage_clicks. Qed.

Lemma clickInvalid_no_userAgent (d : ClickData) :
  cd_userAgent d = [] → is_Some (clickInvalidPath d).
Proof.
  intros Hd. unfold clickInvalidPath.
  destruct (negb (_ && _)); [done|]. rewrite Hd. simpl. done.
Qed.

Lemma header_missing (req : Request) :
  headers req !! js "user-agent" = None →
  orStr (header req "user-agent") [] = [].
Proof. intros Hh. unfold header. by rewrite Hh. Qed.

(** With no user agent the refactored resolver stores no click. *)
Lemma refactored_no_userAgent_clicks `{Platform} (req : Request) (w : World) :
  headers req !! js "user-agent" = None →
  clicks (db (asyncHandler Refactored.redirectUrl req w).2) = clicks (db w).
Proof.
  intros Hh%header_missing.
  unfold asyncHandler, Refactored.redirectUrl.
  rewrite bind_run, findOne_run.
  destruct (rejects w (calls w)); [done|].
  destruct (find _ _) as [u|]; [|done].
  rewrite bind_run, now_run. destruct (Url.isExpired _ _); [done|].
  rewrite bind_run. unfold try, Refactored.trackClick. rewrite Hh.
  cbn [isBot truthy negb].
  set (d := mkClickData _ _ _ _ _ _ _ _ _ _ _).
  destruct (clickInvalid_no_userAgent d eq_refl) as [p Hp].
  unfold promiseAll3, both. rewrite bind_run, bind_run.
  rewrite (Click_create_invalid _ _ _ Hp).
  pose proof (incrementClicks_clicks u (tick w)) as H1.
  destruct (incrementClicks u (tick w)) as [r1 w1]. simpl in H1.
  assert (∀ m : M unit, (∀ w0, clicks (db (m w0).2) = clicks (db w0)) →
     clicks (db (m w1).2) = clicks (db w)) as Hm.
  { intros m Hm. by rewrite Hm. }
  specialize (Hm (match Url.user u with
         | Some owner => User_findByIdAndUpdate_inc owner 0 1
         | None => mret ()
         end)).
  destruct (match Url.user u with
         | Some owner => User_findByIdAndUpdate_inc owner 0 1
         | None => mret ()
         end w1) as [r2 w2] eqn:E2.
  simpl in Hm. 
  assert (clicks (db w2) = clicks (db w)) as <-.
  { apply Hm. intros w0. destruct (Url.user u); [apply User_inc_clicks|done]. }
  by destruct r1, r2.
Qed.

(** ** The redirect resolver *)

Section Redirect.
Context `{Platform}.
Variables (req : Request) (w : World).
Hypothesis Hlookup : rejects w (calls w) = false.

Lemma redirect_not_found :
  find (activeCode (param_shortCode req)) (urls (db w)) = None →
  asyncHandler Controller.redirectUrl req w
  = (Json 404 false (Some (js "Short URL not found")) NoData, tick w)
  ∧ asyncHandler Refactored.redirectUrl req w
    = (Json 404 false (Some (js "Short URL not found")) NoData, tick w).
Proof using Hlookup.
  intros Hf.
  unfold asyncHandler, Controller.redirectUrl, Refactored.redirectUrl.
  by rewrite !bind_run, !findOne_run, Hlookup, Hf.
Qed.

Variable u : Url.t.
Hypothesis Hfound :
  find (activeCode (param_shortCode req)) (urls (db w)) = Some u.

Lemma redirect_expired :
  Url.isExpired (clock w) u = true →
  asyncHandler Controller.redirectUrl req w
  = (Json 410 false (Some (js "Short URL has expired")) NoData, tick w)
  ∧ asyncHandler Refactored.redirectUrl req w
    = (Json 410 false (Some (js "This short URL has expired")) NoData,
       tick w).
Proof using Hlookup Hfound.
  intros He.
  unfold asyncHandler, Controller.redirectUrl, Refactored.redirectUrl.
  rewrite !bind_run, !findOne_run, Hlookup, Hfound, !bind_run, !now_run.
  change (clock (tick w)) with (clock w). by rewrite He.
Qed.

Hypothesis Hfresh : Url.isExpired (clock w) u = false.

(** The refactored resolver answers 301 whatever becomes of the click. *)
Lemma refactored_redirect_valid :
  ∃ w', asyncHandler Refactored.redirectUrl req w
        = (Redirect 301 (Url.originalUrl u), w').
Proof using Hlookup Hfound Hfresh.
  unfold asyncHandler, Refactored.redirectUrl.
  rewrite !bind_run, !findOne_run, Hlookup, Hfound, !bind_run, !now_run.
  change (clock (tick w)) with (clock w). rewrite Hfresh.
  rewrite bind_run. unfold try.
  destruct (Refactored.trackClick u req (tick w)) as [[[]|e] w1]; eauto.
Qed.

(** An error of the click recording is written to the console and goes no
    further. *)
Lemma refactored_click_error_logged (e : Error) (w1 : World) :
  Refactored.trackClick u req (tick w) = (Throw e, w1) →
  ∃ w', asyncHandler Refactored.redirectUrl req w
        = (Redirect 301 (Url.originalUrl u), w')
        ∧ db w' = db w1
        ∧ console w' = console w1 ++ [(js "Failed to track click:", e)].
Proof using Hlookup Hfound Hfresh.
  intros Htrack.
  unfold asyncHandler, Refactored.redirectUrl.
  rewrite !bind_run, !findOne_run, Hlookup, Hfound, !bind_run, !now_run.
  change (clock (tick w)) with (clock w). rewrite Hfresh.
  rewrite bind_run. unfold try. rewrite Htrack.
  eexists. split; [reflexivity|]. done.
Qed.

Lemma bot_redirect :
  isBot (header req "user-agent") = true →
  asyncHandler Controller.redirectUrl req w
  = (Redirect 301 (Url.originalUrl u), tick w)
  ∧ asyncHandler Refactored.redirectUrl req w
    = (Redirect 301 (Url.originalUrl u), tick w).
Proof using Hlookup Hfound Hfresh.
  intros Hbot%isBot_header.
  unfold asyncHandler, Controller.redirectUrl, Refactored.redirectUrl.
  rewrite !bind_run, !findOne_run, Hlookup, Hfound, !bind_run, !now_run.
  change (clock (tick w)) with (clock w). rewrite Hfresh.
  rewrite !bind_run. unfold try, Refactored.trackClick.
  by rewrite Hbot.
Qed.

(** With no user agent the original resolver reaches [Click.create],
    which the schema rejects. *)
Lemma original_no_userAgent_rejected :
  headers req !! js "user-agent" = None →
  requiredString (getClientIP req) && ipAddressValidator (getClientIP req)
  = true →
  asyncHandler Controller.redirectUrl req w
  = (NextError (ValidationError (js "userAgent")), tick w).
Proof using Hlookup Hfound Hfresh.
  intros Hh%header_missing Hip.
  unfold asyncHandler, Controller.redirectUrl.
  rewrite !bind_run, !findOne_run, Hlookup, Hfound, !bind_run, !now_run.
  change (clock (tick w)) with (clock w). rewrite Hfresh, Hh.
  cbn [isBot truthy negb]. rewrite !bind_run, now_run, bind_run.
  erewrite Click_create_invalid; [done|].
  unfold clickInvalidPath. cbn [cd_ipAddress cd_userAgent]. by rewrite Hip.
Qed.

End Redirect.

Lemma original_no_userAgent_db `{Platform} (req : Request) (w : World) :
  headers req !! js "user-agent" = None →
  db (asyncHandler Controller.redirectUrl req w).2 = db w.
Proof.
  intros Hh%header_missing.
  unfold asyncHandler, Controller.redirectUrl.
  rewrite bind_run, findOne_run.
  destruct (rejects w (calls w)); [done|].
  destruct (find _ _) as [u|]; [|done].
  rewrite bind_run, now_run. destruct (Url.isExpired _ _); [done|].
  rewrite Hh. cbn [isBot truthy negb]. rewrite !bind_run, now_run.
  set (d := mkClickData _ _ _ _ _ _ _ _ _ _ _).
  destruct (clickInvalid_no_userAgent d eq_refl) as [p Hp].
  by rewrite bind_run, (Click_create_invalid _ _ _ Hp).
Qed.

(** ** Trimming *)

Lemma trimStart_startsClean (s : jsstr) : startsClean (trimStart s) = true.
Proof.
  induction s as [|c r IH]; simpl; [done|].
  destruct (isWhiteSpace c) eqn:Hc; [done|]. simpl. by rewrite Hc.
Qed.

Lemma trimStart_id (s : jsstr) : startsClean s = true → trimStart s = s.
Proof.
  destruct s as [|c r]; simpl; [done|].
  by destruct (isWhiteSpace c).
Qed.

Lemma trimEnd_idem (s : jsstr) : trimEnd (trimEnd s) = trimEnd s.
Proof.
  induction s as [|c r IH]; simpl; [done|].
  destruct (trimEnd r) as [|d r'] eqn:Hr.
  - destruct (isWhiteSpace c) eqn:Hc; simpl; [done|]. by rewrite Hc.
  - change (trimEnd (c :: d :: r')) with
      (match trimEnd (d :: r') with
       | [] => if isWhiteSpace c then [] else [c]
       | x => c :: x
       end).
    by rewrite IH.
Qed.

Lemma trimEnd_startsClean (s : jsstr) :
  startsClean s = true → startsClean (trimEnd s) = true.
Proof.
  destruct s as [|c r]; simpl; [done|].
  intros Hc. destruct (trimEnd r); [|done].
  destruct (isWhiteSpace c) eqn:E; [done|]. simpl. by rewrite E.
Qed.

Lemma trimEnd_app (p t : jsstr) :
  t ≠ [] → trimEnd t = t → trimEnd (p ++ t) = p ++ t.
Proof.
  intros Hne Ht. induction p as [|c r IH]; simpl; [done|].
  rewrite IH. destruct (r ++ t) eqn:E; [|done].
  by apply app_eq_nil in E as [_ ?].
Qed.

Lemma trim_startsClean (s : jsstr) : startsClean (trim s) = true.
Proof. apply trimEnd_startsClean, trimStart_startsClean. Qed.

Lemma trim_trimEnd (s : jsstr) : trimEnd (trim s) = trim s.
Proof. apply trimEnd_idem. Qed.

Lemma trim_idem (s : jsstr) : trim (trim s) = trim s.
Proof.
  unfold trim at 1. rewrite trimStart_id by apply trim_startsClean.
  apply trim_trimEnd.
Qed.

(** ** normalizeUrl *)

Lemma hasHttpScheme_nonempty (s : jsstr) : hasHttpScheme s = true → s ≠ [].
Proof. by destruct s. Qed.

Lemma hasHttpScheme_https (t : jsstr) :
  hasHttpScheme (js "https://" ++ t) = true.
Proof. unfold hasHttpScheme. apply orb_true_intro. by right. Qed.

Lemma trim_https (t : jsstr) :
  trim t = t → trim (js "https://" ++ t) = js "https://" ++ t.
Proof.
  intros Ht. unfold trim. rewrite trimStart_id by done.
  destruct t as [|c r]; [done|].
  apply trimEnd_app; [done|].
  rewrite <- Ht. apply trim_trimEnd.
Qed.

Lemma normalized_fix (s : jsstr) :
  normalized (normalized s) = normalized s ∧ normalized s ≠ [].
Proof.
  unfold normalized at 2 3 4.
  destruct (hasHttpScheme (trim s)) eqn:Hs; cbn [negb].
  - split; [|by apply hasHttpScheme_nonempty].
    unfold normalized. by rewrite trim_idem, Hs.
  - split; [|done]. unfold normalized.
    rewrite trim_https by apply trim_idem.
    by rewrite hasHttpScheme_https.
Qed.

Lemma short_normalizeUrl_str (c : N) (r : jsstr) :
  Short.normalizeUrl (JsStr (c :: r)) = JsStr (normalized (c :: r)).
Proof. done. Qed.

Lemma short1_normalizeUrl_eq (v : jsval) :
  Short1.normalizeUrl v = Short.normalizeUrl v.
Proof. by destruct v as [| |[|c r]]. Qed.

(** C10. [normalizeUrl] is idempotent on [undefined], [null] and every
    string, in utils/short.js and in utils/short1.js, which agree: a falsy
    input comes back as it is, and a string that is not empty comes back
    trimmed, unchanged otherwise when it carries [http://] or [https://] (in
    any letter case) and behind [https://] when it does not. *)
Theorem normalizeUrl_idempotent (v : jsval) :
  Short.normalizeUrl (Short.normalizeUrl v) = Short.normalizeUrl v
  ∧ Short1.normalizeUrl (Short1.normalizeUrl v) = Short1.normalizeUrl v
  ∧ Short1.normalizeUrl v = Short.normalizeUrl v
  ∧ Short.normalizeUrl v
    = match v with
      | JsStr (c :: r) =>
          JsStr (if hasHttpScheme (trim (c :: r)) then trim (c :: r)
                 else js "https://" ++ trim (c :: r))
      | _ => v
      end.
Proof.
  assert (Short.normalizeUrl (Short.normalizeUrl v) = Short.normalizeUrl v)
    as Hidem.
  { destruct v as [| |[|c r]]; try done.
    rewrite short_normalizeUrl_str.
    destruct (normalized_fix (c :: r)) as [Hfix Hne].
    destruct (normalized (c :: r)) as [|d q] eqn:E; [done|].
    rewrite short_normalizeUrl_str. by rewrite Hfix. }
  split; [done|]. rewrite !short1_normalizeUrl_eq. split; [done|].
  split; [done|].
  destruct v as [| |[|c r]]; try done.
  rewrite short_normalizeUrl_str. unfold normalized.
  by destruct (hasHttpScheme (trim (c :: r))).
Qed.

Lemma bot_db_unchanged `{Platform} (req : Request) (w : World) :
  isBot (header req "user-agent") = true →
  db (asyncHandler Controller.redirectUrl req w).2 = db w
  ∧ db (asyncHandler Refactored.redirectUrl req w).2 = db w.
Proof.
  intros Hbot%isBot_header.
  unfold asyncHandler, Controller.redirectUrl, Refactored.redirectUrl.
  rewrite !bind_run, !findOne_run.
  destruct (rejects w (calls w)); [done|].
  destruct (find _ _) as [u|]; [|done].
  rewrite !bind_run, !now_run. destruct (Url.isExpired _ _); [done|].
  rewrite !bind_run. unfold try, Refactored.trackClick. by rewrite Hbot.
Qed.

(** C5. A redirect request whose user agent [isBot] accepts creates no
    Click record and leaves the click counter and the last-clicked instant
    of every link and the aggregate of every owner as they were; when the
    code resolves to an active link that has not expired, the request still
    receives the 301 redirect to the destination. This holds of both
    controllers. *)
Theorem bot_traffic_not_recorded `{Platform} (req : Request) (w : World) :
  isBot (header req "user-agent") = true →
  (db (asyncHandler Controller.redirectUrl req w).2 = db w
   ∧ db (asyncHandler Refactored.redirectUrl req w).2 = db w)
  ∧ ∀ u : Url.t,
      rejects w (calls w) = false →
      find (activeCode (param_shortCode req)) (urls (db w)) = Some u →
      Url.isExpired (clock w) u = false →
      (asyncHandler Controller.redirectUrl req w).1
      = Redirect 301 (Url.originalUrl u)
      ∧ (asyncHandler Refactored.redirectUrl req w).1
        = Redirect 301 (Url.originalUrl u).
Proof.
  intros Hbot. split; [by apply bot_db_unchanged|].
  intros u Hl Hf He.
  destruct (bot_redirect req w Hl u Hf He Hbot) as [-> ->]. done.
Qed.

Lemma bot_traffic_not_recorded_witness :
  let req := Sample.get [("user-agent", "Googlebot/2.1")]%string "203.0.113.9" in
  isBot (header req "user-agent") = true
  ∧ db (asyncHandler (@Controller.redirectUrl Sample.platform) req Sample.world).2 = Sample.store
  ∧ db (asyncHandler (@Refactored.redirectUrl Sample.platform) req Sample.world).2 = Sample.store
  ∧ (asyncHandler (@Controller.redirectUrl Sample.platform) req Sample.world).1
    = Redirect 301 (js "https://example.com/page")
  ∧ (asyncHandler (@Refactored.redirectUrl Sample.platform) req Sample.world).1
    = Redirect 301 (js "https://example.com/page").
Proof.
  intros req.
  assert (isBot (header req "user-agent") = true) as Hbot by (vm_compute; reflexivity).
  destruct (bot_traffic_not_recorded (H:=Sample.platform) req Sample.world
              Hbot) as [[H1 H2] H3].
  destruct (H3 Sample.link) as [H4 H5]; [vm_compute; reflexivity..|].
  split; [exact Hbot|]. split; [exact H1|]. split; [exact H2|].
  split; [exact H4|exact H5].
Defined.

(** A request without a [User-Agent] header stores no Click, whatever the
    world: [isBot] is false of the empty string that stands in for the
    header, the click goes to [Click.create] with the empty user agent, and
    the click schema refuses it. *)
Lemma missing_user_agent_not_stored `{Platform} (req : Request) (w : World) :
  headers req !! js "user-agent" = None →
  isBot (JsStr (orStr (header req "user-agent") [])) = false
  ∧ clicks (db (asyncHandler Controller.redirectUrl req w).2) = clicks (db w)
  ∧ clicks (db (asyncHandler Refactored.redirectUrl req w).2) = clicks (db w).
Proof.
  intros Hh. split.
  { by rewrite header_missing. }
  split. { by rewrite original_no_userAgent_db. }
  by apply refactored_no_userAgent_clicks.
Qed.

(** C9, at an input where the code departs from it. [isBot] is false of
    [undefined], of [null] and of the empty string, and a request without a
    [User-Agent] header, for an active link that has not expired, is taken
    for traffic that is not a bot: its click is handed to [Click.create]
    with the empty user agent. The click schema requires the user agent, so
    no Click record is stored. The original controller ends the request in
    the error middleware, with no counter changed and no redirect; the
    refactored controller still adds one to the counter of the link and to
    the total of the owner, logs the error and redirects. *)
Theorem missing_user_agent_click_rejected :
  let req := Sample.get [] "203.0.113.9" in
  let original := asyncHandler (@Controller.redirectUrl Sample.platform) req Sample.world in
  let refactored := asyncHandler (@Refactored.redirectUrl Sample.platform) req Sample.world in
  (isBot JsUndefined = false ∧ isBot JsNull = false
   ∧ isBot (JsStr []) = false)
  ∧ headers req !! js "user-agent" = None
  ∧ find (activeCode (param_shortCode req)) (urls (db Sample.world))
    = Some Sample.link
  ∧ Url.isExpired (clock Sample.world) Sample.link = false
  ∧ original = (NextError (ValidationError (js "userAgent")),
                tick Sample.world)
  ∧ refactored.1 = Redirect 301 (Url.originalUrl Sample.link)
  ∧ clicks (db refactored.2) = clicks (db Sample.world)
  ∧ map Url.clicks (urls (db refactored.2)) = [3%Z]
  ∧ users (db refactored.2) !! Sample.owner = Some (User.mk 1 3)
  ∧ console refactored.2
    = [(js "Failed to track click:", ValidationError (js "userAgent"))].
Proof.
  intros req original refactored.
  split; [done|]. split; [vm_compute; reflexivity|].
  split; [vm_compute; reflexivity|]. split; [vm_compute; reflexivity|].
  split; [vm_compute; reflexivity|]. split; [vm_compute; reflexivity|].
  split; [vm_compute; reflexivity|]. split; [vm_compute; reflexivity|].
  split; vm_compute; reflexivity.
Qed.

(** C2, at an input where the original controller departs from it. The
    code resolves to an active link that has not expired; the client talks
    over an IPv4-mapped socket address, which the [ipAddress] validator of
    the click schema refuses. The original resolver awaits [Click.create],
    so the rejection ends the request in the error middleware instead of a
    301; the refactored resolver answers the 301. *)
Theorem original_redirect_lost_to_click_error :
  let req := Sample.get [("user-agent", "Mozilla/5.0 Firefox/120.0")]%string
               "::ffff:203.0.113.9" in
  find (activeCode (param_shortCode req)) (urls (db Sample.world))
  = Some Sample.link
  ∧ Url.isExpired (clock Sample.world) Sample.link = false
  ∧ asyncHandler (@Controller.redirectUrl Sample.platform) req Sample.world
    = (NextError (ValidationError (js "ipAddress")), tick Sample.world)
  ∧ (asyncHandler (@Refactored.redirectUrl Sample.platform) req Sample.world).1
    = Redirect 301 (Url.originalUrl Sample.link).
Proof.
  intros req.
  split; [vm_compute; reflexivity|]. split; [vm_compute; reflexivity|].
  split; vm_compute; reflexivity.
Qed.

(** C3, at an input where the original controller departs from it. The
    user agent of the request has 501 characters, one more than the click
    schema allows. In the original resolver the error of the click
    recording surfaces: the request ends in the error middleware and no
    redirect is sent. In the refactored resolver the error is written to
    the console and swallowed, and the redirect is sent. *)
Theorem original_click_error_surfaces :
  let req := Sample.withAgent (replicate 501 97) in
  (asyncHandler (@Controller.redirectUrl Sample.platform) req Sample.world).1
  = NextError (ValidationError (js "userAgent"))
  ∧ (asyncHandler (@Refactored.redirectUrl Sample.platform) req Sample.world).1
    = Redirect 301 (Url.originalUrl Sample.link)
  ∧ console (asyncHandler (@Refactored.redirectUrl Sample.platform) req Sample.world).2
    = [(js "Failed to track click:", ValidationError (js "userAgent"))].
Proof.
  intros req. split; [vm_compute; reflexivity|].
  split; vm_compute; reflexivity.
Qed.

(** ** Deleting a link *)

Lemma storage_ok {A} (op : World → Res A * Db) (w : World) :
  rejects w (calls w) = false →
  storage op w = ((op (tick w)).1, withDb (op (tick w)).2 (tick w)).
Proof. intros Hr. unfold storage. rewrite Hr. by destruct (op (tick w)). Qed.

Section Delete.
Variables (req : Request) (w : World) (uid : oid) (u : Url.t).
Hypothesis Hhealthy : healthy w.
Hypothesis Huser : user req = Some uid.
Hypothesis Hfound : find (ownedBy (param_id req) uid) (urls (db w)) = Some u.

(** The collections once the three writes of a deletion are through. *)
Let deleted : Db :=
  mkDb (removeFirst (λ x, Url._id x =? Url._id u) (urls (db w)))
       (filter (λ c, Click.url c ≠ Url._id u) (clicks (db w)))
       (alter (User.inc (-1) (- Url.clicks u)) uid (users (db w))).

Lemma deleted_spec (w' : World) :
  db w' = deleted →
  (∀ c, c ∈ clicks (db w') ↔ c ∈ clicks (db w) ∧ Click.url c ≠ Url._id u)
  ∧ urls (db w')
    = removeFirst (λ x, Url._id x =? Url._id u) (urls (db w))
  ∧ users (db w') !! uid
    = User.inc (-1) (- Url.clicks u) <$> users (db w) !! uid
  ∧ (∀ o, o ≠ uid → users (db w') !! o = users (db w) !! o).
Proof.
  intros ->. subst deleted. cbn [clicks urls users].
  split; [|split; [done|split]].
  - intros c. rewrite list_elem_of_filter. tauto.
  - apply lookup_alter_eq.
  - intros o Ho. by apply lookup_alter_ne.
Qed.

Lemma original_delete_ok :
  ∃ w', asyncHandler Controller.deleteUrl req w
        = (Json 200 true (Some (js "URL deleted successfully")) NoData, w')
        ∧ db w' = deleted.
Proof using Hhealthy Huser Hfound.
  unfold asyncHandler, Controller.deleteUrl, withUser. rewrite Huser.
  rewrite bind_run, findOne_run, (Hhealthy _), Hfound.
  unfold Click_deleteMany, Url_findByIdAndDelete, User_findByIdAndUpdate_inc.
  rewrite bind_run, storage_ok by apply Hhealthy.
  rewrite bind_run, storage_ok by apply Hhealthy.
  rewrite bind_run, storage_ok by apply Hhealthy.
  eexists. split; [reflexivity|]. done.
Qed.

Lemma refactored_delete_ok :
  ∃ w', asyncHandler Refactored.deleteUrl req w
        = (Json 200 true (Some (js "URL and associated data deleted")) NoData,
           w')
        ∧ db w' = deleted.
Proof using Hhealthy Huser Hfound.
  unfold asyncHandler, Refactored.deleteUrl, Refactored.findUrlForUser, withUser.
  rewrite Huser.
  rewrite bind_run, findOne_run, (Hhealthy _), Hfound.
  unfold Click_deleteMany, Url_findByIdAndDelete, User_findByIdAndUpdate_inc.
  unfold promiseAll3, both. rewrite !bind_run.
  rewrite storage_ok by apply Hhealthy.
  rewrite storage_ok by apply Hhealthy.
  rewrite storage_ok by apply Hhealthy.
  eexists. split; [reflexivity|]. done.
Qed.

End Delete.

(** C4, as the code has it. When no storage call fails, the deletion of a
    link by its owner removes every Click event that references the link,
    removes the link, takes one from the owner's link count and takes the
    click count of the link from the owner's click total, in both
    controllers. The three writes are separate storage calls. *)
Theorem delete_effects_without_failure
    (req : Request) (w : World) (uid : oid) (u : Url.t) :
  healthy w →
  user req = Some uid →
  find (ownedBy (param_id req) uid) (urls (db w)) = Some u →
  ∀ deleteUrl, deleteUrl ∈ [Controller.deleteUrl; Refactored.deleteUrl] →
    ∃ message w',
      asyncHandler deleteUrl req w = (Json 200 true (Some message) NoData, w')
      ∧ (∀ c, c ∈ clicks (db w')
              ↔ c ∈ clicks (db w) ∧ Click.url c ≠ Url._id u)
      ∧ urls (db w')
        = removeFirst (λ x, Url._id x =? Url._id u) (urls (db w))
      ∧ users (db w') !! uid
        = User.inc (-1) (- Url.clicks u) <$> users (db w) !! uid
      ∧ (∀ o, o ≠ uid → users (db w') !! o = users (db w) !! o).
Proof.
  intros Hh Hu Hf deleteUrl Hin.
  apply elem_of_cons in Hin as [->|Hin].
  - destruct (original_delete_ok req w uid u Hh Hu Hf) as (w' & Hr & Hd).
    exists (js "URL deleted successfully"), w'. split; [done|].
    by apply (deleted_spec w uid u).
  - apply list_elem_of_singleton in Hin as ->.
    destruct (refactored_delete_ok req w uid u Hh Hu Hf) as (w' & Hr & Hd).
    exists (js "URL and associated data deleted"), w'. split; [done|].
    by apply (deleted_spec w uid u).
Qed.

Lemma delete_effects_without_failure_witness :
  let req := Sample.owned Sample.noBody Sample.noQuery in
  healthy Sample.world
  ∧ user req = Some Sample.owner
  ∧ find (ownedBy (param_id req) Sample.owner) (urls (db Sample.world))
    = Some Sample.link
  ∧ ∃ message w',
      asyncHandler Controller.deleteUrl req Sample.world
      = (Json 200 true (Some message) NoData, w')
      ∧ clicks (db w') = []
      ∧ urls (db w') = []
      ∧ users (db w') !! Sample.owner = Some (User.mk 0 0).
Proof.
  intros req.
  assert (healthy Sample.world) as Hh by (intros n; reflexivity).
  assert (user req = Some Sample.owner) as Hu by reflexivity.
  assert (find (ownedBy (param_id req) Sample.owner) (urls (db Sample.world))
          = Some Sample.link) as Hf by (vm_compute; reflexivity).
  split; [exact Hh|]. split; [exact Hu|]. split; [exact Hf|].
  destruct (delete_effects_without_failure req Sample.world Sample.owner
              Sample.link Hh Hu Hf Controller.deleteUrl)
    as (message & w' & Hr & Hc & Hurls & Husers & _).
  { apply elem_of_cons. by left. }
  exists message, w'. split; [exact Hr|]. split; [|split].
  - destruct (clicks (db w')) as [|c l] eqn:E; [done|].
    destruct (proj1 (Hc c)) as [Hin Hne]; [left|].
    exfalso. apply Hne.
    apply elem_of_cons in Hin as [->|Hin]; [done|].
    apply list_elem_of_singleton in Hin as ->. done.
  - rewrite Hurls. vm_compute. reflexivity.
  - rewrite Husers. vm_compute. reflexivity.
Defined.

(** C4 as it is stated fails: when the store rejects the removal of the
    link (the third storage call of the original handler), the Click events
    of the link are gone already, while the link and the counters of the
    owner stay as they were. *)
Lemma delete_not_atomic_counterexample :
  let req := Sample.owned Sample.noBody Sample.noQuery in
  let w := Sample.rejecting 2 in
  let w' := (asyncHandler Controller.deleteUrl req w).2 in
  (asyncHandler Controller.deleteUrl req w).1 = NextError StorageError
  ∧ clicks (db w) ≠ []
  ∧ clicks (db w') = []
  ∧ urls (db w') = urls (db w)
  ∧ users (db w') = users (db w)
  ∧ db w' ≠ db w.
Proof.
  intros req w w'.
  assert (clicks (db w') = []) as Hc by (vm_compute; reflexivity).
  split; [vm_compute; reflexivity|]. split; [done|]. split; [exact Hc|].
  split; [vm_compute; reflexivity|]. split; [vm_compute; reflexivity|].
  intros Heq. rewrite Heq in Hc. done.
Qed.

(** ** Code generation *)

Lemma nanoid_run (size : nat) (w : World) :
  ∃ s n, nanoid size w
         = (Ok s, mkWorld (db w) (nextId w) (clock w) (entropy w) n
                    (rejects w) (calls w) (console w))
         ∧ length s = size.
Proof.
  revert w. induction size as [|size IH]; intros w.
  - exists [], (drawn w). by destruct w.
  - cbn [nanoid]. rewrite bind_run. unfold draw at 1.
    edestruct IH as (s & n & Hs & Hl). rewrite bind_run, Hs.
    exists (unitAt urlAlphabet (N.land (entropy w (drawn w)) 63) :: s), n.
    split; [done|]. simpl. by rewrite Hl.
Qed.

Lemma replaceSymbols_run (s : jsstr) (w : World) :
  ∃ s' n, replaceSymbols s w
          = (Ok s', mkWorld (db w) (nextId w) (clock w) (entropy w) n
                      (rejects w) (calls w) (console w))
          ∧ length s' = length s.
Proof.
  revert w. induction s as [|c r IH]; intros w.
  - exists [], (drawn w). by destruct w.
  - cbn [replaceSymbols]. rewrite bind_run.
    destruct ((c =? 95) || (c =? 45)).
    + unfold randomIndex. rewrite !bind_run. unfold draw at 1.
      rewrite ret_run, ret_run, bind_run.
      edestruct IH as (s' & n & Hs & Hl). rewrite Hs.
      eexists (_ :: s'), n. split; [done|]. simpl. by rewrite Hl.
    + rewrite ret_run, bind_run.
      edestruct IH as (s' & n & Hs & Hl). rewrite Hs.
      eexists (_ :: s'), n. split; [done|]. simpl. by rewrite Hl.
Qed.

Lemma ShortGen_loop_done (fuel : nat) (st : GenState) (w : World) :
  negb (g_isUnique st) && (g_attempts st <? maxAttempts)%nat = false →
  ShortGen.loop fuel st w = (Ok st, w).
Proof. intros Hc. destruct fuel; simpl; by rewrite Hc. Qed.

Lemma find_none_elem_of {A} (f : A → bool) (l : list A) (x : A) :
  find f l = None → x ∈ l → f x = false.
Proof.
  intros Hf Hx. apply list_elem_of_In in Hx. by eapply find_none.
Qed.

(** The draws of a candidate leave everything but the random source. *)
Lemma shortCandidate_spec (len : nat) (w : World) :
  let (code, w1) := shortCandidate len w in
  (raw ← nanoid len; replaceSymbols raw) w = (Ok code, w1)
  ∧ length code = len
  ∧ db w1 = db w ∧ calls w1 = calls w ∧ rejects w1 = rejects w.
Proof.
  unfold shortCandidate.
  destruct (nanoid_run len w) as (raw & n1 & Hraw & Hl1).
  destruct (replaceSymbols_run raw (mkWorld (db w) (nextId w) (clock w)
    (entropy w) n1 (rejects w) (calls w) (console w)))
    as (code & n2 & Hcode & Hl2).
  rewrite bind_run, Hraw, Hcode. split; [done|]. split; [congruence|]. done.
Qed.

Lemma short1Candidate_spec (len : nat) (w : World) :
  let (code, w1) := short1Candidate len w in
  nanoid len w = (Ok code, w1)
  ∧ length code = len
  ∧ db w1 = db w ∧ calls w1 = calls w ∧ rejects w1 = rejects w.
Proof.
  unfold short1Candidate.
  destruct (nanoid_run len w) as (raw & n1 & Hraw & Hl1).
  rewrite Hraw. done.
Qed.

Lemma shortCandidates_length (n len : nat) (w : World) (i : nat) (c : jsstr) :
  shortCandidates n len w !! i = Some c → length c = (len + i)%nat.
Proof.
  revert len w i. induction n as [|n IH]; intros len w i; [done|].
  cbn [shortCandidates].
  pose proof (shortCandidate_spec len w) as Hspec.
  destruct (shortCandidate len w) as [code w1].
  destruct Hspec as (_ & Hlen & _).
  destruct i as [|i]; cbn.
  - intros Heq. simplify_eq. lia.
  - intros Hi. apply IH in Hi. lia.
Qed.

Lemma short1Candidates_length (n len : nat) (w : World) (i : nat)
    (c : jsstr) :
  short1Candidates n len w !! i = Some c → length c = len.
Proof.
  revert w i. induction n as [|n IH]; intros w i; [done|].
  cbn [short1Candidates].
  pose proof (short1Candidate_spec len w) as Hspec.
  destruct (short1Candidate len w) as [code w1].
  destruct Hspec as (_ & Hlen & _).
  destruct i as [|i]; cbn.
  - intros Heq. by simplify_eq.
  - apply IH.
Qed.

Lemma find_taken {A} (f : A → bool) (l : list A) :
  match find f l with
  | Some x => x ∈ l ∧ f x = true
  | None => ∀ x, x ∈ l → f x = false
  end.
Proof.
  destruct (find f l) as [x|] eqn:Hfind.
  - apply find_some in Hfind as [Hin Hf]. split; [|done].
    by apply list_elem_of_In.
  - intros x Hx. by eapply find_none_elem_of.
Qed.

(** The loop of utils/short.js tries the candidates in turn: it goes on
    while they collide, and stops at the first lookup that is rejected or
    finds the candidate free. *)
Lemma ShortGen_loop_trace (fuel : nat) (st : GenState) (w : World) :
  g_isUnique st = false →
  (g_attempts st ≤ maxAttempts)%nat →
  (maxAttempts ≤ fuel + g_attempts st)%nat →
  let n := (maxAttempts - g_attempts st)%nat in
  let cs := shortCandidates n (g_length st) w in
  ∃ k r w',
    ShortGen.loop fuel st w = (r, w') ∧ db w' = db w
    ∧ (k ≤ n)%nat
    ∧ (∀ i, (i < k)%nat →
         rejects w (calls w + i)%nat = false
         ∧ ∃ c u, cs !! i = Some c ∧ u ∈ urls (db w) ∧ Url.shortCode u = c)
    ∧ match cs !! k with
      | Some c =>
          calls w' = (calls w + k + 1)%nat
          ∧ if rejects w (calls w + k)%nat then r = Throw StorageError
            else (∀ u, u ∈ urls (db w) → Url.shortCode u ≠ c)
                 ∧ ∃ st', r = Ok st' ∧ g_isUnique st' = true
                          ∧ g_shortCode st' = c
      | None =>
          calls w' = (calls w + n)%nat
          ∧ ∃ st', r = Ok st' ∧ g_isUnique st' = false
      end.
Proof.
  revert st w. induction fuel as [|fuel IH]; intros st w Hu Ha Hf n cs.
  - assert (n = 0%nat) as Hn by (unfold n; lia).
    exists 0%nat, (Ok st), w. rewrite ShortGen_loop_done.
    + split; [done|]. split; [done|]. split; [lia|].
      split; [intros i Hi; lia|]. unfold cs. rewrite Hn. cbn.
      split; [lia|]. by exists st.
    + rewrite Hu. cbn [negb andb]. apply Nat.ltb_ge. lia.
  - destruct (g_attempts st <? maxAttempts)%nat eqn:Hlt.
    2:{ apply Nat.ltb_ge in Hlt as Hge.
        assert (n = 0%nat) as Hn by (unfold n; lia).
        exists 0%nat, (Ok st), w.
        rewrite ShortGen_loop_done by (by rewrite Hu, Hlt).
        split; [done|]. split; [done|]. split; [lia|].
        split; [intros i Hi; lia|]. unfold cs. rewrite Hn. cbn.
        split; [lia|]. by exists st. }
    apply Nat.ltb_lt in Hlt as Hlt'.
    assert (n = S (maxAttempts - S (g_attempts st))) as Hn
      by (unfold n; lia).
    cbn [ShortGen.loop]. rewrite Hu, Hlt. cbn [negb andb].
    unfold cs. rewrite Hn. cbn [shortCandidates].
    pose proof (shortCandidate_spec (g_length st) w) as Hspec.
    destruct (shortCandidate (g_length st) w) as [code w1].
    destruct Hspec as (Hrun & Hlen & Hdb & Hcalls & Hrej).
    rewrite bind_run in Hrun.
    rewrite bind_run.
    destruct (nanoid (g_length st) w) as [[raw|e] w0]; [|done].
    rewrite bind_run, Hrun, bind_run, findOne_run, Hrej, Hcalls, Hdb.
    destruct (rejects w (calls w)) eqn:Hr.
    { exists 0%nat. eexists _, _. split; [done|].
      cbn [db tick calls]. split; [done|]. split; [lia|].
      split; [intros i Hi; lia|]. cbn [lookup list_lookup].
      rewrite Nat.add_0_r, Hr. split; [lia|done]. }
    pose proof (find_taken (λ u, streq (Url.shortCode u) code) (urls (db w)))
      as Hfind.
    destruct (find _ _) as [x|].
    + destruct Hfind as [Hx Hcode]. unfold streq in Hcode.
      apply bool_decide_eq_true in Hcode. cbn zeta.
      set (st1 := mkGen (if (S (g_attempts st) <? maxAttempts)%nat
                         then S (g_length st) else g_length st)
                    code (g_isUnique st) (S (g_attempts st))).
      destruct (IH st1 (tick w1)) as (k & r & w' & Hloop & Hdb' & Hk & Hpre
        & Hres); [done | cbn; lia | cbn; lia |].
      cbn [g_attempts g_length st1] in Hk, Hpre, Hres.
      cbn [db tick calls rejects] in Hdb', Hpre, Hres.
      rewrite Hdb, Hcalls, Hrej in *.
      assert (shortCandidates (maxAttempts - S (g_attempts st))
                (if (S (g_attempts st) <? maxAttempts)%nat
                 then S (g_length st) else g_length st) (tick w1)
              = shortCandidates (maxAttempts - S (g_attempts st))
                  (S (g_length st)) (tick w1)) as Hcs.
      { destruct (Nat.ltb_spec (S (g_attempts st)) maxAttempts); [done|].
        by replace (maxAttempts - S (g_attempts st))%nat with 0%nat by lia. }
      rewrite Hcs in Hpre, Hres.
      exists (S k), r, w'.
      split; [unfold st1 in Hloop; rewrite Hu in Hloop; exact Hloop|].
      split; [done|].
      split; [lia|]. split.
      * intros [|i] Hi.
        -- rewrite Nat.add_0_r. split; [done|]. by exists code, x.
        -- destruct (Hpre i) as [Hri Hci]; [lia|].
           replace (calls w + S i)%nat with (S (calls w) + i)%nat by lia.
           split; [done|]. exact Hci.
      * cbn [lookup list_lookup].
        replace (calls w + S k)%nat with (S (calls w) + k)%nat by lia.
        destruct (shortCandidates _ _ _ !! k) as [c|].
        -- destruct Hres as [Hc Hres]. split; [lia|done].
        -- destruct Hres as [Hc Hres]. split; [lia|done].
    + rewrite ShortGen_loop_done by done.
      exists 0%nat. eexists _, _. split; [done|].
      cbn [db tick calls]. split; [done|]. split; [lia|].
      split; [intros i Hi; lia|]. cbn [lookup list_lookup].
      rewrite Nat.add_0_r, Hr. split; [lia|]. split.
      * intros u Hu' Heq. specialize (Hfind u Hu'). unfold streq in Hfind.
        by apply bool_decide_eq_false in Hfind.
      * by eexists.
Qed.

(** The loop of utils/short1.js draws its tenth candidate and gives up
    without looking it up. *)
Lemma Short1Gen_loop_trace (fuel len att : nat) (w : World) :
  (att < maxAttempts)%nat →
  (maxAttempts ≤ fuel + att)%nat →
  let n := (maxAttempts - 1 - att)%nat in
  let cs := short1Candidates n len w in
  ∃ k r w',
    Short1Gen.loop fuel len att w = (r, w') ∧ db w' = db w
    ∧ (k ≤ n)%nat
    ∧ (∀ i, (i < k)%nat →
         rejects w (calls w + i)%nat = false
         ∧ ∃ c u, cs !! i = Some c ∧ u ∈ urls (db w)
                  ∧ (Url.shortCode u = c ∨ Url.customAlias u = Some c))
    ∧ match cs !! k with
      | Some c =>
          calls w' = (calls w + k + 1)%nat
          ∧ if rejects w (calls w + k)%nat then r = Throw StorageError
            else r = Ok c
                 ∧ ∀ u, u ∈ urls (db w) →
                     Url.shortCode u ≠ c ∧ Url.customAlias u ≠ Some c
      | None =>
          calls w' = (calls w + n)%nat
          ∧ r = Throw (Err (js "Failed to generate unique short code"))
      end.
Proof.
  revert att w. induction fuel as [|fuel IH]; intros att w Ha Hf n cs; [lia|].
  cbn [Short1Gen.loop]. rewrite bind_run.
  pose proof (short1Candidate_spec len w) as Hspec.
  destruct (Nat.leb_spec maxAttempts (S att)) as [Hmax|Hmax].
  { assert (n = 0%nat) as Hn by (unfold n; lia).
    destruct (nanoid_run len w) as (code & d & Hrun & _). rewrite Hrun.
    exists 0%nat. eexists _, _. split; [done|]. split; [done|].
    split; [lia|]. split; [intros i Hi; lia|].
    unfold cs. rewrite Hn. cbn. split; [lia|done]. }
  assert (n = S (maxAttempts - 1 - S att)) as Hn by (unfold n; lia).
  unfold cs. rewrite Hn. cbn [short1Candidates].
  destruct (short1Candidate len w) as [code w1].
  destruct Hspec as (Hrun & Hlen & Hdb & Hcalls & Hrej).
  rewrite Hrun, bind_run, findOne_run, Hrej, Hcalls, Hdb.
  destruct (rejects w (calls w)) eqn:Hr.
  { exists 0%nat. eexists _, _. split; [done|].
    cbn [db tick calls]. split; [done|]. split; [lia|].
    split; [intros i Hi; lia|]. cbn [lookup list_lookup].
    rewrite Nat.add_0_r, Hr. split; [lia|done]. }
  pose proof (find_taken (codeOrAlias code) (urls (db w))) as Hfind.
  destruct (find _ _) as [x|].
  - destruct Hfind as [Hx Hcode]. unfold codeOrAlias, streq in Hcode.
    apply orb_true_iff in Hcode. rewrite !bool_decide_eq_true in Hcode.
    destruct (IH (S att) (tick w1)) as (k & r & w' & Hloop & Hdb' & Hk & Hpre
      & Hres); [lia | lia |].
    cbn [db tick calls rejects] in Hdb', Hpre, Hres.
    rewrite Hdb, Hcalls, Hrej in *.
    exists (S k), r, w'. split; [exact Hloop|]. split; [done|].
    split; [lia|]. split.
    + intros [|i] Hi.
      * rewrite Nat.add_0_r. split; [done|]. by exists code, x.
      * destruct (Hpre i) as [Hri Hci]; [lia|].
        replace (calls w + S i)%nat with (S (calls w) + i)%nat by lia.
        split; [done|]. exact Hci.
    + cbn [lookup list_lookup].
      replace (calls w + S k)%nat with (S (calls w) + k)%nat by lia.
      destruct (short1Candidates _ _ _ !! k) as [c|].
      * destruct Hres as [Hc Hres]. split; [lia|done].
      * destruct Hres as [Hc Hres]. split; [lia|done].
  - exists 0%nat. eexists _, _. split; [done|].
    cbn [db tick calls]. split; [done|]. split; [lia|].
    split; [intros i Hi; lia|]. cbn [lookup list_lookup].
    rewrite Nat.add_0_r, Hr. split; [lia|]. split; [done|].
    intros u Hu'. specialize (Hfind u Hu'). unfold codeOrAlias, streq in Hfind.
    apply orb_false_iff in Hfind as [H1 H2].
    by apply bool_decide_eq_false in H1, H2.
Qed.

(** C1, as the code has it. [generateShortCode] of utils/short.js tries
    the codes it draws in turn, [shortCandidates]: the first one has the
    requested length, and each collision with the registry is answered by
    a freshly drawn code that is one character longer than the one before
    (the length grows after every collision, not after ten). It returns
    the first candidate that is the short code of no link, so a first
    candidate that is free is returned; every candidate before the one
    returned collided; it fails with the capacity error exactly when ten
    candidates in a row collided, which are ten lookups, and with the
    error of the store exactly when the store rejects the lookup of the
    candidate that is due. [generateShortCode] of utils/short1.js does the
    same with codes of one length, compares with short codes and custom
    aliases, and gives up when nine candidates collided: the tenth is
    drawn and not looked up. Neither changes the collections, and neither
    runs out of the fuel of the model. *)
Theorem generateShortCode_retries (len : nat) (w : World) :
  (let cs := shortCandidates 10 len w in
   ∃ k r w',
     ShortGen.generateShortCode len w = (r, w') ∧ db w' = db w
     ∧ (k ≤ 10)%nat
     ∧ (∀ i c, cs !! i = Some c → length c = (len + i)%nat)
     ∧ (∀ i, (i < k)%nat →
          rejects w (calls w + i)%nat = false
          ∧ ∃ c u, cs !! i = Some c ∧ u ∈ urls (db w)
                   ∧ Url.shortCode u = c)
     ∧ match cs !! k with
       | Some c =>
           calls w' = (calls w + k + 1)%nat
           ∧ if rejects w (calls w + k)%nat then r = Throw StorageError
             else r = Ok c ∧ ∀ u, u ∈ urls (db w) → Url.shortCode u ≠ c
       | None =>
           k = 10%nat ∧ calls w' = (calls w + 10)%nat
           ∧ r = Throw (Err (js "Unable to generate unique short code"))
       end)
  ∧ (let cs := short1Candidates 9 len w in
     ∃ k r w',
       Short1Gen.generateShortCode len w = (r, w') ∧ db w' = db w
       ∧ (k ≤ 9)%nat
       ∧ (∀ i c, cs !! i = Some c → length c = len)
       ∧ (∀ i, (i < k)%nat →
            rejects w (calls w + i)%nat = false
            ∧ ∃ c u, cs !! i = Some c ∧ u ∈ urls (db w)
                     ∧ (Url.shortCode u = c ∨ Url.customAlias u = Some c))
       ∧ match cs !! k with
         | Some c =>
             calls w' = (calls w + k + 1)%nat
             ∧ if rejects w (calls w + k)%nat then r = Throw StorageError
               else r = Ok c
                    ∧ ∀ u, u ∈ urls (db w) →
                        Url.shortCode u ≠ c ∧ Url.customAlias u ≠ Some c
         | None =>
             k = 9%nat ∧ calls w' = (calls w + 9)%nat
             ∧ r = Throw (Err (js "Failed to generate unique short code"))
         end).
Proof.
  split.
  - intros cs.
    unfold ShortGen.generateShortCode, ShortGen.generateShortCodeFrom.
    destruct (ShortGen_loop_trace maxAttempts (mkGen len [] false 0) w)
      as (k & r & w' & Hloop & Hdb & Hk & Hpre & Hres);
      [done | cbn [g_attempts]; unfold maxAttempts; lia
       | cbn [g_attempts]; lia |].
    cbn [g_attempts g_length] in Hk, Hpre, Hres.
    change (maxAttempts - 0)%nat with 10%nat in Hk, Hpre, Hres.
    fold cs in Hpre, Hres.
    rewrite bind_run, Hloop.
    assert (length cs = 10%nat) as Hcs.
    { unfold cs. clear. generalize 10%nat. intros n. revert len w.
      induction n as [|n IH]; intros len w; [done|].
      cbn [shortCandidates]. destruct (shortCandidate len w) as [c w1].
      cbn. by rewrite IH. }
    exists k.
    destruct (cs !! k) as [c|] eqn:Hc.
    + destruct Hres as [Hcalls Hres].
      destruct (rejects w (calls w + k)) eqn:Hr.
      * subst r. eexists _, _. split; [done|]. split; [done|].
        split; [done|]. split; [apply shortCandidates_length|].
        split; [done|]. done.
      * destruct Hres as (Hfree & st' & -> & Hu & Hcode). rewrite Hu.
        cbn [negb]. eexists _, _. split; [done|]. split; [done|].
        split; [done|]. split; [apply shortCandidates_length|].
        split; [done|]. rewrite Hcode. done.
    + destruct Hres as (Hcalls & st' & -> & Hu). rewrite Hu. cbn [negb].
      apply lookup_ge_None in Hc.
      eexists _, _. split; [done|]. split; [done|].
      split; [done|]. split; [apply shortCandidates_length|].
      split; [done|]. split; [lia|]. done.
  - intros cs. unfold Short1Gen.generateShortCode.
    destruct (Short1Gen_loop_trace maxAttempts len 0 w)
      as (k & r & w' & Hloop & Hdb & Hk & Hpre & Hres);
      [unfold maxAttempts; lia | lia |].
    change (maxAttempts - 1 - 0)%nat with 9%nat in Hk, Hpre, Hres.
    fold cs in Hpre, Hres.
    assert (length cs = 9%nat) as Hcs.
    { unfold cs. clear. generalize 9%nat. intros n. revert w.
      induction n as [|n IH]; intros w; [done|].
      cbn [short1Candidates]. destruct (short1Candidate len w) as [c w1].
      cbn. by rewrite IH. }
    exists k, r, w'. split; [done|]. split; [done|]. split; [done|].
    split; [apply short1Candidates_length|]. split; [done|].
    destruct (cs !! k) as [c|] eqn:Hc; [done|].
    apply lookup_ge_None in Hc. destruct Hres as [Hcalls ->].
    split; [lia|]. done.
Qed.

(** C1 as it is stated fails on utils/short.js. With one code taken, a
    single collision already makes the returned code one character longer
    than the six that were asked for; and with the first ten candidates
    taken, the tenth collision in a row ends the generation with the
    capacity error: no longer code is tried after it. *)
Lemma generateShortCode_counterexample :
  (∃ code w',
     ShortGen.generateShortCode 6 (Sample.taken [js "uuuuuu"]) = (Ok code, w')
     ∧ calls w' = 2%nat ∧ length code = 7%nat)
  ∧ ∃ w',
      ShortGen.generateShortCode 6
        (Sample.taken (map (λ n, replicate n 117) (seq 6 10)))
      = (Throw (Err (js "Unable to generate unique short code")), w')
      ∧ calls w' = 10%nat.
Proof.
  split.
  - eexists _, _. split; [vm_compute; reflexivity|]. done.
  - eexists _. split; [vm_compute; reflexivity|]. done.
Qed.

(** ** Creating a link *)

Lemma validateCustomAlias_frame (alias : jsstr) (w : World) :
  ∃ r w', validateCustomAlias alias w = (r, w')
          ∧ db w' = db w ∧ nextId w' = nextId w ∧ drawn w' = drawn w
          ∧ rejects w' = rejects w.
Proof.
  unfold validateCustomAlias.
  repeat (case_match; [by eexists _, _|]).
  rewrite bind_run, findOne_run.
  destruct (rejects w (calls w)); [by eexists _, _|].
  destruct (find _ _); [by eexists _, _|].
  destruct (bool_decide _); by eexists _, _.
Qed.

Lemma answers_ret (P : Response → Prop) (r : Response) :
  P r → answers P (mret r).
Proof. intros Hr w r' w' Heq. injection Heq as <- <-. done. Qed.

Lemma answers_throw (P : Response → Prop) (e : Error) :
  answers P (mthrow e).
Proof. intros w r' w' Heq. discriminate. Qed.

Lemma answers_bind {A} (P : Response → Prop) (m : M A) (k : A → M Response) :
  (∀ a, answers P (k a)) → answers P (m ≫= k).
Proof.
  intros Hk w r w' Heq. rewrite bind_run in Heq.
  destruct (m w) as [[a|e] w1]; [|discriminate]. by eapply Hk.
Qed.

Lemma bind_ret_l {A B} (a : A) (k : A → M B) : (mret a ≫= k) = k a.
Proof. done. Qed.

Ltac answers_step :=
  first [ rewrite bind_ret_l
        | apply answers_bind; intros ?
        | apply answers_ret; cbn; auto
        | apply answers_throw
        | case_match ].

Section Create.
Context `{Platform}.
Variables (req : Request) (w : World).

Let normalizedUrl : jsstr :=
  strOf (Short.normalizeUrl
           (JsStr (trim (strOf (body_originalUrl (body req)))))).

Hypothesis Hgiven : truthy (body_originalUrl (body req)) = true.
Hypothesis Hvalid : isValidUrl normalizedUrl = true.

Section Authenticated.
Variables (uid : oid) (existing : Url.t).
Hypothesis Huser : user req = Some uid.
Hypothesis Hhealthy : healthy w.
Hypothesis Hdup :
  find (sameDestination normalizedUrl uid) (urls (db w)) = Some existing.

Lemma refactored_create_existing :
  asyncHandler Refactored.createShortUrl req w
  = (Json 200 true (Some (js "URL already shortened"))
       (UrlPayload existing None), tick w).
Proof using Hgiven Hvalid Huser Hhealthy Hdup.
  unfold asyncHandler, Refactored.createShortUrl, Refactored.bad.
  rewrite Hgiven. cbn [negb]. fold normalizedUrl. rewrite Hvalid, Huser.
  cbn [negb]. by rewrite bind_run, findOne_run, (Hhealthy _), Hdup.
Qed.

Lemma original_create_existing :
  truthy (body_customAlias (body req)) = false
  ∨ (∃ w1, validateCustomAlias
             (trim (strOf (body_customAlias (body req)))) w
           = (Ok true, w1)) →
  ∃ w', asyncHandler Controller.createShortUrl req w
        = (Json 200 true (Some (js "URL already shortened"))
             (UrlPayload existing None), w')
        ∧ db w' = db w ∧ nextId w' = nextId w ∧ drawn w' = drawn w.
Proof using Hgiven Hvalid Huser Hhealthy Hdup.
  intros Halias.
  unfold asyncHandler, Controller.createShortUrl, Controller.bad.
  rewrite Hgiven. cbn [negb]. fold normalizedUrl. rewrite Hvalid, Huser.
  cbn [negb]. rewrite bind_run.
  destruct Halias as [Hno|[w1 Hok]].
  - rewrite Hno, ret_run, bind_run, findOne_run, (Hhealthy _), Hdup.
    by eexists.
  - destruct (truthy (body_customAlias (body req))).
    + unfold try. rewrite bind_run, Hok, ret_run.
      destruct (validateCustomAlias_frame
                  (trim (strOf (body_customAlias (body req)))) w)
        as (r & w1' & Hrun & Hdb & Hid & Hdr & Hrej).
      rewrite Hok in Hrun. injection Hrun as <- <-.
      rewrite bind_run, findOne_run, Hrej, (Hhealthy _), Hdb, Hdup.
      by eexists.
    + rewrite ret_run, bind_run, findOne_run, (Hhealthy _), Hdup.
      by eexists.
Qed.
End Authenticated.

(** An anonymous request is answered with 400 or with 201, or it ends in
    the error middleware: it never gets the link of an earlier request. *)
Lemma anonymous_create_answers :
  user req = None →
  answers rejectedOrCreated (Controller.createShortUrl req)
  ∧ answers rejectedOrCreated (Refactored.createShortUrl req).
Proof using Type.
  intros Huser.
  unfold Controller.createShortUrl, Refactored.createShortUrl,
    Controller.bad, Refactored.bad.
  rewrite Huser. cbn zeta.
  split; repeat answers_step.
Qed.
End Create.

Lemma asyncHandler_answers (P : Response → Prop) (fn : Request → M Response)
    (req : Request) (w : World) :
  answers P (fn req) → (∀ e, P (NextError e)) →
  P (asyncHandler fn req w).1.
Proof.
  intros Hfn Herr. unfold asyncHandler.
  destruct (fn req w) as [[r|e] w'] eqn:E; cbn [fst]; [by eapply Hfn|done].
Qed.

(** Where both controllers return the existing link. An authenticated
    create request with a valid destination, whose normalized destination
    is the stored destination of a link of the same user, is answered with
    that link (the first such link of the registry); no link is created,
    no identifier and no code are allocated. The refactored controller
    does so for every such request; the original controller does so when
    the request carries no alias or one that passes [validateCustomAlias].
    An anonymous request is never answered with an existing link: its
    answers are 400, 201 or an error. *)
Theorem create_returns_existing_link `{Platform} (req : Request) (w : World) :
  let normalizedUrl :=
    strOf (Short.normalizeUrl
             (JsStr (trim (strOf (body_originalUrl (body req)))))) in
  let already (existing : Url.t) :=
    Json 200 true (Some (js "URL already shortened"))
      (UrlPayload existing None) in
  (∀ (uid : oid) (existing : Url.t),
     truthy (body_originalUrl (body req)) = true →
     isValidUrl normalizedUrl = true →
     user req = Some uid →
     healthy w →
     find (sameDestination normalizedUrl uid) (urls (db w)) = Some existing →
     (∃ w', asyncHandler Refactored.createShortUrl req w = (already existing, w')
            ∧ db w' = db w ∧ nextId w' = nextId w ∧ drawn w' = drawn w)
     ∧ (truthy (body_customAlias (body req)) = false
        ∨ (∃ w1, validateCustomAlias
                   (trim (strOf (body_customAlias (body req)))) w
                 = (Ok true, w1)) →
        ∃ w', asyncHandler Controller.createShortUrl req w
              = (already existing, w')
              ∧ db w' = db w ∧ nextId w' = nextId w ∧ drawn w' = drawn w))
  ∧ (user req = None →
     rejectedOrCreated (asyncHandler Controller.createShortUrl req w).1
     ∧ rejectedOrCreated (asyncHandler Refactored.createShortUrl req w).1).
Proof.
  intros normalizedUrl already. split.
  - intros uid existing Hgiven Hvalid Huser Hhealthy Hdup. split.
    + exists (tick w). split; [|done].
      by apply refactored_create_existing with (uid := uid).
    + by apply original_create_existing with (uid := uid).
  - intros Huser.
    destruct (anonymous_create_answers req Huser) as [H1 H2].
    split; by apply asyncHandler_answers.
Qed.

Lemma create_returns_existing_link_witness :
  let req := Sample.owned (Sample.shorten " example.com/page" JsUndefined)
               Sample.noQuery in
  let normalizedUrl :=
    strOf (Short.normalizeUrl
             (JsStr (trim (strOf (body_originalUrl (body req)))))) in
  truthy (body_originalUrl (body req)) = true
  ∧ @isValidUrl Sample.platform normalizedUrl = true
  ∧ user req = Some Sample.owner
  ∧ healthy Sample.world
  ∧ find (sameDestination normalizedUrl Sample.owner) (urls (db Sample.world))
    = Some Sample.link
  ∧ truthy (body_customAlias (body req)) = false
  ∧ (∃ w', asyncHandler (@Refactored.createShortUrl Sample.platform) req
             Sample.world
           = (Json 200 true (Some (js "URL already shortened"))
                (UrlPayload Sample.link None), w')
           ∧ db w' = Sample.store)
  ∧ (∃ w', asyncHandler (@Controller.createShortUrl Sample.platform) req
             Sample.world
           = (Json 200 true (Some (js "URL already shortened"))
                (UrlPayload Sample.link None), w')
           ∧ db w' = Sample.store)
  ∧ rejectedOrCreated
      (asyncHandler (@Refactored.createShortUrl Sample.platform)
         (Sample.anonymous (Sample.shorten "example.com/page" JsUndefined))
         Sample.world).1.
Proof.
  intros req normalizedUrl.
  assert (truthy (body_originalUrl (body req)) = true) as H1 by reflexivity.
  assert (@isValidUrl Sample.platform normalizedUrl = true) as H2
    by (vm_compute; reflexivity).
  assert (user req = Some Sample.owner) as H3 by reflexivity.
  assert (healthy Sample.world) as H4 by (intros n; reflexivity).
  assert (find (sameDestination normalizedUrl Sample.owner)
            (urls (db Sample.world)) = Some Sample.link) as H5
    by (vm_compute; reflexivity).
  assert (truthy (body_customAlias (body req)) = false) as H6 by reflexivity.
  destruct (@create_returns_existing_link Sample.platform req Sample.world)
    as [Hauth _].
  destruct (Hauth Sample.owner Sample.link H1 H2 H3 H4 H5) as [Hr Ho].
  destruct Hr as (w' & Hr & Hdb & _).
  destruct (Ho (or_introl H6)) as (w'' & Ho' & Hdb' & _).
  split; [exact H1|]. split; [exact H2|]. split; [exact H3|].
  split; [exact H4|]. split; [exact H5|]. split; [exact H6|].
  split; [by exists w'|]. split; [by exists w''|].
  destruct (@create_returns_existing_link Sample.platform
              (Sample.anonymous (Sample.shorten "example.com/page" JsUndefined))
              Sample.world) as [_ Hanon].
  destruct (Hanon eq_refl) as [_ Hans]. exact Hans.
Defined.

(** C6, where the original controller departs from it. The owner asks
    again for a destination that is shortened already, and the request
    carries a custom alias that [validateCustomAlias] refuses. The original
    controller validates the alias before it looks for the existing link:
    it answers 400 with the message of the alias error and never reaches
    the lookup. The refactored controller looks for the existing link
    first and returns it, as the claim says. *)
Theorem original_create_validates_alias_first `{Platform}
    (req : Request) (w w1 : World) (uid : oid) (existing : Url.t)
    (e : Error) :
  let normalizedUrl :=
    strOf (Short.normalizeUrl
             (JsStr (trim (strOf (body_originalUrl (body req)))))) in
  truthy (body_originalUrl (body req)) = true →
  isValidUrl normalizedUrl = true →
  user req = Some uid →
  healthy w →
  find (sameDestination normalizedUrl uid) (urls (db w)) = Some existing →
  truthy (body_customAlias (body req)) = true →
  validateCustomAlias (trim (strOf (body_customAlias (body req)))) w
  = (Throw e, w1) →
  asyncHandler Controller.createShortUrl req w
  = (Json 400 false (Some (errorMessage e)) NoData, w1)
  ∧ asyncHandler Refactored.createShortUrl req w
    = (Json 200 true (Some (js "URL already shortened"))
         (UrlPayload existing None), tick w).
Proof.
  intros normalizedUrl Hgiven Hvalid Huser Hhealthy Hdup Halias Hthrow.
  split; [|by apply refactored_create_existing with (uid := uid)].
  unfold asyncHandler, Controller.createShortUrl, Controller.bad.
  rewrite Hgiven. cbn [negb]. fold normalizedUrl. rewrite Hvalid, Halias.
  cbn [negb]. rewrite bind_run. unfold try.
  by rewrite bind_run, Hthrow, ret_run.
Qed.

Lemma original_create_validates_alias_first_witness :
  let asked (alias message : jsstr) :=
    let req := Sample.owned (Sample.shorten "example.com/page" (JsStr alias))
                 Sample.noQuery in
    user req = Some Sample.owner
    ∧ asyncHandler (@Controller.createShortUrl Sample.platform) req
        Sample.world
      = (Json 400 false (Some message) NoData,
         (validateCustomAlias alias Sample.world).2)
    ∧ asyncHandler (@Refactored.createShortUrl Sample.platform) req
        Sample.world
      = (Json 200 true (Some (js "URL already shortened"))
           (UrlPayload Sample.link None), tick Sample.world) in
  find (sameDestination (js "https://example.com/page") Sample.owner)
    (urls (db Sample.world)) = Some Sample.link
  ∧ Url.shortCode Sample.link = js "abc123"
  ∧ asked (js "ab") (js "Custom alias must be at least 3 characters long")
  ∧ asked (js "abc123") (js "This alias is already taken").
Proof.
  intros asked. split; [vm_compute; reflexivity|]. split; [reflexivity|].
  assert (∀ alias message : jsstr,
            validateCustomAlias alias Sample.world
            = (Throw (Err message),
               (validateCustomAlias alias Sample.world).2) →
            trim alias = alias →
            asked alias message) as Hasked.
  { intros alias message Hthrow Htrim. unfold asked. cbn zeta.
    split; [reflexivity|].
    apply (original_create_validates_alias_first (H:=Sample.platform)
             (Sample.owned (Sample.shorten "example.com/page" (JsStr alias))
                Sample.noQuery)
             Sample.world (validateCustomAlias alias Sample.world).2
             Sample.owner Sample.link (Err message)).
    - reflexivity.
    - vm_compute. reflexivity.
    - reflexivity.
    - intros n. reflexivity.
    - vm_compute. reflexivity.
    - cbn [Sample.owned Sample.shorten body body_customAlias truthy].
      destruct alias; [discriminate Hthrow|reflexivity].
    - cbn [Sample.owned Sample.shorten body body_customAlias strOf].
      rewrite Htrim. exact Hthrow. }
  split; apply Hasked; vm_compute; reflexivity.
Defined.

(** Anonymous requests are not deduplicated: the same destination, asked
    for twice without authentication, is stored twice. *)
Example anonymous_create_twice :
  let req := Sample.anonymous (Sample.shorten "example.org" JsUndefined) in
  let create := asyncHandler (@Refactored.createShortUrl Sample.platform) req in
  let w1 := (create Sample.world).2 in
  let w2 := (create w1).2 in
  match (create Sample.world).1, (create w1).1 with
  | Json 201 true _ (UrlPayload a _), Json 201 true _ (UrlPayload b _) =>
      Url.originalUrl a = Url.originalUrl b ∧ Url._id a ≠ Url._id b
      ∧ length (urls (db w2)) = 3%nat
  | _, _ => False
  end.
Proof. vm_compute. split; [done|]. split; [|done]. intros Heq. discriminate. Qed.

(** ** Grouping, sorting and limiting *)

Section Groups.
Context {K : Type} `{EqDecision K}.
Implicit Types (k : K) (g : list (K * nat)).

Lemma countIn_bump k k' g :
  countIn k' (bump k g)
  = if decide (k' = k) then S (countIn k g) else countIn k' g.
Proof.
  induction g as [|[k0 n] r IH]; simpl.
  - by destruct (decide (k' = k)).
  - destruct (decide (k = k0)) as [->|Hne]; simpl.
    + by destruct (decide (k' = k0)).
    + destruct (decide (k' = k0)) as [->|Hne'].
      * by rewrite decide_False.
      * apply IH.
Qed.

Lemma bump_keys k g :
  map fst (bump k g)
  = if decide (k ∈ map fst g) then map fst g else map fst g ++ [k].
Proof.
  induction g as [|[k0 n] r IH]; simpl.
  - done.
  - destruct (decide (k = k0)) as [->|Hne]; simpl.
    + rewrite decide_True; [done|]. left.
    + rewrite IH. destruct (decide (k ∈ map fst r)) as [Hin|Hout].
      * rewrite decide_True; [done|]. by right.
      * rewrite decide_False; [done|].
        intros [?|?]%elem_of_cons; done.
Qed.

Lemma bump_NoDup k g : NoDup (map fst g) → NoDup (map fst (bump k g)).
Proof.
  intros Hnd. rewrite bump_keys. destruct (decide _); [done|].
  apply NoDup_app. split; [done|]. split.
  - intros x Hx Hx'. apply list_elem_of_singleton in Hx' as ->. done.
  - apply NoDup_singleton.
Qed.

Lemma bump_positive k g :
  (∀ x, x ∈ g → 0 < snd x)%nat → (∀ x, x ∈ bump k g → 0 < snd x)%nat.
Proof.
  induction g as [|[k0 n] r IH]; simpl; intros Hpos x Hx.
  - apply list_elem_of_singleton in Hx as ->. simpl. lia.
  - destruct (decide (k = k0)) as [->|Hne].
    + apply elem_of_cons in Hx as [->|Hx]; [simpl; lia|].
      apply Hpos. by right.
    + apply elem_of_cons in Hx as [->|Hx].
      * apply (Hpos (k0, n)). left.
      * apply IH; [|done]. intros y Hy. apply Hpos. by right.
Qed.

Lemma countIn_elem_of k n g :
  NoDup (map fst g) → (k, n) ∈ g → countIn k g = n.
Proof.
  induction g as [|[k0 m] r IH]; simpl; intros Hnd Hin.
  - by apply not_elem_of_nil in Hin.
  - apply NoDup_cons in Hnd as [Hk0 Hnd].
    apply elem_of_cons in Hin as [Heq|Hin].
    + injection Heq as -> ->. by rewrite decide_True.
    + rewrite decide_False; [by apply IH|].
      intros ->. apply Hk0.
      apply list_elem_of_fmap. by exists (k0, n).
Qed.

Lemma countIn_not_elem_of k g : k ∉ map fst g → countIn k g = 0%nat.
Proof.
  induction g as [|[k0 m] r IH]; simpl; intros Hout; [done|].
  apply not_elem_of_cons in Hout as [Hne Hout].
  rewrite decide_False by done. by apply IH.
Qed.

Lemma groupCount_snoc (keys : list K) k :
  groupCount (keys ++ [k]) = bump k (groupCount keys).
Proof. unfold groupCount. by rewrite foldl_app. Qed.

Lemma groupCount_spec (keys : list K) :
  NoDup (map fst (groupCount keys))
  ∧ (∀ x, x ∈ groupCount keys → 0 < snd x)%nat
  ∧ ∀ k, countIn k (groupCount keys) = length (filter (λ x, x = k) keys).
Proof.
  induction keys as [|k keys IH] using rev_ind.
  - split; [apply NoDup_nil_2|]. split; [|done].
    intros x Hx. by apply not_elem_of_nil in Hx.
  - destruct IH as (Hnd & Hpos & Hcount). rewrite groupCount_snoc.
    split; [by apply bump_NoDup|]. split; [by apply bump_positive|].
    intros k'. rewrite countIn_bump, filter_app, length_app, !Hcount.
    rewrite filter_cons, filter_nil.
    destruct (decide (k' = k)) as [->|Hne].
    + rewrite decide_True by done. simpl. lia.
    + rewrite decide_False by congruence. simpl. lia.
Qed.

(** ** Sorting *)

Lemma insertDesc_perm (x : K * nat) g : insertDesc x g ≡ₚ x :: g.
Proof.
  induction g as [|y r IH]; simpl; [done|].
  destruct (snd y <=? snd x)%nat; [done|].
  rewrite IH. apply Permutation_swap.
Qed.

Lemma sortDesc_perm g : sortDesc g ≡ₚ g.
Proof.
  induction g as [|x r IH]; simpl; [done|].
  rewrite insertDesc_perm. by rewrite IH.
Qed.

Abbreviation desc := (StronglySorted (λ x y : K * nat, (snd y ≤ snd x)%nat)).

Lemma insertDesc_sorted (x : K * nat) g : desc g → desc (insertDesc x g).
Proof.
  induction g as [|y r IH]; simpl; intros Hs.
  - by repeat constructor.
  - destruct (snd y <=? snd x)%nat eqn:Hle.
    + apply Nat.leb_le in Hle. constructor; [done|].
      apply StronglySorted_inv in Hs as [Hr Hy].
      constructor; [done|].
      eapply Forall_impl; [exact Hy|]. intros z Hz. simpl in *. lia.
    + apply Nat.leb_gt in Hle.
      apply StronglySorted_inv in Hs as [Hr Hy].
      constructor; [by apply IH|].
      rewrite insertDesc_perm. constructor; [lia|done].
Qed.

Lemma sortDesc_sorted g : desc (sortDesc g).
Proof.
  induction g as [|x r IH]; simpl; [constructor|].
  by apply insertDesc_sorted.
Qed.

Lemma sorted_take (n : nat) g : desc g → desc (take n g).
Proof.
  revert n. induction g as [|x r IH]; intros [|n] Hs; simpl;
    try constructor.
  - apply IH. by apply StronglySorted_inv in Hs as [? ?].
  - apply StronglySorted_inv in Hs as [_ Hx].
    apply Forall_take. done.
Qed.

Lemma sorted_take_drop (n : nat) g x y :
  desc g → x ∈ take n g → y ∈ drop n g → (snd y ≤ snd x)%nat.
Proof.
  revert n. induction g as [|z r IH]; intros [|n] Hs Hx Hy; simpl in *;
    try by apply not_elem_of_nil in Hx.
  apply StronglySorted_inv in Hs as [Hr Hz].
  apply elem_of_cons in Hx as [->|Hx].
  - rewrite List.Forall_forall in Hz. apply Hz.
    apply list_elem_of_In. rewrite <- (take_drop n r).
    apply elem_of_app. by right.
  - by eapply IH.
Qed.

End Groups.

(** ** The facets of the report *)

Lemma count_map_key (key : Click.t → option jsstr) (k : option jsstr)
    (cs : list Click.t) :
  length (filter (λ x, x = k) (map key cs)) = clicksWith key k cs.
Proof.
  unfold clicksWith. induction cs as [|c cs IH]; [done|].
  cbn [map]. rewrite !filter_cons.
  destruct (decide (key c = k)); simpl; by rewrite IH.
Qed.

Lemma top10_spec (key : Click.t → option jsstr) (cs : list Click.t) :
  topGroups key cs (top10 key cs).
Proof.
  unfold top10.
  destruct (groupCount_spec (map key cs)) as (Hnd & Hpos & Hcount).
  set (G := groupCount (map key cs)) in *.
  pose proof (sortDesc_perm G) as Hperm.
  pose proof (sortDesc_sorted G) as Hsorted.
  set (S := sortDesc G) in *.
  assert (NoDup (map fst S)) as HndS by (by rewrite Hperm).
  assert (∀ k n, (k, n) ∈ S → n = clicksWith key k cs ∧ (0 < n)%nat) as Hin.
  { intros k n Hk. rewrite Hperm in Hk. split.
    - rewrite <- count_map_key, <- Hcount. symmetry.
      by apply countIn_elem_of.
    - apply (Hpos (k, n) Hk). }
  split; [|split; [|split; [|split]]].
  - change (map fst (take 10 S)) with (fst <$> take 10 S).
    rewrite fmap_take. eapply sublist_NoDup; [exact HndS|apply sublist_take].
  - intros k n Hk. apply Hin.
    rewrite <- (take_drop 10 S). apply elem_of_app. by left.
  - by apply sorted_take.
  - rewrite length_take. lia.
  - intros k Hk Hout.
    assert (k ∈ map fst G) as HkG.
    { destruct (decide (k ∈ map fst G)) as [|Hno]; [done|].
      apply countIn_not_elem_of in Hno.
      rewrite Hcount, count_map_key in Hno. lia. }
    apply list_elem_of_fmap in HkG as ([k' n] & -> & HkG). simpl in *.
    assert ((k', n) ∈ drop 10 S) as Hdrop.
    { rewrite <- Hperm, <- (take_drop 10 S) in HkG.
      apply elem_of_app in HkG as [Htake|]; [|done].
      exfalso. apply Hout. apply list_elem_of_fmap. by exists (k', n). }
    split.
    + rewrite length_take.
      assert (length (drop 10 S) ≠ 0)%nat as Hlen
        by (destruct (drop 10 S); [by apply not_elem_of_nil in Hdrop|done]).
      rewrite length_drop in Hlen. lia.
    + intros g Hg.
      destruct (Hin k' n) as [-> _].
      { rewrite <- (take_drop 10 S). apply elem_of_app. by right. }
      by apply (sorted_take_drop 10 S g (k', clicksWith key k' cs)).
Qed.

(** ** Reading a result back *)

Lemma bind_ok_inv {A B} (m : M A) (k : A → M B) (w w' : World) (b : B) :
  (m ≫= k) w = (Ok b, w') →
  ∃ a w1, m w = (Ok a, w1) ∧ k a w1 = (Ok b, w').
Proof.
  rewrite bind_run. destruct (m w) as [[a|e] w1]; [|done]. by exists a, w1.
Qed.

Lemma both_ok_inv {A B} (a : M A) (b : M B) (w w' : World) (x : A) (y : B) :
  both a b w = (Ok (x, y), w') →
  ∃ w1, a w = (Ok x, w1) ∧ b w1 = (Ok y, w').
Proof.
  unfold both. destruct (a w) as [[x'|e] w1], (b w1) as [[y'|e'] w2] eqn:Eb;
    intros Heq; simplify_eq; by exists w1.
Qed.

Lemma query_ok_inv {A} (f : Db → A) (w w' : World) (x : A) :
  query f w = (Ok x, w') → x = f (db w) ∧ w' = tick w.
Proof.
  rewrite query_run. destruct (rejects w (calls w)); intros Heq; by simplify_eq.
Qed.

Lemma castDate_ok_inv (d : DateVal) (w w' : World) (t : date) :
  castDate d w = (Ok t, w') → d = ValidDate t ∧ w' = w.
Proof.
  destruct d; unfold castDate; rewrite ?throw_run, ?ret_run; intros Heq;
    by simplify_eq.
Qed.

Lemma asyncHandler_json_inv (fn : Request → M Response) (req : Request)
    (w w' : World) status success message data :
  asyncHandler fn req w = (Json status success message data, w') →
  fn req w = (Ok (Json status success message data), w').
Proof.
  unfold asyncHandler. destruct (fn req w) as [[r|e] w1]; intros Heq;
    by simplify_eq.
Qed.

Section Report.
Context `{Platform}.

Lemma getDateRange_inv (q : Query) (w w' : World) (p : DateVal * DateVal) :
  Refactored.getDateRange q w = (Ok p, w') → w' = w.
Proof.
  unfold Refactored.getDateRange. destruct (_ && _).
  - rewrite ret_run. intros Heq. by simplify_eq.
  - rewrite bind_run, now_run, ret_run. intros Heq. by simplify_eq.
Qed.

Lemma dateRange_inv (q : Query) (w w' : World) (p : DateVal * DateVal) :
  Controller.dateRange q w = (Ok p, w') → w' = w.
Proof.
  unfold Controller.dateRange. destruct (_ && _).
  - rewrite ret_run. intros Heq. by simplify_eq.
  - rewrite bind_run, now_run, ret_run. intros Heq. by simplify_eq.
Qed.

(** What a report of the refactored controller holds. *)
Lemma refactored_report (req : Request) (w w' : World) (a : Analytics) :
  Refactored.getUrlAnalytics req w
  = (Ok (Json 200 true None (AnalyticsPayload a)), w') →
  ∃ uid url,
    user req = Some uid
    ∧ find (ownedBy (param_id req) uid) (urls (db w)) = Some url
    ∧ a_url a = urlInfo url
    ∧ db w' = db w
    ∧ let cs := matched (Url._id url) (a_start a) (a_end a) (db w) in
      summary a = default (mkSummary 0 0) (head (summaryFacet cs))
      ∧ clicksByCountry a
        = map (Refactored.entry "Unknown") (top10 byCountry cs)
      ∧ clicksByBrowser a
        = map (Refactored.entry "Unknown") (top10 byBrowser cs)
      ∧ clicksByOS a = map (Refactored.entry "Unknown") (top10 byOS cs)
      ∧ clicksByDevice a
        = map (Refactored.entry "desktop") (allDesc byDevice cs).
Proof.
  unfold Refactored.getUrlAnalytics, Refactored.findUrlForUser, withUser.
  destruct (user req) as [uid|]; [|done].
  intros Hrun. apply bind_ok_inv in Hrun as (found & w1 & Hfind & Hrun).
  rewrite findOne_run in Hfind.
  destruct (rejects w (calls w)); [done|]. simplify_eq.
  destruct (find _ _) as [url|] eqn:Hfound; [|by rewrite ret_run in Hrun].
  apply bind_ok_inv in Hrun as ([start end_] & w2 & Hrange & Hrun).
  apply getDateRange_inv in Hrange as ->.
  apply bind_ok_inv in Hrun as (facets & w3 & Hq & Hrun).
  apply query_ok_inv in Hq as [-> ->].
  apply bind_ok_inv in Hrun as (s & w4 & Hs & Hrun).
  apply castDate_ok_inv in Hs as [-> ->].
  apply bind_ok_inv in Hrun as (e & w5 & He & Hrun).
  apply castDate_ok_inv in He as [-> ->].
  apply bind_ok_inv in Hrun as (recent & w6 & Hq & Hrun).
  apply query_ok_inv in Hq as [-> ->].
  rewrite ret_run in Hrun. simplify_eq.
  exists uid, url. done.
Qed.

(** What a report of the original controller holds. *)
Lemma original_report (req : Request) (w w' : World) (a : Analytics) :
  Controller.getUrlAnalytics req w
  = (Ok (Json 200 true None (AnalyticsPayload a)), w') →
  ∃ uid url,
    user req = Some uid
    ∧ find (ownedBy (param_id req) uid) (urls (db w)) = Some url
    ∧ a_url a = urlInfo url
    ∧ db w' = db w
    ∧ let cs := matched (Url._id url) (a_start a) (a_end a) (db w) in
      summary a = default (mkSummary 0 0) (head (summaryFacet cs))
      ∧ clicksByCountry a = map Controller.entry (top10 byCountry cs)
      ∧ clicksByBrowser a = map Controller.entry (top10 byBrowser cs)
      ∧ clicksByOS a = map Controller.entry (top10 byOS cs)
      ∧ clicksByDevice a = map Controller.entry (allDesc byDevice cs).
Proof.
  unfold Controller.getUrlAnalytics, withUser.
  destruct (user req) as [uid|]; [|done].
  intros Hrun. apply bind_ok_inv in Hrun as (found & w1 & Hfind & Hrun).
  rewrite findOne_run in Hfind.
  destruct (rejects w (calls w)); [done|]. simplify_eq.
  destruct (find _ _) as [url|] eqn:Hfound; [|by rewrite ret_run in Hrun].
  apply bind_ok_inv in Hrun as ([start end_] & w2 & Hrange & Hrun).
  apply dateRange_inv in Hrange as ->.
  apply bind_ok_inv in Hrun
    as ((stats & dates & countries & browsers & oss & devices & recent)
        & w3 & Hall & Hrun).
  apply both_ok_inv in Hall as (v1 & Hq1 & Hall).
  apply query_ok_inv in Hq1 as [-> ->].
  apply both_ok_inv in Hall as (v2 & Hq2 & Hall).
  apply query_ok_inv in Hq2 as [-> ->].
  apply both_ok_inv in Hall as (v3 & Hq3 & Hall).
  apply query_ok_inv in Hq3 as [-> ->].
  apply both_ok_inv in Hall as (v4 & Hq4 & Hall).
  apply query_ok_inv in Hq4 as [-> ->].
  apply both_ok_inv in Hall as (v5 & Hq5 & Hall).
  apply query_ok_inv in Hq5 as [-> ->].
  apply both_ok_inv in Hall as (v6 & Hq6 & Hall).
  apply query_ok_inv in Hq6 as [-> ->].
  apply bind_ok_inv in Hall as (s & w4 & Hs & Hall).
  apply castDate_ok_inv in Hs as [-> ->].
  apply bind_ok_inv in Hall as (e & w5 & He & Hall).
  apply castDate_ok_inv in He as [-> ->].
  apply query_ok_inv in Hall as [-> ->].
  rewrite ret_run in Hrun. simplify_eq.
  exists uid, url. done.
Qed.

End Report.

Lemma matched_spec (id : oid) (start end_ : date) (d : Db) (c : Click.t) :
  c ∈ matched id start end_ d
  ↔ c ∈ clicks d ∧ Click.url c = id
    ∧ (start ≤ Click.timestamp c ≤ end_)%Z.
Proof.
  unfold matched, inWindow. rewrite list_elem_of_In, filter_In, <- list_elem_of_In.
  rewrite !andb_true_iff, N.eqb_eq, !Z.leb_le. tauto.
Qed.

(** C7. In every analytics report, of either controller, [totalClicks] of
    the summary is the number of the Click events of the requested link,
    which the requester owns, whose timestamp lies between the start and
    the end of the window; and the chart [clicksByCountry] lists the
    countries of exactly those events: an entry carries the name of its
    country and the number of the clicks from it among them, no country
    appears twice, the entries come most clicked first, there are at most
    ten of them, and a country that is left out has no more clicks than
    any that is listed. *)
Theorem analytics_counts_window `{Platform}
    (req : Request) (w w' : World) (a : Analytics) :
  asyncHandler Controller.getUrlAnalytics req w
  = (Json 200 true None (AnalyticsPayload a), w')
  ∨ asyncHandler Refactored.getUrlAnalytics req w
    = (Json 200 true None (AnalyticsPayload a), w') →
  ∃ uid url,
    user req = Some uid
    ∧ find (ownedBy (param_id req) uid) (urls (db w)) = Some url
    ∧ a_url a = urlInfo url
    ∧ let cs := matched (Url._id url) (a_start a) (a_end a) (db w) in
      (∀ c, c ∈ cs ↔ c ∈ clicks (db w) ∧ Click.url c = Url._id url
                     ∧ (a_start a ≤ Click.timestamp c ≤ a_end a)%Z)
      ∧ totalClicks (summary a) = length cs
      ∧ ∃ groups,
          topGroups byCountry cs groups
          ∧ Forall2 (λ e g,
               entry_clicks e = snd g
               ∧ ∀ country, fst g = Some country → country ≠ [] →
                   label e = JsStr country)
              (clicksByCountry a) groups.
Proof.
  assert (∀ (f : option jsstr * nat → ChartEntry) groups,
            (∀ g, entry_clicks (f g) = snd g
                  ∧ ∀ country, fst g = Some country → country ≠ [] →
                      label (f g) = JsStr country) →
            Forall2 (λ e g,
               entry_clicks e = snd g
               ∧ ∀ country, fst g = Some country → country ≠ [] →
                   label e = JsStr country)
              (map f groups) groups) as Hentries.
  { intros f groups Hf. induction groups as [|g groups IH]; constructor.
    - apply Hf.
    - exact IH. }
  intros [Hrun|Hrun]; apply asyncHandler_json_inv in Hrun.
  - apply original_report in Hrun
      as (uid & url & Hu & Hf & Ha & _ & Hs & Hc & _).
    exists uid, url. split; [done|]. split; [done|]. split; [done|].
    cbn zeta. split; [intros c; apply matched_spec|]. split.
    + rewrite Hs. by destruct (matched _ _ _ _).
    + exists (top10 byCountry (matched (Url._id url) (a_start a) (a_end a) (db w))).
      split; [apply top10_spec|]. rewrite Hc. apply Hentries.
      intros [k n]. split; [done|]. intros country Hk _.
      cbn in Hk. subst k. done.
  - apply refactored_report in Hrun
      as (uid & url & Hu & Hf & Ha & _ & Hs & Hc & _).
    exists uid, url. split; [done|]. split; [done|]. split; [done|].
    cbn zeta. split; [intros c; apply matched_spec|]. split.
    + rewrite Hs. by destruct (matched _ _ _ _).
    + exists (top10 byCountry (matched (Url._id url) (a_start a) (a_end a) (db w))).
      split; [apply top10_spec|]. rewrite Hc. apply Hentries.
      intros [k n]. split; [done|]. intros country Hk Hne.
      cbn in Hk. subst k. unfold Refactored.entry. cbn.
      by destruct country.
Qed.

Lemma analytics_counts_window_witness :
  let req := Sample.owned Sample.noBody Sample.noQuery in
  let counted handler :=
    ∃ a w',
      asyncHandler handler req Sample.clicked
      = (Json 200 true None (AnalyticsPayload a), w')
      ∧ length (clicks (db Sample.clicked)) = 13%nat
      ∧ totalClicks (summary a) = 11%nat
      ∧ chart (clicksByCountry a)
        = [(JsStr (js "US"), 7%nat); (JsStr (js "DE"), 3%nat);
           (JsStr (js "Unknown"), 1%nat)]
      ∧ totalClicks (summary a)
        = length (matched 1 (a_start a) (a_end a) (db Sample.clicked)) in
  counted (@Controller.getUrlAnalytics Sample.platform)
  ∧ counted (@Refactored.getUrlAnalytics Sample.platform).
Proof.
  intros req counted.
  assert (∀ handler,
            handler ∈ [@Controller.getUrlAnalytics Sample.platform;
                       @Refactored.getUrlAnalytics Sample.platform] →
            counted handler) as Hboth.
  { intros handler Hin. unfold counted.
    destruct (asyncHandler handler req Sample.clicked) as [r w'] eqn:Hrun.
    assert (∃ a, r = Json 200 true None (AnalyticsPayload a)
                 ∧ totalClicks (summary a) = 11%nat
                 ∧ chart (clicksByCountry a)
                   = [(JsStr (js "US"), 7%nat); (JsStr (js "DE"), 3%nat);
                      (JsStr (js "Unknown"), 1%nat)]) as (a & -> & Ht & Hc).
    { assert (r = (asyncHandler handler req Sample.clicked).1) as ->
        by (by rewrite Hrun).
      clear Hrun.
      repeat (apply elem_of_cons in Hin as [->|Hin]);
        [| |by apply elem_of_nil in Hin];
        vm_compute; eexists; (split; [reflexivity|]); split; reflexivity. }
    exists a, w'. split; [reflexivity|]. split; [reflexivity|].
    split; [exact Ht|]. split; [exact Hc|].
    assert (asyncHandler (@Controller.getUrlAnalytics Sample.platform) req
              Sample.clicked = (Json 200 true None (AnalyticsPayload a), w')
            ∨ asyncHandler (@Refactored.getUrlAnalytics Sample.platform) req
                Sample.clicked
              = (Json 200 true None (AnalyticsPayload a), w'))
      as Hcases.
    { repeat (apply elem_of_cons in Hin as [->|Hin]); [by left|by right|].
      by apply elem_of_nil in Hin. }
    destruct (@analytics_counts_window Sample.platform req Sample.clicked w' a
                Hcases) as (uid & url & Hu & Hf & _ & _ & Htotal & _).
    injection Hu as <-.
    assert (find (ownedBy (param_id req) Sample.owner)
              (urls (db Sample.clicked)) = Some Sample.link) as Hlink
      by (vm_compute; reflexivity).
    rewrite Hlink in Hf. injection Hf as <-. exact Htotal. }
  split; apply Hboth; apply elem_of_cons; [by left|right].
  apply elem_of_cons. by left.
Defined.

(** The example of the specification, in the original controller too. *)
Example analytics_example_original :
  let req := Sample.owned Sample.noBody Sample.noQuery in
  (λ a, (totalClicks (summary a), chart (clicksByCountry a)))
  <$> reportOf (asyncHandler (@Controller.getUrlAnalytics Sample.platform) req
                  Sample.clicked).1
  = Some (11%nat, [(JsStr (js "US"), 7%nat); (JsStr (js "DE"), 3%nat);
                   (JsStr (js "Unknown"), 1%nat)]).
Proof. vm_compute. reflexivity. Qed.

(** A store written by hand, with a click that carries no value in any
    dimension, as no handler leaves one: the refactored controller labels it
    [Unknown] in the three charts and [desktop] in the chart of the
    devices, as every entry of its charts whose value is missing or empty;
    the original controller hands the missing value on as [null]. *)
Theorem original_report_labels_missing_null :
  let req := Sample.owned Sample.noBody Sample.noQuery in
  let labels (a : Analytics) :=
    (chart (clicksByCountry a), chart (clicksByBrowser a),
     chart (clicksByOS a), chart (clicksByDevice a)) in
  (∀ (fallback : string) (g : option jsstr * nat),
     label (Refactored.entry fallback g)
     = JsStr (match fst g with
              | Some (c :: r) => c :: r
              | _ => js fallback
              end))
  ∧ labels <$> reportOf (asyncHandler
                           (@Refactored.getUrlAnalytics Sample.platform) req
                           Sample.unlabelled).1
    = Some ([(JsStr (js "Unknown"), 1%nat)], [(JsStr (js "Unknown"), 1%nat)],
            [(JsStr (js "Unknown"), 1%nat)], [(JsStr (js "desktop"), 1%nat)])
  ∧ labels <$> reportOf (asyncHandler
                           (@Controller.getUrlAnalytics Sample.platform) req
                           Sample.unlabelled).1
    = Some ([(JsNull, 1%nat)], [(JsNull, 1%nat)], [(JsNull, 1%nat)],
            [(JsNull, 1%nat)]).
Proof.
  intros req labels. split; [|split; vm_compute; reflexivity].
  intros fallback [[[|c r]|] n]; reflexivity.
Qed.

(** ** Properties that every step keeps *)

Lemma keeps_ret {A} (K : Db → oid → Prop) (a : A) : keeps K (mret a : M A).
Proof. by intros w. Qed.

Lemma keeps_throw {A} (K : Db → oid → Prop) (e : Error) : keeps K (mthrow e : M A).
Proof. by intros w. Qed.

Lemma keeps_bind {A B} (K : Db → oid → Prop) (m : M A) (k : A → M B) :
  keeps K m → (∀ a, yields m a → keeps K (k a)) → keeps K (m ≫= k).
Proof.
  intros Hm Hk w HK. specialize (Hm w HK). rewrite bind_run.
  destruct (m w) as [[a|e] w1] eqn:E; [|done].
  apply Hk; [by exists w, w1|done].
Qed.

Lemma keeps_try {A} (K : Db → oid → Prop) (m : M A) (h : Error → M A) :
  keeps K m → (∀ e, keeps K (h e)) → keeps K (try m h).
Proof.
  intros Hm Hh w HK. specialize (Hm w HK). unfold try.
  destruct (m w) as [[a|e] w1]; [done|]. by apply Hh.
Qed.

Lemma keeps_both {A B} (K : Db → oid → Prop) (a : M A) (b : M B) :
  keeps K a → keeps K b → keeps K (both a b).
Proof.
  intros Ha Hb w HK. specialize (Ha w HK). unfold both.
  destruct (a w) as [ra w1]. specialize (Hb w1 Ha).
  destruct (b w1) as [rb w2]. by destruct ra, rb.
Qed.

Lemma keeps_promiseAll3 (K : Db → oid → Prop) (a b c : M unit) :
  keeps K a → keeps K b → keeps K c → keeps K (promiseAll3 a b c).
Proof.
  intros Ha Hb Hc. unfold promiseAll3.
  apply keeps_bind; [by repeat apply keeps_both|]. intros ? _.
  apply keeps_ret.
Qed.

Lemma keeps_storage {A} (K : Db → oid → Prop) (op : World → Res A * Db) :
  (∀ w, K (db w) (nextId w) → K (op w).2 (nextId w)) →
  keeps K (storage op).
Proof.
  intros Hop w HK. unfold storage.
  destruct (rejects w (calls w)); [done|].
  specialize (Hop (tick w) HK). by destruct (op (tick w)).
Qed.

Lemma keeps_query {A} (K : Db → oid → Prop) (f : Db → A) : keeps K (query f).
Proof. by apply keeps_storage. Qed.

Lemma keeps_now (K : Db → oid → Prop) : keeps K now.
Proof. by intros w. Qed.

Lemma keeps_draw (K : Db → oid → Prop) : keeps K draw.
Proof. by intros w. Qed.

Lemma keeps_consoleError (K : Db → oid → Prop) (text : jsstr) (e : Error) :
  keeps K (consoleError text e).
Proof. by intros w. Qed.

Ltac keeps_step :=
  lazymatch goal with
  | |- keeps _ (mret _) => apply keeps_ret
  | |- keeps _ (mthrow _) => apply keeps_throw
  | |- keeps _ (_ ≫= _) => apply keeps_bind; [|intros ? ?]
  | |- keeps _ (try _ _) => apply keeps_try; [|intros ?]
  | |- keeps _ (both _ _) => apply keeps_both
  | |- keeps _ (promiseAll3 _ _ _) => apply keeps_promiseAll3
  | |- keeps _ now => apply keeps_now
  | |- keeps _ draw => apply keeps_draw
  | |- keeps _ (consoleError _ _) => apply keeps_consoleError
  | |- keeps _ (query _) => apply keeps_query
  | |- keeps _ (Url_findOne _) => apply keeps_query
  | |- keeps _ (withUser _ _) => unfold withUser
  | |- keeps _ (match ?x with _ => _ end) => destruct x eqn:?
  end.

Lemma keeps_nanoid (K : Db → oid → Prop) (size : nat) : keeps K (nanoid size).
Proof. induction size; cbn [nanoid]; repeat keeps_step; done. Qed.

Lemma keeps_replaceSymbols (K : Db → oid → Prop) (s : jsstr) :
  keeps K (replaceSymbols s).
Proof.
  induction s as [|c r IH]; cbn [replaceSymbols]; unfold randomIndex;
    repeat keeps_step; done.
Qed.

Lemma keeps_ShortGen_loop (K : Db → oid → Prop) (fuel : nat) (st : GenState) :
  keeps K (ShortGen.loop fuel st).
Proof.
  revert st. induction fuel as [|fuel IH]; intros st; cbn [ShortGen.loop];
    repeat first [ apply keeps_nanoid | apply keeps_replaceSymbols
                 | apply IH | keeps_step ].
Qed.

Lemma keeps_generateShortCode (K : Db → oid → Prop) (len : nat) :
  keeps K (ShortGen.generateShortCode len).
Proof.
  unfold ShortGen.generateShortCode, ShortGen.generateShortCodeFrom.
  repeat first [ apply keeps_ShortGen_loop | keeps_step ].
Qed.

Lemma keeps_Short1Gen_loop (K : Db → oid → Prop) (fuel len att : nat) :
  keeps K (Short1Gen.loop fuel len att).
Proof.
  revert att. induction fuel as [|fuel IH]; intros att; cbn [Short1Gen.loop];
    repeat first [ apply keeps_nanoid | apply IH | keeps_step ].
Qed.

Lemma keeps_validateCustomAlias (K : Db → oid → Prop) (alias : jsstr) :
  keeps K (validateCustomAlias alias).
Proof. unfold validateCustomAlias. repeat keeps_step. Qed.

Lemma keeps_short1_validateCustomAlias (K : Db → oid → Prop) (alias : jsval) :
  keeps K (Short1Utils.validateCustomAlias alias).
Proof. unfold Short1Utils.validateCustomAlias. repeat keeps_step. Qed.

Lemma keeps_castDate (K : Db → oid → Prop) (d : DateVal) : keeps K (castDate d).
Proof. unfold castDate. repeat keeps_step. Qed.

(** ** What the store operations keep *)

Lemma forallb_map_trim (n : nat) (l : list jsstr) :
  forallb (maxlength n) (map trim l) = forallb (λ t, maxlength n (trim t)) l.
Proof. induction l as [|x l IH]; [done|]. cbn. by rewrite IH. Qed.

Lemma guard_None {A} (b : bool) (x : A) (rest : option A) :
  (if negb b then Some x else rest) = None ↔ b = true ∧ rest = None.
Proof. destruct b; cbn; intuition congruence. Qed.

Section Invariant.
Context `{Platform}.

Lemma urlInvalidPath_None (d : UrlData) :
  urlInvalidPath d = None ↔
    (requiredString (trim (ud_originalUrl d)) && isURL (trim (ud_originalUrl d)) = true
     ∧ requiredString (trim (ud_shortCode d)) && minlength 3 (trim (ud_shortCode d))
       && maxlength 20 (trim (ud_shortCode d))
       && matchesCodePattern (trim (ud_shortCode d)) = true
     ∧ match ud_customAlias d with
       | Some a => minlength 3 (trim a) && maxlength 50 (trim a)
                   && matchesCodePattern (trim a)
       | None => true
       end = true
     ∧ maxlength 200 (trim (ud_title d)) = true
     ∧ maxlength 500 (trim (default [] (ud_description d))) = true
     ∧ forallb (λ t, maxlength 20 (trim t)) (ud_tags d) = true
     ∧ ud_expiresAt d ≠ InvalidDate).
Proof.
  unfold urlInvalidPath. cbn zeta. rewrite !guard_None.
  destruct (ud_expiresAt d); intuition congruence.
Qed.

Lemma urlDocInvalidPath_None (u : Url.t) :
  urlDocInvalidPath u = None ↔
    (requiredString (Url.originalUrl u) && isURL (Url.originalUrl u) = true
     ∧ requiredString (Url.shortCode u) && minlength 3 (Url.shortCode u)
       && maxlength 20 (Url.shortCode u)
       && matchesCodePattern (Url.shortCode u) = true
     ∧ match Url.customAlias u with
       | Some a => minlength 3 a && maxlength 50 a && matchesCodePattern a
       | None => true
       end = true
     ∧ maxlength 200 (default [] (Url.title u)) = true
     ∧ maxlength 500 (default [] (Url.description u)) = true
     ∧ (0 ≤ Url.clicks u)%Z
     ∧ forallb (maxlength 20) (Url.tags u) = true).
Proof.
  unfold urlDocInvalidPath. rewrite !guard_None.
  destruct (Z.ltb_spec (Url.clicks u) 0); rewrite ?guard_None;
    intuition (try congruence; try lia).
Qed.

Lemma urlDocument_valid (id : oid) (t : date) (d : UrlData) :
  urlInvalidPath d = None →
  urlDocInvalidPath (urlDocument id t d) = None.
Proof.
  rewrite urlInvalidPath_None, urlDocInvalidPath_None.
  cbn [urlDocument Url.originalUrl Url.shortCode Url.customAlias Url.title
    Url.description Url.clicks Url.tags].
  intros (H1 & H2 & H3 & H4 & H5 & H6 & _).
  rewrite forallb_map_trim.
  repeat split; try done.
  - by destruct (ud_customAlias d).
  - by destruct (ud_description d).
Qed.

End Invariant.

Lemma updateFirst_Some {A} (f : A → bool) (g : A → A) (l l' : list A) :
  updateFirst f g l = Some l' →
  ∃ l1 x l2, l = l1 ++ x :: l2 ∧ l' = l1 ++ g x :: l2 ∧ f x = true
             ∧ Forall (λ y, f y = false) l1.
Proof.
  revert l'. induction l as [|y l IH]; intros l'; [done|]. cbn.
  destruct (f y) eqn:Hy.
  - intros [= <-]. by exists [], y, l.
  - destruct (updateFirst f g l) as [r|]; [|done]. intros [= <-].
    destruct (IH r eq_refl) as (l1 & x & l2 & -> & -> & Hx & Hl1).
    exists (y :: l1), x, l2. repeat split; try done. by constructor.
Qed.

Lemma updateFirst_None {A} (f : A → bool) (g : A → A) (l : list A) :
  updateFirst f g l = None → Forall (λ y, f y = false) l.
Proof.
  induction l as [|y l IH]; [done|]. cbn. destruct (f y) eqn:Hy; [done|].
  destruct (updateFirst f g l); [done|]. intros _. by constructor; [|apply IH].
Qed.

Lemma removeFirst_spec {A} (f : A → bool) (l : list A) :
  (removeFirst f l = l ∧ Forall (λ y, f y = false) l)
  ∨ ∃ l1 x l2, l = l1 ++ x :: l2 ∧ removeFirst f l = l1 ++ l2 ∧ f x = true
               ∧ Forall (λ y, f y = false) l1.
Proof.
  induction l as [|y l IH]; [by left|]. cbn. destruct (f y) eqn:Hy.
  - right. by exists [], y, l.
  - destruct IH as [[-> Hl]|(l1 & x & l2 & Hl & -> & Hx & Hl1)].
    + left. split; [done|]. by constructor.
    + right. exists (y :: l1), x, l2. rewrite Hl.
      repeat split; try done. by constructor.
Qed.

Lemma removeFirst_sublist {A} (f : A → bool) (l : list A) :
  removeFirst f l `sublist_of` l.
Proof.
  induction l as [|y l IH]; [done|]. cbn. destruct (f y).
  - by apply sublist_cons.
  - by apply sublist_skip.
Qed.

Lemma Forall_sublist {A} (P : A → Prop) (l k : list A) :
  l `sublist_of` k → Forall P k → Forall P l.
Proof.
  intros Hs Hk. apply Forall_forall. intros x Hx.
  eapply Forall_forall in Hk; [done|]. by eapply elem_of_sublist.
Qed.

Section Invariant.
Context `{Platform}.

Lemma wellFormed_succ (d : Db) (n : oid) :
  wellFormed d n → wellFormed d (N.succ n).
Proof.
  intros (? & ? & Hlt & ? & ?). repeat split; try done.
  eapply Forall_impl; [exact Hlt|]. cbn. intros. lia.
Qed.

Lemma Url_create_run (d : UrlData) (w : World) :
  Url_create d w
  = match urlInvalidPath d with
    | Some path => (Throw (ValidationError path), w)
    | None =>
        let doc := urlDocument (nextId w) (clock w) d in
        let w1 := mkWorld (db w) (N.succ (nextId w)) (clock w) (entropy w)
                    (drawn w) (rejects w) (S (calls w)) (console w) in
        if rejects w (calls w) then (Throw StorageError, w1)
        else if existsb (λ u, streq (Url.shortCode u) (Url.shortCode doc))
                  (urls (db w))
        then (Throw DuplicateKey, w1)
        else (Ok doc,
              withDb (mkDb (urls (db w) ++ [doc]) (clicks (db w))
                        (users (db w))) w1)
    end.
Proof.
  unfold Url_create. destruct (urlInvalidPath d); [done|].
  rewrite bind_run. unfold freshId at 1. rewrite bind_run, now_run.
  unfold storage. cbn [rejects calls db nextId clock].
  destruct (rejects w (calls w)); [done|].
  by destruct (existsb _ _).
Qed.

Lemma keeps_Url_create (d : UrlData) :
  (urlInvalidPath d = None → hasHttpScheme (trim (ud_originalUrl d)) = true) →
  keeps wellFormed (Url_create d).
Proof.
  intros Hscheme w Hw. rewrite Url_create_run.
  destruct (urlInvalidPath d) eqn:Hd; [done|]. cbn zeta.
  destruct (rejects w (calls w)); [by apply wellFormed_succ|].
  destruct (existsb _ _) eqn:Hex; [by apply wellFormed_succ|].
  destruct Hw as (Hcodes & Hids & Hlt & Hurls & Hclicks).
  unfold wellFormed. cbn [snd db nextId withDb urls clicks].
  repeat split.
  - rewrite map_app. apply NoDup_app. split; [done|].
    split; [|apply NoDup_singleton].
    intros code Hin Hcode. apply list_elem_of_singleton in Hcode.
    apply list_elem_of_fmap in Hin as (u & Hu & Hin).
    apply not_true_iff_false in Hex. apply Hex, existsb_exists.
    exists u. split; [by apply list_elem_of_In|].
    apply bool_decide_eq_true. congruence.
  - rewrite map_app. apply NoDup_app. split; [done|].
    split; [|apply NoDup_singleton].
    intros id Hin Hid'. apply list_elem_of_singleton in Hid'.
    apply list_elem_of_fmap in Hin as (u & Hu & Hin).
    eapply Forall_forall in Hlt; [|exact Hin]. cbn in Hlt, Hid'. lia.
  - apply Forall_app. split.
    + eapply Forall_impl; [exact Hlt|]. cbn. intros. lia.
    + apply Forall_singleton. cbn. lia.
  - apply Forall_app. split; [done|]. apply Forall_singleton.
    split; [by apply urlDocument_valid|by apply Hscheme].
  - done.
Qed.

Lemma clickDocument_valid (id : oid) (t : date) (d : ClickData) :
  clickInvalidPath d = None → validClick (clickDocument id t d).
Proof.
  unfold clickInvalidPath. rewrite !guard_None.
  intros (Hip & Hua & _ & _ & _ & _ & _ & _ & _ & Hty & _).
  apply andb_true_iff in Hip as [_ Hip]. apply andb_true_iff in Hua as [Hua _].
  apply bool_decide_eq_true in Hty.
  repeat split; cbn; try done; try by eexists.
  by destruct (cd_userAgent d).
Qed.

Lemma Click_create_run (d : ClickData) (w : World) :
  Click_create d w
  = match clickInvalidPath d with
    | Some path => (Throw (ValidationError path), w)
    | None =>
        let doc := clickDocument (nextId w) (clock w) d in
        let w1 := mkWorld (db w) (N.succ (nextId w)) (clock w) (entropy w)
                    (drawn w) (rejects w) (S (calls w)) (console w) in
        if rejects w (calls w) then (Throw StorageError, w1)
        else (Ok doc, withDb (insertClick doc (db w)) w1)
    end.
Proof.
  unfold Click_create. destruct (clickInvalidPath d); [done|].
  rewrite bind_run. unfold freshId at 1. rewrite bind_run, now_run.
  unfold storage. cbn [rejects calls db nextId clock].
  by destruct (rejects w (calls w)).
Qed.

Lemma keeps_Click_create (d : ClickData) : keeps wellFormed (Click_create d).
Proof.
  intros w Hw. rewrite Click_create_run.
  destruct (clickInvalidPath d) eqn:Hd; [done|]. cbn zeta.
  destruct (rejects w (calls w)); [by apply wellFormed_succ|].
  apply wellFormed_succ in Hw.
  destruct Hw as (Hcodes & Hids & Hlt & Hurls & Hclicks).
  unfold wellFormed.
  cbn [snd db nextId withDb urls clicks insertClick].
  repeat split; try done.
  apply Forall_app. split; [done|]. apply Forall_singleton.
  by apply clickDocument_valid.
Qed.

Lemma keeps_Click_deleteMany (id : oid) :
  keeps wellFormed (Click_deleteMany id).
Proof.
  apply keeps_storage. intros w (Hcodes & Hids & Hlt & Hurls & Hclicks).
  unfold wellFormed. cbn [snd urls clicks].
  repeat split; try done.
  apply Forall_forall. intros c Hc. apply list_elem_of_filter in Hc as [_ Hc].
  by eapply Forall_forall in Hclicks.
Qed.

Lemma keeps_Url_findByIdAndDelete (id : oid) :
  keeps wellFormed (Url_findByIdAndDelete id).
Proof.
  apply keeps_storage. intros w (Hcodes & Hids & Hlt & Hurls & Hclicks).
  unfold wellFormed. cbn [snd urls clicks].
  pose proof (removeFirst_sublist (λ u, Url._id u =? id) (urls (db w))) as Hs.
  repeat split; try done.
  - eapply sublist_NoDup; [done|]. by apply fmap_sublist.
  - eapply sublist_NoDup; [done|]. by apply fmap_sublist.
  - by eapply Forall_sublist.
  - by eapply Forall_sublist.
Qed.

Lemma keeps_User_inc (id : oid) (a b : Z) :
  keeps wellFormed (User_findByIdAndUpdate_inc id a b).
Proof. by apply keeps_storage. Qed.

End Invariant.

Section Invariant2.
Context `{Platform}.

Lemma wellFormed_update (f : Url.t → bool) (g : Url.t → Url.t) (d : Db)
    (urls' : list Url.t) :
  updateFirst f g (urls d) = Some urls' →
  (∀ u, Url.shortCode (g u) = Url.shortCode u) →
  (∀ u, Url._id (g u) = Url._id u) →
  (∀ u, validUrl u → validUrl (g u)) →
  ∀ n, wellFormed d n → wellFormed (mkDb urls' (clicks d) (users d)) n.
Proof.
  intros Hupd Hcode Hid Hvalid n (Hcodes & Hids & Hlt & Hurls & Hclicks).
  apply updateFirst_Some in Hupd as (l1 & x & l2 & Hl & -> & _ & _).
  unfold wellFormed. cbn [urls clicks]. rewrite Hl in Hcodes, Hids, Hlt, Hurls.
  repeat split; try done.
  - rewrite map_app in *. cbn [map] in *. by rewrite Hcode.
  - rewrite map_app in *. cbn [map] in *. by rewrite Hid.
  - apply Forall_app in Hlt as [H1 H2]. apply Forall_cons in H2 as [Hx H2].
    apply Forall_app. split; [done|]. apply Forall_cons. split; [|done].
    by rewrite Hid.
  - apply Forall_app in Hurls as [H1 H2]. apply Forall_cons in H2 as [Hx H2].
    apply Forall_app. split; [done|]. apply Forall_cons. split; [|done].
    by apply Hvalid.
Qed.

Lemma written_cases {A} `{EqDecision A} (P : A → Prop) (a b c : A) :
  P b → P c → P (written a b c).
Proof. unfold written. by destruct (decide _). Qed.

Lemma keeps_incrementClicks (this : Url.t) :
  keeps wellFormed (incrementClicks this).
Proof.
  unfold incrementClicks.
  apply keeps_bind; [apply keeps_now|]. intros t _. cbn zeta.
  destruct (urlDocInvalidPath _) as [p|] eqn:Hed; [apply keeps_throw|].
  apply keeps_storage. intros w Hw.
  destruct (updateFirst _ _ _) as [urls'|] eqn:Hupd; [|done].
  cbn [snd]. eapply wellFormed_update; [exact Hupd|done|done| |done].
  intros u [Hu Hs]. split; [|done].
  revert Hu. apply urlDocInvalidPath_None in Hed. revert Hed.
  rewrite !urlDocInvalidPath_None.
  cbn [Url.originalUrl Url.shortCode Url.customAlias Url.title
    Url.description Url.clicks Url.tags].
  intros (_ & _ & _ & _ & _ & E6 & _) (? & ? & ? & ? & ? & U6 & ?).
  repeat split; try done.
  by apply (written_cases (λ x, (0 ≤ x)%Z)).
Qed.

Lemma keeps_Url_save (this edited : Url.t) (castError : option jsstr) :
  keeps wellFormed (Url_save this edited castError).
Proof.
  unfold Url_save.
  destruct (urlDocInvalidPath edited) as [p|] eqn:Hed; [apply keeps_throw|].
  destruct castError; [apply keeps_throw|].
  apply keeps_bind; [apply keeps_now|]. intros t _.
  apply keeps_storage. intros w Hw.
  destruct (updateFirst _ _ _) as [urls'|] eqn:Hupd; [|done].
  cbn [snd]. eapply wellFormed_update; [exact Hupd|done|done| |done].
  intros u [Hu Hs]. split; [|done].
  revert Hu. apply urlDocInvalidPath_None in Hed. revert Hed.
  rewrite !urlDocInvalidPath_None.
  cbn [Url.originalUrl Url.shortCode Url.customAlias Url.title
    Url.description Url.clicks Url.tags].
  intros (_ & _ & _ & E4 & E5 & _ & E7) (? & ? & ? & U4 & U5 & ? & U7).
  repeat split; try done.
  - by apply (written_cases (λ x, maxlength 200 (default [] x) = true)).
  - by apply (written_cases (λ x, maxlength 500 (default [] x) = true)).
  - by apply (written_cases (λ x, forallb (maxlength 20) x = true)).
Qed.

End Invariant2.

(** ** What the handlers keep *)

Lemma normalized_trimmed (s : jsstr) : trim (normalized s) = normalized s.
Proof.
  unfold normalized. destruct (hasHttpScheme (trim s)); cbn [negb].
  - apply trim_idem.
  - apply trim_https, trim_idem.
Qed.

Lemma normalized_scheme (s : jsstr) : hasHttpScheme (normalized s) = true.
Proof.
  unfold normalized. destruct (hasHttpScheme (trim s)) eqn:Hs; cbn [negb].
  - done.
  - apply hasHttpScheme_https.
Qed.

Lemma stored_destination_scheme (s : jsstr) :
  requiredString (trim (strOf (Short.normalizeUrl (JsStr s)))) = true →
  hasHttpScheme (trim (strOf (Short.normalizeUrl (JsStr s)))) = true.
Proof.
  destruct s as [|c r]; [done|]. rewrite short_normalizeUrl_str.
  cbn [strOf]. rewrite normalized_trimmed. intros _. apply normalized_scheme.
Qed.

Section HandlersKeep.
Context `{Platform}.

Lemma keeps_Url_create_normalized (d : UrlData) (s : jsstr) :
  ud_originalUrl d = strOf (Short.normalizeUrl (JsStr s)) →
  keeps wellFormed (Url_create d).
Proof.
  intros Hd. apply keeps_Url_create. rewrite Hd.
  intros Hv. apply stored_destination_scheme.
  apply urlInvalidPath_None in Hv as [Hv _]. rewrite Hd in Hv.
  by apply andb_true_iff in Hv as [Hv _].
Qed.

Ltac keeps_wellFormed :=
  repeat first
    [ apply keeps_generateShortCode
    | apply keeps_validateCustomAlias
    | apply keeps_castDate
    | apply keeps_Click_create
    | apply keeps_Click_deleteMany
    | apply keeps_Url_findByIdAndDelete
    | apply keeps_User_inc
    | apply keeps_incrementClicks
    | apply keeps_Url_save
    | by eapply keeps_Url_create_normalized
    | keeps_step ].

Lemma original_handlers_keep (req : Request) (update : UpdateBody) :
  keeps wellFormed (Controller.createShortUrl req)
  ∧ keeps wellFormed (Controller.getUrlDetails req)
  ∧ keeps wellFormed (Controller.updateUrl req update)
  ∧ keeps wellFormed (Controller.deleteUrl req)
  ∧ keeps wellFormed (Controller.redirectUrl req)
  ∧ keeps wellFormed (Controller.getUrlAnalytics req).
Proof.
  split; [|split; [|split; [|split; [|split]]]].
  - unfold Controller.createShortUrl, Controller.bad. cbn zeta. keeps_wellFormed.
  - unfold Controller.getUrlDetails. keeps_wellFormed.
  - unfold Controller.updateUrl, Controller.trimOf. keeps_wellFormed.
  - unfold Controller.deleteUrl. keeps_wellFormed.
  - unfold Controller.redirectUrl. cbn zeta. keeps_wellFormed.
  - unfold Controller.getUrlAnalytics, Controller.dateRange. keeps_wellFormed.
Qed.

Lemma refactored_handlers_keep (req : Request) (update : UpdateBody) :
  keeps wellFormed (Refactored.createShortUrl req)
  ∧ keeps wellFormed (Refactored.getUrlDetails req)
  ∧ keeps wellFormed (Refactored.updateUrl req update)
  ∧ keeps wellFormed (Refactored.deleteUrl req)
  ∧ keeps wellFormed (Refactored.redirectUrl req)
  ∧ keeps wellFormed (Refactored.getUrlAnalytics req).
Proof.
  split; [|split; [|split; [|split; [|split]]]].
  - unfold Refactored.createShortUrl, Refactored.bad. cbn zeta.
    keeps_wellFormed.
  - unfold Refactored.getUrlDetails, Refactored.findUrlForUser.
    keeps_wellFormed.
  - unfold Refactored.updateUrl, Refactored.findUrlForUser. keeps_wellFormed.
  - unfold Refactored.deleteUrl, Refactored.findUrlForUser. keeps_wellFormed.
  - unfold Refactored.redirectUrl, Refactored.trackClick. cbn zeta.
    keeps_wellFormed.
  - unfold Refactored.getUrlAnalytics, Refactored.getDateRange,
      Refactored.findUrlForUser. keeps_wellFormed.
Qed.

End HandlersKeep.


Lemma asyncHandler_world (fn : Request → M Response) (req : Request)
    (w : World) :
  (asyncHandler fn req w).2 = (fn req w).2.
Proof. unfold asyncHandler. by destruct (fn req w) as [[r|e] w']. Qed.

(** X1. The handlers of controllers/url.controller.js keep the store well
    formed, whatever the request and whichever storage calls fail: after
    each of them no two links share a short code or an identifier, every
    link passes the validators of its schema and leads to an [http://] or
    [https://] destination, and every click has a valid address, a user
    agent and a value in each dimension of the report. *)
Theorem original_handlers_keep_wellFormed `{Platform}
    (req : Request) (update : UpdateBody) (w : World) :
  wellFormed (db w) (nextId w) →
  ∀ handler,
    handler ∈ [Controller.createShortUrl; Controller.getUrlDetails;
               (λ r, Controller.updateUrl r update); Controller.deleteUrl;
               Controller.redirectUrl; Controller.getUrlAnalytics] →
    let w' := (asyncHandler handler req w).2 in
    wellFormed (db w') (nextId w').
Proof.
  intros Hw handler Hin. cbn zeta. rewrite asyncHandler_world.
  destruct (original_handlers_keep req update) as (H1 & H2 & H3 & H4 & H5 & H6).
  repeat (apply elem_of_cons in Hin as [->|Hin]; [auto|]).
  by apply elem_of_nil in Hin.
Qed.

Lemma sample_wellFormed :
  @wellFormed Sample.platform Sample.store 100.
Proof.
  unfold wellFormed, Sample.store. cbn [urls clicks].
  repeat split.
  - apply NoDup_singleton.
  - apply NoDup_singleton.
  - repeat constructor.
  - repeat constructor.
  - repeat constructor; try (by eexists); try done.
    all: eexists; split; [reflexivity|]; vm_compute; set_solver.
Qed.

Lemma original_handlers_keep_wellFormed_witness :
  let req := Sample.anonymous (Sample.shorten "example.org" JsUndefined) in
  let w' := (asyncHandler (@Controller.createShortUrl Sample.platform) req
               Sample.world).2 in
  @wellFormed Sample.platform (db Sample.world) (nextId Sample.world)
  ∧ @wellFormed Sample.platform (db w') (nextId w')
  ∧ length (urls (db w')) = 2%nat.
Proof.
  intros req w'. split; [exact sample_wellFormed|]. split.
  - apply (@original_handlers_keep_wellFormed Sample.platform req
             (mkUpdate JsUndefined JsUndefined None None JsUndefined)
             Sample.world sample_wellFormed).
    apply elem_of_cons. by left.
  - vm_compute. reflexivity.
Defined.

(** X2. The handlers of the refactored controller keep the store well
    formed in the same sense, whatever the request and whichever storage
    calls fail, the calls of a [Promise.all] included. *)
Theorem refactored_handlers_keep_wellFormed `{Platform}
    (req : Request) (update : UpdateBody) (w : World) :
  wellFormed (db w) (nextId w) →
  ∀ handler,
    handler ∈ [Refactored.createShortUrl; Refactored.getUrlDetails;
               (λ r, Refactored.updateUrl r update); Refactored.deleteUrl;
               Refactored.redirectUrl; Refactored.getUrlAnalytics] →
    let w' := (asyncHandler handler req w).2 in
    wellFormed (db w') (nextId w').
Proof.
  intros Hw handler Hin. cbn zeta. rewrite asyncHandler_world.
  destruct (refactored_handlers_keep req update)
    as (H1 & H2 & H3 & H4 & H5 & H6).
  repeat (apply elem_of_cons in Hin as [->|Hin]; [auto|]).
  by apply elem_of_nil in Hin.
Qed.

Lemma refactored_handlers_keep_wellFormed_witness :
  let req := Sample.withAgent (js "Mozilla/5.0 (X11; Linux x86_64) Firefox/120.0") in
  let w' := (asyncHandler (@Refactored.redirectUrl Sample.platform) req Sample.world).2 in
  @wellFormed Sample.platform (db Sample.world) (nextId Sample.world)
  ∧ @wellFormed Sample.platform (db w') (nextId w')
  ∧ length (clicks (db w')) = 3%nat.
Proof.
  intros req w'. split; [exact sample_wellFormed|]. split.
  - apply (@refactored_handlers_keep_wellFormed Sample.platform req
             (mkUpdate JsUndefined JsUndefined None None JsUndefined)
             Sample.world sample_wellFormed).
    do 4 (apply elem_of_cons; right). apply elem_of_cons. by left.
  - vm_compute. reflexivity.
Defined.


(** ** What a handler may touch *)

Lemma yields_findOne (f : Url.t → bool) (u : Url.t) :
  yields (Url_findOne f) (Some u) → f u = true.
Proof.
  intros (w & w' & Hrun). apply query_ok_inv in Hrun as [Hfind _].
  symmetry in Hfind. by apply find_some in Hfind as [_ Hf].
Qed.

Lemma ownedBy_spec (urlId userId : oid) (u : Url.t) :
  ownedBy urlId userId u = true ↔ Url._id u = urlId ∧ Url.user u = Some userId.
Proof.
  unfold ownedBy. rewrite andb_true_iff, N.eqb_eq, bool_decide_eq_true. done.
Qed.

Lemma editedOnly_refl (id : oid) (d : Db) : editedOnly id d d.
Proof.
  repeat split. apply Forall2_same_length_lookup. split; [done|].
  intros i u u' Hu Hu'. by simplify_eq.
Qed.

Lemma editedOnly_update (id : oid) (g : Url.t → Url.t) (d0 d : Db)
    (urls' : list Url.t) :
  updateFirst (λ u, Url._id u =? id) g (urls d) = Some urls' →
  (∀ u, fixedPaths (g u) = fixedPaths u) →
  editedOnly id d0 d →
  editedOnly id d0 (mkDb urls' (clicks d) (users d)).
Proof.
  intros Hupd Hg (Hc & Hu & Hl).
  apply updateFirst_Some in Hupd as (l1 & x & l2 & Hd & -> & Hx & _).
  apply N.eqb_eq in Hx.
  split; [done|]. split; [done|]. cbn [urls]. rewrite Hd in Hl.
  apply Forall2_app_inv_r in Hl as (k1 & k2 & Hk1 & Hk2 & ->).
  apply Forall2_cons_inv_r in Hk2 as (y & k2' & [Hy1 Hy2] & Hk2 & ->).
  apply Forall2_app; [done|]. constructor; [|done].
  split.
  - by rewrite Hg.
  - intros Hne. exfalso. apply Hne.
    assert (Url._id x = Url._id y) as <-; [|done].
    unfold fixedPaths in Hy1. by simplify_eq.
Qed.

Section Frames.
Context `{Platform}.

Lemma keeps_Url_save_edited (id : oid) (d0 : Db) (this edited : Url.t)
    (castError : option jsstr) :
  Url._id this = id →
  keeps (λ d _, editedOnly id d0 d) (Url_save this edited castError).
Proof.
  intros Hid. unfold Url_save.
  destruct (match urlDocInvalidPath edited with
            | Some path => Some path
            | None => castError
            end); [apply keeps_throw|].
  apply keeps_bind; [apply keeps_now|]. intros t _.
  apply keeps_storage. intros w Hw. rewrite Hid.
  destruct (updateFirst _ _ _) as [urls'|] eqn:Hupd; [|done].
  cbn [snd]. eapply editedOnly_update; [exact Hupd| |done]. done.
Qed.

Ltac keeps_update :=
  repeat first
    [ eapply keeps_Url_save_edited;
      match goal with
      | Hy : yields (Url_findOne _) (Some _) |- _ =>
          apply yields_findOne, ownedBy_spec in Hy as [? ?]; done
      end
    | keeps_step ].

Lemma updateUrl_edits (req : Request) (update : UpdateBody) (d0 : Db) :
  keeps (λ d _, editedOnly (param_id req) d0 d)
    (Controller.updateUrl req update)
  ∧ keeps (λ d _, editedOnly (param_id req) d0 d)
      (Refactored.updateUrl req update).
Proof.
  split.
  - unfold Controller.updateUrl, Controller.trimOf. keeps_update.
  - unfold Refactored.updateUrl, Refactored.findUrlForUser. keeps_update.
Qed.

End Frames.

Lemma NoDup_fmap_eq {A B} (f : A → B) (l : list A) (x y : A) :
  NoDup (map f l) → x ∈ l → y ∈ l → f x = f y → x = y.
Proof.
  intros Hnd Hx Hy Hf.
  apply list_elem_of_lookup in Hx as [i Hi].
  apply list_elem_of_lookup in Hy as [j Hj].
  assert (i = j) as ->; [|by simplify_eq].
  eapply NoDup_lookup; [exact Hnd| |].
  - change (map f l) with (f <$> l). rewrite list_lookup_fmap, Hi. done.
  - change (map f l) with (f <$> l). rewrite list_lookup_fmap, Hj. cbn.
    by rewrite Hf.
Qed.

Lemma find_elem_of {A} (f : A → bool) (l : list A) (x : A) :
  find f l = Some x → x ∈ l ∧ f x = true.
Proof.
  intros Hf. apply find_some in Hf as [Hin Hf]. split; [|done].
  by apply list_elem_of_In.
Qed.

Section UpdateFrame.
Context `{Platform}.

Lemma updateUrl_stranger (req : Request) (update : UpdateBody) (w : World) :
  match user req with
  | Some uid => find (ownedBy (param_id req) uid) (urls (db w)) = None
  | None => True
  end →
  db (Controller.updateUrl req update w).2 = db w
  ∧ db (Refactored.updateUrl req update w).2 = db w.
Proof.
  unfold Controller.updateUrl, Refactored.updateUrl,
    Refactored.findUrlForUser, withUser.
  destruct (user req) as [uid|]; [|done]. intros Hnone.
  rewrite !bind_run, !findOne_run.
  destruct (rejects w (calls w)); [done|]. by rewrite Hnone.
Qed.

Lemma editedOnly_others (req : Request) (w : World) (d' : Db) (u : Url.t) :
  editedOnly (param_id req) (db w) d' →
  NoDup (map Url._id (urls (db w))) →
  (∀ uid, user req = Some uid →
     db w = d' ∨ ∃ url, find (ownedBy (param_id req) uid) (urls (db w))
                         = Some url) →
  (user req = None → db w = d') →
  u ∈ urls (db w) → Url.user u ≠ user req → u ∈ urls d'.
Proof.
  intros (_ & _ & Hl) Hnd Hsome Hnone Hu Hne.
  destruct (user req) as [uid|] eqn:Huser; [|by rewrite <- Hnone].
  destruct (Hsome uid eq_refl) as [<-|[url Hfind]]; [done|].
  apply find_elem_of in Hfind as [Hin Howned].
  apply ownedBy_spec in Howned as [Hid Hown].
  apply list_elem_of_lookup in Hu as [i Hi].
  destruct (Forall2_lookup_l _ _ _ _ _ Hl Hi) as (u' & Hi' & _ & Hsame).
  rewrite Hsame in Hi'; [by eapply list_elem_of_lookup_2|].
  intros Heq. apply Hne. rewrite <- Hown. f_equal.
  eapply NoDup_fmap_eq; [exact Hnd| |done|congruence].
  by eapply list_elem_of_lookup_2.
Qed.

End UpdateFrame.

(** X3. [updateUrl], in both controllers, writes nothing but the five
    assignable paths of links with the requested identifier: clicks and
    owner aggregates stay, no link appears or disappears, and identifier,
    destination, short code, alias, owner, click count and creation date of
    every link stay, whatever the body and whichever storage calls fail.
    When identifiers are unique, the links of every other user are left as
    they are. *)
Theorem updateUrl_edits_only_own_link `{Platform}
    (req : Request) (update : UpdateBody) (w : World) :
  ∀ updateUrl, updateUrl ∈ [Controller.updateUrl; Refactored.updateUrl] →
    let w' := (asyncHandler (λ r, updateUrl r update) req w).2 in
    editedOnly (param_id req) (db w) (db w')
    ∧ (NoDup (map Url._id (urls (db w))) →
       ∀ u, u ∈ urls (db w) → Url.user u ≠ user req → u ∈ urls (db w')).
Proof.
  intros updateUrl Hin. cbn zeta. rewrite asyncHandler_world.
  destruct (updateUrl_edits req update (db w)) as [Ho Hr].
  assert (editedOnly (param_id req) (db w) (db (updateUrl req update w).2))
    as Hedit.
  { repeat (apply elem_of_cons in Hin as [->|Hin]);
      [apply Ho|apply Hr|by apply elem_of_nil in Hin];
      apply editedOnly_refl. }
  split; [done|]. intros Hnd u Hu Hne.
  eapply editedOnly_others; try done.
  - intros uid Huser.
    destruct (find (ownedBy (param_id req) uid) (urls (db w))) as [url|]
      eqn:Hfind; [right; by exists url|left].
    destruct (updateUrl_stranger req update w) as [E1 E2];
      [by rewrite Huser|].
    repeat (apply elem_of_cons in Hin as [->|Hin]); [done|done|].
    by apply elem_of_nil in Hin.
  - intros Huser.
    destruct (updateUrl_stranger req update w) as [E1 E2];
      [by rewrite Huser|].
    repeat (apply elem_of_cons in Hin as [->|Hin]); [done|done|].
    by apply elem_of_nil in Hin.
Qed.

Lemma updateUrl_edits_only_own_link_witness :
  let req := Sample.owned Sample.noBody Sample.noQuery in
  let w := Sample.shared (λ _, false) in
  let w' := (asyncHandler
               (λ r, @Controller.updateUrl Sample.platform r
                       (Sample.rename "  Home page "))
               req w).2 in
  NoDup (map Url._id (urls (db w)))
  ∧ Sample.other ∈ urls (db w')
  ∧ map Url.title (urls (db w'))
    = [Some (js "Home page"); Some (js "example.net")].
Proof.
  intros req w w'.
  assert (NoDup (map Url._id (urls (db w)))) as Hnd.
  { vm_compute. apply NoDup_cons. split; [|apply NoDup_singleton].
    intros Hin. apply list_elem_of_singleton in Hin. discriminate. }
  split; [exact Hnd|]. split.
  - apply (updateUrl_edits_only_own_link (H:=Sample.platform) req
             (Sample.rename "  Home page ") w
             (@Controller.updateUrl Sample.platform)).
    + apply elem_of_cons. by left.
    + exact Hnd.
    + apply elem_of_cons. right. apply elem_of_cons. by left.
    + discriminate.
  - vm_compute. reflexivity.
Defined.


(** ** What deleting may touch *)

Lemma removedOnly_refl (id uid : oid) (d : Db) : removedOnly id uid d d.
Proof. by repeat split. Qed.

Lemma removedOnly_trans (id uid : oid) (d1 d2 d3 : Db) :
  removedOnly id uid d1 d2 → removedOnly id uid d2 d3 →
  removedOnly id uid d1 d3.
Proof.
  intros (A1 & A2 & A3 & A4 & A5) (B1 & B2 & B3 & B4 & B5).
  repeat split.
  - by etrans.
  - intros u Hu Hne. by apply B2; [apply A2|].
  - by etrans.
  - intros c Hc Hne. by apply B4; [apply A4|].
  - intros o Ho. by rewrite B5, A5.
Qed.

Lemma keeps_removedOnly {A} (id uid : oid) (d0 : Db)
    (op : World → Res A * Db) :
  (∀ w, removedOnly id uid (db w) (op w).2) →
  keeps (λ d _, removedOnly id uid d0 d) (storage op).
Proof.
  intros Hop. apply keeps_storage. intros w Hw.
  by eapply removedOnly_trans.
Qed.

Lemma filter_sublist {A} (P : A → Prop) `{∀ x, Decision (P x)} (l : list A) :
  filter P l `sublist_of` l.
Proof.
  induction l as [|x l IH]; [done|]. rewrite filter_cons.
  destruct (decide (P x)); [by apply sublist_skip|by apply sublist_cons].
Qed.

Lemma removeFirst_keeps {A} (f : A → bool) (l : list A) (x : A) :
  x ∈ l → f x = false → x ∈ removeFirst f l.
Proof.
  induction l as [|y l IH]; [done|]. intros Hx Hf. cbn.
  apply elem_of_cons in Hx as [->|Hx].
  - rewrite Hf. by left.
  - destruct (f y); [done|]. right. by apply IH.
Qed.

Lemma deleteUrl_removes (req : Request) (uid : oid) (d0 : Db) :
  user req = Some uid →
  keeps (λ d _, removedOnly (param_id req) uid d0 d) (Controller.deleteUrl req)
  ∧ keeps (λ d _, removedOnly (param_id req) uid d0 d)
      (Refactored.deleteUrl req).
Proof.
  intros Huser.
  assert (∀ url, yields (Url_findOne (ownedBy (param_id req) uid)) (Some url) →
            keeps (λ d _, removedOnly (param_id req) uid d0 d)
              (Click_deleteMany (Url._id url))
            ∧ keeps (λ d _, removedOnly (param_id req) uid d0 d)
                (Url_findByIdAndDelete (Url._id url))
            ∧ keeps (λ d _, removedOnly (param_id req) uid d0 d)
                (User_findByIdAndUpdate_inc uid (-1) (- Url.clicks url)))
    as Hprim.
  { intros url Hy. apply yields_findOne, ownedBy_spec in Hy as [-> _].
    split; [|split]; apply keeps_removedOnly; intros w; cbn [snd].
    - repeat split; cbn [urls clicks users]; try done.
      + apply filter_sublist.
      + intros c Hc Hne. by apply list_elem_of_filter.
    - repeat split; cbn [urls clicks users]; try done.
      + apply removeFirst_sublist.
      + intros u Hu Hne. apply removeFirst_keeps; [done|].
        by apply N.eqb_neq.
    - repeat split; cbn [urls clicks users]; try done.
      intros o Ho. by rewrite lookup_alter_ne. }
  unfold Controller.deleteUrl, Refactored.deleteUrl,
    Refactored.findUrlForUser, withUser. rewrite Huser.
  split.
  - apply keeps_bind; [apply keeps_query|]. intros [url|] Hy;
      [|apply keeps_ret].
    destruct (Hprim url Hy) as (P1 & P2 & P3).
    repeat first [ exact P1 | exact P2 | exact P3 | keeps_step ].
  - apply keeps_bind; [apply keeps_query|]. intros [url|] Hy;
      [|apply keeps_ret].
    destruct (Hprim url Hy) as (P1 & P2 & P3).
    repeat first [ exact P1 | exact P2 | exact P3 | keeps_step ].
Qed.

Lemma deleteUrl_stranger (req : Request) (w : World) :
  match user req with
  | Some uid => find (ownedBy (param_id req) uid) (urls (db w)) = None
  | None => True
  end →
  db (Controller.deleteUrl req w).2 = db w
  ∧ db (Refactored.deleteUrl req w).2 = db w.
Proof.
  unfold Controller.deleteUrl, Refactored.deleteUrl,
    Refactored.findUrlForUser, withUser.
  destruct (user req) as [uid|]; [|done]. intros Hnone.
  rewrite !bind_run, !findOne_run.
  destruct (rejects w (calls w)); [done|]. by rewrite Hnone.
Qed.

(** X4. [deleteUrl], in both controllers, touches nothing but what belongs
    to the requested link of the requester, whichever storage calls fail:
    links and clicks are only removed, a link with another identifier and a
    click on another link stay, and no aggregate but the requester's
    changes. When identifiers are unique, the links of every other user
    stay. *)
Theorem deleteUrl_removes_only_own_link
    (req : Request) (w : World) (uid : oid) :
  user req = Some uid →
  ∀ deleteUrl, deleteUrl ∈ [Controller.deleteUrl; Refactored.deleteUrl] →
    let w' := (asyncHandler deleteUrl req w).2 in
    removedOnly (param_id req) uid (db w) (db w')
    ∧ (NoDup (map Url._id (urls (db w))) →
       ∀ u, u ∈ urls (db w) → Url.user u ≠ Some uid → u ∈ urls (db w')).
Proof.
  intros Huser deleteUrl Hin. cbn zeta. rewrite asyncHandler_world.
  destruct (deleteUrl_removes req uid (db w) Huser) as [Ho Hr].
  assert (removedOnly (param_id req) uid (db w) (db (deleteUrl req w).2))
    as Hrem.
  { repeat (apply elem_of_cons in Hin as [->|Hin]);
      [apply Ho|apply Hr|by apply elem_of_nil in Hin];
      apply removedOnly_refl. }
  split; [done|]. intros Hnd u Hu Hne.
  destruct (find (ownedBy (param_id req) uid) (urls (db w))) as [url|]
    eqn:Hfind.
  - apply find_elem_of in Hfind as [Hurl Howned].
    apply ownedBy_spec in Howned as [Hid Hown].
    destruct Hrem as (_ & Hstay & _). apply Hstay; [done|].
    intros Heq. apply Hne. rewrite <- Hown. f_equal.
    eapply NoDup_fmap_eq; [exact Hnd|done|done|congruence].
  - destruct (deleteUrl_stranger req w) as [E1 E2]; [by rewrite Huser|].
    repeat (apply elem_of_cons in Hin as [->|Hin]);
      [by rewrite E1|by rewrite E2|by apply elem_of_nil in Hin].
Qed.

Lemma deleteUrl_removes_only_own_link_witness :
  let req := Sample.owned Sample.noBody Sample.noQuery in
  let w := Sample.shared (λ n, bool_decide (n = 1%nat)) in
  let w' := (asyncHandler Refactored.deleteUrl req w).2 in
  user req = Some Sample.owner
  ∧ NoDup (map Url._id (urls (db w)))
  ∧ Sample.other ∈ urls (db w')
  ∧ urls (db w') = [Sample.other]
  ∧ length (clicks (db w')) = 2%nat.
Proof.
  intros req w w'.
  assert (NoDup (map Url._id (urls (db w)))) as Hnd.
  { vm_compute. apply NoDup_cons. split; [|apply NoDup_singleton].
    intros Hin. apply list_elem_of_singleton in Hin. discriminate. }
  split; [reflexivity|]. split; [exact Hnd|]. split; [|split].
  - apply (deleteUrl_removes_only_own_link req w Sample.owner eq_refl
             Refactored.deleteUrl).
    + apply elem_of_cons. right. apply elem_of_cons. by left.
    + exact Hnd.
    + apply elem_of_cons. right. apply elem_of_cons. by left.
    + discriminate.
  - vm_compute. reflexivity.
  - vm_compute. reflexivity.
Defined.


(** ** Updating a link *)

(** X5. An update whose expiration date is not in the future writes
    nothing, although title, description, tags and [isActive] were
    assigned before the date was looked at. The original controller
    answers 400; in the refactored one the error leaves the handler. *)
Theorem updateUrl_rejects_past_expiration `{Platform}
    (req : Request) (update : UpdateBody) (w : World) (uid : oid)
    (url : Url.t) (c : N) (s : jsstr) (e : date) :
  user req = Some uid →
  rejects w (calls w) = false →
  find (ownedBy (param_id req) uid) (urls (db w)) = Some url →
  up_title update ≠ JsNull →
  up_description update ≠ JsNull →
  up_expiresAt update = JsStr (c :: s) →
  parseDate (c :: s) = Some e →
  (e ≤ clock w)%Z →
  ∃ w1 w2,
    asyncHandler (λ r, Controller.updateUrl r update) req w
    = (Json 400 false (Some (js "Expiration date must be in the future"))
         NoData, w1)
    ∧ db w1 = db w
    ∧ asyncHandler (λ r, Refactored.updateUrl r update) req w
      = (NextError (Err (js "Expiration date must be in the future")), w2)
    ∧ db w2 = db w.
Proof.
  intros Huser Hok Hfind Htitle Hdesc Hexp Hdate Hpast.
  exists (tick w), (tick w).
  assert ((e <=? clock w)%Z = true) as Hle by by apply Z.leb_le.
  unfold asyncHandler, Controller.updateUrl, Refactored.updateUrl,
    Refactored.findUrlForUser, withUser. rewrite Huser.
  rewrite !bind_run, !findOne_run, Hok, Hfind, Hexp.
  cbn [truthy]. unfold newDate. cbn [strOf]. rewrite Hdate.
  split; [|split; [done|split; [|done]]].
  - unfold Controller.trimOf.
    destruct (up_title update) as [| |t]; [|done|];
      destruct (up_description update) as [| |d]; try done;
      rewrite ?bind_run, ?ret_run, ?bind_run, ?ret_run, ?bind_run, ?now_run;
      cbn [clock tick]; by rewrite Hle.
  - rewrite !bind_run, now_run. cbn [clock tick]. by rewrite Hle.
Qed.

Lemma updateUrl_rejects_past_expiration_witness :
  let req := Sample.owned Sample.noBody Sample.noQuery in
  let update := Sample.expire "Home page" "500" in
  user req = Some Sample.owner
  ∧ find (ownedBy (param_id req) Sample.owner) (urls (db Sample.world))
    = Some Sample.link
  ∧ @parseDate Sample.dated (js "500") = Some 500%Z
  ∧ (500 ≤ clock Sample.world)%Z
  ∧ ∃ w1,
      asyncHandler (λ r, @Controller.updateUrl Sample.dated r update) req
        Sample.world
      = (Json 400 false (Some (js "Expiration date must be in the future"))
           NoData, w1)
      ∧ db w1 = db Sample.world.
Proof.
  intros req update.
  split; [reflexivity|]. split; [vm_compute; reflexivity|].
  split; [vm_compute; reflexivity|]. split; [vm_compute; discriminate|].
  destruct (updateUrl_rejects_past_expiration (H:=Sample.dated) req update
              Sample.world Sample.owner Sample.link 53 (js "00") 500%Z)
    as (w1 & w2 & H1 & H2 & _).
  - reflexivity.
  - reflexivity.
  - vm_compute. reflexivity.
  - discriminate.
  - discriminate.
  - reflexivity.
  - vm_compute. reflexivity.
  - vm_compute. discriminate.
  - by exists w1.
Defined.


(** ** The handlers that only read *)

Section ReadOnly.
Context `{Platform}.

Lemma read_handlers_keep (K : Db → oid → Prop) (req : Request) :
  keeps K (Controller.getUrlDetails req)
  ∧ keeps K (Refactored.getUrlDetails req)
  ∧ keeps K (Controller.getUrlAnalytics req)
  ∧ keeps K (Refactored.getUrlAnalytics req).
Proof.
  unfold Controller.getUrlDetails, Refactored.getUrlDetails,
    Controller.getUrlAnalytics, Refactored.getUrlAnalytics,
    Controller.dateRange, Refactored.getDateRange, Refactored.findUrlForUser.
  repeat split; repeat first [ apply keeps_castDate | keeps_step ].
Qed.

Lemma details_inv (req : Request) (w w' : World) (r : Response) :
  Controller.getUrlDetails req w = (Ok r, w')
  ∨ Refactored.getUrlDetails req w = (Ok r, w') →
  ∃ uid,
    user req = Some uid
    ∧ match find (ownedBy (param_id req) uid) (urls (db w)) with
      | Some u =>
          r = Json 200 true None
                (UrlPayload u
                   (Some (generateQRCode
                            (protocol req ++ js "://" ++ host req ++ js "/"
                             ++ Url.shortCode u))))
      | None => r = Json 404 false (Some (js "URL not found")) NoData
      end.
Proof.
  unfold Controller.getUrlDetails, Refactored.getUrlDetails,
    Refactored.findUrlForUser, withUser.
  destruct (user req) as [uid|]; [|by intros [|]].
  rewrite !bind_run, !findOne_run. intros Hrun. exists uid. split; [done|].
  destruct (rejects w (calls w)); [by destruct Hrun|].
  destruct (find _ _); rewrite !ret_run in Hrun; destruct Hrun;
    by simplify_eq.
Qed.

End ReadOnly.

(** X6. The handlers that report on a link, [getUrlDetails] and
    [getUrlAnalytics] of both controllers, never write to the store,
    whatever the request and whichever storage calls fail; and the details
    handler answers with a link only when the store holds it under the
    requested identifier and the requester owns it. *)
Theorem read_handlers_only_read `{Platform} (req : Request) (w : World) :
  (∀ handler,
     handler ∈ [Controller.getUrlDetails; Refactored.getUrlDetails;
                Controller.getUrlAnalytics; Refactored.getUrlAnalytics] →
     db (asyncHandler handler req w).2 = db w)
  ∧ (∀ handler status success message u qrCode,
       handler ∈ [Controller.getUrlDetails; Refactored.getUrlDetails] →
       (asyncHandler handler req w).1
       = Json status success message (UrlPayload u qrCode) →
       status = 200 ∧ u ∈ urls (db w) ∧ Url._id u = param_id req
       ∧ ∃ uid, user req = Some uid ∧ Url.user u = Some uid).
Proof.
  split.
  - intros handler Hin. rewrite asyncHandler_world.
    destruct (read_handlers_keep (λ d _, d = db w) req)
      as (H1 & H2 & H3 & H4).
    repeat (apply elem_of_cons in Hin as [->|Hin]); [by apply H1
      |by apply H2|by apply H3|by apply H4|by apply elem_of_nil in Hin].
  - intros handler status success message u qrCode Hin Hr.
    assert (∃ w', Controller.getUrlDetails req w
                  = (Ok (Json status success message (UrlPayload u qrCode)), w')
                  ∨ Refactored.getUrlDetails req w
                    = (Ok (Json status success message (UrlPayload u qrCode)),
                       w')) as [w' Hrun].
    { unfold asyncHandler in Hr.
      repeat (apply elem_of_cons in Hin as [->|Hin]);
        [| |by apply elem_of_nil in Hin].
      - destruct (Controller.getUrlDetails req w) as [[r|e] w'];
          [|done]. cbn in Hr. subst r. exists w'. by left.
      - destruct (Refactored.getUrlDetails req w) as [[r|e] w'];
          [|done]. cbn in Hr. subst r. exists w'. by right. }
    apply details_inv in Hrun as (uid & Huser & Hfound).
    destruct (find _ _) as [v|] eqn:Hfind; [|done].
    simplify_eq. apply find_elem_of in Hfind as [Hv Howned].
    apply ownedBy_spec in Howned as [Hid Hown].
    repeat split; try done. by exists uid.
Qed.

Lemma read_handlers_only_read_witness :
  let req := Sample.owned Sample.noBody Sample.noQuery in
  let handler := @Controller.getUrlDetails Sample.platform in
  (asyncHandler handler req Sample.world).1
  = Json 200 true None
      (UrlPayload Sample.link
         (Some (js "https://api.qrserver.com/v1/create-qr-code/?size=200x200&data=https://sho.rt/abc123")))
  ∧ Sample.link ∈ urls (db Sample.world)
  ∧ db (asyncHandler handler req Sample.world).2 = db Sample.world.
Proof.
  intros req handler.
  assert ((asyncHandler handler req Sample.world).1
          = Json 200 true None
              (UrlPayload Sample.link
                 (Some (js "https://api.qrserver.com/v1/create-qr-code/?size=200x200&data=https://sho.rt/abc123"))))
    as Hr by (vm_compute; reflexivity).
  destruct (read_handlers_only_read (H:=Sample.platform) req Sample.world)
    as [Hread Hown].
  split; [exact Hr|]. split.
  - eapply Hown; [|exact Hr]. apply elem_of_cons. by left.
  - apply Hread. apply elem_of_cons. by left.
Defined.


(** ** Where a redirect leads *)

Lemma asyncHandler_ok_inv (fn : Request → M Response) (req : Request)
    (w : World) (r : Response) :
  (asyncHandler fn req w).1 = r →
  (∀ e, r ≠ NextError e) →
  ∃ w', fn req w = (Ok r, w').
Proof.
  unfold asyncHandler. destruct (fn req w) as [[r'|e] w']; cbn.
  - intros <- _. by exists w'.
  - intros <- Hne. by destruct (Hne e).
Qed.

Lemma redirect_inv `{Platform} (req : Request) (w w' : World) (status : N)
    (location : jsstr) :
  Controller.redirectUrl req w = (Ok (Redirect status location), w')
  ∨ Refactored.redirectUrl req w = (Ok (Redirect status location), w') →
  status = 301
  ∧ ∃ u, find (activeCode (param_shortCode req)) (urls (db w)) = Some u
         ∧ location = Url.originalUrl u
         ∧ Url.isExpired (clock w) u = false.
Proof.
  unfold Controller.redirectUrl, Refactored.redirectUrl. cbn zeta.
  rewrite !bind_run, !findOne_run. intros Hrun.
  destruct (rejects w (calls w)); [by destruct Hrun|].
  destruct (find _ _) as [u|] eqn:Hfind;
    [|by rewrite !ret_run in Hrun; destruct Hrun].
  rewrite !bind_run, !now_run in Hrun. cbn [clock tick] in Hrun.
  destruct (Url.isExpired (clock w) u) eqn:Hfresh;
    [by rewrite !ret_run in Hrun; destruct Hrun|].
  destruct Hrun as [Hrun|Hrun];
    apply bind_ok_inv in Hrun as (x & w1 & _ & Hrun);
    rewrite ret_run in Hrun; simplify_eq; split; try done; by exists u.
Qed.

(** X7. A redirect, in both controllers, is always a 301 to the
    destination of a stored link that is active, has the requested code,
    without the white space around it, as its short code or its alias, and
    has not expired at the time of the request; no other link is ever
    served. (The lookup trims the code as the schema trims the two paths:
    [GET /abc123%20] is served the link [abc123].) *)
Theorem redirect_serves_active_link `{Platform}
    (req : Request) (w : World) (status : N) (location : jsstr) :
  ∀ redirectUrl, redirectUrl ∈ [Controller.redirectUrl; Refactored.redirectUrl] →
    (asyncHandler redirectUrl req w).1 = Redirect status location →
    status = 301
    ∧ ∃ u, u ∈ urls (db w)
           ∧ location = Url.originalUrl u
           ∧ Url.isActive u = true
           ∧ (Url.shortCode u = trim (param_shortCode req)
              ∨ Url.customAlias u = Some (trim (param_shortCode req)))
           ∧ match Url.expiresAt u with
             | Some e => (clock w ≤ e)%Z
             | None => True
             end.
Proof.
  intros redirectUrl Hin Hr.
  apply asyncHandler_ok_inv in Hr as [w' Hrun]; [|done].
  assert (Controller.redirectUrl req w = (Ok (Redirect status location), w')
          ∨ Refactored.redirectUrl req w
            = (Ok (Redirect status location), w')) as Hcases.
  { repeat (apply elem_of_cons in Hin as [->|Hin]); [by left|by right|].
    by apply elem_of_nil in Hin. }
  apply redirect_inv in Hcases as (-> & u & Hfind & -> & Hfresh).
  split; [done|]. exists u.
  apply find_elem_of in Hfind as [Hu Hactive].
  unfold activeCode, codeOrAlias, streq in Hactive.
  apply andb_true_iff in Hactive as [Hcode Hact].
  apply orb_true_iff in Hcode.
  rewrite !bool_decide_eq_true in Hcode.
  repeat split; try done.
  unfold Url.isExpired in Hfresh. destruct (Url.expiresAt u); [|done].
  by apply Z.ltb_ge in Hfresh.
Qed.

Lemma redirect_serves_active_link_witness :
  let req := Sample.padded in
  let served redirectUrl :=
    (asyncHandler redirectUrl req Sample.world).1
    = Redirect 301 (js "https://example.com/page")
    ∧ ∃ u, u ∈ urls (db Sample.world)
           ∧ Url.originalUrl u = js "https://example.com/page"
           ∧ Url.isActive u = true
           ∧ Url.shortCode u = js "abc123" in
  param_shortCode req = js "abc123 "
  ∧ served (@Controller.redirectUrl Sample.platform)
  ∧ served (@Refactored.redirectUrl Sample.platform).
Proof.
  intros req served. split; [reflexivity|].
  assert (∀ redirectUrl,
            redirectUrl ∈ [@Controller.redirectUrl Sample.platform;
                           @Refactored.redirectUrl Sample.platform] →
            served redirectUrl) as Hboth.
  { intros redirectUrl Hin. unfold served.
    assert ((asyncHandler redirectUrl req Sample.world).1
            = Redirect 301 (js "https://example.com/page")) as Hr.
    { repeat (apply elem_of_cons in Hin as [->|Hin]);
        [| |by apply elem_of_nil in Hin]; vm_compute; reflexivity. }
    split; [exact Hr|].
    destruct (redirect_serves_active_link (H:=Sample.platform) req
                Sample.world 301 (js "https://example.com/page")
                redirectUrl Hin Hr)
      as (_ & u & Hu & Hloc & Hact & Hcode & _).
    exists u. split; [exact Hu|]. split; [by rewrite Hloc|].
    split; [exact Hact|].
    vm_compute in Hu. apply list_elem_of_singleton in Hu. by rewrite Hu. }
  split; apply Hboth; apply elem_of_cons; [by left|right].
  apply elem_of_cons. by left.
Defined.


(** ** The counts of a report *)

Section ReportRest.
Context `{Platform}.

(** The facets that [refactored_report] leaves out. *)
Lemma refactored_report_rest (req : Request) (w w' : World) (a : Analytics) :
  Refactored.getUrlAnalytics req w
  = (Ok (Json 200 true None (AnalyticsPayload a)), w') →
  ∃ uid url,
    user req = Some uid
    ∧ find (ownedBy (param_id req) uid) (urls (db w)) = Some url
    ∧ let cs := matched (Url._id url) (a_start a) (a_end a) (db w) in
      clicksByDate a
      = sortById (groupCount (map (λ c, dateToString (Click.timestamp c)) cs))
      ∧ recentClicks a = take 50 (sortRecent cs).
Proof.
  unfold Refactored.getUrlAnalytics, Refactored.findUrlForUser, withUser.
  destruct (user req) as [uid|]; [|done].
  intros Hrun. apply bind_ok_inv in Hrun as (found & w1 & Hfind & Hrun).
  rewrite findOne_run in Hfind.
  destruct (rejects w (calls w)); [done|]. simplify_eq.
  destruct (find _ _) as [url|] eqn:Hfound; [|by rewrite ret_run in Hrun].
  apply bind_ok_inv in Hrun as ([start end_] & w2 & Hrange & Hrun).
  apply getDateRange_inv in Hrange as ->.
  apply bind_ok_inv in Hrun as (facets & w3 & Hq & Hrun).
  apply query_ok_inv in Hq as [-> ->].
  apply bind_ok_inv in Hrun as (s & w4 & Hs & Hrun).
  apply castDate_ok_inv in Hs as [-> ->].
  apply bind_ok_inv in Hrun as (e & w5 & He & Hrun).
  apply castDate_ok_inv in He as [-> ->].
  apply bind_ok_inv in Hrun as (recent & w6 & Hq & Hrun).
  apply query_ok_inv in Hq as [-> ->].
  rewrite ret_run in Hrun. simplify_eq.
  exists uid, url. done.
Qed.

(** The facets that [original_report] leaves out. *)
Lemma original_report_rest (req : Request) (w w' : World) (a : Analytics) :
  Controller.getUrlAnalytics req w
  = (Ok (Json 200 true None (AnalyticsPayload a)), w') →
  ∃ uid url,
    user req = Some uid
    ∧ find (ownedBy (param_id req) uid) (urls (db w)) = Some url
    ∧ let cs := matched (Url._id url) (a_start a) (a_end a) (db w) in
      clicksByDate a
      = take 100 (sortById (groupCount
                    (map (λ c, dateToString (Click.timestamp c)) cs)))
      ∧ recentClicks a = take 50 (sortRecent cs).
Proof.
  unfold Controller.getUrlAnalytics, withUser.
  destruct (user req) as [uid|]; [|done].
  intros Hrun. apply bind_ok_inv in Hrun as (found & w1 & Hfind & Hrun).
  rewrite findOne_run in Hfind.
  destruct (rejects w (calls w)); [done|]. simplify_eq.
  destruct (find _ _) as [url|] eqn:Hfound; [|by rewrite ret_run in Hrun].
  apply bind_ok_inv in Hrun as ([start end_] & w2 & Hrange & Hrun).
  apply dateRange_inv in Hrange as ->.
  apply bind_ok_inv in Hrun
    as ((stats & dates & countries & browsers & oss & devices & recent)
        & w3 & Hall & Hrun).
  apply both_ok_inv in Hall as (v1 & Hq1 & Hall).
  apply query_ok_inv in Hq1 as [-> ->].
  apply both_ok_inv in Hall as (v2 & Hq2 & Hall).
  apply query_ok_inv in Hq2 as [-> ->].
  apply both_ok_inv in Hall as (v3 & Hq3 & Hall).
  apply query_ok_inv in Hq3 as [-> ->].
  apply both_ok_inv in Hall as (v4 & Hq4 & Hall).
  apply query_ok_inv in Hq4 as [-> ->].
  apply both_ok_inv in Hall as (v5 & Hq5 & Hall).
  apply query_ok_inv in Hq5 as [-> ->].
  apply both_ok_inv in Hall as (v6 & Hq6 & Hall).
  apply query_ok_inv in Hq6 as [-> ->].
  apply bind_ok_inv in Hall as (s & w4 & Hs & Hall).
  apply castDate_ok_inv in Hs as [-> ->].
  apply bind_ok_inv in Hall as (e & w5 & He & Hall).
  apply castDate_ok_inv in He as [-> ->].
  apply query_ok_inv in Hall as [-> ->].
  rewrite ret_run in Hrun. simplify_eq.
  exists uid, url. done.
Qed.

End ReportRest.

Section Totals.
Context {K : Type} `{EqDecision K}.

Lemma sum_bump (k : K) (g : list (K * nat)) :
  sum_list (map snd (bump k g)) = S (sum_list (map snd g)).
Proof.
  induction g as [|[k' n] g IH]; [done|]. cbn [bump].
  destruct (decide (k = k')); cbn; [done|]. rewrite IH. lia.
Qed.

Lemma sum_groupCount (keys : list K) :
  sum_list (map snd (groupCount keys)) = length keys.
Proof.
  unfold groupCount.
  assert (∀ g, sum_list (map snd (foldl (λ groups k, bump k groups) g keys))
               = (sum_list (map snd g) + length keys)%nat) as Hgen.
  { induction keys as [|k keys IH]; intros g; cbn; [lia|].
    rewrite IH, sum_bump. lia. }
  by rewrite Hgen.
Qed.

Lemma sum_perm (g g' : list (K * nat)) :
  g ≡ₚ g' → sum_list (map snd g) = sum_list (map snd g').
Proof. induction 1; cbn; lia. Qed.

Lemma sum_take (n : nat) (g : list (K * nat)) :
  (sum_list (map snd (take n g)) ≤ sum_list (map snd g))%nat.
Proof.
  revert n. induction g as [|x g IH]; intros [|n]; cbn; try lia.
  specialize (IH n). lia.
Qed.

Lemma sum_sortDesc (g : list (K * nat)) :
  sum_list (map snd (sortDesc g)) = sum_list (map snd g).
Proof. apply sum_perm, sortDesc_perm. Qed.

End Totals.

Lemma insertAsc_perm (x : jsstr * nat) (l : list (jsstr * nat)) :
  insertAsc x l ≡ₚ x :: l.
Proof.
  induction l as [|y l IH]; [done|]. cbn.
  destruct (strLe _ _); [done|]. rewrite IH. apply Permutation_swap.
Qed.

Lemma sortById_perm (l : list (jsstr * nat)) : sortById l ≡ₚ l.
Proof.
  induction l as [|x l IH]; [done|]. cbn. by rewrite insertAsc_perm, IH.
Qed.

Lemma remove_dups_length {A} `{EqDecision A} (l : list A) :
  (length (remove_dups l) ≤ length l)%nat.
Proof.
  apply submseteq_length, NoDup_submseteq; [apply NoDup_remove_dups|].
  intros x. by rewrite elem_of_remove_dups.
Qed.

Lemma summary_total (cs : list Click.t) :
  totalClicks (default (mkSummary 0 0) (head (summaryFacet cs))) = length cs
  ∧ (uniqueVisitors (default (mkSummary 0 0) (head (summaryFacet cs)))
     ≤ length cs)%nat.
Proof.
  destruct cs as [|c cs]; [done|]. cbn [summaryFacet head default totalClicks
    uniqueVisitors]. split; [done|].
  etrans; [apply remove_dups_length|]. by rewrite length_map.
Qed.

Lemma entry_clicks_original (g : list (option jsstr * nat)) :
  map entry_clicks (map Controller.entry g) = map snd g.
Proof. induction g as [|x g IH]; [done|]. cbn. by rewrite IH. Qed.

Lemma entry_clicks_refactored (fallback : string)
    (g : list (option jsstr * nat)) :
  map entry_clicks (map (Refactored.entry fallback) g) = map snd g.
Proof. induction g as [|x g IH]; [done|]. cbn. by rewrite IH. Qed.

Lemma top10_total (key : Click.t → option jsstr) (cs : list Click.t) :
  (length (top10 key cs) ≤ 10)%nat
  ∧ (sum_list (map snd (top10 key cs)) ≤ length cs)%nat.
Proof.
  unfold top10. split.
  - rewrite length_take. lia.
  - etrans; [apply sum_take|].
    by rewrite sum_sortDesc, sum_groupCount, length_map.
Qed.

Lemma allDesc_total (key : Click.t → option jsstr) (cs : list Click.t) :
  sum_list (map snd (allDesc key cs)) = length cs.
Proof. unfold allDesc. by rewrite sum_sortDesc, sum_groupCount, length_map. Qed.

(** X8. The counts of a report add up, in both controllers: the visitors
    are no more than the clicks, the device chart accounts for every click
    of the window, each of the charts by country, browser and operating
    system has at most ten entries that account for no more than the
    clicks, and so does the chart by date. *)
Theorem report_counts_add_up `{Platform}
    (req : Request) (w w' : World) (a : Analytics) :
  asyncHandler Controller.getUrlAnalytics req w
  = (Json 200 true None (AnalyticsPayload a), w')
  ∨ asyncHandler Refactored.getUrlAnalytics req w
    = (Json 200 true None (AnalyticsPayload a), w') →
  let clicksOf (chart : list ChartEntry) :=
    sum_list (map entry_clicks chart) in
  (uniqueVisitors (summary a) ≤ totalClicks (summary a))%nat
  ∧ clicksOf (clicksByDevice a) = totalClicks (summary a)
  ∧ (∀ chart,
       chart ∈ [clicksByCountry a; clicksByBrowser a; clicksByOS a] →
       (length chart ≤ 10)%nat
       ∧ (clicksOf chart ≤ totalClicks (summary a))%nat)
  ∧ (sum_list (map snd (clicksByDate a)) ≤ totalClicks (summary a))%nat.
Proof.
  intros Hrun clicksOf. unfold clicksOf.
  destruct Hrun as [Hrun|Hrun]; apply asyncHandler_json_inv in Hrun.
  - destruct (original_report_rest req w w' a Hrun)
      as (uid & url & Hu & Hf & Hdate & _).
    destruct (original_report req w w' a Hrun)
      as (uid' & url' & Hu' & Hf' & _ & _ & Hs & Hc & Hb & Ho & Hd).
    simplify_eq. cbn zeta in *.
    set (cs := matched _ _ _ _) in *.
    destruct (summary_total cs) as [Ht Hv]. rewrite Hs, Ht.
    split; [done|]. split; [|split].
    + by rewrite Hd, entry_clicks_original, allDesc_total.
    + intros chart Hin.
      repeat (apply elem_of_cons in Hin as [->|Hin]);
        [rewrite Hc|rewrite Hb|rewrite Ho|by apply elem_of_nil in Hin];
        rewrite length_map, entry_clicks_original; apply top10_total.
    + rewrite Hdate. etrans; [apply sum_take|].
      by rewrite (sum_perm _ _ (sortById_perm _)), sum_groupCount, length_map.
  - destruct (refactored_report_rest req w w' a Hrun)
      as (uid & url & Hu & Hf & Hdate & _).
    destruct (refactored_report req w w' a Hrun)
      as (uid' & url' & Hu' & Hf' & _ & _ & Hs & Hc & Hb & Ho & Hd).
    simplify_eq. cbn zeta in *.
    set (cs := matched _ _ _ _) in *.
    destruct (summary_total cs) as [Ht Hv]. rewrite Hs, Ht.
    split; [done|]. split; [|split].
    + by rewrite Hd, entry_clicks_refactored, allDesc_total.
    + intros chart Hin.
      repeat (apply elem_of_cons in Hin as [->|Hin]);
        [rewrite Hc|rewrite Hb|rewrite Ho|by apply elem_of_nil in Hin];
        rewrite length_map, entry_clicks_refactored; apply top10_total.
    + rewrite Hdate.
      by rewrite (sum_perm _ _ (sortById_perm _)), sum_groupCount, length_map.
Qed.

Lemma report_counts_add_up_witness :
  let req := Sample.owned Sample.noBody Sample.noQuery in
  ∃ a w',
    asyncHandler (@Controller.getUrlAnalytics Sample.platform) req
      Sample.clicked
    = (Json 200 true None (AnalyticsPayload a), w')
    ∧ totalClicks (summary a) = 11%nat
    ∧ sum_list (map entry_clicks (clicksByDevice a)) = totalClicks (summary a)
    ∧ (uniqueVisitors (summary a) ≤ totalClicks (summary a))%nat.
Proof.
  intros req.
  destruct (asyncHandler (@Controller.getUrlAnalytics Sample.platform) req
              Sample.clicked) as [r w'] eqn:Hrun.
  assert (∃ a, r = Json 200 true None (AnalyticsPayload a)
               ∧ totalClicks (summary a) = 11%nat) as (a & -> & Ht).
  { assert (r = (asyncHandler (@Controller.getUrlAnalytics Sample.platform)
                   req Sample.clicked).1) as -> by (by rewrite Hrun).
    vm_compute. eexists. split; reflexivity. }
  exists a, w'. split; [reflexivity|]. split; [exact Ht|].
  destruct (@report_counts_add_up Sample.platform req Sample.clicked w' a
              (or_introl Hrun)) as (Hv & Hd & _).
  split; [exact Hd|exact Hv].
Defined.


(** ** The recent clicks of a report *)

Lemma insertRecent_perm (c : Click.t) (l : list Click.t) :
  insertRecent c l ≡ₚ c :: l.
Proof.
  induction l as [|y r IH]; simpl; [done|].
  destruct (Click.timestamp y <=? Click.timestamp c)%Z; [done|].
  rewrite IH. apply Permutation_swap.
Qed.

Lemma sortRecent_perm (l : list Click.t) : sortRecent l ≡ₚ l.
Proof.
  induction l as [|x r IH]; simpl; [done|].
  rewrite insertRecent_perm. by rewrite IH.
Qed.

Lemma insertRecent_sorted (c : Click.t) (l : list Click.t) :
  newestFirst l → newestFirst (insertRecent c l).
Proof.
  unfold newestFirst. induction l as [|y r IH]; simpl; intros Hs.
  - by repeat constructor.
  - destruct (Click.timestamp y <=? Click.timestamp c)%Z eqn:Hle.
    + apply Z.leb_le in Hle. constructor; [done|].
      apply StronglySorted_inv in Hs as [Hr Hy].
      constructor; [done|].
      eapply Forall_impl; [exact Hy|]. intros z Hz. simpl in *. lia.
    + apply Z.leb_gt in Hle.
      apply StronglySorted_inv in Hs as [Hr Hy].
      constructor; [by apply IH|].
      rewrite insertRecent_perm. constructor; [lia|done].
Qed.

Lemma sortRecent_sorted (l : list Click.t) : newestFirst (sortRecent l).
Proof.
  induction l as [|x r IH]; simpl; [constructor|].
  by apply insertRecent_sorted.
Qed.

Lemma newestFirst_take (n : nat) (l : list Click.t) :
  newestFirst l → newestFirst (take n l).
Proof.
  unfold newestFirst.
  revert n. induction l as [|x r IH]; intros [|n] Hs; simpl;
    try constructor.
  - apply IH. by apply StronglySorted_inv in Hs as [? ?].
  - apply StronglySorted_inv in Hs as [_ Hx].
    apply Forall_take. done.
Qed.

Lemma newestFirst_take_drop (n : nat) (l : list Click.t) (x y : Click.t) :
  newestFirst l → x ∈ take n l → y ∈ drop n l →
  (Click.timestamp y ≤ Click.timestamp x)%Z.
Proof.
  unfold newestFirst.
  revert n. induction l as [|z r IH]; intros [|n] Hs Hx Hy; simpl in *;
    try by apply not_elem_of_nil in Hx.
  apply StronglySorted_inv in Hs as [Hr Hz].
  apply elem_of_cons in Hx as [->|Hx].
  - rewrite List.Forall_forall in Hz. apply Hz.
    apply list_elem_of_In. rewrite <- (take_drop n r).
    apply elem_of_app. by right.
  - by eapply IH.
Qed.

(** The fifty most recent of the clicks [cs]. *)
Lemma recent_spec (cs : list Click.t) :
  let recent := take 50 (sortRecent cs) in
  (length recent ≤ 50)%nat
  ∧ newestFirst recent
  ∧ (∀ c, c ∈ recent → c ∈ cs)
  ∧ (∀ c, c ∈ cs → c ∉ recent →
       length recent = 50%nat
       ∧ ∀ r, r ∈ recent → (Click.timestamp c ≤ Click.timestamp r)%Z).
Proof.
  intros recent. unfold recent. split; [|split; [|split]].
  - rewrite length_take. lia.
  - apply newestFirst_take, sortRecent_sorted.
  - intros c Hc. rewrite <- (sortRecent_perm cs).
    rewrite <- (take_drop 50 (sortRecent cs)). apply elem_of_app. by left.
  - intros c Hc Hout.
    assert (c ∈ drop 50 (sortRecent cs)) as Hdrop.
    { rewrite <- (sortRecent_perm cs) in Hc.
      rewrite <- (take_drop 50 (sortRecent cs)) in Hc.
      apply elem_of_app in Hc as [Hc|Hc]; [done|done]. }
    split.
    + rewrite length_take. apply Nat.min_l.
      destruct (decide (50 ≤ length (sortRecent cs))%nat) as [|Hlt]; [done|].
      rewrite drop_ge in Hdrop by lia. by apply not_elem_of_nil in Hdrop.
    + intros r Hr. eapply newestFirst_take_drop; [|exact Hr|exact Hdrop].
      apply sortRecent_sorted.
Qed.

(** X9. The recent clicks of a report, in both controllers, are the fifty
    latest clicks of the link inside the window: at most fifty, newest
    first, each one a stored click of this link with a time stamp inside
    the window, and a click of the link inside the window that is left out
    is no later than any one listed. *)
Theorem report_recent_clicks `{Platform}
    (req : Request) (w w' : World) (a : Analytics) :
  asyncHandler Controller.getUrlAnalytics req w
  = (Json 200 true None (AnalyticsPayload a), w')
  ∨ asyncHandler Refactored.getUrlAnalytics req w
    = (Json 200 true None (AnalyticsPayload a), w') →
  ∃ uid url,
    user req = Some uid
    ∧ find (ownedBy (param_id req) uid) (urls (db w)) = Some url
    ∧ let inside (c : Click.t) :=
        c ∈ clicks (db w) ∧ Click.url c = Url._id url
        ∧ (a_start a ≤ Click.timestamp c ≤ a_end a)%Z in
      (length (recentClicks a) ≤ 50)%nat
      ∧ newestFirst (recentClicks a)
      ∧ (∀ c, c ∈ recentClicks a → inside c)
      ∧ (∀ c, inside c → c ∉ recentClicks a →
           length (recentClicks a) = 50%nat
           ∧ ∀ r, r ∈ recentClicks a →
               (Click.timestamp c ≤ Click.timestamp r)%Z).
Proof.
  intros Hrun.
  assert (∃ uid url,
            user req = Some uid
            ∧ find (ownedBy (param_id req) uid) (urls (db w)) = Some url
            ∧ recentClicks a
              = take 50 (sortRecent (matched (Url._id url) (a_start a)
                                       (a_end a) (db w))))
    as (uid & url & Hu & Hf & Hrecent).
  { destruct Hrun as [Hrun|Hrun]; apply asyncHandler_json_inv in Hrun.
    - destruct (original_report_rest req w w' a Hrun)
        as (uid & url & Hu & Hf & _ & Hr). by exists uid, url.
    - destruct (refactored_report_rest req w w' a Hrun)
        as (uid & url & Hu & Hf & _ & Hr). by exists uid, url. }
  exists uid, url. split; [done|]. split; [done|]. cbn zeta.
  rewrite Hrecent.
  destruct (recent_spec (matched (Url._id url) (a_start a) (a_end a) (db w)))
    as (Hlen & Hsorted & Hin & Hout).
  split; [done|]. split; [done|]. split.
  - intros c Hc. by apply matched_spec, Hin.
  - intros c Hc. apply Hout. by apply matched_spec.
Qed.

Lemma report_recent_clicks_witness :
  let req := Sample.owned Sample.noBody Sample.noQuery in
  ∃ a w',
    asyncHandler (@Refactored.getUrlAnalytics Sample.platform) req
      Sample.clicked
    = (Json 200 true None (AnalyticsPayload a), w')
    ∧ map Click.timestamp (recentClicks a)
      = [110; 109; 108; 107; 106; 105; 104; 103; 102; 101; 100]%Z
    ∧ newestFirst (recentClicks a).
Proof.
  intros req.
  destruct (asyncHandler (@Refactored.getUrlAnalytics Sample.platform) req
              Sample.clicked) as [r w'] eqn:Hrun.
  assert (∃ a, r = Json 200 true None (AnalyticsPayload a)
               ∧ map Click.timestamp (recentClicks a)
                 = [110; 109; 108; 107; 106; 105; 104; 103; 102; 101; 100]%Z)
    as (a & -> & Ht).
  { assert (r = (asyncHandler (@Refactored.getUrlAnalytics Sample.platform)
                   req Sample.clicked).1) as -> by (by rewrite Hrun).
    vm_compute. eexists. split; reflexivity. }
  exists a, w'. split; [reflexivity|]. split; [exact Ht|].
  destruct (@report_recent_clicks Sample.platform req Sample.clicked w' a
              (or_intror Hrun)) as (uid & url & _ & _ & _ & Hs & _).
  exact Hs.
Defined.


(** ** The labels of the original report *)

Lemma groupCount_keys {K} `{EqDecision K} (keys : list K) (k : K) (n : nat) :
  (k, n) ∈ groupCount keys → k ∈ keys.
Proof.
  intros Hin. destruct (groupCount_spec keys) as (Hnd & Hpos & Hcount).
  pose proof (Hpos _ Hin) as Hn. cbn in Hn.
  rewrite <- (countIn_elem_of k n _ Hnd Hin), Hcount in Hn.
  destruct (filter (λ x, x = k) keys) as [|x l] eqn:Hf; [cbn in Hn; lia|].
  assert (x ∈ filter (λ x, x = k) keys) as Hx by (rewrite Hf; by left).
  by apply list_elem_of_filter in Hx as [-> Hx].
Qed.

Lemma facet_keys (key : Click.t → option jsstr) (cs : list Click.t)
    (g : option jsstr * nat) :
  g ∈ top10 key cs ∨ g ∈ allDesc key cs → ∃ c, c ∈ cs ∧ key c = fst g.
Proof.
  intros Hg.
  assert (g ∈ groupCount (map key cs)) as Hin.
  { rewrite <- (sortDesc_perm (groupCount (map key cs))).
    destruct Hg as [Hg|Hg]; [|done]. unfold top10 in Hg.
    rewrite <- (take_drop 10 (sortDesc _)). apply elem_of_app. by left. }
  destruct g as [k n]. apply groupCount_keys in Hin.
  apply list_elem_of_fmap in Hin as (c & -> & Hc). by exists c.
Qed.

(** X10. When every stored click is valid, as the handlers leave them, no
    chart of the original report has an entry without a label: every label
    is a string, and the labels of the device chart are device types of the
    schema. *)
Theorem original_report_labels_present `{Platform}
    (req : Request) (w w' : World) (a : Analytics) :
  Forall validClick (clicks (db w)) →
  asyncHandler Controller.getUrlAnalytics req w
  = (Json 200 true None (AnalyticsPayload a), w') →
  (∀ chart,
     chart ∈ [clicksByCountry a; clicksByBrowser a; clicksByOS a;
              clicksByDevice a] →
     ∀ e, e ∈ chart → ∃ s, label e = JsStr s)
  ∧ (∀ e, e ∈ clicksByDevice a → ∃ t, label e = JsStr t ∧ t ∈ deviceTypes).
Proof.
  intros Hvalid Hrun. apply asyncHandler_json_inv in Hrun.
  destruct (original_report req w w' a Hrun)
    as (uid & url & _ & _ & _ & _ & _ & Hc & Hb & Ho & Hd).
  cbn zeta in *. set (cs := matched _ _ _ _) in *.
  assert (∀ c, c ∈ cs → validClick c) as Hcs.
  { intros c Hc'. apply matched_spec in Hc' as [Hc' _].
    by eapply Forall_forall in Hvalid. }
  assert (∀ key g,
            g ∈ top10 key cs ∨ g ∈ allDesc key cs →
            (∀ c, validClick c → is_Some (key c)) →
            ∃ s, label (Controller.entry g) = JsStr s) as Hlabel.
  { intros key g Hg Hkey. apply facet_keys in Hg as (c & Hin & Hk).
    destruct (Hkey c (Hcs c Hin)) as [s Hs]. exists s.
    unfold Controller.entry. cbn. by rewrite <- Hk, Hs. }
  split.
  - intros chart Hin e He.
    repeat (apply elem_of_cons in Hin as [->|Hin]);
      [rewrite Hc in He|rewrite Hb in He|rewrite Ho in He|rewrite Hd in He
      |by apply elem_of_nil in Hin];
      apply list_elem_of_fmap in He as (g & -> & Hg).
    + eapply Hlabel; [by left|]. by intros c (_ & _ & ? & _).
    + eapply Hlabel; [by left|]. by intros c (_ & _ & _ & ? & _).
    + eapply Hlabel; [by left|]. by intros c (_ & _ & _ & _ & ? & _).
    + eapply Hlabel; [by right|].
      intros c (_ & _ & _ & _ & _ & t & Ht & _). by exists t.
  - intros e He. rewrite Hd in He.
    apply list_elem_of_fmap in He as (g & -> & Hg).
    destruct (facet_keys byDevice cs g (or_intror Hg)) as (c & Hin & Hk).
    destruct (Hcs c Hin) as (_ & _ & _ & _ & _ & t & Ht & Hty).
    exists t. split; [|done]. unfold Controller.entry. cbn.
    unfold byDevice in Hk. by rewrite <- Hk, Ht.
Qed.

Lemma original_report_labels_present_witness :
  let req := Sample.owned Sample.noBody Sample.noQuery in
  ∃ a w',
    asyncHandler (@Controller.getUrlAnalytics Sample.platform) req
      Sample.world
    = (Json 200 true None (AnalyticsPayload a), w')
    ∧ Forall validClick (clicks (db Sample.world))
    ∧ chart (clicksByDevice a) = [(JsStr (js "desktop"), 2%nat)]
    ∧ ∀ e, e ∈ clicksByDevice a → ∃ t, label e = JsStr t ∧ t ∈ deviceTypes.
Proof.
  intros req.
  destruct (asyncHandler (@Controller.getUrlAnalytics Sample.platform) req
              Sample.world) as [r w'] eqn:Hrun.
  assert (∃ a, r = Json 200 true None (AnalyticsPayload a)
               ∧ chart (clicksByDevice a) = [(JsStr (js "desktop"), 2%nat)])
    as (a & -> & Hc).
  { assert (r = (asyncHandler (@Controller.getUrlAnalytics Sample.platform)
                   req Sample.world).1) as -> by (by rewrite Hrun).
    vm_compute. eexists. split; reflexivity. }
  assert (Forall validClick (clicks (db Sample.world))) as Hvalid
    by (destruct sample_wellFormed as (_ & _ & _ & _ & Hv); exact Hv).
  exists a, w'. split; [reflexivity|]. split; [exact Hvalid|].
  split; [exact Hc|].
  exact (proj2 (@original_report_labels_present Sample.platform req
                  Sample.world w' a Hvalid Hrun)).
Defined.


(** ** The values of the recorder in the report *)







(** The clicks of the store all have the property [P]. *)
Abbreviation clicksAll P := (λ (d : Db) (_ : oid), Forall P (clicks d)).

Section ClicksKeep.
Context `{Platform}.
Variable P : Click.t → Prop.









End ClicksKeep.

Section HandlersKeepClicks.
Context `{Platform}.
Variable P : Click.t → Prop.




End HandlersKeepClicks.








(** ** Splitting and joining *)

Lemma split_nonempty (sep : N) (s : jsstr) : split sep s ≠ [].
Proof.
  induction s as [|c r IH]; [done|]. cbn.
  destruct (c =? sep); [done|]. by destruct (split sep r).
Qed.

Lemma join_cons (sep p : jsstr) (ps : list jsstr) :
  ps ≠ [] → join sep (p :: ps) = p ++ sep ++ join sep ps.
Proof. by destruct ps. Qed.

Lemma join_split (sep : N) (s : jsstr) : join [sep] (split sep s) = s.
Proof.
  induction s as [|c r IH]; [done|]. cbn [split].
  destruct (N.eqb_spec c sep) as [->|Hne].
  - rewrite join_cons by apply split_nonempty. by rewrite IH.
  - pose proof (split_nonempty sep r) as Hr.
    destruct (split sep r) as [|h t]; [done|].
    destruct t as [|h' t]; cbn in *; congruence.
Qed.

Lemma split_app (sep : N) (p s : jsstr) :
  sep ∉ p →
  split sep (p ++ sep :: s) = p :: split sep s.
Proof.
  induction p as [|c p IH]; intros Hp.
  - cbn. by rewrite N.eqb_refl.
  - cbn [app split]. apply not_elem_of_cons in Hp as [Hc Hp].
    destruct (N.eqb_spec c sep) as [->|_]; [done|].
    by rewrite IH.
Qed.

Lemma split_plain (sep : N) (p : jsstr) : sep ∉ p → split sep p = [p].
Proof.
  induction p as [|c p IH]; intros Hp; [done|]. cbn [split].
  apply not_elem_of_cons in Hp as [Hc Hp].
  destruct (N.eqb_spec c sep) as [->|_]; [done|]. by rewrite IH.
Qed.

Lemma split_join (sep : N) (parts : list jsstr) :
  parts ≠ [] → Forall (λ p, sep ∉ p) parts →
  split sep (join [sep] parts) = parts.
Proof.
  induction parts as [|p ps IH]; [done|]. intros _ Hall.
  apply Forall_cons in Hall as [Hp Hps].
  destruct ps as [|q ps]; [by apply split_plain|].
  rewrite join_cons by done. cbn [app].
  rewrite split_app by done. by rewrite IH.
Qed.

Lemma includes_unit (c : N) (s : jsstr) : includes [c] s = true ↔ c ∈ s.
Proof.
  induction s as [|x s IH]; cbn.
  - split; [done|]. by intros ?%not_elem_of_nil.
  - rewrite andb_true_r, orb_true_iff, IH, N.eqb_eq, elem_of_cons.
    done.
Qed.

Lemma elem_of_join (sep c : N) (parts : list jsstr) :
  c ∈ join [sep] parts → c = sep ∨ ∃ p, p ∈ parts ∧ c ∈ p.
Proof.
  induction parts as [|p ps IH]; [by intros ?%not_elem_of_nil|].
  destruct ps as [|q ps].
  - intros Hc. right. exists p. split; [by left|done].
  - rewrite join_cons by done. cbn [app].
    rewrite elem_of_app, elem_of_cons. intros [Hc|[->|Hc]].
    + right. exists p. split; [by left|done].
    + by left.
    + destruct (IH Hc) as [->|(p' & Hp' & Hc')]; [by left|].
      right. exists p'. split; [by right|done].
Qed.

(** ** Anonymizing an address *)

Lemma isDigit_not (c x : N) : isDigit x = true → isDigit c = false → c ≠ x.
Proof. intros Hx Hc ->. congruence. Qed.

Lemma isOctet_digits (o : jsstr) :
  isOctet o = true → o ≠ [] ∧ Forall (λ c, isDigit c = true) o.
Proof.
  destruct o as [|a [|b [|c [|e o]]]]; cbn; try done;
    rewrite ?andb_true_iff; intros H; split; try done;
    repeat constructor; tauto.
Qed.

Lemma isHexGroup_hex (g : jsstr) :
  isHexGroup g = true → g ≠ [] ∧ Forall (λ c, isHex c = true) g.
Proof.
  unfold isHexGroup. rewrite !andb_true_iff.
  intros [[Hlen _] Hall]. split.
  - by destruct g.
  - apply Forall_forall. intros c Hc.
    rewrite forallb_forall in Hall. by apply Hall, list_elem_of_In.
Qed.

Lemma digits_free (c : N) (o : jsstr) :
  isDigit c = false → Forall (λ x, isDigit x = true) o → c ∉ o.
Proof.
  intros Hc Ho Hin. eapply Forall_forall in Ho; [|exact Hin]. congruence.
Qed.

Lemma hex_free (c : N) (g : jsstr) :
  isHex c = false → Forall (λ x, isHex x = true) g → c ∉ g.
Proof.
  intros Hc Hg Hin. eapply Forall_forall in Hg; [|exact Hin]. congruence.
Qed.

Lemma octets_split (a b c d : jsstr) :
  isOctet a = true → isOctet b = true → isOctet c = true →
  isOctet d = true →
  split 46 (join [46] [a; b; c; d]) = [a; b; c; d]
  ∧ includes [46] (join [46] [a; b; c; d]) = true
  ∧ truthy (JsStr (join [46] [a; b; c; d])) = true.
Proof.
  intros Ha Hb Hc Hd.
  destruct (isOctet_digits a Ha) as [Hane Hda].
  destruct (isOctet_digits b Hb) as [_ Hdb].
  destruct (isOctet_digits c Hc) as [_ Hdc].
  destruct (isOctet_digits d Hd) as [_ Hdd].
  split; [|split].
  - apply split_join; [done|]. repeat constructor; by apply digits_free.
  - apply includes_unit. cbn. apply elem_of_app. right. by left.
  - cbn. by destruct a.
Qed.

Lemma groups_split (g1 g2 g3 g4 g5 g6 g7 g8 : jsstr) :
  forallb isHexGroup [g1; g2; g3; g4; g5; g6; g7; g8] = true →
  let s := join [58] [g1; g2; g3; g4; g5; g6; g7; g8] in
  split 58 s = [g1; g2; g3; g4; g5; g6; g7; g8]
  ∧ includes [46] s = false
  ∧ includes [58] s = true
  ∧ truthy (JsStr s) = true.
Proof.
  intros Hall s.
  assert (Forall (λ g, g ≠ [] ∧ Forall (λ c, isHex c = true) g)
            [g1; g2; g3; g4; g5; g6; g7; g8]) as Hhex.
  { apply Forall_forall. intros g Hg. apply isHexGroup_hex.
    rewrite forallb_forall in Hall. by apply Hall, list_elem_of_In. }
  split; [|split; [|split]].
  - apply split_join; [done|]. eapply Forall_impl; [exact Hhex|].
    intros g [_ Hg]. by apply hex_free.
  - apply not_true_iff_false. rewrite includes_unit. intros Hin.
    apply elem_of_join in Hin as [Hin|(g & Hg & Hin)]; [done|].
    eapply Forall_forall in Hhex as [_ Hgh]; [|exact Hg].
    by apply (hex_free 46 g).
  - apply includes_unit. unfold s. cbn. apply elem_of_app. right. by left.
  - unfold s. cbn. apply Forall_cons in Hhex as [[Hne _] _]. by destruct g1.
Qed.

Lemma anonymizeIP_v4 (a b c d : jsstr) :
  isOctet a = true → isOctet b = true → isOctet c = true →
  isOctet d = true →
  anonymizeIP (JsStr (join [46] [a; b; c; d])) = join [46] [a; b; c; [48]]
  ∧ isValidIP (join [46] [a; b; c; d]) = true.
Proof.
  intros Ha Hb Hc Hd.
  destruct (octets_split a b c d Ha Hb Hc Hd) as (Hsplit & Hdot & Htruthy).
  set (s := join [46] [a; b; c; d]) in *.
  assert (ipv4Regex s = true) as Hv4.
  { unfold ipv4Regex. rewrite Hsplit, Ha, Hb, Hc, Hd. done. }
  assert (isValidIP s = true) as Hvalid.
  { unfold isValidIP. rewrite Hv4. by destruct (_ || _ || _). }
  split; [|done].
  unfold anonymizeIP. rewrite Htruthy. cbn [strOf negb orb].
  rewrite Hvalid. cbn [negb].
  change (js ".") with [46]. change (js "0") with [48].
  rewrite Hdot, Hsplit. done.
Qed.

Lemma anonymizeIP_v6 (g1 g2 g3 g4 g5 g6 g7 g8 : jsstr) :
  forallb isHexGroup [g1; g2; g3; g4; g5; g6; g7; g8] = true →
  anonymizeIP (JsStr (join [58] [g1; g2; g3; g4; g5; g6; g7; g8]))
  = join [58] [g1; g2; g3; g4; [48]; [48]; [48]; [48]]
  ∧ isValidIP (join [58] [g1; g2; g3; g4; g5; g6; g7; g8]) = true.
Proof.
  intros Hall.
  destruct (groups_split _ _ _ _ _ _ _ _ Hall)
    as (Hsplit & Hdot & Hcolon & Htruthy).
  set (s := join [58] [g1; g2; g3; g4; g5; g6; g7; g8]) in *.
  assert (ipv6Regex s = true) as Hv6.
  { unfold ipv6Regex. cbn zeta. rewrite Hsplit, Hall. done. }
  assert (isValidIP s = true) as Hvalid.
  { unfold isValidIP. rewrite Hv6, orb_true_r. by destruct (_ || _ || _). }
  split; [|done].
  unfold anonymizeIP. rewrite Htruthy. cbn [strOf negb orb].
  rewrite Hvalid. cbn [negb].
  change (js ".") with [46]. change (js ":") with [58].
  change (js "0") with [48].
  rewrite Hdot, Hcolon, Hsplit. done.
Qed.

(** X11. [anonymizeIP] of utils/ip.js is stable: anonymizing its result
    again gives the same result, whatever the input, and the result is
    either [unknown] or an address that [isValidIP] accepts. *)
Theorem anonymizeIP_stable (ip : jsval) :
  anonymizeIP (JsStr (anonymizeIP ip)) = anonymizeIP ip
  ∧ (anonymizeIP ip = js "unknown" ∨ isValidIP (anonymizeIP ip) = true).
Proof.
  assert (anonymizeIP (JsStr (js "unknown")) = js "unknown") as Hunknown
    by (vm_compute; reflexivity).
  assert (∀ v, anonymizeIP v = js "unknown" →
            anonymizeIP (JsStr (anonymizeIP v)) = anonymizeIP v
            ∧ (anonymizeIP v = js "unknown"
               ∨ isValidIP (anonymizeIP v) = true)) as Hout.
  { intros v ->. split; [done|by left]. }
  destruct ip as [| |s]; [by apply Hout|by apply Hout|].
  destruct s as [|x s]; [by apply Hout|].
  destruct (isValidIP (x :: s)) eqn:Hvalid;
    [|apply Hout; unfold anonymizeIP; cbn [strOf truthy negb orb];
      by rewrite Hvalid].
  unfold isValidIP in Hvalid.
  destruct (streq (x :: s) (js "::1")) eqn:E1.
  { apply bool_decide_eq_true in E1 as ->. split; [|right]; by vm_compute. }
  destruct (streq (x :: s) (js "127.0.0.1")) eqn:E2.
  { apply bool_decide_eq_true in E2 as ->. split; [|right]; by vm_compute. }
  destruct (streq (x :: s) (js "localhost")) eqn:E3.
  { apply bool_decide_eq_true in E3 as ->. split; [|right]; by vm_compute. }
  cbn [orb] in Hvalid. clear E1 E2 E3.
  destruct (ipv4Regex (x :: s)) eqn:Hv4.
  - unfold ipv4Regex in Hv4.
    rewrite <- (join_split 46 (x :: s)).
    destruct (split 46 (x :: s)) as [|a [|b [|c [|d [|e l]]]]]; try done.
    apply andb_true_iff in Hv4 as [Hv4 Hd].
    apply andb_true_iff in Hv4 as [Hv4 Hc].
    apply andb_true_iff in Hv4 as [Ha Hb].
    destruct (anonymizeIP_v4 a b c d Ha Hb Hc Hd) as [-> _].
    destruct (anonymizeIP_v4 a b c [48] Ha Hb Hc eq_refl) as [-> ->].
    split; [done|by right].
  - cbn [orb] in Hvalid. unfold ipv6Regex in Hvalid. cbn zeta in Hvalid.
    rewrite <- (join_split 58 (x :: s)).
    apply andb_true_iff in Hvalid as [Hlen Hall].
    destruct (split 58 (x :: s))
      as [|g1 [|g2 [|g3 [|g4 [|g5 [|g6 [|g7 [|g8 [|g9 l]]]]]]]]]; try done.
    destruct (anonymizeIP_v6 _ _ _ _ _ _ _ _ Hall) as [-> _].
    assert (forallb isHexGroup [g1; g2; g3; g4; [48]; [48]; [48]; [48]]
            = true) as Hall'.
    { cbn [forallb] in *. rewrite !andb_true_iff in *.
      destruct Hall as (? & ? & ? & ? & _). done. }
    destruct (anonymizeIP_v6 _ _ _ _ _ _ _ _ Hall') as [-> ->].
    split; [done|by right].
Qed.

Lemma IpUtil_isOctet_isOctet (o : jsstr) :
  IpUtil.isOctet o = true → isOctet o = true.
Proof.
  destruct o as [|a [|b [|c [|e o]]]]; cbn; try done.
  intros Ho. apply andb_true_iff in Ho as [Hd Ho]. rewrite Hd. cbn.
  rewrite !orb_true_iff in *. tauto.
Qed.

(** X12. The second IP module agrees with utils/ip.js where it accepts an
    address: what [validateIP] accepts, [isValidIP] accepts, and [maskIP]
    masks it as [anonymizeIP] does, the loopback address [::1] apart, which
    [maskIP] turns into [:0:0]. *)
Theorem maskIP_agrees_with_anonymizeIP (ip : jsval) :
  IpUtil.validateIP ip = true →
  isValidIP (strOf ip) = true
  ∧ (strOf ip ≠ js "::1" → IpUtil.maskIP ip = anonymizeIP ip)
  ∧ IpUtil.maskIP (JsStr (js "::1")) = js ":0:0".
Proof.
  intros Hvalid. split; [|split; [|by vm_compute]].
  - unfold IpUtil.validateIP in Hvalid.
    destruct (truthy ip); [|done]. cbn [negb] in Hvalid.
    destruct (bool_decide _) eqn:Hspecial.
    { apply bool_decide_eq_true in Hspecial.
      repeat (apply elem_of_cons in Hspecial as [->|Hspecial]);
        try by vm_compute. by apply elem_of_nil in Hspecial. }
    cbn [orb] in Hvalid. unfold isValidIP.
    destruct (_ || _ || _); [done|].
    apply orb_true_iff in Hvalid as [Hv4|Hv6]; [|by rewrite Hv6, orb_true_r].
    apply orb_true_iff. left. unfold IpUtil.ipv4 in Hv4. unfold ipv4Regex.
    destruct (split 46 (strOf ip)) as [|a [|b [|c [|d [|e l]]]]]; try done.
    rewrite !andb_true_iff in *. destruct Hv4 as [[[? ?] ?] ?].
    repeat split; by apply IpUtil_isOctet_isOctet.
  - intros Hne. unfold IpUtil.maskIP. rewrite Hvalid. cbn [negb].
    unfold IpUtil.validateIP in Hvalid.
    destruct ip as [| |s]; try done. destruct s as [|x s]; [done|].
    cbn [truthy negb strOf] in *.
    destruct (bool_decide _) eqn:Hspecial.
    { apply bool_decide_eq_true in Hspecial.
      apply elem_of_cons in Hspecial as [->|Hspecial]; [by vm_compute|].
      apply elem_of_cons in Hspecial as [Heq|Hspecial]; [done|].
      apply elem_of_cons in Hspecial as [->|Hspecial]; [by vm_compute|].
      by apply elem_of_nil in Hspecial. }
    cbn [orb] in Hvalid.
    change (js ".") with [46]. change (js ":") with [58].
    change (js "0") with [48].
    destruct (IpUtil.ipv4 (x :: s)) eqn:Hv4.
    + unfold IpUtil.ipv4 in Hv4.
      rewrite <- (join_split 46 (x :: s)).
      destruct (split 46 (x :: s)) as [|a [|b [|c [|d [|e l]]]]] eqn:Hs;
        try done.
      rewrite !andb_true_iff in Hv4. destruct Hv4 as [[[Ha Hb] Hc] Hd].
      apply IpUtil_isOctet_isOctet in Ha, Hb, Hc, Hd.
      destruct (anonymizeIP_v4 a b c d Ha Hb Hc Hd) as [-> _].
      destruct (octets_split a b c d Ha Hb Hc Hd) as (-> & -> & _). done.
    + cbn [orb] in Hvalid. unfold ipv6Regex in Hvalid. cbn zeta in Hvalid.
      apply andb_true_iff in Hvalid as [Hlen Hall].
      rewrite <- (join_split 58 (x :: s)).
      destruct (split 58 (x :: s))
        as [|g1 [|g2 [|g3 [|g4 [|g5 [|g6 [|g7 [|g8 [|g9 l]]]]]]]]] eqn:Hs;
        try done.
      destruct (anonymizeIP_v6 _ _ _ _ _ _ _ _ Hall) as [-> _].
      destruct (groups_split _ _ _ _ _ _ _ _ Hall) as (-> & -> & -> & _).
      done.
Qed.

Lemma maskIP_agrees_with_anonymizeIP_witness :
  let ip := JsStr (js "203.0.113.9") in
  IpUtil.validateIP ip = true
  ∧ strOf ip ≠ js "::1"
  ∧ IpUtil.maskIP ip = anonymizeIP ip
  ∧ anonymizeIP ip = js "203.0.113.0".
Proof.
  intros ip.
  assert (IpUtil.validateIP ip = true) as Hv by (vm_compute; reflexivity).
  assert (strOf ip ≠ js "::1") as Hne by (vm_compute; discriminate).
  split; [exact Hv|]. split; [exact Hne|]. split.
  - exact (proj1 (proj2 (maskIP_agrees_with_anonymizeIP ip Hv)) Hne).
  - vm_compute. reflexivity.
Defined.


(** ** Bot detection by substring *)

Lemma startsWithCI_spec (p s : jsstr) :
  startsWithCI p s = true ↔ ∃ t r, s = t ++ r ∧ map foldAscii t = p.
Proof.
  revert s. induction p as [|a p IH]; intros s.
  - split; [|done]. intros _. by exists [], s.
  - destruct s as [|b s]; cbn.
    + split; [done|]. intros (t & r & Hs & Ht).
      symmetry in Hs. apply app_eq_nil in Hs as [-> _]. done.
    + rewrite andb_true_iff, N.eqb_eq, IH. split.
      * intros (-> & t & r & -> & <-). by exists (b :: t), r.
      * intros (t & r & Hs & Ht). destruct t as [|c t]; [done|].
        cbn in *. simplify_eq. split; [done|]. by exists t, r.
Qed.

Lemma includesCI_spec (p s : jsstr) :
  includesCI p s = true ↔ ∃ a t b, s = a ++ t ++ b ∧ map foldAscii t = p.
Proof.
  induction s as [|c s IH].
  - cbn. rewrite orb_false_r, startsWithCI_spec. split.
    + intros (t & r & Hs & Ht). by exists [], t, r.
    + intros (a & t & b & Hs & Ht). symmetry in Hs.
      apply app_eq_nil in Hs as [-> Hs]. apply app_eq_nil in Hs as [-> ->].
      by exists [], [].
  - cbn [includesCI]. rewrite orb_true_iff, IH, startsWithCI_spec. split.
    + intros [(t & r & Hs & Ht)|(a & t & b & -> & Ht)].
      * by exists [], t, r.
      * by exists (c :: a), t, b.
    + intros (a & t & b & Hs & Ht). destruct a as [|c' a].
      * left. by exists t, b.
      * right. cbn in Hs. simplify_eq. by exists a, t, b.
Qed.

Lemma includesCI_padded (p s a b : jsstr) :
  includesCI p s = true → includesCI p (a ++ s ++ b) = true.
Proof.
  rewrite !includesCI_spec. intros (a' & t & b' & -> & Ht).
  exists (a ++ a'), t, (b' ++ b). by rewrite <- !app_assoc.
Qed.

Lemma includesCI_part (p1 p2 p3 s : jsstr) :
  includesCI (p1 ++ p2 ++ p3) s = true → includesCI p2 s = true.
Proof.
  rewrite !includesCI_spec. intros (a & t & b & -> & Ht).
  change (map foldAscii t) with (foldAscii <$> t) in Ht.
  apply fmap_app_inv in Ht as (t1 & t' & Hp1 & Ht & ->). symmetry in Ht.
  apply fmap_app_inv in Ht as (t2 & t3 & Hp2 & Hp3 & ->).
  exists (a ++ t1), t2, (t3 ++ b). split; [by rewrite <- !app_assoc|done].
Qed.

Lemma foldAscii_idem (c : N) : foldAscii (foldAscii c) = foldAscii c.
Proof.
  unfold foldAscii.
  destruct ((65 <=? c) && (c <=? 90)) eqn:Hc; [|by rewrite Hc].
  apply andb_true_iff in Hc as [H1%N.leb_le H2%N.leb_le].
  destruct ((65 <=? c + 32) && (c + 32 <=? 90)) eqn:Hc'; [|done].
  apply andb_true_iff in Hc' as [_ H3%N.leb_le]. lia.
Qed.

Lemma includesCI_fold (p s : jsstr) :
  includesCI p (map foldAscii s) = includesCI p s.
Proof.
  apply eq_iff_eq_true. rewrite !includesCI_spec. split.
  - intros (a & t & b & Hs & Ht).
    change (map foldAscii s) with (foldAscii <$> s) in Hs.
    apply fmap_app_inv in Hs as (a0 & s' & Ha & Hs & ->). symmetry in Hs.
    apply fmap_app_inv in Hs as (t0 & b0 & Ht0 & Hb0 & ->).
    exists a0, t0, b0. split; [done|].
    rewrite <- Ht, Ht0. change (map foldAscii ?l) with (foldAscii <$> l).
    rewrite <- list_fmap_compose. apply list_fmap_ext. intros _ c _. cbn.
    by rewrite foldAscii_idem.
  - intros (a & t & b & -> & Ht).
    exists (map foldAscii a), (map foldAscii t), (map foldAscii b).
    rewrite !map_app. split; [done|].
    rewrite Ht, <- Ht. change (map foldAscii ?l) with (foldAscii <$> l).
    rewrite <- list_fmap_compose. apply list_fmap_ext. intros _ c _. cbn.
    by rewrite foldAscii_idem.
Qed.

(** The patterns that the listed crawler names leave to decide. *)
Lemma botPatterns_reduced (s : jsstr) :
  existsb (λ pattern, includesCI (js pattern) s) botPatterns
  = existsb (λ pattern, includesCI (js pattern) s)
      ["slurp"; "facebookexternalhit"; "whatsapp"; "telegram"; "crawler";
       "spider"; "bot"; "headless"; "phantom"; "scraper"]%string.
Proof.
  assert (∀ p1 p3 : string,
            includesCI (js p1 ++ js "bot" ++ js p3) s = true →
            includesCI (js "bot") s = true) as Hbot
    by (intros p1 p3; apply includesCI_part).
  assert (includesCI (js "baiduspider") s = true →
          includesCI (js "spider") s = true) as Hspider
    by apply (includesCI_part (js "baidu") (js "spider") []).
  pose proof (Hbot "google" "")%string as H1.
  pose proof (Hbot "bing" "")%string as H2.
  pose proof (Hbot "duckduck" "")%string as H3.
  pose proof (Hbot "yandex" "")%string as H4.
  pose proof (Hbot "twitter" "")%string as H5.
  pose proof (Hbot "linkedin" "")%string as H6.
  change (js "google" ++ js "bot" ++ js "") with (js "googlebot") in H1.
  change (js "bing" ++ js "bot" ++ js "") with (js "bingbot") in H2.
  change (js "duckduck" ++ js "bot" ++ js "") with (js "duckduckbot") in H3.
  change (js "yandex" ++ js "bot" ++ js "") with (js "yandexbot") in H4.
  change (js "twitter" ++ js "bot" ++ js "") with (js "twitterbot") in H5.
  change (js "linkedin" ++ js "bot" ++ js "") with (js "linkedinbot") in H6.
  unfold botPatterns. cbn [existsb].
  destruct (includesCI (js "bot") s);
    destruct (includesCI (js "spider") s);
    destruct (includesCI (js "googlebot") s); try (by discriminate H1);
    destruct (includesCI (js "bingbot") s); try (by discriminate H2);
    destruct (includesCI (js "duckduckbot") s); try (by discriminate H3);
    destruct (includesCI (js "yandexbot") s); try (by discriminate H4);
    destruct (includesCI (js "twitterbot") s); try (by discriminate H5);
    destruct (includesCI (js "linkedinbot") s); try (by discriminate H6);
    destruct (includesCI (js "baiduspider") s); try (by discriminate Hspider);
    cbn; rewrite ?orb_true_r; try done.
Qed.

Lemma isBot_str (s : jsstr) :
  isBot (JsStr s)
  = existsb (λ pattern, includesCI (js pattern) s) botPatterns.
Proof. by destruct s. Qed.

Lemma existsb_ext_in {A} (f g : A → bool) (l : list A) :
  (∀ x, f x = g x) → existsb f l = existsb g l.
Proof. intros Hfg. induction l as [|x l IH]; [done|]. cbn. by rewrite Hfg, IH. Qed.

Lemma existsb_impl {A} (f g : A → bool) (l k : list A) :
  (∀ x, x ∈ l → f x = true → ∃ y, y ∈ k ∧ g y = true) →
  existsb f l = true → existsb g k = true.
Proof.
  intros Himpl Hex. apply existsb_exists in Hex as (x & Hx & Hf).
  destruct (Himpl x) as (y & Hy & Hg); [by apply list_elem_of_In|done|].
  apply existsb_exists. exists y. split; [by apply list_elem_of_In|done].
Qed.

(** X13. Bot detection looks for substrings only. A user agent that
    contains one that [isBot] flags is flagged, wherever it stands; the
    letter case of the user agent does not matter; the named crawlers are
    covered by [bot] and [spider] already, so that ten of the seventeen
    patterns decide; the functions of the two IP modules ignore the address,
    agree with each other and flag no user agent that [isBot] of
    utils/userAgent.js lets pass; and utils/agent.js agrees with
    utils/userAgent.js. *)
Theorem bot_detection_by_substring :
  (∀ s a b, isBot (JsStr s) = true → isBot (JsStr (a ++ s ++ b)) = true)
  ∧ (∀ s, isBot (JsStr (map foldAscii s)) = isBot (JsStr s))
  ∧ (∀ s, isBot (JsStr s)
          = existsb (λ pattern, includesCI (js pattern) s)
              ["slurp"; "facebookexternalhit"; "whatsapp"; "telegram";
               "crawler"; "spider"; "bot"; "headless"; "phantom";
               "scraper"]%string)
  ∧ (∀ ip ua, Ip.isBot ip ua = IpUtil.detectBot ip ua
              ∧ (Ip.isBot ip ua = true → isBot ua = true))
  ∧ (∀ ua, Agent.isBot ua = isBot ua).
Proof.
  split; [|split; [|split; [|split]]].
  - intros s a b. rewrite !isBot_str. apply existsb_impl.
    intros p Hp Hs. exists p. split; [done|]. by apply includesCI_padded.
  - intros s. rewrite !isBot_str. apply existsb_ext_in.
    intros p. apply includesCI_fold.
  - intros s. rewrite isBot_str. apply botPatterns_reduced.
  - intros ip ua. split; [done|].
    destruct ua as [| |s]; try done. destruct s as [|c s]; [done|].
    unfold Ip.isBot, isBot. cbn [truthy negb]. apply existsb_impl.
    intros p Hp Hs. exists p. split; [|done].
    unfold Ip.botPatterns in Hp. unfold botPatterns.
    repeat (apply elem_of_cons in Hp as [->|Hp];
            [repeat first [by left|right]|]).
    by apply elem_of_nil in Hp.
  - done.
Qed.


(** ** utils/agent.js against utils/userAgent.js *)

Lemma toLowerCase_folded (s : jsstr) :
  Forall (λ c, foldAscii c = c) (toLowerCase s).
Proof.
  unfold toLowerCase. induction s as [|c s IH]; [done|]. cbn [map concat].
  apply Forall_app. split; [|done].
  unfold lowerUnit, foldAscii.
  destruct ((65 <=? c) && (c <=? 90)) eqn:Hc.
  - apply andb_true_iff in Hc as [H1%N.leb_le H2%N.leb_le].
    repeat constructor.
    destruct ((65 <=? c + 32) && (c + 32 <=? 90)) eqn:Hc'; [|done].
    apply andb_true_iff in Hc' as [_ H3%N.leb_le]. lia.
  - destruct (c =? 8490); [by repeat constructor|].
    destruct (c =? 304); [by repeat constructor|].
    repeat constructor. by rewrite Hc.
Qed.

Lemma startsWithCI_folded (p s : jsstr) :
  Forall (λ c, foldAscii c = c) s → startsWithCI p s = startsWith p s.
Proof.
  revert s. induction p as [|a p IH]; intros s Hs; [done|].
  destruct s as [|b s]; [done|]. cbn.
  apply Forall_cons in Hs as [-> Hs]. by rewrite IH.
Qed.

Lemma includesCI_folded (p s : jsstr) :
  Forall (λ c, foldAscii c = c) s → includesCI p s = includes p s.
Proof.
  induction s as [|c s IH]; intros Hs.
  - cbn. by rewrite startsWithCI_folded.
  - cbn [includesCI includes]. rewrite startsWithCI_folded by done.
    apply Forall_cons in Hs as [_ Hs]. by rewrite IH.
Qed.

Lemma detectDevice_parseDevice (s : jsstr) :
  Agent.detectDevice (toLowerCase s) = parseDevice (toLowerCase s).
Proof.
  unfold Agent.detectDevice, parseDevice, Agent.test, has. cbn [existsb].
  rewrite !includesCI_folded by apply toLowerCase_folded.
  by rewrite !orb_false_r, !orb_assoc.
Qed.

(** X14. utils/agent.js and utils/userAgent.js parse every user agent to
    the same browser, operating system and device, although the one tests
    the device brands with case-insensitive expressions and the other
    matches the lower-cased string; and the device type either of them
    reports is one the click schema accepts. *)
Theorem agent_parsers_agree (userAgent : jsval) :
  Agent.parseUserAgent userAgent = parseUserAgent userAgent
  ∧ Agent.getDeviceType userAgent = getDeviceType userAgent
  ∧ getDeviceType userAgent ∈ deviceTypes.
Proof.
  assert (Agent.parseUserAgent userAgent = parseUserAgent userAgent) as Heq.
  { destruct userAgent as [| |[|c s]]; try done.
    unfold Agent.parseUserAgent, parseUserAgent. cbn zeta.
    by rewrite detectDevice_parseDevice. }
  split; [done|]. split.
  - unfold Agent.getDeviceType, getDeviceType. by rewrite Heq.
  - unfold getDeviceType, parseUserAgent, deviceTypes.
    destruct userAgent as [| |[|c s]]; cbn [ua_device di_type];
      try (by repeat first [by left|right]).
    unfold parseDevice.
    repeat (case_match; cbn [di_type]);
      by repeat first [by left|right].
Qed.


(** ** What a click can be rejected for *)

Lemma geolocation_short (ip : jsstr) :
  maxlength 100 (geo_country (getGeolocation ip)) = true
  ∧ maxlength 100 (geo_city (getGeolocation ip)) = true.
Proof. unfold getGeolocation. by destruct (_ || _ || _ || _). Qed.

Lemma parseBrowser_name (ua : jsstr) :
  maxlength 50 (nv_name (parseBrowser ua)) = true.
Proof. unfold parseBrowser. by repeat case_match. Qed.

Lemma parseOS_name (ua : jsstr) : maxlength 50 (nv_name (parseOS ua)) = true.
Proof. unfold parseOS. by repeat case_match. Qed.

Lemma parseDevice_fields (ua : jsstr) :
  di_type (parseDevice ua) ∈ deviceTypes
  ∧ maxlength 50 (di_brand (parseDevice ua)) = true
  ∧ maxlength 50 (di_model (parseDevice ua)) = true.
Proof.
  unfold parseDevice, deviceTypes.
  repeat case_match; cbn [di_type di_brand di_model];
    (split; [by repeat first [by left|right]|done]).
Qed.

Lemma parseUserAgent_fields (userAgent : jsval) :
  maxlength 50 (nv_name (ua_browser (parseUserAgent userAgent))) = true
  ∧ maxlength 50 (nv_name (ua_os (parseUserAgent userAgent))) = true
  ∧ di_type (ua_device (parseUserAgent userAgent)) ∈ deviceTypes
  ∧ maxlength 50 (di_brand (ua_device (parseUserAgent userAgent))) = true
  ∧ maxlength 50 (di_model (ua_device (parseUserAgent userAgent))) = true.
Proof.
  unfold parseUserAgent.
  assert (js "unknown" ∈ deviceTypes) as Hu
    by (unfold deviceTypes; repeat first [by left|right]).
  destruct userAgent as [| |[|c s]]; cbn [ua_browser ua_os ua_device];
    try done.
  split; [apply parseBrowser_name|]. split; [apply parseOS_name|].
  apply parseDevice_fields.
Qed.

Lemma guard_Some {A} (b : bool) (x y : A) (rest : option A) :
  (if negb b then Some x else rest) = Some y →
  (b = false ∧ y = x) ∨ (b = true ∧ rest = Some y).
Proof. destruct b; cbn; intros; simplify_eq; auto. Qed.

Lemma parsed_click_paths (d : ClickData) (path : jsstr) (ip : jsstr)
    (userAgent : jsval) :
  cd_country d = Some (geo_country (getGeolocation ip)) →
  cd_city d = Some (geo_city (getGeolocation ip)) →
  cd_browser d = ua_browser (parseUserAgent userAgent) →
  cd_os d = ua_os (parseUserAgent userAgent) →
  cd_device d = ua_device (parseUserAgent userAgent) →
  clickInvalidPath d = Some path →
  path ∈ [js "ipAddress"; js "userAgent"; js "referer"; js "browser.version";
          js "os.version"].
Proof.
  intros Hcountry Hcity Hbrowser Hos Hdevice.
  destruct (geolocation_short ip) as [G1 G2].
  destruct (parseUserAgent_fields userAgent) as (P1 & P2 & P3 & P4 & P5).
  unfold clickInvalidPath.
  rewrite Hcountry, Hcity, Hbrowser, Hos, Hdevice.
  unfold default. cbn [from_option id].
  rewrite G1, G2, P1, P2, P4, P5, (bool_decide_eq_true_2 _ P3). cbn [negb].
  intros Hpath.
  repeat (apply guard_Some in Hpath as [[_ ->]|[_ Hpath]];
          [by repeat first [by left|right]|]).
  done.
Qed.

Lemma raises_ret {A} (P : Error → Prop) (a : A) : raises P (mret a : M A).
Proof. by intros w e w'. Qed.

Lemma raises_throw {A} (P : Error → Prop) (e : Error) :
  P e → raises P (mthrow e : M A).
Proof. intros He w e' w'. rewrite throw_run. intros Hrun. by simplify_eq. Qed.

Lemma raises_bind {A B} (P : Error → Prop) (m : M A) (k : A → M B) :
  raises P m → (∀ a, raises P (k a)) → raises P (m ≫= k).
Proof.
  intros Hm Hk w e w'. rewrite bind_run.
  destruct (m w) as [[a|e'] w1] eqn:E.
  - apply Hk.
  - intros Hrun. simplify_eq. by eapply Hm.
Qed.

Lemma raises_try {A} (P : Error → Prop) (m : M A) (h : Error → M A) :
  (∀ e, raises P (h e)) → raises P (try m h).
Proof.
  intros Hh w e w'. unfold try. destruct (m w) as [[a|e'] w1]; [done|].
  apply Hh.
Qed.

Lemma raises_both {A B} (P : Error → Prop) (a : M A) (b : M B) :
  raises P a → raises P b → raises P (both a b).
Proof.
  intros Ha Hb w e w'. unfold both.
  destruct (a w) as [[x|ea] w1] eqn:Ea; destruct (b w1) as [[y|eb] w2] eqn:Eb;
    intros Hrun; simplify_eq.
  - by eapply Hb.
  - by eapply Ha.
  - by eapply Ha.
Qed.

Lemma raises_storage {A} (P : Error → Prop) (op : World → Res A * Db) :
  P StorageError → (∀ w e d, op w = (Throw e, d) → P e) →
  raises P (storage op).
Proof.
  intros Hs Hop w e w'. unfold storage.
  destruct (rejects w (calls w)); [intros Hrun; by simplify_eq|].
  destruct (op (tick w)) as [r d] eqn:E. intros Hrun. simplify_eq.
  by eapply Hop.
Qed.

Lemma raises_query {A} (P : Error → Prop) (f : Db → A) :
  P StorageError → raises P (query f).
Proof. intros Hs. apply raises_storage; [done|]. intros w e d Hrun. done. Qed.

Lemma raises_now (P : Error → Prop) : raises P now.
Proof. by intros w e w'. Qed.

Lemma raises_consoleError (P : Error → Prop) (text : jsstr) (e : Error) :
  raises P (consoleError text e).
Proof. by intros w e' w'. Qed.

Lemma raises_Click_create (P : Error → Prop) (d : ClickData) :
  P StorageError →
  (∀ path, clickInvalidPath d = Some path → P (ValidationError path)) →
  raises P (Click_create d).
Proof.
  intros Hs Hv w e w'. rewrite Click_create_run.
  destruct (clickInvalidPath d) as [path|].
  - intros Hrun. simplify_eq. by apply Hv.
  - cbn zeta. destruct (rejects w (calls w)); intros Hrun; by simplify_eq.
Qed.

(** *** The counter is a Number *)

Lemma toNumber_exact (z : Z) : (Z.abs z ≤ 2 ^ 53)%Z → toNumber z = z.
Proof.
  intros Hz. unfold toNumber. cbn zeta.
  by destruct (Z.leb_spec (Z.abs z) (2 ^ 53)); [|lia].
Qed.

Lemma toNumber_nonneg (z : Z) : (0 ≤ z)%Z → (0 ≤ toNumber z)%Z.
Proof.
  intros Hz. unfold toNumber. cbn zeta.
  destruct (Z.leb_spec (Z.abs z) (2 ^ 53)) as [|Hbig]; [done|].
  rewrite Z.abs_eq in * by done.
  assert (53 ≤ Z.log2 z)%Z as Hlog by (apply Z.log2_le_pow2; lia).
  set (e := (Z.log2 z - 52)%Z).
  assert (0 < 2 ^ e)%Z as Hpow by (apply Z.pow_pos_nonneg; lia).
  assert (0 ≤ z / 2 ^ e)%Z as Hq by (apply Z.div_pos; lia).
  rewrite Z.sgn_pos by lia.
  repeat case_match; lia.
Qed.

Lemma urlDocInvalidPath_paths `{Platform} (u : Url.t) (path : jsstr) :
  urlDocInvalidPath u = Some path →
  path ∈ [js "originalUrl"; js "shortCode"; js "customAlias"; js "title";
          js "description"; js "clicks"; js "tags"].
Proof.
  unfold urlDocInvalidPath. intros Hpath.
  repeat (apply guard_Some in Hpath as [[_ ->]|[_ Hpath]];
          [by repeat first [by left|right]|]).
  destruct (_ <? _)%Z; [simplify_eq; by repeat first [by left|right]|].
  apply guard_Some in Hpath as [[_ ->]|[_ Hpath]]; [|done].
  by repeat first [by left|right].
Qed.

(** A link that validates still does with one click more. *)
Lemma counted_valid `{Platform} (u : Url.t) (t : date) :
  urlDocInvalidPath u = None →
  urlDocInvalidPath
    {| Url._id := Url._id u;
       Url.originalUrl := Url.originalUrl u;
       Url.shortCode := Url.shortCode u;
       Url.customAlias := Url.customAlias u;
       Url.user := Url.user u;
       Url.title := Url.title u;
       Url.description := Url.description u;
       Url.clicks := toNumber (Url.clicks u + 1);
       Url.isActive := Url.isActive u;
       Url.expiresAt := Url.expiresAt u;
       Url.tags := Url.tags u;
       Url.lastClickedAt := Some t;
       Url.createdAt := Url.createdAt u;
       Url.updatedAt := Url.updatedAt u |} = None.
Proof.
  rewrite !urlDocInvalidPath_None.
  cbn [Url.originalUrl Url.shortCode Url.customAlias Url.title
    Url.description Url.clicks Url.tags].
  intros (? & ? & ? & ? & ? & ? & ?). repeat split; try done.
  apply toNumber_nonneg. lia.
Qed.

(** X15. What a redirect can fail with. In the original controller a
    redirect fails when the store rejects a call, when the link has gone
    before its counter is saved, or when the click or the link does not
    validate. A click that is built from a request can fail validation on
    its address, user agent, referer, browser version or operating system
    version only: country, city, the names, and the device always pass.
    The save of the counter validates the whole link that was loaded, and
    fails on a path of the url schema only when a stored link fails its
    schema: on a store of valid links no path of the link is ever named,
    whatever its counter. In the refactored controller the only failure
    is a rejected lookup. *)
Theorem redirect_errors `{Platform} (req : Request) (w w' : World)
    (e : Error) :
  (Controller.redirectUrl req w = (Throw e, w') →
   match e with
   | StorageError => True
   | Err message => message = js "DocumentNotFoundError"
   | ValidationError path =>
       path ∈ [js "ipAddress"; js "userAgent"; js "referer";
               js "browser.version"; js "os.version"]
       ∨ (path ∈ [js "originalUrl"; js "shortCode"; js "customAlias";
                  js "title"; js "description"; js "clicks"; js "tags"]
          ∧ ∃ u, u ∈ urls (db w) ∧ urlDocInvalidPath u ≠ None)
   | _ => False
   end)
  ∧ (Refactored.redirectUrl req w = (Throw e, w') → e = StorageError).
Proof.
  split.
  - unfold Controller.redirectUrl. cbn zeta.
    rewrite bind_run, findOne_run.
    destruct (rejects w (calls w)); [intros Hrun; by simplify_eq|].
    destruct (find _ _) as [u|] eqn:Hfind; [|done].
    apply find_elem_of in Hfind as [Hu _].
    rewrite bind_run, now_run. destruct (Url.isExpired _ u); [done|].
    rewrite bind_run. destruct (negb _); [|done].
    rewrite bind_run, now_run, bind_run, Click_create_run.
    destruct (clickInvalidPath _) as [path|] eqn:Hpath.
    { intros Hrun. simplify_eq. left.
      by eapply parsed_click_paths in Hpath. }
    cbn zeta. cbn [rejects calls tick].
    destruct (rejects w (S (calls w))); [intros Hrun; by simplify_eq|].
    rewrite bind_run. unfold incrementClicks at 1.
    rewrite bind_run, now_run. cbn zeta.
    destruct (urlDocInvalidPath _) as [path|] eqn:Hed.
    { intros Hrun. rewrite throw_run in Hrun. simplify_eq. right.
      split; [by eapply urlDocInvalidPath_paths|].
      exists u. split; [done|]. intros Hvalid.
      by rewrite (counted_valid u _ Hvalid) in Hed. }
    unfold storage at 1. cbn [rejects calls withDb db].
    destruct (rejects w (S (S (calls w)))); [intros Hrun; by simplify_eq|].
    destruct (updateFirst _ _ _); [|intros Hrun; by simplify_eq].
    clear Hed. destruct (Url.user u); [|done].
    unfold User_findByIdAndUpdate_inc, storage. cbn [rejects calls].
    match goal with
    | |- context [rejects ?a ?n] => destruct (rejects a n)
    end; intros Hrun; by simplify_eq.
  - revert w e w'.
    change (raises (λ e, e = StorageError) (Refactored.redirectUrl req)).
    unfold Refactored.redirectUrl. cbn zeta.
    apply raises_bind; [by apply raises_query|]. intros [url|];
      [|apply raises_ret].
    apply raises_bind; [apply raises_now|]. intros t.
    destruct (Url.isExpired t url); [apply raises_ret|].
    apply raises_bind; [|intros; apply raises_ret].
    apply raises_try. intros e. apply raises_consoleError.
Qed.

Lemma redirect_errors_witness :
  let req := Sample.get [("user-agent", "Mozilla/5.0 Firefox/120.0")]%string
               "203.0.113.9" in
  let mapped := Sample.get [("user-agent", "Mozilla/5.0 Firefox/120.0")]%string
                  "::ffff:203.0.113.9" in
  (∃ w', @Controller.redirectUrl Sample.platform mapped Sample.world
         = (Throw (ValidationError (js "ipAddress")), w'))
  ∧ (∃ w',
      @Controller.redirectUrl Sample.platform req Sample.titled
      = (Throw (ValidationError (js "title")), w')
      ∧ ∃ u, u ∈ urls (db Sample.titled)
             ∧ @urlDocInvalidPath Sample.platform u ≠ None)
  ∧ (∃ w', @Refactored.redirectUrl Sample.platform req Sample.titled
           = (Ok (Redirect 301 (js "https://example.com/page")), w'))
  ∧ ∃ w', @Refactored.redirectUrl Sample.platform req (Sample.rejecting 0)
          = (Throw StorageError, w').
Proof.
  intros req mapped. split; [|split; [|split]].
  - eexists. vm_compute. reflexivity.
  - destruct (@Controller.redirectUrl Sample.platform req Sample.titled)
      as [r w'] eqn:Hrun.
    assert (r = Throw (ValidationError (js "title"))) as ->.
    { assert (r = (@Controller.redirectUrl Sample.platform req
                     Sample.titled).1) as -> by (by rewrite Hrun).
      vm_compute. reflexivity. }
    exists w'. split; [reflexivity|].
    destruct (proj1 (redirect_errors (H:=Sample.platform) req Sample.titled
                       w' (ValidationError (js "title"))) Hrun)
      as [Hclick|[_ Hlink]]; [|exact Hlink].
    apply (bool_decide_pack _) in Hclick. vm_compute in Hclick.
    destruct Hclick.
  - eexists. vm_compute. reflexivity.
  - destruct (@Refactored.redirectUrl Sample.platform req
                (Sample.rejecting 0)) as [r w'] eqn:Hrun.
    assert (∃ e, r = Throw e) as [e ->].
    { assert (r = (@Refactored.redirectUrl Sample.platform req
                     (Sample.rejecting 0)).1) as -> by (by rewrite Hrun).
      vm_compute. by eexists. }
    exists w'.
    by rewrite (proj2 (redirect_errors (H:=Sample.platform) req
                         (Sample.rejecting 0) w' e) Hrun).
Defined.


(** ** The alias checks *)

Lemma codeOrAlias_free (alias : jsstr) (d : Db) :
  find (codeOrAlias alias) (urls d) = None → aliasFree alias d.
Proof.
  intros Hfind u Hu.
  pose proof (find_none _ _ Hfind u (proj1 (list_elem_of_In _ _) Hu)) as Hno.
  unfold codeOrAlias, streq in Hno.
  apply orb_false_iff in Hno as [H1 H2].
  by apply bool_decide_eq_false in H1, H2.
Qed.

(** X16. What the alias checks accept. An alias that [validateCustomAlias]
    of utils/short.js lets pass is empty, or it consists of letters,
    digits, hyphens and underscores, has 3 to 50 characters, is not a
    reserved word in any letter case, and is neither the short code nor the
    alias of a stored link; the check of utils/short1.js accepts no empty
    alias and nothing but strings, and asks the same with its longer list
    of reserved words. Neither writes to the store, and the check of
    utils/short1.js rejects a malformed or reserved alias without a storage
    call. *)
Theorem alias_checks_sound (w w' : World) :
  (∀ alias b,
     validateCustomAlias alias w = (Ok b, w') →
     b = true ∧ db w' = db w
     ∧ (alias = []
        ∨ (aliasShaped alias ∧ (toLowerCase alias ∉ reservedWords)
           ∧ aliasFree alias (db w))))
  ∧ (∀ alias b,
       Short1Utils.validateCustomAlias alias w = (Ok b, w') →
       b = true ∧ db w' = db w
       ∧ ∃ s, alias = JsStr s ∧ s ≠ [] ∧ aliasShaped s
              ∧ (toLowerCase s ∉ Short1Utils.reservedWords)
              ∧ aliasFree s (db w))
  ∧ (∀ alias e,
       Short1Utils.validateCustomAlias alias w = (Throw e, w') →
       e ≠ Err (js "This alias is already taken") → e ≠ StorageError →
       w' = w).
Proof.
  split; [|split].
  - intros alias b. unfold validateCustomAlias.
    destruct alias as [|c r]; cbn [requiredString negb];
      [rewrite ret_run; intros Hrun; simplify_eq; auto|].
    destruct (matchesCodePattern (c :: r)) eqn:Hpat; [|done]. cbn [negb].
    destruct (Nat.ltb_spec (length (c :: r)) 3); [done|].
    destruct (Nat.ltb_spec 50 (length (c :: r))); [done|].
    rewrite bind_run, findOne_run.
    destruct (rejects w (calls w)); [done|].
    destruct (find _ _) eqn:Hfind; [done|].
    destruct (bool_decide _) eqn:Hres; [done|].
    rewrite ret_run. intros Hrun. simplify_eq.
    split; [done|]. split; [done|]. right.
    split; [by split|]. split; [by apply bool_decide_eq_false in Hres|].
    by apply codeOrAlias_free.
  - intros alias b. unfold Short1Utils.validateCustomAlias.
    destruct alias as [| |[|c r]]; try done.
    destruct (Nat.ltb_spec (length (c :: r)) 3); [done|].
    destruct (Nat.ltb_spec 50 (length (c :: r))); [done|].
    destruct (matchesCodePattern (c :: r)) eqn:Hpat; [|done]. cbn [negb].
    destruct (bool_decide _) eqn:Hres; [done|].
    rewrite bind_run, findOne_run.
    destruct (rejects w (calls w)); [done|].
    destruct (find _ _) eqn:Hfind; [done|].
    rewrite ret_run. intros Hrun. simplify_eq.
    split; [done|]. split; [done|]. exists (c :: r).
    split; [done|]. split; [done|]. split; [by split|].
    split; [by apply bool_decide_eq_false in Hres|].
    by apply codeOrAlias_free.
  - intros alias e. unfold Short1Utils.validateCustomAlias.
    destruct alias as [| |[|c r]];
      try (rewrite throw_run; intros Hrun _ _; by simplify_eq).
    destruct (_ <? 3)%nat;
      [rewrite throw_run; intros Hrun _ _; by simplify_eq|].
    destruct (50 <? _)%nat;
      [rewrite throw_run; intros Hrun _ _; by simplify_eq|].
    destruct (negb _);
      [rewrite throw_run; intros Hrun _ _; by simplify_eq|].
    destruct (bool_decide _);
      [rewrite throw_run; intros Hrun _ _; by simplify_eq|].
    rewrite bind_run, findOne_run.
    destruct (rejects w (calls w)); [intros Hrun _ Hs; by simplify_eq|].
    destruct (find _ _); [|done].
    rewrite throw_run. intros Hrun Ht _. by simplify_eq.
Qed.

Lemma alias_checks_sound_witness :
  ∃ w',
    validateCustomAlias (js "my-link") Sample.world = (Ok true, w')
    ∧ aliasShaped (js "my-link")
    ∧ aliasFree (js "my-link") (db Sample.world)
    ∧ ∃ w1, validateCustomAlias (js "Admin") Sample.world
            = (Throw (Err (js "This alias is reserved and cannot be used")),
               w1).
Proof.
  destruct (validateCustomAlias (js "my-link") Sample.world) as [r w']
    eqn:Hrun.
  assert (r = Ok true) as ->.
  { assert (r = (validateCustomAlias (js "my-link") Sample.world).1) as ->
      by (by rewrite Hrun).
    vm_compute. reflexivity. }
  exists w'. split; [reflexivity|].
  destruct (proj1 (alias_checks_sound Sample.world w') _ _ Hrun)
    as (_ & _ & [Hempty|(Hshape & _ & Hfree)]); [discriminate|].
  split; [exact Hshape|]. split; [exact Hfree|].
  eexists. vm_compute. reflexivity.
Defined.


(** ** The generated codes *)

Lemma returns_ret {A} (P : A → Prop) (a : A) : P a → returns P (mret a : M A).
Proof. intros Ha w a' w'. rewrite ret_run. intros Hrun. by simplify_eq. Qed.

Lemma returns_throw {A} (P : A → Prop) (e : Error) :
  returns P (mthrow e : M A).
Proof. intros w a' w'. rewrite throw_run. intros Hrun. by simplify_eq. Qed.

Lemma returns_bind {A B} (Q : A → Prop) (P : B → Prop) (m : M A)
    (k : A → M B) :
  returns Q m → (∀ a, Q a → returns P (k a)) → returns P (m ≫= k).
Proof.
  intros Hm Hk w b w' Hrun.
  apply bind_ok_inv in Hrun as (a & w1 & Hm' & Hk').
  eapply Hk; [|exact Hk']. by eapply Hm.
Qed.

Lemma returns_any {A} (m : M A) : returns (λ _, True) m.
Proof. by intros w a w'. Qed.

Lemma urlAlphabet_codeChars (b : N) :
  isCodeChar (unitAt urlAlphabet (N.land b 63)) = true.
Proof.
  assert (N.land b 63 < 64) as Hlt.
  { change 63 with (N.ones 6). rewrite N.land_ones. by apply N.mod_lt. }
  assert (forallb (λ i, isCodeChar (unitAt urlAlphabet (N.of_nat i)))
            (seq 0 64) = true) as Hall by (vm_compute; reflexivity).
  rewrite forallb_forall in Hall. set (n := N.land b 63) in *.
  specialize (Hall (N.to_nat n)). rewrite N2Nat.id in Hall.
  apply Hall, in_seq. lia.
Qed.

Lemma alphabet_alnum (k : N) :
  let c := unitAt alphabet (k mod N.of_nat (length alphabet)) in
  isAlpha c || isDigit c = true.
Proof.
  cbn zeta.
  assert (k mod N.of_nat (length alphabet) < 62) as Hlt
    by (by apply N.mod_lt).
  assert (forallb (λ i, let c := unitAt alphabet (N.of_nat i) in
                        isAlpha c || isDigit c) (seq 0 62) = true) as Hall
    by (vm_compute; reflexivity).
  rewrite forallb_forall in Hall.
  set (n := k mod N.of_nat (length alphabet)) in *.
  specialize (Hall (N.to_nat n)). rewrite N2Nat.id in Hall.
  apply Hall, in_seq. lia.
Qed.

Lemma returns_nanoid (size : nat) :
  returns (λ s, length s = size ∧ Forall (λ c, isCodeChar c = true) s)
    (nanoid size).
Proof.
  induction size as [|size IH]; cbn [nanoid].
  - by apply returns_ret.
  - eapply returns_bind; [apply returns_any|]. intros b _.
    eapply returns_bind; [exact IH|]. intros r [Hlen Hr].
    apply returns_ret. split; [cbn; by rewrite Hlen|].
    constructor; [apply urlAlphabet_codeChars|done].
Qed.

Lemma returns_replaceSymbols (s : jsstr) :
  Forall (λ c, isCodeChar c = true) s →
  returns (λ s', length s' = length s
                 ∧ Forall (λ c, isAlpha c || isDigit c = true) s')
    (replaceSymbols s).
Proof.
  induction s as [|c r IH]; intros Hs; cbn [replaceSymbols].
  - by apply returns_ret.
  - apply Forall_cons in Hs as [Hc Hr].
    eapply (returns_bind (λ c', isAlpha c' || isDigit c' = true)).
    + destruct ((c =? 95) || (c =? 45)) eqn:Hsym.
      * unfold randomIndex.
        eapply returns_bind; [|intros k Hk; apply returns_ret; exact Hk].
        eapply returns_bind; [apply returns_any|]. intros k _.
        apply returns_ret. apply alphabet_alnum.
      * apply returns_ret. unfold isCodeChar in Hc.
        rewrite <- orb_assoc, Hsym, orb_false_r in Hc. done.
    + intros c' Hc'. eapply returns_bind; [by apply IH|].
      intros r' [Hlen Hr']. apply returns_ret.
      split; [cbn; by rewrite Hlen|]. by constructor.
Qed.

Lemma codeChar_not_white (c : N) :
  isCodeChar c = true → isWhiteSpace c = false.
Proof.
  intros Hc.
  assert (45 ≤ c ≤ 122) as Hrange.
  { unfold isCodeChar, isAlpha, isDigit in Hc.
    rewrite !orb_true_iff, !andb_true_iff, !N.leb_le, !N.eqb_eq in Hc. lia. }
  unfold isWhiteSpace.
  rewrite !(proj2 (N.eqb_neq c _)) by lia.
  rewrite (proj2 (N.leb_gt 8192 c)) by lia. done.
Qed.

Lemma trimEnd_clean (s : jsstr) :
  Forall (λ c, isWhiteSpace c = false) s → trimEnd s = s.
Proof.
  induction s as [|c r IH]; intros Hs; [done|].
  apply Forall_cons in Hs as [Hc Hr]. cbn. rewrite IH by done.
  destruct r; [by rewrite Hc|done].
Qed.

Lemma trim_clean (s : jsstr) :
  Forall (λ c, isWhiteSpace c = false) s → trim s = s.
Proof.
  intros Hs. unfold trim. rewrite trimStart_id.
  - by apply trimEnd_clean.
  - destruct s as [|c r]; [done|]. apply Forall_cons in Hs as [Hc _].
    cbn. by rewrite Hc.
Qed.

Lemma alnum_codeChar (c : N) :
  isAlpha c || isDigit c = true → isCodeChar c = true.
Proof. unfold isCodeChar. intros ->. done. Qed.

Lemma shortCodeValid_codeChars (code : jsstr) :
  Forall (λ c, isCodeChar c = true) code →
  (3 ≤ length code ≤ 20)%nat →
  shortCodeValid code = true.
Proof.
  intros Hcode Hlen. unfold shortCodeValid.
  rewrite trim_clean
    by (eapply Forall_impl; [exact Hcode|]; apply codeChar_not_white).
  unfold minlength, maxlength, matchesCodePattern.
  rewrite (proj2 (Nat.leb_le 3 _)), (proj2 (Nat.leb_le _ 20)) by lia.
  destruct code as [|c r]; [cbn in Hlen; lia|]. cbn [requiredString andb].
  apply forallb_forall. intros x Hx.
  eapply Forall_forall in Hcode; [done|]. by apply list_elem_of_In.
Qed.

Section GeneratedCodes.
Variable len : nat.

Let inv (st : GenState) : Prop :=
  (len ≤ g_length st ≤ len + g_attempts st)%nat
  ∧ (g_attempts st ≤ maxAttempts)%nat
  ∧ (g_isUnique st = true →
     Forall (λ c, isAlpha c || isDigit c = true) (g_shortCode st)
     ∧ (len ≤ length (g_shortCode st) ≤ len + 9)%nat).

Lemma ShortGen_loop_inv (fuel : nat) (st : GenState) :
  inv st → returns inv (ShortGen.loop fuel st).
Proof.
  revert st. induction fuel as [|fuel IH]; intros st Hst; cbn [ShortGen.loop].
  - destruct (_ && _); [apply returns_throw|by apply returns_ret].
  - destruct (negb (g_isUnique st) && (g_attempts st <? maxAttempts)%nat)
      eqn:Hcond; [|by apply returns_ret].
    apply andb_true_iff in Hcond as [Hu Hatt]. apply negb_true_iff in Hu.
    apply Nat.ltb_lt in Hatt. destruct Hst as (Hlen & _ & _).
    eapply returns_bind; [apply returns_nanoid|]. intros raw [Hrl Hraw].
    eapply returns_bind; [by apply returns_replaceSymbols|].
    intros code [Hcl Hcode].
    eapply returns_bind; [apply returns_any|]. intros [existing|] _.
    + apply IH. unfold inv, maxAttempts in *.
      cbn [g_length g_attempts g_isUnique g_shortCode].
      rewrite Hu. split; [|split; [lia|done]].
      destruct (S (g_attempts st) <? 10)%nat; lia.
    + apply IH. unfold inv, maxAttempts in *.
      cbn [g_length g_attempts g_isUnique g_shortCode].
      split; [done|]. split; [lia|]. intros _. split; [done|]. lia.
Qed.

Lemma returns_ShortGen :
  returns (λ code, Forall (λ c, isAlpha c || isDigit c = true) code
                   ∧ (len ≤ length code ≤ len + 9)%nat)
    (ShortGen.generateShortCode len).
Proof.
  unfold ShortGen.generateShortCode, ShortGen.generateShortCodeFrom.
  eapply returns_bind.
  - apply ShortGen_loop_inv. unfold inv, maxAttempts. cbn. split; [lia|].
    split; [lia|done].
  - intros st (_ & _ & Hst).
    destruct (g_isUnique st); [|apply returns_throw]. cbn [negb].
    apply returns_ret. by apply Hst.
Qed.

Lemma Short1Gen_loop_chars (fuel att : nat) :
  returns (λ code, Forall (λ c, isCodeChar c = true) code
                   ∧ length code = len)
    (Short1Gen.loop fuel len att).
Proof.
  revert att. induction fuel as [|fuel IH]; intros att; cbn [Short1Gen.loop].
  - apply returns_throw.
  - eapply returns_bind; [apply returns_nanoid|]. intros code [Hl Hc].
    destruct (_ <=? _)%nat; [apply returns_throw|].
    eapply returns_bind; [apply returns_any|]. intros [existing|] _.
    + apply IH.
    + by apply returns_ret.
Qed.

End GeneratedCodes.

(** X17. The generated codes fit the schema. A code that
    [generateShortCode] of utils/short.js returns consists of letters and
    digits only, no hyphen and no underscore, and has the requested length
    or up to nine characters more; one that utils/short1.js returns has
    exactly the requested length and may contain hyphens and underscores.
    For a requested length of 3 to 11 (3 to 20 in utils/short1.js), the
    default lengths among them, the code passes the validators of the path
    [shortCode]. *)
Theorem generated_codes_fit_schema (len : nat) :
  returns (λ code,
             Forall (λ c, isAlpha c || isDigit c = true) code
             ∧ (len ≤ length code ≤ len + 9)%nat
             ∧ ((3 ≤ len ≤ 11)%nat → shortCodeValid code = true))
    (ShortGen.generateShortCode len)
  ∧ returns (λ code,
               Forall (λ c, isCodeChar c = true) code
               ∧ length code = len
               ∧ ((3 ≤ len ≤ 20)%nat → shortCodeValid code = true))
      (Short1Gen.generateShortCode len).
Proof.
  split.
  - intros w code w' Hrun.
    destruct (returns_ShortGen len w code w' Hrun) as [Hchars Hlen].
    split; [done|]. split; [done|]. intros Hreq.
    apply shortCodeValid_codeChars; [|lia].
    eapply Forall_impl; [exact Hchars|]. apply alnum_codeChar.
  - intros w code w' Hrun.
    destruct (Short1Gen_loop_chars len _ _ w code w' Hrun) as [Hchars Hlen].
    split; [done|]. split; [done|]. intros Hreq.
    apply shortCodeValid_codeChars; [done|lia].
Qed.

Lemma generated_codes_fit_schema_witness :
  ∃ code w',
    ShortGen.generateShortCode 6 Sample.world = (Ok code, w')
    ∧ code = js "uuuuuu"
    ∧ shortCodeValid code = true.
Proof.
  destruct (ShortGen.generateShortCode 6 Sample.world) as [r w'] eqn:Hrun.
  assert (r = Ok (js "uuuuuu")) as ->.
  { assert (r = (ShortGen.generateShortCode 6 Sample.world).1) as ->
      by (by rewrite Hrun).
    vm_compute. reflexivity. }
  exists (js "uuuuuu"), w'. split; [reflexivity|]. split; [reflexivity|].
  destruct (proj1 (generated_codes_fit_schema 6) Sample.world _ w' Hrun)
    as (_ & _ & Hvalid).
  apply Hvalid. lia.
Defined.


(** ** What creating and redirecting may touch *)

Lemma addedOnly_refl (owner : option oid) (d : Db) : addedOnly owner d d.
Proof. split; [exists []; by rewrite app_nil_r|done]. Qed.

Lemma addedOnly_trans (owner : option oid) (d1 d2 d3 : Db) :
  addedOnly owner d1 d2 → addedOnly owner d2 d3 → addedOnly owner d1 d3.
Proof.
  intros ([n1 H1] & C1 & U1) ([n2 H2] & C2 & U2). split; [|split].
  - exists (n1 ++ n2). by rewrite H2, H1, app_assoc.
  - congruence.
  - intros o Ho. by rewrite U2, U1.
Qed.

Section CreateFrame.
Context `{Platform}.

Lemma createShortUrl_adds (req : Request) (d0 : Db) :
  keeps (λ d _, addedOnly (user req) d0 d) (Controller.createShortUrl req)
  ∧ keeps (λ d _, addedOnly (user req) d0 d)
      (Refactored.createShortUrl req).
Proof.
  assert (∀ data, keeps (λ d _, addedOnly (user req) d0 d) (Url_create data))
    as Hcreate.
  { intros data w Hw. rewrite Url_create_run.
    destruct (urlInvalidPath data); [done|]. cbn zeta.
    destruct (rejects w (calls w)); [done|].
    destruct (existsb _ _); [done|]. cbn [snd db withDb].
    eapply addedOnly_trans; [exact Hw|].
    split; [by eexists|done]. }
  assert (∀ uid, user req = Some uid →
            keeps (λ d _, addedOnly (user req) d0 d)
              (User_findByIdAndUpdate_inc uid 1 0)) as Hinc.
  { intros uid Huser. apply keeps_storage. intros w Hw. cbn [snd].
    eapply addedOnly_trans; [exact Hw|].
    split; [exists []; by rewrite app_nil_r|]. split; [done|].
    intros o Ho. cbn [users]. rewrite lookup_alter_ne; [done|congruence]. }
  split.
  - unfold Controller.createShortUrl, Controller.bad. cbn zeta.
    repeat first [ apply keeps_generateShortCode
                 | apply keeps_validateCustomAlias
                 | apply Hcreate
                 | by apply Hinc
                 | keeps_step ].
  - unfold Refactored.createShortUrl, Refactored.bad. cbn zeta.
    repeat first [ apply keeps_generateShortCode
                 | apply keeps_validateCustomAlias
                 | apply Hcreate
                 | by apply Hinc
                 | keeps_step ].
Qed.

End CreateFrame.

Lemma steady_ret {A} (a : A) : steady (mret a : M A).
Proof. by intros w. Qed.

Lemma steady_throw {A} (e : Error) : steady (mthrow e : M A).
Proof. by intros w. Qed.

Lemma steady_bind {A B} (m : M A) (k : A → M B) :
  steady m → (∀ a, steady (k a)) → steady (m ≫= k).
Proof.
  intros Hm Hk w. specialize (Hm w). rewrite bind_run.
  destruct (m w) as [[a|e] w1]; [|done]. cbn in Hm. rewrite <- Hm. apply Hk.
Qed.

Lemma steady_try {A} (m : M A) (h : Error → M A) :
  steady m → (∀ e, steady (h e)) → steady (try m h).
Proof.
  intros Hm Hh w. specialize (Hm w). unfold try.
  destruct (m w) as [[a|e] w1]; [done|]. cbn in Hm. rewrite <- Hm. apply Hh.
Qed.

Lemma steady_storage {A} (op : World → Res A * Db) : steady (storage op).
Proof.
  intros w. unfold storage. destruct (rejects w (calls w)); [done|].
  by destruct (op (tick w)).
Qed.

Lemma steady_draw : steady draw.
Proof. by intros w. Qed.

Lemma steady_now : steady now.
Proof. by intros w. Qed.

Ltac steady_step :=
  lazymatch goal with
  | |- steady (mret _) => apply steady_ret
  | |- steady (mthrow _) => apply steady_throw
  | |- steady (_ ≫= _) => apply steady_bind; [|intros ?]
  | |- steady (try _ _) => apply steady_try; [|intros ?]
  | |- steady now => apply steady_now
  | |- steady draw => apply steady_draw
  | |- steady (query _) => apply steady_storage
  | |- steady (Url_findOne _) => apply steady_storage
  | |- steady (storage _) => apply steady_storage
  | |- steady (match ?x with _ => _ end) => destruct x
  end.

Lemma steady_nanoid (size : nat) : steady (nanoid size).
Proof. induction size; cbn [nanoid]; repeat steady_step; done. Qed.

Lemma steady_replaceSymbols (s : jsstr) : steady (replaceSymbols s).
Proof.
  induction s as [|c r IH]; cbn [replaceSymbols]; unfold randomIndex;
    repeat steady_step; done.
Qed.

Lemma steady_generateShortCode (len : nat) :
  steady (ShortGen.generateShortCode len).
Proof.
  unfold ShortGen.generateShortCode, ShortGen.generateShortCodeFrom.
  apply steady_bind; [|intros st; repeat steady_step].
  generalize (mkGen len [] false 0). generalize maxAttempts.
  intros fuel. induction fuel as [|fuel IH]; intros st; cbn [ShortGen.loop];
    repeat first [ apply steady_nanoid | apply steady_replaceSymbols
                 | apply IH | steady_step ].
Qed.

Lemma steady_validateCustomAlias (alias : jsstr) :
  steady (validateCustomAlias alias).
Proof. unfold validateCustomAlias. repeat steady_step. Qed.

(** A computation that reads only. *)
Lemma quiet_run {A} (m : M A) (w : World) :
  (∀ K, keeps K m) → steady m →
  db (m w).2 = db w ∧ nextId (m w).2 = nextId w ∧ clock (m w).2 = clock w.
Proof.
  intros Hk Hs.
  destruct (Hk (λ d n, d = db w ∧ n = nextId w) w) as [-> ->]; [done|].
  by rewrite Hs.
Qed.

Section CreateTail.
Context `{Platform}.

Lemma create_tail (data : UrlData) (owner : option oid)
    (mk : Url.t → Response) (w w' : World) (r : Response) :
  (Url_create data ≫= λ url,
     match owner with
     | Some uid => User_findByIdAndUpdate_inc uid 1 0
     | None => mret tt
     end ≫= λ _, mret (mk url)) w = (Ok r, w') →
  let url := urlDocument (nextId w) (clock w) data in
  r = mk url
  ∧ urlInvalidPath data = None
  ∧ urls (db w') = urls (db w) ++ [url]
  ∧ clicks (db w') = clicks (db w)
  ∧ users (db w')
    = match owner with
      | Some uid => alter (User.inc 1 0) uid (users (db w))
      | None => users (db w)
      end
  ∧ (∀ u, u ∈ urls (db w) → Url.shortCode u ≠ Url.shortCode url).
Proof.
  intros Hrun url. apply bind_ok_inv in Hrun as (url' & w1 & Hcreate & Hrun).
  rewrite Url_create_run in Hcreate.
  destruct (urlInvalidPath data) eqn:Hvalid; [done|]. cbn zeta in Hcreate.
  destruct (rejects w (calls w)); [done|].
  destruct (existsb _ _) eqn:Hex; [done|]. simplify_eq.
  apply bind_ok_inv in Hrun as ([] & w2 & Hinc & Hrun).
  rewrite ret_run in Hrun. simplify_eq.
  assert (∀ u, u ∈ urls (db w) → Url.shortCode u ≠ Url.shortCode url)
    as Hfresh.
  { intros u Hu Heq. apply not_true_iff_false in Hex. apply Hex.
    apply existsb_exists. exists u. split; [by apply list_elem_of_In|].
    by apply bool_decide_eq_true. }
  destruct owner as [uid|].
  - unfold User_findByIdAndUpdate_inc, storage in Hinc.
    cbn [rejects calls withDb db tick] in Hinc.
    destruct (rejects w (S (calls w))); [done|]. by simplify_eq.
  - rewrite ret_run in Hinc. by simplify_eq.
Qed.

End CreateTail.

Lemma quiet_ok {A} (m : M A) (w w' : World) (a : A) :
  (∀ K, keeps K m) → steady m → m w = (Ok a, w') →
  db w' = db w ∧ nextId w' = nextId w ∧ clock w' = clock w.
Proof.
  intros Hk Hs Hrun. pose proof (quiet_run m w Hk Hs) as Hq.
  by rewrite Hrun in Hq.
Qed.

Lemma normalized_trim (s : jsstr) : normalized (trim s) = normalized s.
Proof. unfold normalized. by rewrite trim_idem. Qed.

Section CreateAnswers.
Context `{Platform}.

Lemma quiet_aliasError (check : bool) (alias : jsstr) (w w' : World)
    (aliasError : option Error) :
  (if check
   then try (validateCustomAlias alias ≫= λ _, mret None)
          (λ error, mret (Some error))
   else mret None) w = (Ok aliasError, w') →
  db w' = db w ∧ nextId w' = nextId w ∧ clock w' = clock w.
Proof.
  apply quiet_ok.
  - intros K. destruct check; repeat first
      [ apply keeps_validateCustomAlias | keeps_step ].
  - destruct check; repeat first
      [ apply steady_validateCustomAlias | steady_step ].
Qed.

Lemma quiet_existing (owner : option oid) (f : oid → Url.t → bool)
    (w w' : World) (existing : option Url.t) :
  match owner with
  | Some uid => Url_findOne (f uid)
  | None => mret None
  end w = (Ok existing, w') →
  db w' = db w ∧ nextId w' = nextId w ∧ clock w' = clock w.
Proof.
  apply quiet_ok.
  - intros K. destruct owner; repeat keeps_step.
  - destruct owner; repeat steady_step.
Qed.

Lemma shortCode_chosen (alias : jsval) (w w' : World) (code : jsstr) :
  (if truthy alias then mret (trim (strOf alias))
   else ShortGen.generateShortCode 6) w = (Ok code, w') →
  (db w' = db w ∧ nextId w' = nextId w ∧ clock w' = clock w)
  ∧ if truthy alias then code = trim (strOf alias)
    else Forall (λ c, isAlpha c || isDigit c = true) code
         ∧ (6 ≤ length code ≤ 15)%nat.
Proof.
  intros Hrun. split.
  - revert Hrun. apply quiet_ok.
    + intros K. destruct (truthy alias);
        repeat first [ apply keeps_generateShortCode | keeps_step ].
    + destruct (truthy alias);
        repeat first [ apply steady_generateShortCode | steady_step ].
  - destruct (truthy alias).
    + rewrite ret_run in Hrun. by simplify_eq.
    + apply (returns_ShortGen 6) in Hrun. cbn in Hrun. done.
Qed.

End CreateAnswers.

Section CreateAnswers2.
Context `{Platform}.

Lemma created_of_tail (req : Request) (w w3 w' : World) (data : UrlData) :
  let alias := body_customAlias (body req) in
  let url := urlDocument (nextId w3) (clock w3) data in
  db w3 = db w → clock w3 = clock w →
  ud_originalUrl data
  = strOf (Short.normalizeUrl
             (JsStr (trim (strOf (body_originalUrl (body req)))))) →
  ud_customAlias data
  = (if truthy alias then Some (trim (strOf alias)) else None) →
  ud_user data = user req →
  (if truthy alias then ud_shortCode data = trim (strOf alias)
   else Forall (λ c, isAlpha c || isDigit c = true) (ud_shortCode data)
        ∧ (6 ≤ length (ud_shortCode data) ≤ 15)%nat) →
  match ud_expiresAt data with
  | ValidDate e => (e <=? clock w3)%Z
  | _ => false
  end = false →
  urlInvalidPath data = None →
  urls (db w') = urls (db w3) ++ [url] →
  clicks (db w') = clicks (db w3) →
  users (db w')
  = match user req with
    | Some uid => alter (User.inc 1 0) uid (users (db w3))
    | None => users (db w3)
    end →
  (∀ u, u ∈ urls (db w3) → Url.shortCode u ≠ Url.shortCode url) →
  createdBy req w w' url.
Proof.
  intros alias url Hdb Hclock Horig Halias Huser Hcode Hexp Hvalid Hurls
    Hclicks Husers Hfresh.
  rewrite Hdb in *. rewrite Hclock in *.
  pose proof (urlDocument_valid (nextId w3) (clock w) data Hvalid) as Hdoc.
  apply urlInvalidPath_None in Hvalid as (Hreq & _).
  apply andb_true_iff in Hreq as [Hreq _].
  assert (Url.originalUrl url
          = normalized (strOf (body_originalUrl (body req)))
          ∧ hasHttpScheme (Url.originalUrl url) = true) as [Ho Hs].
  { unfold url. cbn [urlDocument Url.originalUrl].
    rewrite Horig in Hreq |- *.
    destruct (trim (strOf (body_originalUrl (body req)))) as [|c r] eqn:Ht;
      [done|].
    rewrite short_normalizeUrl_str. cbn [strOf].
    rewrite normalized_trimmed, <- Ht, normalized_trim.
    split; [done|apply normalized_scheme]. }
  unfold createdBy. cbn zeta. fold alias.
  split; [done|]. split; [done|]. split; [done|]. split; [done|].
  split; [done|]. split; [done|]. split; [done|].
  unfold url. cbn [urlDocument Url.user Url.clicks Url.isActive
    Url.lastClickedAt Url.createdAt Url.expiresAt Url.shortCode
    Url.customAlias].
  split; [done|]. split; [done|]. split; [done|]. split; [done|].
  split; [done|]. split.
  - destruct (ud_expiresAt data); try done. by apply Z.leb_gt in Hexp.
  - rewrite Halias. destruct (truthy alias).
    + rewrite Hcode. cbn. by rewrite !trim_idem.
    + destruct Hcode as [Hchars Hlen]. cbn.
      rewrite trim_clean; [done|].
      eapply Forall_impl; [exact Hchars|]. intros c Hc.
      by apply codeChar_not_white, alnum_codeChar.
Qed.

Lemma original_create_inv (req : Request) (w w' : World) (r : Response) :
  Controller.createShortUrl req w = (Ok r, w') →
  (∃ url qrCode,
     r = Json 201 true (Some (js "Short URL created successfully"))
           (UrlPayload url (Some qrCode))
     ∧ createdBy req w w' url)
  ∨ (db w' = db w
     ∧ ∃ status success message data,
         r = Json status success message data
         ∧ (status = 400 ∨ status = 200)).
Proof.
  unfold Controller.createShortUrl, Controller.bad. cbn zeta. intros Hrun.
  destruct (negb (truthy _)).
  { rewrite ret_run in Hrun. simplify_eq. right. split; [done|].
    eexists _, _, _, _. split; [done|by left]. }
  destruct (negb (isValidUrl _)).
  { rewrite ret_run in Hrun. simplify_eq. right. split; [done|].
    eexists _, _, _, _. split; [done|by left]. }
  apply bind_ok_inv in Hrun as (aliasError & w1 & Halias & Hrun).
  apply quiet_aliasError in Halias as (Hd1 & Hn1 & Hc1).
  destruct aliasError.
  { rewrite ret_run in Hrun. simplify_eq. right. split; [done|].
    eexists _, _, _, _. split; [done|by left]. }
  apply bind_ok_inv in Hrun as (existing & w2 & Hexisting & Hrun).
  apply quiet_existing in Hexisting as (Hd2 & Hn2 & Hc2).
  destruct existing.
  { rewrite ret_run in Hrun. simplify_eq. right. split; [congruence|].
    eexists _, _, _, _. split; [done|by right]. }
  apply bind_ok_inv in Hrun as (code & w3 & Hcode & Hrun).
  apply shortCode_chosen in Hcode as ((Hd3 & Hn3 & Hc3) & Hcode).
  rewrite bind_run, now_run in Hrun.
  destruct (match (if truthy _ then _ else _) with
            | ValidDate e => _
            | _ => false
            end) eqn:Hexp.
  { rewrite ret_run in Hrun. simplify_eq. right. split; [congruence|].
    eexists _, _, _, _. split; [done|by left]. }
  apply create_tail in Hrun
    as (-> & Hvalid & Hurls & Hclicks & Husers & Hfresh).
  left. eexists _, _. split; [done|].
  eapply (created_of_tail req w w3 w'); try done; congruence.
Qed.

Lemma refactored_create_inv (req : Request) (w w' : World) (r : Response) :
  Refactored.createShortUrl req w = (Ok r, w') →
  (∃ url qrCode,
     r = Json 201 true (Some (js "Short URL created successfully"))
           (UrlPayload url (Some qrCode))
     ∧ createdBy req w w' url)
  ∨ (db w' = db w
     ∧ ∃ status success message data,
         r = Json status success message data
         ∧ (status = 400 ∨ status = 200)).
Proof.
  unfold Refactored.createShortUrl, Refactored.bad. cbn zeta. intros Hrun.
  destruct (negb (truthy _)).
  { rewrite ret_run in Hrun. simplify_eq. right. split; [done|].
    eexists _, _, _, _. split; [done|by left]. }
  destruct (negb (isValidUrl _)).
  { rewrite ret_run in Hrun. simplify_eq. right. split; [done|].
    eexists _, _, _, _. split; [done|by left]. }
  apply bind_ok_inv in Hrun as (existing & w1 & Hexisting & Hrun).
  apply quiet_existing in Hexisting as (Hd1 & Hn1 & Hc1).
  destruct existing.
  { rewrite ret_run in Hrun. simplify_eq. right. split; [done|].
    eexists _, _, _, _. split; [done|by right]. }
  apply bind_ok_inv in Hrun as (code & w2 & Hcode & Hrun).
  apply shortCode_chosen in Hcode as ((Hd2 & Hn2 & Hc2) & Hcode).
  apply bind_ok_inv in Hrun as (aliasError & w3 & Halias & Hrun).
  apply quiet_aliasError in Halias as (Hd3 & Hn3 & Hc3).
  destruct aliasError.
  { rewrite ret_run in Hrun. simplify_eq. right. split; [congruence|].
    eexists _, _, _, _. split; [done|by left]. }
  rewrite bind_run, now_run in Hrun.
  destruct (match (if truthy _ then _ else _) with
            | ValidDate e => _
            | _ => false
            end) eqn:Hexp.
  { rewrite ret_run in Hrun. simplify_eq. right. split; [congruence|].
    eexists _, _, _, _. split; [done|by left]. }
  apply create_tail in Hrun
    as (-> & Hvalid & Hurls & Hclicks & Husers & Hfresh).
  left. eexists _, _. split; [done|].
  eapply (created_of_tail req w w3 w'); try done; try congruence.
  cbn [ud_customAlias]. destruct (truthy _); [by rewrite Hcode|done].
Qed.

End CreateAnswers2.

(** X18. Creating a link, in both controllers, only adds: whatever the
    request and whichever storage calls fail, the links that were stored
    stay as they are and in their order, no click changes, and no aggregate
    changes but the requester's. *)
Theorem createShortUrl_only_adds `{Platform} (req : Request) (w : World) :
  ∀ createShortUrl,
    createShortUrl ∈ [Controller.createShortUrl; Refactored.createShortUrl] →
    addedOnly (user req) (db w) (db (asyncHandler createShortUrl req w).2).
Proof.
  intros createShortUrl Hin. rewrite asyncHandler_world.
  destruct (createShortUrl_adds req (db w)) as [Ho Hr].
  repeat (apply elem_of_cons in Hin as [->|Hin]);
    [apply Ho|apply Hr|by apply elem_of_nil in Hin]; apply addedOnly_refl.
Qed.

(** X19. What an answer to a create request means, in both controllers. A
    201 carries the one link that was added to the store: its destination
    is the normalized input and starts with [http://] or [https://]; its
    short code is the trimmed alias when one was given and a generated code
    of 6 to 15 letters and digits otherwise, and no other link has it; it
    passes the validators of the schema, belongs to the requester, is
    active with no clicks, and expires in the future if at all; and the
    link count of the requester went up by one. Every other answer of the
    handler itself, 400 or 200, leaves the store as it was. *)
Theorem createShortUrl_answers `{Platform}
    (req : Request) (w w' : World) (r : Response) :
  asyncHandler Controller.createShortUrl req w = (r, w')
  ∨ asyncHandler Refactored.createShortUrl req w = (r, w') →
  (∀ e, r ≠ NextError e) →
  (∃ url qrCode,
     r = Json 201 true (Some (js "Short URL created successfully"))
           (UrlPayload url (Some qrCode))
     ∧ createdBy req w w' url)
  ∨ (db w' = db w
     ∧ ∃ status success message data,
         r = Json status success message data
         ∧ (status = 400 ∨ status = 200)).
Proof.
  intros Hrun Hok.
  destruct Hrun as [Hrun|Hrun]; unfold asyncHandler in Hrun.
  - destruct (Controller.createShortUrl req w) as [[r'|e] w1] eqn:E;
      simplify_eq; [|by destruct (Hok e)].
    by apply original_create_inv.
  - destruct (Refactored.createShortUrl req w) as [[r'|e] w1] eqn:E;
      simplify_eq; [|by destruct (Hok e)].
    by apply refactored_create_inv.
Qed.

Lemma createShortUrl_only_adds_witness :
  let req := Sample.anonymous (Sample.shorten "example.org" JsUndefined) in
  let w' := (asyncHandler (@Controller.createShortUrl Sample.platform) req
               Sample.world).2 in
  addedOnly None (db Sample.world) (db w')
  ∧ map Url.shortCode (urls (db w')) = [js "abc123"; js "uuuuuu"].
Proof.
  intros req w'. split.
  - apply (createShortUrl_only_adds (H:=Sample.platform) req Sample.world).
    apply elem_of_cons. by left.
  - vm_compute. reflexivity.
Defined.

Lemma createShortUrl_answers_witness :
  let req := Sample.anonymous (Sample.shorten " Example.org/a " JsUndefined) in
  ∃ url qrCode w',
    asyncHandler (@Refactored.createShortUrl Sample.platform) req Sample.world
    = (Json 201 true (Some (js "Short URL created successfully"))
         (UrlPayload url (Some qrCode)), w')
    ∧ Url.originalUrl url = js "https://Example.org/a"
    ∧ Url.shortCode url = js "uuuuuu"
    ∧ @createdBy Sample.platform req Sample.world w' url.
Proof.
  intros req.
  destruct (asyncHandler (@Refactored.createShortUrl Sample.platform) req
              Sample.world) as [r w'] eqn:Hrun.
  assert (∃ url qrCode,
            r = Json 201 true (Some (js "Short URL created successfully"))
                  (UrlPayload url (Some qrCode))
            ∧ Url.originalUrl url = js "https://Example.org/a"
            ∧ Url.shortCode url = js "uuuuuu")
    as (url & qrCode & -> & Ho & Hc).
  { assert (r = (asyncHandler (@Refactored.createShortUrl Sample.platform)
                   req Sample.world).1) as -> by (by rewrite Hrun).
    vm_compute. eexists _, _. split; [reflexivity|]. split; reflexivity. }
  exists url, qrCode, w'. split; [reflexivity|]. split; [exact Ho|].
  split; [exact Hc|].
  destruct (@createShortUrl_answers Sample.platform req Sample.world w' _
              (or_intror Hrun))
    as [(url' & qr' & Heq & Hcreated)|(_ & s & ok & m & d & Heq & Hs)].
  - discriminate.
  - injection Heq as <- <-. exact Hcreated.
  - injection Heq as <- _ _ _. destruct Hs; discriminate.
Defined.


(** ** An alias the schema refuses *)

Lemma validateCustomAlias_ok (alias : jsstr) (w : World) :
  aliasShaped alias → toLowerCase alias ∉ reservedWords →
  aliasFree alias (db w) → rejects w (calls w) = false →
  validateCustomAlias alias w = (Ok true, tick w).
Proof.
  intros [Hpat Hlen] Hres Hfree Hok. unfold validateCustomAlias.
  destruct alias as [|c r]; [cbn in Hlen; lia|].
  cbn [requiredString negb]. rewrite Hpat. cbn [negb].
  rewrite (proj2 (Nat.ltb_ge _ _)) by lia.
  rewrite (proj2 (Nat.ltb_ge _ _)) by lia.
  rewrite bind_run, findOne_run, Hok.
  assert (find (codeOrAlias (c :: r)) (urls (db w)) = None) as ->.
  { destruct (find _ _) as [u|] eqn:Hfind; [|done].
    apply find_elem_of in Hfind as [Hu Hmatch].
    destruct (Hfree u Hu) as [H1 H2]. unfold codeOrAlias, streq in Hmatch.
    apply orb_true_iff in Hmatch as [Hm|Hm];
      by apply bool_decide_eq_true in Hm. }
  by rewrite (bool_decide_eq_false_2 _ Hres).
Qed.

(** X20. An alias of 21 to 50 characters passes both alias checks and then
    fails the schema, whose short codes end at 20 characters: for a valid
    destination and a free, well-formed alias of that length, neither
    controller answers the request itself; the validation error of the path
    [shortCode] leaves the handler, and nothing is stored. *)
Theorem long_alias_rejected_by_schema `{Platform}
    (req : Request) (w : World) (alias : jsstr) :
  let normalizedUrl :=
    strOf (Short.normalizeUrl
             (JsStr (trim (strOf (body_originalUrl (body req)))))) in
  truthy (body_originalUrl (body req)) = true →
  isValidUrl normalizedUrl = true →
  requiredString (trim normalizedUrl) && isURL (trim normalizedUrl) = true →
  body_customAlias (body req) = JsStr alias →
  aliasShaped (trim alias) →
  (20 < length (trim alias))%nat →
  toLowerCase (trim alias) ∉ reservedWords →
  aliasFree (trim alias) (db w) →
  truthy (body_expiresAt (body req)) = false →
  healthy w →
  (∀ uid, user req = Some uid →
     find (sameDestination normalizedUrl uid) (urls (db w)) = None) →
  ∀ createShortUrl,
    createShortUrl ∈ [Controller.createShortUrl; Refactored.createShortUrl] →
    ∃ w',
      asyncHandler createShortUrl req w
      = (NextError (ValidationError (js "shortCode")), w')
      ∧ db w' = db w.
Proof.
  intros normalizedUrl Hgiven Hvalid Hurl Halias Hshape Hlong Hres Hfree
    Hexp Hhealthy Hnew createShortUrl Hin.
  assert (truthy (JsStr alias) = true) as Htruthy.
  { destruct alias as [|c r]; [|done]. destruct Hshape as [_ Hlen].
    cbn in Hlen. lia. }
  assert (∀ data,
            ud_originalUrl data = normalizedUrl →
            ud_shortCode data = trim alias →
            urlInvalidPath data = Some (js "shortCode")) as Hschema.
  { intros data Ho Hc. unfold urlInvalidPath. cbn zeta.
    rewrite Ho, Hc, Hurl. cbn [negb].
    rewrite trim_idem. unfold maxlength at 1.
    rewrite (proj2 (Nat.leb_gt _ _)) by lia.
    by rewrite andb_false_r. }
  assert (∀ w1, db w1 = db w → rejects w1 = rejects w →
            ∃ w2, match user req with
                  | Some uid =>
                      Url_findOne (sameDestination normalizedUrl uid)
                  | None => mret None
                  end w1 = (Ok None, w2)
                  ∧ db w2 = db w ∧ rejects w2 = rejects w) as Hexisting.
  { intros w1 Hd Hr. destruct (user req) as [uid|] eqn:Huser.
    - rewrite findOne_run, Hr, Hhealthy, Hd, (Hnew uid eq_refl).
      by exists (tick w1).
    - by exists w1. }
  assert (∀ w1, db w1 = db w → rejects w1 = rejects w →
            validateCustomAlias (trim alias) w1 = (Ok true, tick w1))
    as Hcheck.
  { intros w1 Hd Hr. apply validateCustomAlias_ok; try done.
    - by rewrite Hd.
    - by rewrite Hr. }
  repeat (apply elem_of_cons in Hin as [->|Hin]);
    [| |by apply elem_of_nil in Hin].
  - unfold asyncHandler, Controller.createShortUrl. cbn zeta.
    fold normalizedUrl. rewrite Hgiven, Hvalid, Halias, Htruthy, Hexp.
    cbn [negb strOf].
    rewrite bind_run. unfold try at 1.
    rewrite bind_run, (Hcheck w eq_refl eq_refl), ret_run, bind_run.
    destruct (Hexisting (tick w) eq_refl eq_refl) as (w2 & -> & Hd2 & Hr2).
    rewrite bind_run, ret_run, bind_run, now_run.
    rewrite bind_run, Url_create_run, Hschema by done.
    by exists w2.
  - unfold asyncHandler, Refactored.createShortUrl. cbn zeta.
    fold normalizedUrl. rewrite Hgiven, Hvalid, Halias, Htruthy, Hexp.
    cbn [negb strOf]. rewrite bind_run.
    destruct (Hexisting w eq_refl eq_refl) as (w2 & -> & Hd2 & Hr2).
    rewrite bind_run, ret_run, bind_run. unfold try at 1.
    rewrite bind_run, (Hcheck w2 Hd2 Hr2), ret_run.
    rewrite bind_run, now_run.
    rewrite bind_run, Url_create_run, Hschema by done.
    by exists (tick w2).
Qed.

Lemma long_alias_rejected_by_schema_witness :
  let alias := js "a-very-long-alias-123" in
  let req := Sample.anonymous (Sample.shorten "example.org" (JsStr alias)) in
  length (trim alias) = 21%nat
  ∧ validateCustomAlias (trim alias) Sample.world
    = (Ok true, tick Sample.world)
  ∧ ∃ w',
      asyncHandler (@Controller.createShortUrl Sample.platform) req
        Sample.world
      = (NextError (ValidationError (js "shortCode")), w')
      ∧ db w' = db Sample.world.
Proof.
  intros alias req.
  split; [vm_compute; reflexivity|]. split; [vm_compute; reflexivity|].
  apply (long_alias_rejected_by_schema (H:=Sample.platform) req Sample.world
           alias).
  - reflexivity.
  - vm_compute. reflexivity.
  - vm_compute. reflexivity.
  - reflexivity.
  - split; [vm_compute; reflexivity|vm_compute; lia].
  - vm_compute. lia.
  - vm_compute. intros Hin.
    repeat (apply elem_of_cons in Hin as [Hin|Hin]; [discriminate|]).
    by apply elem_of_nil in Hin.
  - intros u Hu. apply list_elem_of_singleton in Hu as ->.
    split; vm_compute; discriminate.
  - reflexivity.
  - intros n. reflexivity.
  - intros uid Hu. discriminate.
  - apply elem_of_cons. by left.
Defined.


(** ** What a redirect may touch *)

Lemma clickedOnly_refl (id : oid) (owner : option oid) (d : Db) :
  clickedOnly id owner d d.
Proof.
  split; [exists []; by rewrite app_nil_r|]. split; [|done].
  apply Forall2_same_length_lookup. split; [done|].
  intros i u u' Hu Hu'. by simplify_eq.
Qed.

Lemma clickedOnly_trans (id : oid) (owner : option oid) (d1 d2 d3 : Db) :
  clickedOnly id owner d1 d2 → clickedOnly id owner d2 d3 →
  clickedOnly id owner d1 d3.
Proof.
  intros ([n1 C1] & L1 & U1) ([n2 C2] & L2 & U2). split; [|split].
  - exists (n1 ++ n2). by rewrite C2, C1, app_assoc.
  - eapply Forall2_trans; [|exact L1|exact L2].
    intros x y z [E1 S1] [E2 S2]. split; [congruence|].
    intros Hne. assert (y = x) as -> by by apply S1. by apply S2.
  - intros o Ho. by rewrite U2, U1.
Qed.

Lemma clickedOnly_keeps {A} (id : oid) (owner : option oid) (d0 : Db)
    (op : World → Res A * Db) :
  (∀ w, clickedOnly id owner (db w) (op w).2) →
  keeps (λ d _, clickedOnly id owner d0 d) (storage op).
Proof.
  intros Hop. apply keeps_storage. intros w Hw.
  by eapply clickedOnly_trans.
Qed.

Lemma clickedOnly_tracking `{Platform}
    (url : Url.t) (d0 : Db) (data : ClickData) :
  let K := λ (d : Db) (_ : oid),
             clickedOnly (Url._id url) (Url.user url) d0 d in
  keeps K (Click_create data)
  ∧ keeps K (incrementClicks url)
  ∧ keeps K (match Url.user url with
             | Some owner => User_findByIdAndUpdate_inc owner 0 1
             | None => mret tt
             end).
Proof.
  intros K. split; [|split].
  - intros w Hw. rewrite Click_create_run.
    destruct (clickInvalidPath data); [done|]. cbn zeta.
    destruct (rejects w (calls w)); [done|].
    cbn [snd db withDb nextId]. eapply clickedOnly_trans; [exact Hw|].
    split; [by eexists|]. split; [|done].
    apply (clickedOnly_refl (Url._id url) (Url.user url) (db w)).
  - unfold incrementClicks.
    apply keeps_bind; [apply keeps_now|]. intros t _. cbn zeta.
    destruct (urlDocInvalidPath _); [apply keeps_throw|].
    apply clickedOnly_keeps. intros w.
    destruct (updateFirst _ _ _) as [urls'|] eqn:Hupd;
      [|apply clickedOnly_refl].
    apply updateFirst_Some in Hupd as (l1 & x & l2 & Hl & -> & Hx & _).
    apply N.eqb_eq in Hx. cbn [snd].
    split; [exists []; by rewrite app_nil_r|]. split; [|done].
    cbn [urls]. rewrite Hl. apply Forall2_app.
    + apply Forall2_same_length_lookup. split; [done|].
      intros i u u' Hu Hu'. by simplify_eq.
    + constructor; [done|].
      apply Forall2_same_length_lookup. split; [done|].
      intros i u u' Hu Hu'. by simplify_eq.
  - destruct (Url.user url) as [owner|]; [|apply keeps_ret].
    apply clickedOnly_keeps. intros w. cbn [snd].
    split; [exists []; by rewrite app_nil_r|]. split.
    + apply (clickedOnly_refl (Url._id url) (Some owner) (db w)).
    + intros o Ho. cbn [users]. rewrite lookup_alter_ne; [done|congruence].
Qed.

(** X21. A redirect, in both controllers, touches nothing but what belongs
    to the link it serves, whichever storage calls fail: clicks are only
    added, no link appears or disappears, nothing of a link changes but the
    counter and the time stamps of the served one, and no aggregate changes
    but the one of its owner. A request for a code that, taken without the
    white space around it as the lookup takes it, no active link has
    writes nothing. *)
Theorem redirect_touches_served_link `{Platform} (req : Request) (w : World) :
  ∀ redirectUrl,
    redirectUrl ∈ [Controller.redirectUrl; Refactored.redirectUrl] →
    let w' := (asyncHandler redirectUrl req w).2 in
    match find (activeCode (param_shortCode req)) (urls (db w)) with
    | Some u => clickedOnly (Url._id u) (Url.user u) (db w) (db w')
    | None => db w' = db w
    end.
Proof.
  intros redirectUrl Hin. cbn zeta. rewrite asyncHandler_world.
  assert (∀ u d, clickedOnly (Url._id u) (Url.user u) d d) as Hrefl
    by (intros; apply clickedOnly_refl).
  repeat (apply elem_of_cons in Hin as [->|Hin]);
    [| |by apply elem_of_nil in Hin].
  - unfold Controller.redirectUrl. cbn zeta. rewrite bind_run, findOne_run.
    destruct (rejects w (calls w)); [by destruct (find _ _)|].
    destruct (find _ _) as [u|] eqn:Hfind; [|done].
    set (K := λ (d : Db) (_ : oid),
                clickedOnly (Url._id u) (Url.user u) (db w) d).
    match goal with
    | |- context [db (?m (tick w)).2] =>
        assert (keeps K m) as Hk; [|by apply (Hk (tick w)), Hrefl]
    end.
    apply keeps_bind; [apply keeps_now|]. intros t _.
    destruct (Url.isExpired t u); [apply keeps_ret|].
    apply keeps_bind; [|intros; apply keeps_ret].
    destruct (negb _); [|apply keeps_ret].
    apply keeps_bind; [apply keeps_now|]. intros t' _.
    match goal with
    | |- context [Click_create ?data] =>
        destruct (clickedOnly_tracking u (db w) data) as (K1 & K2 & K3)
    end.
    repeat first [ exact K1 | exact K2 | exact K3 | keeps_step ].
  - unfold Refactored.redirectUrl. cbn zeta. rewrite bind_run, findOne_run.
    destruct (rejects w (calls w)); [by destruct (find _ _)|].
    destruct (find _ _) as [u|] eqn:Hfind; [|done].
    set (K := λ (d : Db) (_ : oid),
                clickedOnly (Url._id u) (Url.user u) (db w) d).
    match goal with
    | |- context [db (?m (tick w)).2] =>
        assert (keeps K m) as Hk; [|by apply (Hk (tick w)), Hrefl]
    end.
    apply keeps_bind; [apply keeps_now|]. intros t _.
    destruct (Url.isExpired t u); [apply keeps_ret|].
    apply keeps_bind; [|intros; apply keeps_ret].
    apply keeps_try; [|intros; apply keeps_consoleError].
    unfold Refactored.trackClick. cbn zeta.
    destruct (isBot _); [apply keeps_ret|].
    match goal with
    | |- context [Click_create ?data] =>
        destruct (clickedOnly_tracking u (db w) data) as (K1 & K2 & K3)
    end.
    repeat first [ exact K1 | exact K2 | exact K3 | keeps_step ].
Qed.

Lemma redirect_touches_served_link_witness :
  let req := Sample.padded in
  let w := Sample.shared (λ _, false) in
  let touched redirectUrl :=
    let w' := (asyncHandler redirectUrl req w).2 in
    clickedOnly 1 (Some Sample.owner) (db w) (db w')
    ∧ length (clicks (db w')) = 3%nat
    ∧ map Url.clicks (urls (db w')) = [3; 1]%Z
    ∧ users (db w') !! 8 = Some (User.mk 1 1) in
  param_shortCode req = js "abc123 "
  ∧ touched (@Controller.redirectUrl Sample.platform)
  ∧ touched (@Refactored.redirectUrl Sample.platform).
Proof.
  intros req w touched. split; [reflexivity|].
  assert (find (activeCode (param_shortCode req)) (urls (db w))
          = Some Sample.link) as Hfind by (vm_compute; reflexivity).
  assert (∀ redirectUrl,
            redirectUrl ∈ [@Controller.redirectUrl Sample.platform;
                           @Refactored.redirectUrl Sample.platform] →
            touched redirectUrl) as Hboth.
  { intros redirectUrl Hin. unfold touched. cbn zeta.
    pose proof (redirect_touches_served_link (H:=Sample.platform) req w
                  redirectUrl Hin) as Hframe.
    cbn zeta in Hframe. rewrite Hfind in Hframe.
    split; [exact Hframe|]. clear Hframe.
    repeat (apply elem_of_cons in Hin as [->|Hin]);
      [| |by apply elem_of_nil in Hin];
      (split; [vm_compute; reflexivity|]); split; vm_compute; reflexivity. }
  split; apply Hboth; apply elem_of_cons; [by left|right].
  apply elem_of_cons. by left.
Defined.


(** ** What a recorded visit leaves *)

Lemma incrementClicks_ok `{Platform} (this : Url.t) (w w' : World) :
  incrementClicks this w = (Ok tt, w') →
  clicks (db w') = clicks (db w) ∧ users (db w') = users (db w)
  ∧ clock w' = clock w ∧ rejects w' = rejects w ∧ calls w' = S (calls w)
  ∧ ∃ l1 x x' l2,
      urls (db w) = l1 ++ x :: l2
      ∧ urls (db w') = l1 ++ x' :: l2
      ∧ Forall (λ y, Url._id y ≠ Url._id this) l1
      ∧ Url._id x = Url._id this
      ∧ (x = this →
         Url.clicks x' = toNumber (Url.clicks this + 1)
         ∧ Url.lastClickedAt x' = Some (clock w)).
Proof.
  unfold incrementClicks. rewrite bind_run, now_run. cbn zeta.
  destruct (urlDocInvalidPath _); [done|]. unfold storage.
  destruct (rejects w (calls w)); [done|]. cbn [db tick].
  destruct (updateFirst _ _ _) as [urls'|] eqn:Hupd; [|done].
  intros Hrun. simplify_eq. cbn [db withDb clicks users urls clock tick
    rejects calls].
  repeat split.
  apply updateFirst_Some in Hupd as (l1 & x & l2 & Hl & -> & Hx & Hl1).
  apply N.eqb_eq in Hx. eexists l1, x, _, l2.
  split; [done|]. split; [done|]. split.
  { eapply Forall_impl; [exact Hl1|]. intros y Hy. by apply N.eqb_neq. }
  split; [done|]. intros ->. cbn [Url.clicks Url.lastClickedAt].
  unfold written. split; case_decide; congruence.
Qed.

Lemma User_inc_ok (owner : option oid) (a b : Z) (w w' : World) :
  match owner with
  | Some o => User_findByIdAndUpdate_inc o a b
  | None => mret tt
  end w = (Ok tt, w') →
  urls (db w') = urls (db w) ∧ clicks (db w') = clicks (db w)
  ∧ users (db w') = match owner with
                    | Some o => alter (User.inc a b) o (users (db w))
                    | None => users (db w)
                    end.
Proof.
  destruct owner as [o|].
  - unfold User_findByIdAndUpdate_inc, storage.
    destruct (rejects w (calls w)); [done|]. intros Hrun. by simplify_eq.
  - rewrite ret_run. intros Hrun. by simplify_eq.
Qed.

Lemma Click_create_ok (data : ClickData) (w w' : World) (c : Click.t) :
  Click_create data w = (Ok c, w') →
  c = clickDocument (nextId w) (clock w) data
  ∧ validClick c
  ∧ urls (db w') = urls (db w) ∧ clicks (db w') = clicks (db w) ++ [c]
  ∧ users (db w') = users (db w)
  ∧ clock w' = clock w.
Proof.
  rewrite Click_create_run.
  destruct (clickInvalidPath data) eqn:Hvalid; [done|]. cbn zeta.
  destruct (rejects w (calls w)); [done|]. intros Hrun. simplify_eq.
  split; [done|]. split; [by apply clickDocument_valid|]. done.
Qed.

(** The stored link with the identifier of a stored link [u] is [u], when
    no two links share an identifier. *)
Lemma first_with_id (u x : Url.t) (l l1 l2 : list Url.t) :
  NoDup (map Url._id l) → u ∈ l → l = l1 ++ x :: l2 →
  Url._id x = Url._id u → x = u.
Proof.
  intros Hnd Hu -> Hx.
  eapply NoDup_fmap_eq; [exact Hnd| |exact Hu|exact Hx].
  apply elem_of_app. right. by apply elem_of_cons; left.
Qed.

(** X22. A visit that is served is a visit that is recorded, in the
    original controller: when a request that is not a bot's gets its
    redirect, one valid click of the link was stored, the counter of the
    link went up as a Number does, by one below [2^53] and not at all at
    [2^53], and the total of its owner went up by one. In the refactored
    controller the same holds whenever [trackClick] resolves, with no
    visitor on the click. Identifiers are unique, as the store keeps
    them. *)
Theorem served_visit_is_recorded `{Platform} (req : Request) (w w' : World) :
  isBot (JsStr (orStr (header req "user-agent") [])) = false →
  NoDup (map Url._id (urls (db w))) →
  (∀ status location,
     asyncHandler Controller.redirectUrl req w
     = (Redirect status location, w') →
     ∃ u, find (activeCode (param_shortCode req)) (urls (db w)) = Some u
          ∧ recordedClick u (user req) (getClientIP req) w w')
  ∧ (∀ u, u ∈ urls (db w) →
          Refactored.trackClick u req w = (Ok tt, w') →
          recordedClick u None (getClientIP req) w w')
  ∧ (∀ n, (0 ≤ n < 2 ^ 53)%Z → toNumber (n + 1) = (n + 1)%Z)
  ∧ toNumber (2 ^ 53 + 1) = (2 ^ 53)%Z.
Proof.
  intros Hhuman Hnd. split; [|split; [|split]].
  - intros status location Hrun. unfold asyncHandler in Hrun.
    destruct (Controller.redirectUrl req w) as [[r|e] w1] eqn:E;
      simplify_eq.
    unfold Controller.redirectUrl in E. cbn zeta in E.
    rewrite bind_run, findOne_run in E.
    destruct (rejects w (calls w)); [done|].
    destruct (find _ _) as [u|] eqn:Hfind; [|by rewrite ret_run in E].
    exists u. split; [done|]. apply find_elem_of in Hfind as [Hu _].
    rewrite bind_run, now_run in E.
    destruct (Url.isExpired _ u); [by rewrite ret_run in E|].
    apply bind_ok_inv in E as ([] & w2 & Htrack & E).
    rewrite ret_run in E. simplify_eq.
    rewrite Hhuman in Htrack. cbn [negb] in Htrack.
    rewrite bind_run, now_run in Htrack.
    apply bind_ok_inv in Htrack as (c & w3 & Hclick & Htrack).
    apply Click_create_ok in Hclick as (Hc & Hvalid & U3 & C3 & S3 & T3).
    apply bind_ok_inv in Htrack as ([] & w4 & Hinc & Htrack).
    apply incrementClicks_ok in Hinc
      as (C4 & S4 & T4 & _ & _ & l1 & x & x' & l2 & L4 & L4' & Hl1 & Hx
          & Hsame).
    apply User_inc_ok in Htrack as (U5 & C5 & S5).
    cbn [db tick clock] in *. rewrite U3 in L4.
    assert (x = u) as -> by by eapply first_with_id.
    destruct (Hsame eq_refl) as [Hn Hlast].
    split; [|split].
    + exists c. rewrite C5, C4, C3. split; [done|].
      rewrite Hc in Hvalid |- *. do 4 (split; [done|]). exact Hvalid.
    + exists l1, x', l2. rewrite U5, L4', L4, Hlast, T3.
      by repeat split.
    + by rewrite S5, S4, S3.
  - intros u Hu. unfold Refactored.trackClick. cbn zeta. rewrite Hhuman.
    unfold promiseAll3. intros Hrun.
    apply bind_ok_inv in Hrun as ([[] [[] []]] & w4 & Hall & Hrun).
    rewrite ret_run in Hrun. simplify_eq.
    apply both_ok_inv in Hall as (w1 & Hclick & Hall).
    apply both_ok_inv in Hall as (w2 & Hinc & Huser).
    apply bind_ok_inv in Hclick as (c & w0 & Hclick & Hret).
    rewrite ret_run in Hret. simplify_eq.
    apply Click_create_ok in Hclick as (Hc & Hvalid & U1 & C1 & S1 & T1).
    apply incrementClicks_ok in Hinc
      as (C2 & S2 & T2 & _ & _ & l1 & x & x' & l2 & L2 & L2' & Hl1 & Hx
          & Hsame).
    apply User_inc_ok in Huser as (U3 & C3 & S3).
    rewrite U1 in L2.
    assert (x = u) as -> by by eapply first_with_id.
    destruct (Hsame eq_refl) as [Hn Hlast].
    split; [|split].
    + exists c. rewrite C3, C2, C1. split; [done|].
      rewrite Hc in Hvalid |- *. do 4 (split; [done|]). exact Hvalid.
    + exists l1, x', l2. rewrite U3, L2', L2, Hlast, T1.
      by repeat split.
    + by rewrite S3, S2, S1.
  - intros n Hn. apply toNumber_exact. lia.
  - reflexivity.
Qed.

Lemma served_visit_is_recorded_witness :
  let req := Sample.withAgent (js "Mozilla/5.0 (X11; Linux x86_64) Firefox/120.0") in
  isBot (JsStr (orStr (header req "user-agent") [])) = false
  ∧ NoDup (map Url._id (urls (db Sample.world)))
  ∧ (∃ w',
      asyncHandler (@Controller.redirectUrl Sample.platform) req Sample.world
      = (Redirect 301 (js "https://example.com/page"), w')
      ∧ recordedClick Sample.link None (js "203.0.113.9") Sample.world w'
      ∧ map Url.clicks (urls (db w')) = [3%Z])
  ∧ ∃ w',
      @Refactored.trackClick Sample.platform Sample.link req Sample.world
      = (Ok tt, w')
      ∧ recordedClick Sample.link None (js "203.0.113.9") Sample.world w'.
Proof.
  intros req.
  assert (isBot (JsStr (orStr (header req "user-agent") [])) = false)
    as Hhuman by (vm_compute; reflexivity).
  assert (NoDup (map Url._id (urls (db Sample.world)))) as Hnd
    by (vm_compute; apply NoDup_singleton).
  split; [exact Hhuman|]. split; [exact Hnd|]. split; cycle 1.
  { destruct (@Refactored.trackClick Sample.platform Sample.link req
                Sample.world) as [r w'] eqn:Hrun.
    assert (r = Ok tt) as ->.
    { assert (r = (@Refactored.trackClick Sample.platform Sample.link req
                     Sample.world).1) as -> by (by rewrite Hrun).
      vm_compute. reflexivity. }
    exists w'. split; [reflexivity|].
    apply (proj1 (proj2 (served_visit_is_recorded (H:=Sample.platform) req
                           Sample.world w' Hhuman Hnd)) Sample.link);
      [|exact Hrun].
    apply elem_of_cons. by left. }
  destruct (asyncHandler (@Controller.redirectUrl Sample.platform) req
              Sample.world) as [r w'] eqn:Hrun.
  assert (r = Redirect 301 (js "https://example.com/page")
          ∧ map Url.clicks (urls (db w')) = [3%Z]) as [-> Hclicks].
  { assert (r = (asyncHandler (@Controller.redirectUrl Sample.platform) req
                   Sample.world).1) as -> by (by rewrite Hrun).
    assert (w' = (asyncHandler (@Controller.redirectUrl Sample.platform) req
                    Sample.world).2) as -> by (by rewrite Hrun).
    split; vm_compute; reflexivity. }
  exists w'. split; [reflexivity|].
  destruct (proj1 (served_visit_is_recorded (H:=Sample.platform) req
                     Sample.world w' Hhuman Hnd)
              _ _ Hrun) as (u & Hfind & Hrec).
  assert (find (activeCode (param_shortCode req)) (urls (db Sample.world))
          = Some Sample.link) as Hlink by (vm_compute; reflexivity).
  rewrite Hlink in Hfind. injection Hfind as <-.
  split; [exact Hrec|exact Hclicks].
Defined.


(** ** Clicks and the links they belong to *)

Lemma updateFirst_ids (f : Url.t → bool) (g : Url.t → Url.t)
    (l l' : list Url.t) :
  updateFirst f g l = Some l' → (∀ u, Url._id (g u) = Url._id u) →
  map Url._id l' = map Url._id l.
Proof.
  intros Hupd Hg.
  apply updateFirst_Some in Hupd as (l1 & x & l2 & -> & -> & _ & _).
  rewrite !map_app. cbn [map]. by rewrite Hg.
Qed.

Section References.
Context `{Platform}.

Lemma referenced_Url_create (data : UrlData) :
  keeps (λ d _, referenced d) (Url_create data).
Proof.
  intros w Hw. rewrite Url_create_run.
  destruct (urlInvalidPath data); [done|]. cbn zeta.
  destruct (rejects w (calls w)); [done|].
  destruct (existsb _ _); [done|]. cbn [snd db withDb].
  intros c Hc. cbn [urls clicks] in *. rewrite map_app.
  apply elem_of_app. left. by apply Hw.
Qed.

Lemma referenced_Url_save (this edited : Url.t) (castError : option jsstr) :
  keeps (λ d _, referenced d) (Url_save this edited castError).
Proof.
  unfold Url_save.
  destruct (match urlDocInvalidPath edited with
            | Some path => Some path
            | None => castError
            end); [apply keeps_throw|].
  apply keeps_bind; [apply keeps_now|]. intros t _.
  apply keeps_storage. intros w Hw.
  destruct (updateFirst _ _ _) as [urls'|] eqn:Hupd; [|done].
  cbn [snd]. intros c Hc. cbn [urls clicks] in *.
  erewrite updateFirst_ids; [by apply Hw|exact Hupd|done].
Qed.

Lemma referenced_User_inc (id : oid) (a b : Z) :
  keeps (λ d _, referenced d) (User_findByIdAndUpdate_inc id a b).
Proof. by apply keeps_storage. Qed.

Lemma referenced_tracking (id : oid) (this : Url.t) (data : ClickData) :
  cd_url data = id →
  let K := λ (d : Db) (_ : oid),
             referenced d ∧ id ∈ map Url._id (urls d) in
  keeps K (Click_create data) ∧ keeps K (incrementClicks this)
  ∧ ∀ o a b, keeps K (User_findByIdAndUpdate_inc o a b).
Proof.
  intros Hid K. split; [|split].
  - intros w [Hw Hin]. rewrite Click_create_run.
    destruct (clickInvalidPath data); [done|]. cbn zeta.
    destruct (rejects w (calls w)); [done|].
    cbn [snd db withDb nextId]. split; [|done].
    intros c Hc. cbn [insertClick urls clicks] in *.
    apply elem_of_app in Hc as [Hc|Hc]; [by apply Hw|].
    apply list_elem_of_singleton in Hc as ->. cbn. by rewrite Hid.
  - unfold incrementClicks.
    apply keeps_bind; [apply keeps_now|]. intros t _. cbn zeta.
    destruct (urlDocInvalidPath _); [apply keeps_throw|].
    apply keeps_storage. intros w [Hw Hin].
    destruct (updateFirst _ _ _) as [urls'|] eqn:Hupd; [|done].
    cbn [snd]. unfold K, referenced. cbn [urls clicks].
    erewrite updateFirst_ids; [done|exact Hupd|done].
  - intros o a b. by apply keeps_storage.
Qed.

Lemma referenced_removal (id : oid) :
  let K := λ (d : Db) (_ : oid),
             referenced d ∧ ∀ c, c ∈ clicks d → Click.url c ≠ id in
  keeps K (Url_findByIdAndDelete id)
  ∧ ∀ o a b, keeps K (User_findByIdAndUpdate_inc o a b).
Proof.
  intros K. split; [|intros o a b; by apply keeps_storage].
  apply keeps_storage. intros w [Hw Hno]. cbn [snd]. split; [|done].
  intros c Hc. cbn [urls clicks] in *.
  specialize (Hw c Hc). apply list_elem_of_fmap in Hw as (u & Hu & Hin).
  apply list_elem_of_fmap. exists u. split; [done|].
  apply removeFirst_keeps; [done|]. apply N.eqb_neq. rewrite <- Hu.
  by apply Hno.
Qed.

Lemma original_handlers_reference (req : Request) (update : UpdateBody) :
  keeps (λ d _, referenced d) (Controller.createShortUrl req)
  ∧ keeps (λ d _, referenced d) (Controller.getUrlDetails req)
  ∧ keeps (λ d _, referenced d) (Controller.updateUrl req update)
  ∧ keeps (λ d _, referenced d) (Controller.deleteUrl req)
  ∧ keeps (λ d _, referenced d) (Controller.redirectUrl req)
  ∧ keeps (λ d _, referenced d) (Controller.getUrlAnalytics req).
Proof.
  split; [|split; [|split; [|split; [|split]]]].
  - unfold Controller.createShortUrl, Controller.bad. cbn zeta.
    repeat first [ apply keeps_generateShortCode
                 | apply keeps_validateCustomAlias
                 | apply referenced_Url_create | apply referenced_User_inc
                 | keeps_step ].
  - apply read_handlers_keep.
  - unfold Controller.updateUrl, Controller.trimOf.
    repeat first [ apply referenced_Url_save | keeps_step ].
  - unfold Controller.deleteUrl, withUser.
    destruct (user req) as [uid|]; [|apply keeps_throw].
    apply keeps_bind; [apply keeps_query|]. intros [url|] _;
      [|apply keeps_ret].
    intros w Hw. rewrite bind_run. unfold Click_deleteMany at 1, storage at 1.
    destruct (rejects w (calls w)); [done|]. cbn [db tick withDb].
    destruct (referenced_removal (Url._id url)) as [K1 K2].
    match goal with
    | |- context [(?m ?w1).2] =>
        assert (keeps (λ (d : Db) (_ : oid),
                         referenced d
                         ∧ ∀ c, c ∈ clicks d → Click.url c ≠ Url._id url) m)
          as Hk; [|apply (Hk w1)]
    end.
    + repeat first [ exact K1 | apply K2 | keeps_step ].
    + cbn [db clicks urls]. split.
      * intros c Hc. apply list_elem_of_filter in Hc as [_ Hc]. by apply Hw.
      * intros c Hc. by apply list_elem_of_filter in Hc as [Hc _].
  - unfold Controller.redirectUrl. cbn zeta.
    intros w Hw. rewrite bind_run, findOne_run.
    destruct (rejects w (calls w)); [done|].
    destruct (find _ _) as [u|] eqn:Hfind; [|done].
    apply find_elem_of in Hfind as [Hu _].
    match goal with
    | |- context [(?m ?w1).2] =>
        assert (keeps (λ (d : Db) (_ : oid),
                         referenced d ∧ Url._id u ∈ map Url._id (urls d)) m)
          as Hk; [|apply (Hk w1)]
    end.
    + apply keeps_bind; [apply keeps_now|]. intros t _.
      destruct (Url.isExpired t u); [apply keeps_ret|].
      apply keeps_bind; [|intros; apply keeps_ret].
      destruct (negb _); [|apply keeps_ret].
      apply keeps_bind; [apply keeps_now|]. intros t' _.
      match goal with
      | |- context [Click_create ?data] =>
          destruct (referenced_tracking (Url._id u) u data eq_refl)
            as (K1 & K2 & K3)
      end.
      repeat first [ exact K1 | exact K2 | apply K3 | keeps_step ].
    + split; [done|]. apply list_elem_of_fmap. by exists u.
  - apply read_handlers_keep.
Qed.

End References.

Lemma deleteUrlInterleaved_alone (r : Response) (req : Request) (w : World) :
  deleteUrlInterleaved (mret r) req w = Controller.deleteUrl req w.
Proof.
  unfold deleteUrlInterleaved, Controller.deleteUrl, withUser.
  destruct (user req) as [uid|]; [|done].
  rewrite !bind_run. by destruct (Url_findOne _ w) as [[[url|]|e] w1].
Qed.

(** X23. A handler of the original controller that runs on its own, with
    no other request served between its awaits, leaves no click without
    its link: when every stored click belongs to a stored link before the
    handler starts, every stored click does when it ends, whichever of its
    storage calls fail. Its [deleteUrl] removes the clicks before the
    link, and its redirect stores a click for a link it has just read.
    This is a property of one handler, not of the server: the schedule
    [deleteUrlInterleaved], which is [deleteUrl] itself when nothing runs
    in between, loses it when a redirect to the link is served after the
    clicks are removed and before the link is. (The refactored [deleteUrl]
    starts both removals together, and a rejected removal of the clicks
    leaves them without their link.) *)
Theorem original_handlers_keep_references `{Platform}
    (req : Request) (update : UpdateBody) (w : World) :
  (referenced (db w) →
   ∀ handler,
     handler ∈ [Controller.createShortUrl; Controller.getUrlDetails;
                (λ r, Controller.updateUrl r update); Controller.deleteUrl;
                Controller.redirectUrl; Controller.getUrlAnalytics] →
     referenced (db (asyncHandler handler req w).2))
  ∧ (∀ r, asyncHandler (deleteUrlInterleaved (mret r)) req w
          = asyncHandler Controller.deleteUrl req w).
Proof.
  split.
  - intros Hw handler Hin. rewrite asyncHandler_world.
    destruct (original_handlers_reference req update)
      as (H1 & H2 & H3 & H4 & H5 & H6).
    repeat (apply elem_of_cons in Hin as [->|Hin]);
      [by apply H1|by apply H2|by apply H3|by apply H4|by apply H5
      |by apply H6|by apply elem_of_nil in Hin].
  - intros r. unfold asyncHandler.
    by rewrite deleteUrlInterleaved_alone.
Qed.

Lemma original_handlers_keep_references_witness :
  let req := Sample.owned Sample.noBody Sample.noQuery in
  let visit :=
    Sample.withAgent (js "Mozilla/5.0 (X11; Linux x86_64) Firefox/120.0") in
  let w := Sample.shared (λ n, bool_decide (n = 1%nat)) in
  let quiet := Sample.shared (λ _, false) in
  referenced (db w)
  ∧ referenced (db (asyncHandler Controller.deleteUrl req w).2)
  ∧ ¬ referenced (db (asyncHandler Refactored.deleteUrl req w).2)
  ∧ referenced (db quiet)
  ∧ referenced (db (asyncHandler Controller.deleteUrl req quiet).2)
  ∧ referenced
      (db (asyncHandler (@Controller.redirectUrl Sample.platform) visit
             quiet).2)
  ∧ ¬ referenced
        (db (asyncHandler
               (deleteUrlInterleaved
                  (@Controller.redirectUrl Sample.platform visit))
               req quiet).2).
Proof.
  intros req visit w quiet.
  assert (∀ fails, referenced (db (Sample.shared fails))) as Hw.
  { intros fails c Hc. cbn [Sample.shared db clicks] in Hc.
    repeat (apply elem_of_cons in Hc as [->|Hc];
            [vm_compute; repeat first [by left|right]|]).
    by apply elem_of_nil in Hc. }
  pose (update := mkUpdate JsUndefined JsUndefined None None JsUndefined).
  split; [apply Hw|]. split; [|split; [|split; [|split; [|split]]]].
  - apply (proj1 (original_handlers_keep_references (H:=Sample.platform) req
                    update w) (Hw _)).
    do 3 (apply elem_of_cons; right). apply elem_of_cons. by left.
  - intros Href.
    specialize (Href (Sample.click 50 (Some (js "US")) 100)).
    vm_compute in Href.
    assert (1 ∈ [2]) as Hin by (apply Href; by left).
    apply list_elem_of_singleton in Hin. discriminate.
  - apply Hw.
  - apply (proj1 (original_handlers_keep_references (H:=Sample.platform) req
                    update quiet) (Hw _)).
    do 3 (apply elem_of_cons; right). apply elem_of_cons. by left.
  - apply (proj1 (original_handlers_keep_references (H:=Sample.platform)
                    visit update quiet) (Hw _)).
    do 4 (apply elem_of_cons; right). apply elem_of_cons. by left.
  - intros Href.
    assert (∃ c,
              c ∈ clicks (db (asyncHandler
                                (deleteUrlInterleaved
                                   (@Controller.redirectUrl Sample.platform
                                      visit)) req quiet).2)
              ∧ Click.url c = 1) as (c & Hc & Hurl).
    { eexists. split.
      - vm_compute. apply elem_of_cons. right. apply elem_of_cons. by left.
      - reflexivity. }
    specialize (Href c Hc). rewrite Hurl in Href. vm_compute in Href.
    apply list_elem_of_singleton in Href. discriminate.
Defined.


(** ** What a successful update stores *)

Lemma map_trim_clean (l : list jsstr) :
  map trim (cleanTags (Some l)) = List.filter requiredString (map trim l).
Proof.
  unfold cleanTags. induction l as [|x l IH]; [done|]. cbn.
  destruct (requiredString (trim x)); cbn; by rewrite ?trim_idem, IH.
Qed.

Lemma written_same {A} `{EqDecision A} (a b : A) : written a b a = b.
Proof. unfold written. by destruct (decide (b = a)). Qed.

Section UpdateAnswers.
Context `{Platform}.

Lemma Url_save_ok (this edited : Url.t) (castError : option jsstr)
    (w w' : World) (saved : Url.t) :
  Url_save this edited castError w = (Ok saved, w') →
  urlDocInvalidPath edited = None
  ∧ fixedPaths saved = fixedPaths edited
  ∧ editable saved = editable edited
  ∧ clicks (db w') = clicks (db w) ∧ users (db w') = users (db w)
  ∧ ∃ l1 x x' l2,
      urls (db w) = l1 ++ x :: l2
      ∧ urls (db w') = l1 ++ x' :: l2
      ∧ Forall (λ y, Url._id y ≠ Url._id this) l1
      ∧ Url._id x = Url._id this
      ∧ fixedPaths x' = fixedPaths x
      ∧ (x = this → editable x' = editable edited).
Proof.
  unfold Url_save.
  destruct (urlDocInvalidPath edited) eqn:Hvalid; [done|].
  destruct castError; [done|].
  rewrite bind_run, now_run. unfold storage.
  destruct (rejects w (calls w)); [done|]. cbn [db tick].
  destruct (updateFirst _ _ _) as [urls'|] eqn:Hupd; [|done].
  intros Hrun. simplify_eq. cbn [db withDb clicks users urls].
  split; [done|]. split; [done|]. split; [done|]. split; [done|].
  split; [done|].
  apply updateFirst_Some in Hupd as (l1 & x & l2 & Hl & -> & Hx & Hl1).
  apply N.eqb_eq in Hx. eexists l1, x, _, l2.
  split; [done|]. split; [done|]. split.
  { eapply Forall_impl; [exact Hl1|]. intros y Hy. by apply N.eqb_neq. }
  split; [done|]. split; [done|].
  intros ->. unfold editable.
  cbn [Url.title Url.description Url.tags Url.isActive Url.expiresAt].
  by rewrite !written_same.
Qed.

End UpdateAnswers.

Section UpdateInversion.
Context `{Platform}.

Lemma assignedFrom_ext (update : UpdateBody) (t : date) (u a b : Url.t) :
  fixedPaths b = fixedPaths a → editable b = editable a →
  assignedFrom update t u a → assignedFrom update t u b.
Proof.
  unfold assignedFrom, editable. intros Hfixed Hedit.
  injection Hedit as -> -> -> -> ->. by rewrite Hfixed.
Qed.

Lemma expiration_assigned (update : UpdateBody) (u : Url.t) (t : date)
    (title description : option jsstr) (tags : list jsstr) (isActive : bool)
    (expires : option date) :
  title = match up_title update with
          | JsUndefined => Url.title u
          | JsNull => None
          | JsStr s => Some (trim s)
          end →
  description = match up_description update with
                | JsUndefined => Url.description u
                | JsNull => None
                | JsStr s => Some (trim s)
                end →
  tags = match up_tags update with
         | None => Url.tags u
         | Some tags => map trim (cleanTags (Some tags))
         end →
  isActive = default (Url.isActive u) (up_isActive update) →
  match up_expiresAt update with
  | JsUndefined => expires = Url.expiresAt u
  | JsStr (c :: s) => ∃ e, parseDate (c :: s) = Some e ∧ (t < e)%Z
                          ∧ expires = Some e
  | _ => expires = None
  end →
  assignedFrom update t u (assign u title description tags isActive expires).
Proof.
  intros -> -> -> -> Hexp. unfold assignedFrom, assign.
  cbn [Url.title Url.description Url.tags Url.isActive Url.expiresAt].
  split; [done|]. split; [done|]. split; [done|]. split.
  { destruct (up_tags update); [apply map_trim_clean|done]. }
  split; [done|]. exact Hexp.
Qed.

Ltac run_in H :=
  repeat first [ rewrite bind_run in H | rewrite ret_run in H
               | rewrite throw_run in H | rewrite now_run in H ].

Lemma original_update_inv (req : Request) (update : UpdateBody)
    (w w' : World) (message : option jsstr) (url' : Url.t)
    (qrCode : option jsstr) :
  Controller.updateUrl req update w
  = (Ok (Json 200 true message (UrlPayload url' qrCode)), w') →
  ∃ uid u edited castError w1,
    user req = Some uid
    ∧ find (ownedBy (param_id req) uid) (urls (db w)) = Some u
    ∧ db w1 = db w
    ∧ assignedFrom update (clock w) u edited
    ∧ Url_save u edited castError w1 = (Ok url', w').
Proof.
  unfold Controller.updateUrl, withUser.
  destruct (user req) as [uid|]; [|done].
  rewrite bind_run, findOne_run.
  destruct (rejects w (calls w)); [done|].
  destruct (find _ _) as [u|] eqn:Hfind; [|done].
  intros Hrun. exists uid, u.
  unfold Controller.trimOf in Hrun.
  destruct (up_title update) as [| |title] eqn:Htitle;
    [|by rewrite bind_run, bind_run, throw_run in Hrun|];
    (destruct (up_description update) as [| |description] eqn:Hdesc;
     [|by run_in Hrun|]);
    run_in Hrun; rewrite ?trim_idem in Hrun.
  all: destruct (up_expiresAt update) as [| |[|c s]] eqn:Hexp;
    cbn [truthy] in Hrun; run_in Hrun; cbn [clock tick] in Hrun.
  all: try (unfold newDate in Hrun; cbn [strOf] in Hrun;
            destruct (parseDate (c :: s)) as [e|] eqn:Hdate;
            [destruct (e <=? clock w)%Z eqn:Hle; [by run_in Hrun|]|];
            run_in Hrun; cbn [assignDate] in Hrun; run_in Hrun).
  all: destruct (Url_save _ _ _ _) as [[saved|err] w2] eqn:Hsaved;
    [|done]; rewrite ret_run in Hrun; simplify_eq.
  all: try (unfold Url_save in Hsaved;
            by destruct (urlDocInvalidPath _) in Hsaved).
  all: eexists _, _, _; split; [done|]; split; [done|];
    (split; [|split; [|exact Hsaved]]); [done|].
  all: apply expiration_assigned; rewrite ?Htitle, ?Hdesc, ?Hexp; try done.
  all: exists e; split; [done|]; split; [|done]; by apply Z.leb_gt.
Qed.

Lemma refactored_update_inv (req : Request) (update : UpdateBody)
    (w w' : World) (message : option jsstr) (url' : Url.t)
    (qrCode : option jsstr) :
  Refactored.updateUrl req update w
  = (Ok (Json 200 true message (UrlPayload url' qrCode)), w') →
  ∃ uid u edited castError w1,
    user req = Some uid
    ∧ find (ownedBy (param_id req) uid) (urls (db w)) = Some u
    ∧ db w1 = db w
    ∧ assignedFrom update (clock w) u edited
    ∧ Url_save u edited castError w1 = (Ok url', w').
Proof.
  unfold Refactored.updateUrl, Refactored.findUrlForUser, withUser.
  destruct (user req) as [uid|]; [|done].
  rewrite bind_run, findOne_run.
  destruct (rejects w (calls w)); [done|].
  destruct (find _ _) as [u|] eqn:Hfind; [|done].
  intros Hrun. exists uid, u.
  destruct (up_expiresAt update) as [| |[|c s]] eqn:Hexp;
    cbn [truthy] in Hrun; run_in Hrun; cbn [clock tick] in Hrun.
  all: try (unfold newDate in Hrun; cbn [strOf] in Hrun;
            destruct (parseDate (c :: s)) as [e|] eqn:Hdate;
            [destruct (e <=? clock w)%Z eqn:Hle; [by run_in Hrun|]|];
            run_in Hrun; cbn [assignDate] in Hrun; run_in Hrun).
  all: destruct (Url_save _ _ _ _) as [[saved|err] w2] eqn:Hsaved;
    [|done]; rewrite ret_run in Hrun; simplify_eq.
  all: try (unfold Url_save in Hsaved;
            by destruct (urlDocInvalidPath _) in Hsaved).
  all: eexists _, _, _; split; [done|]; split; [done|];
    (split; [|split; [|exact Hsaved]]); [done|].
  all: apply expiration_assigned; rewrite ?Hexp; try done;
    try (unfold Refactored.assignString; by case_match).
  all: exists e; split; [done|]; split; [|done]; by apply Z.leb_gt.
Qed.

End UpdateInversion.

Lemma urlDocInvalidPath_ext `{Platform} (a b : Url.t) :
  fixedPaths b = fixedPaths a → editable b = editable a →
  urlDocInvalidPath b = urlDocInvalidPath a.
Proof.
  unfold fixedPaths, editable, urlDocInvalidPath.
  intros Hfixed Hedit. injection Hfixed as _ -> -> -> _ -> _ _.
  by injection Hedit as -> -> -> _ _.
Qed.

(** X24. An update that answers with the link has stored what it answers.
    The requester owns the link the identifier names; the answer is that
    link with the body's assignments: title and description trimmed (or
    cleared by [null], which only the refactored controller accepts), tags
    trimmed with the empty ones dropped, an expiration that parsed and is
    later than the clock; the answer passes the schema; and in the store
    the link keeps its place, its neighbours, its short code, owner and
    click count, and carries the assigned paths of the answer. *)
Theorem updateUrl_stores_answer `{Platform}
    (req : Request) (update : UpdateBody) (w : World)
    (handler : Request → UpdateBody → M Response)
    (message : option jsstr) (url' : Url.t) (qrCode : option jsstr) :
  handler ∈ [Controller.updateUrl; Refactored.updateUrl] →
  NoDup (map Url._id (urls (db w))) →
  (asyncHandler (λ r, handler r update) req w).1
  = Json 200 true message (UrlPayload url' qrCode) →
  let w' := (asyncHandler (λ r, handler r update) req w).2 in
  ∃ uid u l1 stored l2,
    user req = Some uid
    ∧ find (ownedBy (param_id req) uid) (urls (db w)) = Some u
    ∧ assignedFrom update (clock w) u url'
    ∧ urlDocInvalidPath url' = None
    ∧ urls (db w) = l1 ++ u :: l2
    ∧ urls (db w') = l1 ++ stored :: l2
    ∧ fixedPaths stored = fixedPaths u
    ∧ editable stored = editable url'
    ∧ clicks (db w') = clicks (db w)
    ∧ users (db w') = users (db w).
Proof.
  intros Hin Hnd Hr w'.
  apply asyncHandler_ok_inv in Hr as [w2 Hrun]; [|done].
  assert (w' = w2) as ->.
  { unfold w'. by rewrite asyncHandler_world, Hrun. }
  assert (∃ uid u edited castError w1,
            user req = Some uid
            ∧ find (ownedBy (param_id req) uid) (urls (db w)) = Some u
            ∧ db w1 = db w
            ∧ assignedFrom update (clock w) u edited
            ∧ Url_save u edited castError w1 = (Ok url', w2))
    as (uid & u & edited & castError & w1 & Huser & Hfind & Hdb & Hassigned
        & Hsave).
  { repeat (apply elem_of_cons in Hin as [->|Hin]);
      [by eapply original_update_inv|by eapply refactored_update_inv
      |by apply elem_of_nil in Hin]. }
  apply Url_save_ok in Hsave
    as (Hvalid & Hfixed & Hedit & Hclicks & Husers & l1 & x & x' & l2 & Hl
        & Hl' & Hl1 & Hx & Hfx & Hstored).
  rewrite Hdb in *.
  assert (x = u) as ->.
  { apply find_elem_of in Hfind as [Hu _].
    eapply NoDup_fmap_eq; [exact Hnd| |exact Hu|exact Hx].
    rewrite Hl. apply elem_of_app. right. by apply elem_of_cons; left. }
  exists uid, u, l1, x', l2.
  split; [done|]. split; [done|].
  split; [by eapply assignedFrom_ext|].
  split; [by rewrite (urlDocInvalidPath_ext edited url')|].
  split; [done|]. split; [done|]. split; [done|].
  split; [by rewrite Hedit, Hstored|]. done.
Qed.

Lemma updateUrl_stores_answer_witness :
  let req := Sample.owned Sample.noBody Sample.noQuery in
  let update := Sample.expire "  Home page " "5000" in
  let run := asyncHandler
               (λ r, @Controller.updateUrl Sample.dated r update) req
               Sample.world in
  ∃ url' stored,
    run.1 = Json 200 true (Some (js "URL updated successfully"))
              (UrlPayload url' None)
    ∧ Url.title url' = Some (js "Home page")
    ∧ Url.expiresAt url' = Some 5000%Z
    ∧ urls (db run.2) = [stored]
    ∧ fixedPaths stored = fixedPaths Sample.link
    ∧ editable stored = editable url'.
Proof.
  intros req update run.
  assert (∃ url', run.1 = Json 200 true (Some (js "URL updated successfully"))
                            (UrlPayload url' None)) as [url' Hrun].
  { eexists. vm_compute. reflexivity. }
  destruct (updateUrl_stores_answer (H:=Sample.dated) req update Sample.world
              (@Controller.updateUrl Sample.dated)
              (Some (js "URL updated successfully")) url' None)
    as (uid & u & l1 & stored & l2 & Huser & Hfind & Hassigned & Hvalid & Hl
        & Hl' & Hfixed & Hedit & _).
  - apply elem_of_cons. by left.
  - vm_compute. apply NoDup_singleton.
  - exact Hrun.
  - vm_compute in Huser. injection Huser as <-.
    vm_compute in Hfind. injection Hfind as <-.
    destruct l1 as [|y l1]; [|destruct l1; discriminate Hl].
    injection Hl as <-.
    destruct Hassigned as (_ & Htitle & _ & _ & _ & e & He & _ & Hexp).
    vm_compute in He. injection He as <-.
    exists url', stored. split; [exact Hrun|].
    split; [rewrite Htitle; vm_compute; reflexivity|].
    split; [exact Hexp|]. split; [exact Hl'|]. split; [exact Hfixed|].
    exact Hedit.
Defined.


(** ** The window of a report *)

Lemma daysToSubtract_Some (period : jsstr) (n : Z) :
  Refactored.daysToSubtract period = Some n →
  n = Controller.periodDays period ∧ period ∉ objectPrototypeKeys.
Proof.
  unfold Refactored.daysToSubtract, Controller.periodDays, streq.
  repeat case_bool_decide; intros Heq; simplify_eq; split; try done.
  all: intros Hin; apply (bool_decide_pack _) in Hin; vm_compute in Hin;
    exact Hin.
Qed.

Lemma periodDays_cases (period : jsstr) :
  Controller.periodDays period ∈ [1; 7; 30; 90]%Z.
Proof.
  unfold Controller.periodDays.
  repeat case_match; repeat first [by left | right].
Qed.

Section WindowOfReport.
Context `{Platform}.

(** The dates of the range, when the report was built from them. *)
Lemma dateRange_ok (q : Query) (w w' : World) (s e : date) :
  Controller.dateRange q w = (Ok (ValidDate s, ValidDate e), w')
  ∨ Refactored.getDateRange q w = (Ok (ValidDate s, ValidDate e), w') →
  let period := match period q with
                | JsUndefined => js "7d"
                | v => strOf v
                end in
  if truthy (startDate q) && truthy (endDate q)
  then parseDate (strOf (startDate q)) = Some s
       ∧ parseDate (strOf (endDate q)) = Some e
  else e = clock w ∧ s = (clock w - Controller.periodDays period * day)%Z.
Proof.
  unfold Controller.dateRange, Refactored.getDateRange, newDate. cbn zeta.
  destruct (truthy (startDate q) && truthy (endDate q)).
  - rewrite !ret_run.
    destruct (parseDate (strOf (startDate q))),
      (parseDate (strOf (endDate q))); intros [Heq|Heq]; by simplify_eq.
  - rewrite !bind_run, !now_run, !ret_run. intros [Heq|Heq]; [by simplify_eq|].
    destruct (Refactored.daysToSubtract _) as [n|] eqn:Hn; [|done].
    apply daysToSubtract_Some in Hn as [-> _]. by simplify_eq.
Qed.

Lemma getDateRange_prototype (q : Query) (w : World) :
  truthy (startDate q) && truthy (endDate q) = false →
  match period q with
  | JsUndefined => js "7d"
  | v => strOf v
  end ∈ objectPrototypeKeys →
  Refactored.getDateRange q w = (Ok (InvalidDate, ValidDate (clock w)), w).
Proof.
  unfold Refactored.getDateRange. intros -> Hin.
  rewrite bind_run, now_run, ret_run.
  destruct (Refactored.daysToSubtract _) as [n|] eqn:Hn; [|done].
  by apply daysToSubtract_Some in Hn as [_ Hn].
Qed.

Lemma report_range (req : Request) (w w' : World) (a : Analytics) :
  (Controller.getUrlAnalytics req w
   = (Ok (Json 200 true None (AnalyticsPayload a)), w') →
   Controller.dateRange (query_ req) (tick w)
   = (Ok (ValidDate (a_start a), ValidDate (a_end a)), tick w))
  ∧ (Refactored.getUrlAnalytics req w
     = (Ok (Json 200 true None (AnalyticsPayload a)), w') →
     Refactored.getDateRange (query_ req) (tick w)
     = (Ok (ValidDate (a_start a), ValidDate (a_end a)), tick w)).
Proof.
  split.
  - unfold Controller.getUrlAnalytics, withUser.
    destruct (user req) as [uid|]; [|done].
    intros Hrun. apply bind_ok_inv in Hrun as (found & w1 & Hfind & Hrun).
    rewrite findOne_run in Hfind.
    destruct (rejects w (calls w)); [done|]. simplify_eq.
    destruct (find _ _) as [url|] eqn:Hfound; [|by rewrite ret_run in Hrun].
    apply bind_ok_inv in Hrun as ([start end_] & w2 & Hrange & Hrun).
    pose proof Hrange as Hw. apply dateRange_inv in Hw as ->.
    apply bind_ok_inv in Hrun
      as ((stats & dates & countries & browsers & oss & devices & recent)
          & w3 & Hall & Hrun).
    do 6 (apply both_ok_inv in Hall as (? & _ & Hall)).
    apply bind_ok_inv in Hall as (s & w4 & Hs & Hall).
    apply castDate_ok_inv in Hs as [-> _].
    apply bind_ok_inv in Hall as (e & w5 & He & Hall).
    apply castDate_ok_inv in He as [-> _].
    rewrite ret_run in Hrun. by simplify_eq.
  - unfold Refactored.getUrlAnalytics, Refactored.findUrlForUser, withUser.
    destruct (user req) as [uid|]; [|done].
    intros Hrun. apply bind_ok_inv in Hrun as (found & w1 & Hfind & Hrun).
    rewrite findOne_run in Hfind.
    destruct (rejects w (calls w)); [done|]. simplify_eq.
    destruct (find _ _) as [url|] eqn:Hfound; [|by rewrite ret_run in Hrun].
    apply bind_ok_inv in Hrun as ([start end_] & w2 & Hrange & Hrun).
    pose proof Hrange as Hw. apply getDateRange_inv in Hw as ->.
    apply bind_ok_inv in Hrun as (facets & w3 & Hq & Hrun).
    apply bind_ok_inv in Hrun as (s & w4 & Hs & Hrun).
    apply castDate_ok_inv in Hs as [-> _].
    apply bind_ok_inv in Hrun as (e & w5 & He & Hrun).
    apply castDate_ok_inv in He as [-> _].
    apply bind_ok_inv in Hrun as (recent & w6 & Hq' & Hrun).
    rewrite ret_run in Hrun. by simplify_eq.
Qed.

End WindowOfReport.

(** X25. The window of a report. When the request gives both [startDate]
    and [endDate], a report is answered only if both parse, and it covers
    exactly these dates. Otherwise the window ends at the time of the
    request and reaches back 1, 7, 30 or 90 days: 7 unless [period] is
    [24h], [30d] or [90d]. The refactored controller looks the period up
    in an object literal, so a period that names a property of
    [Object.prototype] never gets a report from it. *)
Theorem report_window `{Platform} (req : Request) (w : World) :
  let q := query_ req in
  let period := match period q with
                | JsUndefined => js "7d"
                | v => strOf v
                end in
  (∀ handler a w',
     handler ∈ [Controller.getUrlAnalytics; Refactored.getUrlAnalytics] →
     asyncHandler handler req w
     = (Json 200 true None (AnalyticsPayload a), w') →
     if truthy (startDate q) && truthy (endDate q)
     then parseDate (strOf (startDate q)) = Some (a_start a)
          ∧ parseDate (strOf (endDate q)) = Some (a_end a)
     else a_end a = clock w
          ∧ (a_end a - a_start a)%Z = (Controller.periodDays period * day)%Z
          ∧ Controller.periodDays period ∈ [1; 7; 30; 90]%Z)
  ∧ (truthy (startDate q) && truthy (endDate q) = false →
     period ∈ objectPrototypeKeys →
     ∀ a w',
       asyncHandler Refactored.getUrlAnalytics req w
       ≠ (Json 200 true None (AnalyticsPayload a), w')).
Proof.
  intros q period. split.
  - intros handler a w' Hin Hrun. apply asyncHandler_json_inv in Hrun.
    destruct (report_range req w w' a) as [Ho Hr].
    assert (Controller.dateRange q (tick w)
            = (Ok (ValidDate (a_start a), ValidDate (a_end a)), tick w)
            ∨ Refactored.getDateRange q (tick w)
              = (Ok (ValidDate (a_start a), ValidDate (a_end a)), tick w))
      as Hrange.
    { repeat (apply elem_of_cons in Hin as [->|Hin]);
        [left; by apply Ho|right; by apply Hr|by apply elem_of_nil in Hin]. }
    apply dateRange_ok in Hrange. cbn zeta in Hrange.
    destruct (truthy (startDate q) && truthy (endDate q)); [done|].
    cbn [clock tick] in Hrange. destruct Hrange as [-> ->].
    split; [done|]. split; [unfold period; lia|apply periodDays_cases].
  - intros Hdates Hperiod a w' Hrun. apply asyncHandler_json_inv in Hrun.
    apply (report_range req w w' a) in Hrun. fold q in Hrun.
    by rewrite (getDateRange_prototype q (tick w) Hdates Hperiod) in Hrun.
Qed.

Lemma report_window_witness :
  let req := Sample.owned Sample.noBody
               (mkQuery JsUndefined JsUndefined (JsStr (js "constructor"))) in
  (∃ a w',
     asyncHandler (@Controller.getUrlAnalytics Sample.platform) req
       Sample.clicked
     = (Json 200 true None (AnalyticsPayload a), w')
     ∧ a_end a = 1000%Z ∧ (a_end a - a_start a = 7 * day)%Z)
  ∧ (asyncHandler (@Refactored.getUrlAnalytics Sample.platform) req
       Sample.clicked).1
    = NextError (ValidationError (js "timestamp"))
  ∧ (∀ a w',
       asyncHandler (@Refactored.getUrlAnalytics Sample.platform) req
         Sample.clicked
       ≠ (Json 200 true None (AnalyticsPayload a), w')).
Proof.
  intros req.
  destruct (report_window (H:=Sample.platform) req Sample.clicked)
    as [Hwindow Hnone].
  split; [|split; [vm_compute; reflexivity|]]; cycle 1.
  { apply Hnone; [reflexivity|].
    apply (bool_decide_unpack _). vm_compute. exact I. }
  destruct (asyncHandler (@Controller.getUrlAnalytics Sample.platform) req
              Sample.clicked) as [r w'] eqn:Hrun.
  assert (∃ a, r = Json 200 true None (AnalyticsPayload a)) as [a ->].
  { assert (r = (asyncHandler (@Controller.getUrlAnalytics Sample.platform)
                   req Sample.clicked).1) as -> by (by rewrite Hrun).
    vm_compute. eexists. reflexivity. }
  exists a, w'. split; [reflexivity|].
  destruct (Hwindow (@Controller.getUrlAnalytics Sample.platform) a w')
    as (Hend & Hlength & _).
  - apply elem_of_cons. by left.
  - exact Hrun.
  - split; [exact Hend|exact Hlength].
Defined.


(** ** The versions the parsers report *)

Lemma takeClass_forallb (cls : N → bool) (s : jsstr) :
  forallb cls (takeClass cls s) = true.
Proof.
  induction s as [|c s IH]; [done|]. cbn.
  destruct (cls c) eqn:Hc; [|done]. cbn. by rewrite Hc, IH.
Qed.

Lemma captureHere_Some (prefixes : list jsstr) (cls : N → bool)
    (s v : jsstr) :
  captureHere prefixes cls s = Some v → v ≠ [] ∧ forallb cls v = true.
Proof.
  induction prefixes as [|p ps IH]; [done|]. cbn.
  destruct (startsWith p s); [|done].
  destruct (takeClass cls (drop (length p) s)) as [|c r] eqn:Htake; [done|].
  intros Heq. simplify_eq. split; [done|].
  rewrite <- Htake. apply takeClass_forallb.
Qed.

Lemma capture_Some (prefixes : list jsstr) (cls : N → bool) (s v : jsstr) :
  capture prefixes cls s = Some v → v ≠ [] ∧ forallb cls v = true.
Proof.
  induction s as [|c s IH]; cbn.
  - destruct (captureHere prefixes cls []) eqn:Hhere; [|done].
    intros Heq. simplify_eq. by eapply captureHere_Some.
  - destruct (captureHere prefixes cls (c :: s)) eqn:Hhere; [|done].
    intros Heq. simplify_eq. by eapply captureHere_Some.
Qed.

(** A version is [Unknown] or a run of digits and dots. *)
Lemma extractVersion_shape (ua : jsstr) (prefixes : list jsstr)
    (cls : N → bool) :
  extractVersion ua prefixes cls = js "Unknown"
  ∨ (extractVersion ua prefixes cls ≠ []
     ∧ forallb cls (extractVersion ua prefixes cls) = true).
Proof.
  unfold extractVersion.
  destruct (capture prefixes cls ua) as [[|c r]|] eqn:Hcap;
    [by left| |by left].
  right. by apply capture_Some in Hcap.
Qed.

Lemma underscoresToDots_shape (v : jsstr) :
  v = js "Unknown" ∨ (v ≠ [] ∧ forallb isDigitUnderscore v = true) →
  underscoresToDots v = js "Unknown"
  ∨ (underscoresToDots v ≠ []
     ∧ forallb isDigitDot (underscoresToDots v) = true).
Proof.
  intros [->|[Hne Hall]]; [by left|right]. split; [by destruct v|].
  clear Hne. induction v as [|c v IH]; [done|].
  cbn in Hall. apply andb_true_iff in Hall as [Hc Hv].
  change (underscoresToDots (c :: v))
    with ((if c =? 95 then 46 else c) :: underscoresToDots v).
  cbn [forallb]. rewrite (IH Hv), andb_true_r.
  unfold isDigitUnderscore, isDigitDot in *.
  destruct (c =? 95) eqn:E; [done|]. rewrite orb_false_r in Hc.
  by rewrite Hc.
Qed.

(** X26. The versions in a parsed user agent. Whatever the header, the
    browser version and the operating system version that
    [parseUserAgent] of utils/userAgent.js and of utils/agent.js report
    are the word [Unknown] or a run of digits and dots that is not empty:
    the underscores of an Apple version are turned into dots, and an empty
    match is never reported. *)
Theorem parsed_versions_shape (userAgent : jsval) :
  Forall (λ v, v = js "Unknown"
               ∨ (v ≠ [] ∧ forallb isDigitDot v = true))
    [nv_version (ua_browser (parseUserAgent userAgent));
     nv_version (ua_os (parseUserAgent userAgent));
     nv_version (ua_browser (Agent.parseUserAgent userAgent));
     nv_version (ua_os (Agent.parseUserAgent userAgent))].
Proof.
  assert (∀ ua, nv_version (parseBrowser ua) = js "Unknown"
                ∨ (nv_version (parseBrowser ua) ≠ []
                   ∧ forallb isDigitDot (nv_version (parseBrowser ua)) = true))
    as Hbrowser.
  { intros ua. unfold parseBrowser.
    repeat case_match; cbn [nv_version];
      first [apply extractVersion_shape | by left]. }
  assert (∀ ua, nv_version (parseOS ua) = js "Unknown"
                ∨ (nv_version (parseOS ua) ≠ []
                   ∧ forallb isDigitDot (nv_version (parseOS ua)) = true))
    as Hos.
  { intros ua. unfold parseOS.
    repeat case_match; cbn [nv_version];
      first [ apply extractVersion_shape
            | apply underscoresToDots_shape, extractVersion_shape
            | by left
            | right; split; [done|vm_compute; reflexivity] ]. }
  assert (∀ ua, Agent.detectBrowser ua = parseBrowser ua) as Hsame
    by reflexivity.
  assert (∀ ua, Agent.detectOS ua = parseOS ua) as Hsame' by reflexivity.
  unfold parseUserAgent, Agent.parseUserAgent.
  destruct userAgent as [| |[|c r]]; cbn [ua_browser ua_os nv_version];
    repeat apply Forall_cons_2; try apply Forall_nil_2; try (by left);
    rewrite ?Hsame, ?Hsame'; first [apply Hbrowser | apply Hos].
Qed.

(** ** The two readings of the client address *)

Lemma loopback_prefix (ip p : jsstr) (a b : N) :
  startsWith (js "127.") ip = true → b ≠ 50 →
  startsWith (a :: b :: p) ip = false.
Proof.
  change (js "127.") with [49; 50; 55; 46].
  destruct ip as [|c [|d s]]; [done|cbn; by rewrite andb_false_r|].
  cbn [startsWith]. intros H127 Hb.
  destruct (50 =? d) eqn:Hd; [|by rewrite andb_false_r in H127].
  apply N.eqb_eq in Hd as <-.
  destruct (b =? 50) eqn:E; [by apply N.eqb_eq in E|].
  cbn. by rewrite andb_false_r.
Qed.

(** X27. The address and place utilities exist twice. [extractClientIP]
    and [getClientIP] read the same address from every request. The two
    mock locations agree except on the empty address and on loopback
    addresses other than [127.0.0.1], which only [locateIP] calls
    [Local]; nothing is [Local] for [getGeolocation] alone. *)
Theorem client_address_readings_agree (req : Request) (ip : jsstr) :
  IpUtil.extractClientIP req = getClientIP req
  ∧ (IpUtil.locateIP (JsStr ip) ≠ getGeolocation ip
     ↔ ip = [] ∨ (startsWith (js "127.") ip = true ∧ ip ≠ js "127.0.0.1"))
  ∧ (geo_country (getGeolocation ip) = js "Local" →
     geo_country (IpUtil.locateIP (JsStr ip)) = js "Local").
Proof.
  split; [|split].
  - unfold IpUtil.extractClientIP, getClientIP, orVal. cbn [truthy].
    by repeat case_match.
  - unfold IpUtil.locateIP, getGeolocation, streq. cbn [existsb strOf truthy].
    destruct ip as [|c s]; [cbn; split; [by left|done]|].
    cbn [negb orb]. rewrite orb_false_r.
    destruct (decide (c :: s = js "127.0.0.1")) as [->|Hne].
    { vm_compute. split; [done|]. intros [?|[_ ?]]; done. }
    rewrite (bool_decide_eq_false_2 _ Hne).
    destruct (startsWith (js "127.") (c :: s)) eqn:H127.
    + cbn [orb]. split; [right; by split|intros _].
      assert (c :: s ≠ js "::1") as Hne1.
      { intros Heq. rewrite Heq in H127. vm_compute in H127. done. }
      rewrite (bool_decide_eq_false_2 _ Hne1). cbn [orb].
      assert (startsWith (js "192.168.") (c :: s) = false) as ->.
      { change (js "192.168.") with [49; 57; 50; 46; 49; 54; 56; 46].
        apply loopback_prefix; [exact H127|lia]. }
      assert (startsWith (js "10.") (c :: s) = false) as ->.
      { change (js "10.") with [49; 48; 46].
        apply loopback_prefix; [exact H127|lia]. }
      done.
    + cbn [orb]. split; [|intros [?|[? ?]]; done].
      intros Hdiff. destruct Hdiff.
      destruct (bool_decide (c :: s = js "::1")),
        (startsWith (js "192.168.") (c :: s)),
        (startsWith (js "10.") (c :: s)); done.
  - unfold IpUtil.locateIP, getGeolocation, streq. cbn [existsb strOf truthy].
    destruct ip as [|c s]; [done|]. cbn [negb orb]. rewrite orb_false_r.
    destruct (decide (c :: s = js "127.0.0.1")) as [->|Hne]; [done|].
    rewrite (bool_decide_eq_false_2 _ Hne). cbn [orb].
    destruct (startsWith (js "127.") (c :: s)); [done|]. cbn [orb].
    destruct (bool_decide (c :: s = js "::1")),
      (startsWith (js "192.168.") (c :: s)),
      (startsWith (js "10.") (c :: s)); done.
Qed.


(** ** The links that are live *)

Lemma List_filter_sublist {A} (f : A → bool) (l : list A) :
  List.filter f l `sublist_of` l.
Proof.
  induction l as [|x l IH]; [done|]. cbn.
  destruct (f x); [by apply sublist_skip|by apply sublist_cons].
Qed.

(** X28. [Url.findActive()] writes nothing and, when the store answers,
    lists in stored order exactly the links that are switched on and have
    no expiration or a later one. The redirect goes by [isExpired], which
    is strict the other way: a link that expires at this very instant is
    still served but no longer listed. *)
Theorem findActive_lists_live_links (w : World) :
  db (Url_findActive w).2 = db w
  ∧ (rejects w (calls w) = false →
     ∃ l, (Url_findActive w).1 = Ok l
          ∧ l `sublist_of` urls (db w)
          ∧ ∀ u, u ∈ l ↔ u ∈ urls (db w)
                         ∧ Url.isActive u = true
                         ∧ Url.isExpired (clock w) u = false
                         ∧ Url.expiresAt u ≠ Some (clock w)).
Proof.
  unfold Url_findActive. rewrite bind_run, now_run, query_run.
  split; [by destruct (rejects w (calls w))|]. intros ->.
  eexists. split; [done|]. split; [apply List_filter_sublist|].
  intros u. rewrite !list_elem_of_In, filter_In.
  unfold activeAt, Url.isExpired.
  destruct (Url.isActive u), (Url.expiresAt u) as [e|]; cbn;
    rewrite ?Z.ltb_lt, ?Z.ltb_ge; split; intros (Hin & Hrest);
    try done; try (split; [done|]); try (by destruct Hrest).
  - split; [done|]. split; [lia|]. intros Heq. simplify_eq. lia.
  - destruct Hrest as (_ & Hle & Hne).
    assert (e ≠ clock w) by (intros ->; done). lia.
Qed.

Lemma findActive_lists_live_links_witness :
  (Url_findActive Sample.lapsing).1 = Ok [Sample.other]
  ∧ ∃ w', asyncHandler (@Controller.redirectUrl Sample.platform)
            (Sample.get [("user-agent", "Mozilla/5.0")]%string "203.0.113.9")
            Sample.lapsing
          = (Redirect 301 (js "https://example.com/page"), w').
Proof.
  destruct (findActive_lists_live_links Sample.lapsing) as [_ Hlist].
  destruct Hlist as (l & Hl & _ & _); [reflexivity|].
  split; [vm_compute; reflexivity|].
  eexists. vm_compute. reflexivity.
Defined.
